(* ===== verification/_CoqProject ===== *)
-Q . S2P
Prelude.v
SimClock.v
CText.v
SoftUART.v
SoftUARTFacts.v
SimBus.v
SimBlockDevice.v
SimSerialTerminal.v
SimInput.v
JsonlWriter.v
FlineDisasm.v
GenFpu.v
Fpu040.v
GenFpuFacts.v
Diskcopy.v
Iotest.v
