(* ===== verification/Prelude.v ===== *)
(** * wombat33_MiSTer: verification library (root file)

    The repository is an FPGA Macintosh core with its Verilator simulation
    and the bare-metal benches that compare it with real hardware.  This
    library models the C and C++ that carries logic of its own, all under
    [src/verilator/sim] (the simulated peripherals) and
    [src/SingleStepTests] (the benches, their corpus generator and their
    result writer).

    ** Parts and files

    - [Prelude] (this file): machine integers (values are [Z]; [u8] .. [i32]
      are the C conversions), C's bit operators in [c_scope], the record
      update notation, bounded enumeration ([forall_below]), and [run], a
      state machine over a list of inputs with its induction principles; the
      tactics [dlia] (division), [ilia] (conversions), [zbool] and [cases].
    - [CText]: the [printf] conversions used, [snprintf] truncation, and
      occurrences of a character.
    - [SimClock]: [sim_clock.cpp] (Module SimClock) and the sampling of
      [sim_audio.cpp] (Module SimAudio).
    - [SoftUART], [SoftUARTFacts]: the bit-level UART of [sim_serial.cpp]:
      [Configure], [RxTick], [TxTick]; its properties.
    - [SimSerialTerminal]: the terminal of [sim_serial.cpp] that owns a
      [SoftUART]: line buffer, noise suppression, input line, SCC status;
      the widgets of [Draw] appear as the events they report.
    - [SimBus]: [sim_bus.cpp], the download channel.
    - [SimBlockDevice]: [sim_blkdevice.cpp], ten disk images behind one
      transfer engine; [BeforeEval] is one clock, [visit] the loop body.
    - [SimInput]: [sim_input.cpp], key snapshots to PS/2 words.
    - [JsonlWriter]: [jsonl_writer.c] against the class [Backend] (what the
      writer needs of a medium; [BackendOk] is its contract) and the media
      that implement it: the Mac driver path (MacDriver), the Amiga track
      disk (Trackdisk), the RAM window (SimWindow); and [freestanding.h].
    - [FlineDisasm]: [fline_disasm.h] and the bus driver of
      [fpu/sim_main.cpp] (Module CirBus).
    - [GenFpu]: [gen_fpu.c], the seeded generator of FPU test programs: a
      state monad over the random number generator, one definition per
      generator function, [main] adding up what they return.  [Fpu040]: an
      instruction-level specification of the generated programs, with the
      chip as an argument.  [GenFpuFacts]: what the rows show on it.
    - [Diskcopy]: [diskcopy_main.c] and [eject.c].
    - [Iotest]: the disk bench: [timing.c], [drive_enum.c], [sizes.c],
      [diskio_main.c]; it reports through [JsonlWriter] and shares
      [Diskcopy]'s parameter blocks.

    ** Two descriptions of the 68040

    [gen_fpu.c] and the adjudication of its rows on the real Quadra 800
    ([test-blockers.md], findings 22 and 26, [HW_OPMODES] of
    [gen_fpu_header.py]) disagree about the chip.  [Fpu040] takes neither
    side: what differs is the record [Chip], with both descriptions as
    instances, and the theorem about the corpus gives the verdict of every
    row on each.

    ** What the theorems show

    - Transfers: a sector read or write of the block device from request to
      rest, its words, addresses, latency and effect on the image; at most
      one acknowledge at a time without mounts, and exactly when a mount's
      countdown breaks that; a download of the bus with arbitrary waits.
    - Serial line: the transmitter's waveform against an independent frame,
      loop-back, the drift the receiver tolerates and what it reads beyond
      it, the setup word's fields; line reassembly, the bound of the line
      buffer, the input line.
    - Input: the exact events of a snapshot and the exact pin waveform.
    - Result writer: whatever text is written, what is durable when no error
      is recorded, and what holds when a write fails; the Mac driver path
      meets the contract of the medium.
    - Corpus: ranges of the draws, exactness of the encoders, the predicate
      table, the verdict of every row for every seed, the number of rows and
      objects of the file; the seed that never ends.
    - Disassembler: no line is cut, register operations read back, the two
      directions of FMOVE are swapped.
    - Benches: the duplicator copies and its passes end; the disk bench
      paints "pass" exactly when the bytes are right; drive walk, sizes,
      timer.

    ** Hypotheses, bounds and fuel

    Code that is not in the repository (the Toolbox traps, [DoIO], the VIA,
    the host's files and keyboard libraries, the Verilated FPU) is a
    parameter; what a theorem needs of it is a named hypothesis, with a
    witness that instantiates it.  The rejection loops of [gen_fpu.c] run on
    fuel: 64 draws are enough for the default seed ([default_seed_completes]),
    and no fuel is enough for seed 0 ([zero_seed_hangs]); a row's program
    runs on 40 steps, more than it has words.  The passes of [Diskcopy] have
    fuel 25, proved sufficient; its waits for keys and the timer's polls take
    the fuel as an argument, and theorems about them speak of runs that end.
    The walk of the Drive Queue has the code's own bound of 32.

    ** Not modelled

    Drawing and log output, the JSON reader of the benches' host side, cache
    and exception-vector handling in assembly, the Verilated design, and the
    Python tooling (of [gen_fpu_header.py] only the table [HW_OPMODES]). *)

From stdpp Require Export base list strings gmap.
From Stdlib Require Export ZArith Lia ZifyBool Bool.
From Stdlib Require Import Ascii.

#[global] Open Scope Z_scope.

(** ** Machine integers

    Values are [Z]; the C conversions are written out where the source
    converts. *)

Definition u8 (z : Z) : Z := z mod 256.
Definition u16 (z : Z) : Z := z mod 65536.
Definition u32 (z : Z) : Z := z mod 4294967296.
Definition u64 (z : Z) : Z := z mod 18446744073709551616.
Definition i8 (z : Z) : Z := (z + 128) mod 256 - 128.
Definition i16 (z : Z) : Z := (z + 32768) mod 65536 - 32768.
Definition i32 (z : Z) : Z := (z + 2147483648) mod 4294967296 - 2147483648.

(** The value of a C truth value used as an integer. *)
Definition b2z (b : bool) : Z := if b then 1 else 0.

(** C's [x & y], [x | y], [x ^ y], [x << n], [x >> n] on non-negative
    operands. *)
Declare Scope c_scope.
Delimit Scope c_scope with c.
Infix "&&&" := Z.land (at level 40, left associativity) : c_scope.
Infix "|||" := Z.lor (at level 50, left associativity) : c_scope.
Infix "^^^" := Z.lxor (at level 45, left associativity) : c_scope.
Infix "<<<" := Z.shiftl (at level 33, left associativity) : c_scope.
Infix ">>>" := Z.shiftr (at level 33, left associativity) : c_scope.

(** [dlia]: linear arithmetic with the equations of [/] and [mod]. *)
Ltac dlia := Z.div_mod_to_equations; lia.

(** [unfold_ints]: expose the conversions to [dlia]. *)
Ltac unfold_ints := unfold u8, u16, u32, u64, i8, i16, i32, b2z in *.
Ltac ilia := unfold_ints; dlia.

(** [cases]: destruct the scrutinees of the goal's [if]s and [match]es. *)
Ltac cases :=
  repeat match goal with
  | |- context [if ?b then _ else _] => destruct b eqn:?
  | |- context [match ?x with _ => _ end] => destruct x eqn:?
  end.

(** [zbool]: turn boolean comparison hypotheses into linear facts. *)
Ltac zbool :=
  repeat match goal with
  | H : (_ && _)%bool = true |- _ => apply andb_true_iff in H; destruct H
  | H : (_ || _)%bool = false |- _ => apply orb_false_iff in H; destruct H
  | H : negb _ = true |- _ => apply negb_true_iff in H
  | H : negb _ = false |- _ => apply negb_false_iff in H
  | H : (_ =? _) = true |- _ => apply Z.eqb_eq in H
  | H : (_ =? _) = false |- _ => apply Z.eqb_neq in H
  | H : (_ <? _) = true |- _ => apply Z.ltb_lt in H
  | H : (_ <? _) = false |- _ => apply Z.ltb_ge in H
  | H : (_ <=? _) = true |- _ => apply Z.leb_le in H
  | H : (_ <=? _) = false |- _ => apply Z.leb_gt in H
  end.

Create HintDb ints.
Create Rewrite HintDb ints.

Lemma u8_range z : 0 <= u8 z < 256.
Proof. ilia. Qed.
Lemma u16_range z : 0 <= u16 z < 65536.
Proof. ilia. Qed.
Lemma u32_range z : 0 <= u32 z < 4294967296.
Proof. ilia. Qed.
Lemma i8_range z : -128 <= i8 z < 128.
Proof. ilia. Qed.
Lemma i16_range z : -32768 <= i16 z < 32768.
Proof. ilia. Qed.
Lemma i32_range z : -2147483648 <= i32 z < 2147483648.
Proof. ilia. Qed.
Lemma u8_small z : 0 <= z < 256 -> u8 z = z.
Proof. ilia. Qed.
Lemma u16_small z : 0 <= z < 65536 -> u16 z = z.
Proof. ilia. Qed.
Lemma u32_small z : 0 <= z < 4294967296 -> u32 z = z.
Proof. ilia. Qed.
Lemma i8_small z : -128 <= z < 128 -> i8 z = z.
Proof. ilia. Qed.
Lemma i16_small z : -32768 <= z < 32768 -> i16 z = z.
Proof. ilia. Qed.
Lemma i32_small z : -2147483648 <= z < 2147483648 -> i32 z = z.
Proof. ilia. Qed.
Lemma u8_idem z : u8 (u8 z) = u8 z.
Proof. ilia. Qed.
Lemma u16_idem z : u16 (u16 z) = u16 z.
Proof. ilia. Qed.
Lemma u32_idem z : u32 (u32 z) = u32 z.
Proof. ilia. Qed.

#[export] Hint Resolve u8_range u16_range u32_range i8_range i16_range
  i32_range : ints.
#[export] Hint Rewrite u8_idem u16_idem u32_idem : ints.
#[export] Hint Rewrite u8_small u16_small u32_small i8_small i16_small
  i32_small using lia : ints.

(** ** Bits *)

Lemma land_pow2_testbit x k :
  0 <= k -> Z.land x (2 ^ k) = if Z.testbit x k then 2 ^ k else 0.
Proof.
  intros Hk. apply Z.bits_inj'. intros n Hn.
  rewrite Z.land_spec, Z.pow2_bits_eqb by lia.
  destruct (Z.eqb_spec k n) as [<-|Hne].
  - rewrite andb_true_r. destruct (Z.testbit x k) eqn:E.
    + by rewrite Z.pow2_bits_true by lia.
    + by rewrite Z.bits_0.
  - rewrite andb_false_r. destruct (Z.testbit x k).
    + by rewrite Z.pow2_bits_false by lia.
    + by rewrite Z.bits_0.
Qed.

Lemma land_ones_small x n : 0 <= n -> 0 <= x < 2 ^ n -> Z.land x (Z.ones n) = x.
Proof. intros. rewrite Z.land_ones by lia. by apply Z.mod_small. Qed.

(** Bits of a number below [2 ^ n] are zero from [n] on. *)
Lemma testbit_small x n i : 0 <= x < 2 ^ n -> n <= i -> Z.testbit x i = false.
Proof.
  intros Hx Hi. destruct (decide (x = 0)) as [->|Hne]; [apply Z.bits_0|].
  apply Z.bits_above_log2; [lia|].
  assert (Z.log2 x < n) by (apply Z.log2_lt_pow2; lia). lia.
Qed.

(** A field shifted above an [n]-bit value is added to it. *)
Lemma lor_shiftl_add a b n :
  0 <= n -> 0 <= b < 2 ^ n -> Z.lor (Z.shiftl a n) b = a * 2 ^ n + b.
Proof.
  intros Hn Hb. rewrite Z.shiftl_mul_pow2 by done.
  rewrite <- Z.lxor_lor, <- Z.add_nocarry_lxor; [done|..];
    apply Z.bits_inj'; intros k Hk; rewrite Z.land_spec, Z.bits_0;
    (destruct (Z.lt_ge_cases k n);
     [rewrite Z.mul_pow2_bits_low by lia; done|
      rewrite (testbit_small b n) by lia; apply andb_false_r]).
Qed.

(** Two bytes as a big-endian 16-bit word. *)
Definition is_byte (b : Z) : Prop := 0 <= b < 256.

Lemma word_value a b : is_byte a -> is_byte b ->
  Z.lor (Z.shiftl a 8) (Z.land b 0xFF) = a * 256 + b /\ u16 (a * 256 + b) = a * 256 + b.
Proof.
  unfold is_byte. intros Ha Hb. change 0xFF with (Z.ones 8).
  rewrite land_ones_small, lor_shiftl_add by lia. split; [lia|].
  apply u16_small. lia.
Qed.

Lemma word_split w : 0 <= w < 65536 ->
  Z.land (Z.shiftr w 8) 0xFF = w / 256 /\ Z.land w 0xFF = w mod 256.
Proof.
  intros Hw. change 0xFF with (Z.ones 8).
  rewrite Z.shiftr_div_pow2, !Z.land_ones by lia. change (2 ^ 8) with 256.
  split; [|done]. apply Z.mod_small. dlia.
Qed.

Lemma app_split_at {A} (l : list A) n : (n <= length l)%nat ->
  exists l1 l2, l = l1 ++ l2 /\ length l1 = n /\ length l2 = (length l - n)%nat.
Proof.
  intros Hn. exists (take n l), (drop n l).
  by rewrite take_drop, length_take_le, length_drop.
Qed.

Lemma omap_replicate_None {A B} (f : A -> option B) n x :
  f x = None -> omap f (replicate n x) = [].
Proof. intros H. induction n as [|n IH]; [done|]. simpl. rewrite H. exact IH. Qed.

(** Folding a function that leaves the accumulator alone. *)
Lemma foldl_id {A B} (f : A -> B -> A) (s : A) (l : list B) :
  (forall x, x ∈ l -> f s x = s) -> foldl f s l = s.
Proof.
  induction l as [|x l IH]; intros H; [done|]. simpl.
  rewrite H by (by left). apply IH. intros y Hy. apply H. by right.
Qed.

Lemma testbit_b2z_land1 x k : 0 <= k ->
  Z.land (Z.shiftr x k) 1 = b2z (Z.testbit x k).
Proof.
  intros Hk. change 1 with (2 ^ 0). rewrite land_pow2_testbit by lia.
  rewrite Z.shiftr_spec by lia. by destruct (Z.testbit x (0 + k)) eqn:E;
    rewrite Z.add_0_l in E; rewrite E.
Qed.

Lemma negb_b2z_eqb b : negb (b2z b =? 0) = b.
Proof. by destruct b. Qed.

(** A statement about every number below a bound, checked one by one. *)
Lemma forall_below (P : Z -> bool) (n : nat) :
  forallb P (Z.of_nat <$> seq 0 n) = true ->
  forall z, 0 <= z < Z.of_nat n -> P z = true.
Proof.
  intros H z Hz. rewrite forallb_forall in H. apply H.
  apply list_elem_of_In, list_elem_of_fmap. exists (Z.to_nat z).
  split; [lia|]. apply elem_of_seq. lia.
Qed.

Lemma field_range x k n : 0 <= n -> 0 <= Z.land (Z.shiftr x k) (Z.ones n) < 2 ^ n.
Proof. intros Hn. rewrite Z.land_ones by done. apply Z.mod_pos_bound. lia. Qed.
Lemma low_range x n : 0 <= n -> 0 <= Z.land x (Z.ones n) < 2 ^ n.
Proof. intros Hn. rewrite Z.land_ones by done. apply Z.mod_pos_bound. lia. Qed.

(** The same for two and three numbers. *)
Lemma forall_below2 (P : Z -> Z -> bool) (m n : nat) :
  forallb (fun x => forallb (P x) (Z.of_nat <$> seq 0 n)) (Z.of_nat <$> seq 0 m) = true ->
  forall x y, 0 <= x < Z.of_nat m -> 0 <= y < Z.of_nat n -> P x y = true.
Proof.
  intros H x y Hx Hy. pose proof (forall_below _ m H x Hx) as H1.
  exact (forall_below _ n H1 y Hy).
Qed.

(** ** Field update

    [r <| f := v |>] is the record [r] with field [f] replaced.  A record
    type gives one [Eta] instance, its eta expansion; the update of a field
    is derived from it. *)

Class Eta (R : Type) := eta : R -> R.
Class Update {R T : Type} (proj : R -> T) := update : (T -> T) -> R -> R.
Arguments update {R T} proj {_} _ _.

Ltac derive_update :=
  lazymatch goal with
  | |- @Update ?R _ ?p =>
      let inst := constr:(_ : Eta R) in
      let body := eval hnf in inst in
      lazymatch eval pattern p in body with
      | ?g p => exact (fun f r => g (fun x => f (p x)) r)
      end
  end.
#[export] Hint Extern 1 (Update _) => derive_update : typeclass_instances.

Declare Scope record_scope.
Delimit Scope record_scope with record.
Notation "r <| f := v |>" := (update f (fun _ => v) r)
  (at level 1, f at level 0, v at level 99, left associativity) : record_scope.
#[global] Open Scope record_scope.

(** ** Machines

    [run step s ins] feeds the inputs [ins] to a deterministic step function
    and collects the outputs, oldest first. *)

Section Run.
Context {S I O : Type} (step : S -> I -> S * O).

Fixpoint run (s : S) (ins : list I) : S * list O :=
  match ins with
  | [] => (s, [])
  | i :: ins' =>
      let '(s1, o) := step s i in
      let '(s2, os) := run s1 ins' in (s2, o :: os)
  end.

Lemma run_app s ins1 ins2 :
  run s (ins1 ++ ins2) =
  let '(s1, os1) := run s ins1 in
  let '(s2, os2) := run s1 ins2 in (s2, os1 ++ os2).
Proof.
  revert s. induction ins1 as [|i ins1 IH]; intros s; simpl.
  - by destruct (run s ins2).
  - destruct (step s i) as [s1 o]. rewrite IH.
    destruct (run s1 ins1) as [s2 os1]. by destruct (run s2 ins2).
Qed.

(** Two consecutive runs whose results are known. *)
Lemma run_seq s s1 s2 ins1 ins2 os1 os2 :
  run s ins1 = (s1, os1) -> run s1 ins2 = (s2, os2) ->
  run s (ins1 ++ ins2) = (s2, os1 ++ os2).
Proof. intros H1 H2. by rewrite run_app, H1, H2. Qed.

Lemma run_cons s s1 s2 i ins o os :
  step s i = (s1, o) -> run s1 ins = (s2, os) ->
  run s (i :: ins) = (s2, o :: os).
Proof. intros H1 H2. simpl. by rewrite H1, H2. Qed.

Lemma run_snoc s s1 s2 ins i os o :
  run s ins = (s1, os) -> step s1 i = (s2, o) ->
  run s (ins ++ [i]) = (s2, os ++ [o]).
Proof. intros H1 H2. rewrite run_app, H1. simpl. by rewrite H2. Qed.

Lemma run_length s ins : length (run s ins).2 = length ins.
Proof.
  revert s. induction ins as [|i ins IH]; intros s; simpl; [done|].
  destruct (step s i) as [s1 o]. specialize (IH s1).
  destruct (run s1 ins). simpl in *. lia.
Qed.

(** An invariant of the step function holds after any run. *)
Lemma run_invariant (P : S -> Prop) :
  (forall s i, P s -> P (step s i).1) ->
  forall ins s, P s -> P (run s ins).1.
Proof.
  intros Hstep ins. induction ins as [|i ins IH]; intros s Hs; simpl; [done|].
  specialize (Hstep s i Hs). destruct (step s i) as [s1 o].
  specialize (IH s1 Hstep). by destruct (run s1 ins).
Qed.
End Run.
#[global] Arguments run {S I O} step s ins : simpl never.
