(* ===== verification/SimClock.v ===== *)
(** * SimClock: the clock divider and the audio tap built on it

    [verilator/sim/sim_clock.cpp] and the sampling logic of
    [verilator/sim/sim_audio.cpp].  A tick counter rolls over after [ratio]
    and the divided clock is high on the tick where it is zero. *)

From S2P Require Import Prelude.

Module SimClock.

Record t := mkClock { clk : bool; old : bool; ratio : Z; count : Z }.
#[export] Instance eta_t : Eta t :=
  fun c => mkClock (clk c) (old c) (ratio c) (count c).

(** [SimClock::SimClock(int r)]. *)
Definition make (r : Z) : t := mkClock false false r 0.

(** [SimClock::SimClock()]. *)
Definition make_default : t := mkClock false false 1 0.

(** [SimClock::Tick]. *)
Definition Tick (c : t) : t :=
  let c := c <| old := clk c |> in
  let c := c <| count := count c + 1 |> in
  let c := if count c >? ratio c then c <| count := 0 |> else c in
  c <| clk := count c =? 0 |>.

(** [SimClock::Reset]. *)
Definition Reset (c : t) : t :=
  c <| count := 0 |> <| clk := false |> <| old := false |>.

(** [SimClock::IsRising]. *)
Definition IsRising (c : t) : bool := clk c && negb (old c).

(** [n] calls of [Tick]. *)
Definition ticks (n : nat) (c : t) : t := Nat.iter n Tick c.

Lemma ticks_S n c : ticks (S n) c = Tick (ticks n c).
Proof. done. Qed.

Lemma ticks_ratio n c : ratio (ticks n c) = ratio c.
Proof.
  induction n as [|n IH]; [done|]. rewrite ticks_S. unfold Tick. simpl.
  by case_match.
Qed.

Lemma ticks_count n c :
  0 <= ratio c -> count c = 0 ->
  count (ticks n c) = Z.of_nat n mod (ratio c + 1).
Proof.
  intros Hr Hc. induction n as [|n IH].
  - simpl. by rewrite Hc, Z.mod_0_l by lia.
  - rewrite ticks_S. unfold Tick. simpl. rewrite ticks_ratio, IH.
    rewrite Nat2Z.inj_succ, <- Z.add_1_r, <- (Z.add_mod_idemp_l (Z.of_nat n)) by lia.
    pose proof (Z.mod_pos_bound (Z.of_nat n) (ratio c + 1) ltac:(lia)).
    destruct (_ >? _) eqn:E; simpl.
    + assert (Z.of_nat n mod (ratio c + 1) + 1 = ratio c + 1) as -> by lia.
      by rewrite Z.mod_same by lia.
    + rewrite (Z.mod_small (_ mod _ + 1)); lia.
Qed.

Lemma ticks_clk n c :
  0 <= ratio c -> count c = 0 ->
  clk (ticks (S n) c) = (Z.of_nat (S n) mod (ratio c + 1) =? 0).
Proof.
  intros Hr Hc. rewrite <- (ticks_count (S n) c Hr Hc), ticks_S.
  unfold Tick. simpl. by case_match.
Qed.

(** The divider emits one rising edge every
    [ratio + 1] ticks, and no other. *)
Lemma rising_iff n c :
  1 <= ratio c ->
  IsRising (ticks n (Reset c)) =
  ((0 <? Z.of_nat n) && (Z.of_nat n mod (ratio c + 1) =? 0)).
Proof.
  intros Hr. destruct n as [|n]; [done|].
  unfold IsRising. rewrite ticks_clk by (simpl; lia). simpl ratio.
  replace (old (ticks (S n) (Reset c))) with (clk (ticks n (Reset c)))
    by (rewrite ticks_S; unfold Tick; simpl; by case_match).
  destruct (Z.eqb_spec (Z.of_nat (S n) mod (ratio c + 1)) 0) as [E|E];
    [|by rewrite andb_false_r].
  destruct n as [|n]; [done|]. rewrite ticks_clk by (simpl; lia). simpl ratio.
  assert (Z.of_nat (S n) mod (ratio c + 1) <> 0).
  { intros E'. apply Z.mod_divide in E, E'; [|lia..].
    destruct E as [p Hp], E' as [q Hq].
    assert ((p - q) * (ratio c + 1) = 1) as H1 by nia.
    apply Z.eq_mul_1 in H1. lia. }
  rewrite (proj2 (Z.eqb_neq _ _)) by done. done.
Qed.

End SimClock.

(** The audio tap.  A sample [left / 32768.0f] is exact in single precision;
    it is represented by its numerator [left] over [2 ^ 15].  The scope
    positions are numerators over [debug_max_samples]. *)
Module SimAudio.

Record t := mkAudio {
  clock : SimClock.t;
  outputToFile : bool;
  audioFile : list Z;
  debug_positions : list Z;
  debug_wave_l : list Z;
  debug_wave_r : list Z;
  debug_pos : Z }.
#[export] Instance eta_t : Eta t := fun a =>
  mkAudio (clock a) (outputToFile a) (audioFile a) (debug_positions a)
    (debug_wave_l a) (debug_wave_r a) (debug_pos a).

Definition debug_max_samples : Z := 600.

(** [SimAudio::SimAudio]; the object is a global, so the rest of its storage
    is zero.  The clock and the output switch are globals of [sim_audio.cpp]
    beside the class, kept here as members; the constructor sets both. *)
Definition make (systemClockFrequency : Z) (saveToFile : bool) : t :=
  let zeros := replicate (Z.to_nat debug_max_samples) 0 in
  mkAudio (SimClock.make (Z.quot systemClockFrequency 44100)) saveToFile []
    zeros zeros zeros 0.

(** [SimAudio::Clock]. *)
Definition Clock (a : t) (left right : Z) : t :=
  let a := a <| clock := SimClock.Tick (clock a) |> in
  if SimClock.IsRising (clock a) then
    if outputToFile a then a <| audioFile := audioFile a ++ [left] |> else a
  else a.

(** [SimAudio::CollectDebug]. *)
Definition CollectDebug (a : t) (left right : Z) : t :=
  let a := a <| debug_pos := debug_pos a + 1 |> in
  let a := if debug_pos a =? debug_max_samples
           then a <| debug_pos := 0 |> else a in
  let i := Z.to_nat (debug_pos a) in
  a <| debug_wave_l := <[i := left]> (debug_wave_l a) |>
    <| debug_wave_r := <[i := right]> (debug_wave_r a) |>.

(** [SimAudio::Initialise]: the plot data; opening the file is I/O. *)
Definition Initialise (a : t) : t :=
  let zeros := replicate (Z.to_nat debug_max_samples) 0 in
  a <| debug_wave_l := zeros |> <| debug_wave_r := zeros |>
    <| debug_positions := Z.of_nat <$> seq 0 (Z.to_nat debug_max_samples) |>.

(** Feeding a sequence of (left, right) samples. *)
Definition clocks (a : t) (ins : list (Z * Z)) : t :=
  foldl (fun a i => Clock a i.1 i.2) a ins.

(** Every [p]-th element of a list: the [p]-th, the [2p]-th, ... *)
Definition decimate {A} (p : nat) (l : list A) : list A :=
  omap (fun k => l !! (k * p + (p - 1))%nat) (seq 0 (length l / p)).

Lemma div_S (n p : nat) : (0 < p)%nat ->
  (S n / p = n / p + if (S n mod p =? 0)%nat then 1 else 0)%nat.
Proof.
  intros Hp.
  pose proof (Nat.div_mod_eq n p). pose proof (Nat.mod_upper_bound n p ltac:(lia)).
  pose proof (Nat.div_mod_eq (S n) p).
  pose proof (Nat.mod_upper_bound (S n) p ltac:(lia)).
  revert H H0 H1 H2. generalize (n / p)%nat (S n / p)%nat (n mod p)%nat (S n mod p)%nat.
  intros a b r r' Ha Hr Hb Hr'.
  assert (b = a \/ b = S a) as [->| ->].
  { assert (~ (b < a)%nat) by nia. assert (~ (a + 1 < b)%nat) by nia. lia. }
  - destruct (Nat.eqb_spec r' 0); lia.
  - rewrite Nat.mul_succ_r in Hb. destruct (Nat.eqb_spec r' 0); lia.
Qed.

Lemma decimate_snoc {A} (p : nat) (l : list A) x : (0 < p)%nat ->
  decimate p (l ++ [x]) =
  decimate p l ++ if (S (length l) mod p =? 0)%nat then [x] else [].
Proof.
  intros Hp. unfold decimate. rewrite length_app, Nat.add_1_r. simpl length.
  rewrite div_S by done.
  pose proof (Nat.div_mod_eq (length l) p).
  pose proof (Nat.mod_upper_bound (length l) p ltac:(lia)).
  assert (Hext : forall m, (m <= length l / p)%nat ->
    omap (fun k => (l ++ [x]) !! (k * p + (p - 1))%nat) (seq 0 m) =
    omap (fun k => l !! (k * p + (p - 1))%nat) (seq 0 m)).
  { induction m as [|m IH]; intros Hm; [done|].
    rewrite seq_S, !omap_app, IH by lia. simpl.
    by rewrite lookup_app_l by nia. }
  destruct (Nat.eqb_spec (S (length l) mod p) 0) as [E|E].
  - rewrite Nat.add_1_r, seq_S, omap_app, Hext by lia. f_equal. simpl.
    pose proof (div_S (length l) p Hp) as Hd. rewrite E in Hd. simpl in Hd.
    pose proof (Nat.div_mod_eq (S (length l)) p) as Hm. rewrite E, Hd in Hm.
    rewrite Nat.mul_add_distr_l, Nat.mul_comm in Hm.
    replace (length l / p * p + (p - 1))%nat with (length l) by lia.
    by rewrite lookup_app_r, Nat.sub_diag by lia.
  - by rewrite Nat.add_0_r, app_nil_r, Hext by lia.
Qed.

Lemma clocks_clock ins f save :
  clock (clocks (make f save) ins) =
  SimClock.ticks (length ins) (clock (make f save)).
Proof.
  induction ins as [|i ins IH] using rev_ind; [done|].
  replace (length (ins ++ [i])) with (S (length ins)) by (rewrite length_app; simpl; lia).
  rewrite SimClock.ticks_S, <- IH. unfold clocks. rewrite foldl_snoc.
  unfold Clock. by repeat case_match.
Qed.

Lemma Clock_file a l r :
  audioFile (Clock a l r) =
  audioFile a ++
    if (SimClock.IsRising (SimClock.Tick (clock a)) && outputToFile a)%bool
    then [l] else [].
Proof.
  unfold Clock. simpl. destruct (SimClock.IsRising _); simpl; [|by rewrite app_nil_r].
  destruct (outputToFile a); [done|by rewrite app_nil_r].
Qed.

Lemma clocks_output ins a : outputToFile (clocks a ins) = outputToFile a.
Proof.
  revert a. induction ins as [|i ins IH]; intros a; [done|].
  simpl. unfold clocks in *. rewrite IH. unfold Clock. by repeat case_match.
Qed.

(** C31: the audio file receives exactly the left samples of every
    [frequency / 44100 + 1]-th clock. *)
Theorem clocks_decimates (ins : list (Z * Z)) (f : Z) (Hf : 44100 <= f) :
  audioFile (clocks (make f true) ins) =
  decimate (Z.to_nat (Z.quot f 44100 + 1)) ins.*1.
Proof.
  set (p := Z.to_nat (Z.quot f 44100 + 1)).
  assert (1 <= Z.quot f 44100)
    by (rewrite Z.quot_div_nonneg by lia; apply Z.div_le_lower_bound; lia).
  induction ins as [|i ins IH] using rev_ind.
  { unfold decimate. by rewrite Nat.Div0.div_0_l. }
  unfold clocks. rewrite foldl_snoc. fold (clocks (make f true) ins).
  rewrite Clock_file, clocks_output, clocks_clock, IH, fmap_app.
  simpl fmap. rewrite decimate_snoc, length_fmap by lia. f_equal.
  simpl outputToFile. rewrite andb_true_r. simpl clock.
  change (SimClock.Tick (SimClock.ticks ?n ?c)) with (SimClock.ticks (S n) c).
  change (SimClock.make (Z.quot f 44100)) with
    (SimClock.Reset (SimClock.make (Z.quot f 44100))).
  rewrite SimClock.rising_iff by done. simpl SimClock.ratio.
  replace (Z.quot f 44100 + 1) with (Z.of_nat p) by lia.
  rewrite <- Nat2Z.inj_mod.
  destruct (Nat.eqb_spec (S (length ins) mod p) 0) as [->|Hne]; [done|].
  by rewrite (proj2 (Z.eqb_neq _ 0)) by lia.
Qed.

Lemma clocks_decimates_witness :
  audioFile (clocks (make 88200 true) [(1, 0); (2, 0); (3, 0); (4, 0); (5, 0); (6, 0)]) =
  decimate 3 [1; 2; 3; 4; 5; 6].
Proof.
  apply (clocks_decimates [(1, 0); (2, 0); (3, 0); (4, 0); (5, 0); (6, 0)] 88200). lia.
Defined.

End SimAudio.
