(* ===== verification/CText.v ===== *)
(** * C text: characters, literals and the printf conversions used

    Models the standard library's [snprintf] conversions [%u], [%d], [%c],
    [%s], [%0wX] and the unsigned decimal printer the sources spell out by
    hand.  Text is [string]; byte buffers are lists of [Z]. *)

From S2P Require Import Prelude.
From Stdlib Require Import Ascii.
#[local] Open Scope string_scope.
#[local] Open Scope list_scope.
#[local] Open Scope Z_scope.

Definition ord (c : ascii) : Z := Z.of_N (N_of_ascii c).
Definition chr (z : Z) : ascii := ascii_of_N (Z.to_N (u8 z)).

Lemma ord_range c : 0 <= ord c < 256.
Proof. unfold ord. pose proof (N_ascii_bounded c). lia. Qed.

Lemma ord_chr z : ord (chr z) = u8 z.
Proof.
  unfold ord, chr. pose proof (u8_range z).
  rewrite N_ascii_embedding by lia. lia.
Qed.

Lemma chr_ord c : chr (ord c) = c.
Proof.
  unfold chr, ord. rewrite u8_small by apply ord_range.
  by rewrite N2Z.id, ascii_N_embedding.
Qed.

(** The bytes of a literal, without the terminating NUL. *)
Fixpoint bytes_of (s : string) : list Z :=
  match s with
  | EmptyString => []
  | String c s => ord c :: bytes_of s
  end.

Fixpoint string_of (l : list Z) : string :=
  match l with
  | [] => EmptyString
  | z :: l => String (chr z) (string_of l)
  end.

Lemma bytes_of_app s1 s2 : bytes_of (s1 +:+ s2) = bytes_of s1 ++ bytes_of s2.
Proof. induction s1 as [|c s1 IH]; simpl; [done|]. by rewrite IH. Qed.

Lemma length_bytes_of s : length (bytes_of s) = String.length s.
Proof. induction s; simpl; congruence. Qed.

Lemma string_of_bytes_of s : string_of (bytes_of s) = s.
Proof. induction s; simpl; [done|]. rewrite chr_ord. congruence. Qed.

Lemma bytes_of_range s : Forall (fun z => 0 <= z < 256) (bytes_of s).
Proof. induction s; simpl; constructor; [apply ord_range|done]. Qed.

(** ** Decimal *)

(** The digits of [v], most significant first, in front of [acc]. *)
Fixpoint dec_go (fuel : nat) (v : Z) (acc : list Z) : list Z :=
  match fuel with
  | O => acc
  | S fuel => if v =? 0 then acc
              else dec_go fuel (v / 10) (48 + v mod 10 :: acc)
  end.

(** Enough digits for any 64-bit value. *)
Definition dec_fuel : nat := 20.

(** [%u] and [%llu] of a non-negative value. *)
Definition dec_bytes (v : Z) : list Z :=
  if v =? 0 then [48] else dec_go dec_fuel v [].
Definition dec (v : Z) : string := string_of (dec_bytes v).

(** [%d]. *)
Definition sdec (v : Z) : string :=
  if v <? 0 then "-" +:+ dec (- v) else dec v.

(** Reading decimal digits back. *)
Definition undec (l : list Z) : Z := foldl (fun a d => a * 10 + (d - 48)) 0 l.

Lemma undec_app l1 l2 :
  undec (l1 ++ l2) = undec l1 * 10 ^ Z.of_nat (length l2) + undec l2.
Proof.
  induction l2 as [|d l2 IH] using rev_ind.
  - rewrite app_nil_r. unfold undec at 3. simpl. lia.
  - rewrite app_assoc. unfold undec in *. rewrite !foldl_snoc, IH.
    rewrite length_app, Nat2Z.inj_add, Z.pow_add_r by lia. simpl length.
    change (10 ^ Z.of_nat 1) with 10. lia.
Qed.

Lemma undec_cons d l :
  undec (d :: l) = (d - 48) * 10 ^ Z.of_nat (length l) + undec l.
Proof. apply (undec_app [d] l). Qed.

Lemma dec_go_spec fuel v acc :
  0 <= v < 10 ^ Z.of_nat fuel ->
  exists ds, dec_go fuel v acc = ds ++ acc /\ undec ds = v /\
    Forall (fun d => 48 <= d < 58) ds /\ (length ds <= fuel)%nat /\
    (if v =? 0 then ds = [] else hd 48 ds <> 48).
Proof.
  revert v acc. induction fuel as [|fuel IH]; intros v acc Hv.
  - exists []. simpl in *. assert (v = 0) as -> by lia.
    repeat split; [constructor|cbn; lia].
  - cbn [dec_go]. destruct (Z.eqb_spec v 0) as [->|Hne].
    + exists []. repeat split; [constructor|cbn; lia].
    + rewrite Nat2Z.inj_succ, Z.pow_succ_r in Hv by lia.
      destruct (IH (v / 10) (48 + v mod 10 :: acc)) as (ds&->&Hu&Hf&Hl&Hh).
      { split; [apply Z.div_pos; lia|]. apply Z.div_lt_upper_bound; lia. }
      exists (ds ++ [48 + v mod 10]). rewrite <- app_assoc.
      pose proof (Z.mod_pos_bound v 10 ltac:(lia)).
      pose proof (Z.div_mod v 10 ltac:(lia)).
      split; [done|]. split; [|split; [|split]].
      * rewrite undec_app, Hu. cbn. lia.
      * apply Forall_app. split; [done|]. constructor; [lia|constructor].
      * rewrite length_app. simpl. lia.
      * destruct (Z.eqb_spec (v / 10) 0) as [E|E].
        -- subst ds. simpl. lia.
        -- by destruct ds.
Qed.

(** The printed decimal reads back to the value, is made of digits, has no
    leading zero unless it is ["0"], and fits 20 characters. *)
Lemma dec_bytes_spec v :
  0 <= v < 10 ^ 20 ->
  undec (dec_bytes v) = v /\
  Forall (fun d => 48 <= d < 58) (dec_bytes v) /\
  (1 <= length (dec_bytes v) <= 20)%nat /\
  (hd 48 (dec_bytes v) = 48 -> dec_bytes v = [48]).
Proof.
  intros Hv. unfold dec_bytes. destruct (Z.eqb_spec v 0) as [->|Hne].
  { repeat split; [|simpl; lia..]. constructor; [lia|constructor]. }
  destruct (dec_go_spec dec_fuel v []) as (ds&->&Hu&Hf&Hl&Hh); [done|].
  rewrite app_nil_r. rewrite (proj2 (Z.eqb_neq v 0)) in Hh by done.
  destruct ds as [|d ds]; [done|]. unfold dec_fuel in Hl.
  repeat split; [done|done|simpl; lia|done|done].
Qed.

Lemma dec_bytes_inj v w :
  0 <= v < 10 ^ 20 -> 0 <= w < 10 ^ 20 -> dec_bytes v = dec_bytes w -> v = w.
Proof.
  intros Hv Hw E. destruct (dec_bytes_spec v Hv) as [<- _].
  destruct (dec_bytes_spec w Hw) as [<- _]. by rewrite E.
Qed.

(** A value below [10 ^ n] prints in at most [n] characters ([n] > 0). *)
Lemma dec_go_length fuel v acc n :
  0 <= v < 10 ^ Z.of_nat n -> (length (dec_go fuel v acc) <= n + length acc)%nat.
Proof.
  revert v acc n. induction fuel as [|fuel IH]; intros v acc n Hv; simpl; [lia|].
  destruct (Z.eqb_spec v 0); [lia|]. destruct n as [|n]; [simpl in Hv; lia|].
  rewrite Nat2Z.inj_succ, Z.pow_succ_r in Hv by lia.
  etrans; [apply (IH _ _ n)|simpl; lia].
  split; [apply Z.div_pos; lia|]. apply Z.div_lt_upper_bound; lia.
Qed.

Lemma dec_bytes_length v n :
  0 <= v < 10 ^ Z.of_nat n -> (1 <= n)%nat -> (length (dec_bytes v) <= n)%nat.
Proof.
  intros Hv Hn. unfold dec_bytes. destruct (v =? 0); [simpl; lia|].
  etrans; [by apply dec_go_length|]. simpl. lia.
Qed.

(** ** Hexadecimal *)

(** ["0123456789ABCDEF"[d]]. *)
Definition hex_digit (d : Z) : Z := if d <? 10 then 48 + d else 55 + d.

(** The low [w] hexadecimal digits of [v], most significant first; this is
    [%0wX] for a value of at most [4 * w] bits. *)
Fixpoint hex_bytes (w : nat) (v : Z) : list Z :=
  match w with
  | O => []
  | S w => hex_bytes w (Z.shiftr v 4) ++ [hex_digit (Z.land v 15)]
  end.
Definition hex (w : nat) (v : Z) : string := string_of (hex_bytes w v).

Lemma hex_bytes_length w v : length (hex_bytes w v) = w.
Proof.
  revert v. induction w as [|w IH]; intros v; simpl; [done|].
  rewrite length_app, IH. simpl. lia.
Qed.

(** Reading upper-case hexadecimal digits back. *)
Definition unhex_digit (c : Z) : Z := if c <? 58 then c - 48 else c - 55.
Definition unhex (l : list Z) : Z :=
  foldl (fun a c => a * 16 + unhex_digit c) 0 l.

Lemma unhex_digit_hex d : 0 <= d < 16 -> unhex_digit (hex_digit d) = d.
Proof. unfold unhex_digit, hex_digit. intros. repeat case_match; zbool; lia. Qed.

Lemma unhex_hex_bytes w v :
  0 <= v -> unhex (hex_bytes w v) = v mod 16 ^ Z.of_nat w.
Proof.
  revert v. induction w as [|w IH]; intros v Hv.
  - simpl. by rewrite Z.mod_1_r.
  - cbn [hex_bytes]. unfold unhex in *. rewrite foldl_snoc, IH
      by (apply Z.shiftr_nonneg; lia).
    change 15 with (Z.ones 4). rewrite Z.land_ones, Z.shiftr_div_pow2 by lia.
    rewrite unhex_digit_hex by (apply Z.mod_pos_bound; lia).
    change (2 ^ 4) with 16. rewrite Nat2Z.inj_succ, Z.pow_succ_r by lia.
    rewrite (Z.rem_mul_r v 16) by lia. lia.
Qed.

(** ** Strings *)

(** [toupper] of the C locale. *)
Definition toupper (c : Z) : Z := if (97 <=? c) && (c <=? 122) then c - 32 else c.

(** [snprintf(buf, n, ...)] / [vsnprintf]: the text kept in a buffer of [n]
    bytes. *)
Definition snprintf (n : nat) (s : string) : string := String.substring 0 (n - 1) s.

Lemma substring_all s n :
  (String.length s <= n)%nat -> String.substring 0 n s = s.
Proof.
  revert n. induction s as [|c s IH]; intros [|n]; simpl; intros; try done; [lia|].
  rewrite IH; [done|lia].
Qed.

Lemma snprintf_fits n s : (String.length s < n)%nat -> snprintf n s = s.
Proof. intros. apply substring_all. lia. Qed.

Lemma string_app_length s1 s2 :
  String.length (s1 +:+ s2) = (String.length s1 + String.length s2)%nat.
Proof. induction s1 as [|c s1 IH]; simpl; [done|]. by rewrite IH. Qed.

Lemma string_of_length l : String.length (string_of l) = length l.
Proof. induction l; simpl; congruence. Qed.

Lemma hex_length w v : String.length (hex w v) = w.
Proof. unfold hex. by rewrite string_of_length, hex_bytes_length. Qed.

Lemma dec_length v n :
  0 <= v < 10 ^ Z.of_nat n -> (1 <= n)%nat -> (String.length (dec v) <= n)%nat.
Proof. unfold dec. rewrite string_of_length. apply dec_bytes_length. Qed.

(** ** Occurrences of a character *)

Fixpoint occurs (c : ascii) (s : string) : nat :=
  match s with
  | EmptyString => 0
  | String c' s => (if Ascii.eqb c c' then 1 else 0) + occurs c s
  end.

Lemma occurs_app c s1 s2 : occurs c (s1 +:+ s2) = (occurs c s1 + occurs c s2)%nat.
Proof. induction s1 as [|c' s1 IH]; simpl; [done|]. rewrite IH. lia. Qed.

Lemma occurs_substring c n s : (occurs c (String.substring 0 n s) <= occurs c s)%nat.
Proof.
  revert n. induction s as [|c' s IH]; intros [|n]; cbn [String.substring occurs]; try lia.
  specialize (IH n). lia.
Qed.

Lemma dec_go_digits fuel v acc :
  Forall (fun d => 48 <= d < 58) acc -> Forall (fun d => 48 <= d < 58) (dec_go fuel v acc).
Proof.
  revert v acc. induction fuel as [|fuel IH]; intros v acc Ha; cbn [dec_go]; [done|].
  destruct (v =? 0); [done|]. apply IH. constructor; [|done].
  pose proof (Z.mod_pos_bound v 10). lia.
Qed.

Lemma occurs_digits c l : ~ (48 <= ord c < 58) ->
  Forall (fun d => 48 <= d < 58) l -> occurs c (string_of l) = 0%nat.
Proof.
  intros Hc. induction 1 as [|d l Hd _ IH]; [done|]. cbn [string_of occurs].
  destruct (Ascii.eqb_spec c (chr d)) as [->|]; [|by rewrite IH].
  rewrite ord_chr, u8_small in Hc; lia.
Qed.

Lemma occurs_dec c v : ~ (48 <= ord c < 58) -> occurs c (dec v) = 0%nat.
Proof.
  intros Hc. apply occurs_digits; [done|]. unfold dec_bytes.
  destruct (v =? 0); [by constructor; [lia|]|]. by apply dec_go_digits.
Qed.

Lemma occurs_sdec c v : ~ (48 <= ord c < 58) -> ord c <> 45 -> occurs c (sdec v) = 0%nat.
Proof.
  intros Hc Hm. unfold sdec. destruct (Z.ltb_spec v 0); [|by apply occurs_dec].
  rewrite occurs_app, occurs_dec by done. cbn [occurs].
  destruct (Ascii.eqb_spec c "-"%char) as [->|]; [by destruct Hm|done].
Qed.
