(* ===== verification/SoftUART.v ===== *)
(** * SoftUART: the bit-level soft UART transceiver

    [struct SoftUART] of [verilator/sim/sim_serial.h] and its operations in
    [verilator/sim/sim_serial.cpp]: one [RxTick] and one [TxTick] per system
    clock.  The [m_] fields of the class are grouped by the half of the
    device that owns them. *)

From S2P Require Import Prelude.
#[local] Open Scope c_scope.

Module SoftUART.

Module RxState.
(** [enum class RxState]. *)
Inductive t := IDLE | START | DATA | PARITY | STOP.
End RxState.

Module TxState.
(** [enum class TxState]. *)
Inductive t := IDLE | START | DATA | PARITY | STOP.
End TxState.

Record Config := mkConfig {
  m_clocks_per_baud : Z;
  m_data_bits : Z;
  m_stop_bits : Z;
  m_parity_en : bool;
  m_parity_even : bool }.

Record Rx := mkRx {
  m_rx_state : RxState.t;
  m_rx_counter : Z;
  m_rx_bit_index : Z;
  m_rx_shift : Z;
  m_rx_byte : Z;
  m_rx_ready : bool;
  m_rx_frame_error : bool;
  m_rx_last_pin : bool }.
#[export] Instance eta_Rx : Eta Rx := fun r =>
  mkRx (m_rx_state r) (m_rx_counter r) (m_rx_bit_index r) (m_rx_shift r)
    (m_rx_byte r) (m_rx_ready r) (m_rx_frame_error r) (m_rx_last_pin r).

Record Tx := mkTx {
  m_tx_state : TxState.t;
  m_tx_counter : Z;
  m_tx_bit_index : Z;
  m_tx_shift : Z;
  m_tx_pin : bool;
  m_tx_stop_count : Z;
  m_tx_queue : list Z }.
#[export] Instance eta_Tx : Eta Tx := fun x =>
  mkTx (m_tx_state x) (m_tx_counter x) (m_tx_bit_index x) (m_tx_shift x)
    (m_tx_pin x) (m_tx_stop_count x) (m_tx_queue x).

Record t := mkUART { cfg : Config; rx : Rx; tx : Tx }.
#[export] Instance eta_t : Eta t := fun u => mkUART (cfg u) (rx u) (tx u).

(** The default member initialisers. *)
Definition init_cfg : Config := mkConfig 3385 8 1 false false.
Definition init_rx : Rx := mkRx RxState.IDLE 0 0 0 0 false false true.
Definition init_tx : Tx := mkTx TxState.IDLE 0 0 0 true 0 [].
Definition init : t := mkUART init_cfg init_rx init_tx.

(** [SoftUART::Configure]. *)
Definition Configure (u : t) (clocks_per_baud data_bits stop_bits : Z)
    (parity_en parity_even : bool) : t :=
  u <| cfg := mkConfig (if clocks_per_baud >? 0 then clocks_per_baud else 1)
                data_bits stop_bits parity_en parity_even |>.

(** [SoftUART::ConfigureFromSetup]. *)
Definition ConfigureFromSetup (u : t) (setup_reg : Z) : t :=
  let cpb := setup_reg &&& 0xFFFFFF in
  let even := negb (((setup_reg >>> 24) &&& 1) =? 0) in
  let par_en := negb (((setup_reg >>> 26) &&& 1) =? 0) in
  let two_st := negb (((setup_reg >>> 27) &&& 1) =? 0) in
  let dbits_code := (setup_reg >>> 28) &&& 3 in
  let dbits := 8 - dbits_code in
  Configure u cpb dbits (if two_st then 2 else 1) par_en even.

(** [SoftUART::RxTick] on the receiver; the result is [m_rx_ready]. *)
Definition rx_tick (c : Config) (r : Rx) (txd_pin : bool) : Rx * bool :=
  let r := r <| m_rx_ready := false |> in
  let r :=
    match m_rx_state r with
    | RxState.IDLE =>
        if m_rx_last_pin r && negb txd_pin then
          r <| m_rx_state := RxState.START |>
            <| m_rx_counter := m_clocks_per_baud c / 2 |>
            <| m_rx_shift := 0 |>
            <| m_rx_bit_index := 0 |>
            <| m_rx_frame_error := false |>
        else r
    | RxState.START =>
        if m_rx_counter r >? 0 then r <| m_rx_counter := m_rx_counter r - 1 |>
        else if txd_pin then r <| m_rx_state := RxState.IDLE |>
        else r <| m_rx_state := RxState.DATA |>
               <| m_rx_counter := m_clocks_per_baud c |>
    | RxState.DATA =>
        if m_rx_counter r >? 0 then r <| m_rx_counter := m_rx_counter r - 1 |>
        else
          let r := if txd_pin
                   then r <| m_rx_shift := u8 (m_rx_shift r ||| (1 <<< m_rx_bit_index r)) |>
                   else r in
          let r := r <| m_rx_bit_index := m_rx_bit_index r + 1 |> in
          let r := if m_rx_bit_index r >=? m_data_bits c
                   then r <| m_rx_state := if m_parity_en c then RxState.PARITY
                                           else RxState.STOP |>
                   else r in
          r <| m_rx_counter := m_clocks_per_baud c |>
    | RxState.PARITY =>
        if m_rx_counter r >? 0 then r <| m_rx_counter := m_rx_counter r - 1 |>
        else r <| m_rx_state := RxState.STOP |>
               <| m_rx_counter := m_clocks_per_baud c |>
    | RxState.STOP =>
        if m_rx_counter r >? 0 then r <| m_rx_counter := m_rx_counter r - 1 |>
        else
          let r := if txd_pin then r else r <| m_rx_frame_error := true |> in
          r <| m_rx_byte := m_rx_shift r |>
            <| m_rx_ready := true |>
            <| m_rx_state := RxState.IDLE |>
    end in
  let r := r <| m_rx_last_pin := txd_pin |> in
  (r, m_rx_ready r).

Definition RxTick (u : t) (txd_pin : bool) : t * bool :=
  let '(r, ready) := rx_tick (cfg u) (rx u) txd_pin in
  (u <| rx := r |>, ready).

(** [SoftUART::TxEnqueue]. *)
Definition TxEnqueue (u : t) (byte : Z) : t :=
  u <| tx := (tx u) <| m_tx_queue := m_tx_queue (tx u) ++ [byte] |> |>.

(** The number of one bits among the first [n] of [shift] (the parity loop
    of [TxTick]). *)
Definition count_ones (shift : Z) (n : nat) : Z :=
  foldl (fun ones i =>
    if ((shift >>> Z.of_nat i) &&& 1) =? 0 then ones else ones + 1) 0 (seq 0 n).

(** [(m_tx_shift >> i) & 1] as a bool. *)
Definition bit (shift i : Z) : bool := negb (((shift >>> i) &&& 1) =? 0).

(** The parity bit of a byte. *)
Definition parity_pin (c : Config) (shift : Z) : bool :=
  let ones := count_ones shift (Z.to_nat (m_data_bits c)) in
  if m_parity_even c then negb ((ones &&& 1) =? 0) else ((ones &&& 1) =? 0).

(** [SoftUART::TxTick] on the transmitter; the result is [m_tx_pin]. *)
Definition tx_tick (c : Config) (x : Tx) : Tx * bool :=
  let x :=
    match m_tx_state x with
    | TxState.IDLE =>
        match m_tx_queue x with
        | [] => x
        | b :: q =>
            x <| m_tx_shift := b |>
              <| m_tx_queue := q |>
              <| m_tx_state := TxState.START |>
              <| m_tx_counter := m_clocks_per_baud c |>
              <| m_tx_pin := false |>
              <| m_tx_bit_index := 0 |>
        end
    | TxState.START =>
        if m_tx_counter x >? 0 then x <| m_tx_counter := m_tx_counter x - 1 |>
        else x <| m_tx_state := TxState.DATA |>
               <| m_tx_pin := bit (m_tx_shift x) (m_tx_bit_index x) |>
               <| m_tx_counter := m_clocks_per_baud c |>
    | TxState.DATA =>
        if m_tx_counter x >? 0 then x <| m_tx_counter := m_tx_counter x - 1 |>
        else
          let x := x <| m_tx_bit_index := m_tx_bit_index x + 1 |> in
          let x :=
            if m_tx_bit_index x >=? m_data_bits c then
              if m_parity_en c then
                x <| m_tx_state := TxState.PARITY |>
                  <| m_tx_pin := parity_pin c (m_tx_shift x) |>
              else
                x <| m_tx_state := TxState.STOP |>
                  <| m_tx_pin := true |>
                  <| m_tx_stop_count := 0 |>
            else x <| m_tx_pin := bit (m_tx_shift x) (m_tx_bit_index x) |> in
          x <| m_tx_counter := m_clocks_per_baud c |>
    | TxState.PARITY =>
        if m_tx_counter x >? 0 then x <| m_tx_counter := m_tx_counter x - 1 |>
        else x <| m_tx_state := TxState.STOP |>
               <| m_tx_pin := true |>
               <| m_tx_stop_count := 0 |>
               <| m_tx_counter := m_clocks_per_baud c |>
    | TxState.STOP =>
        if m_tx_counter x >? 0 then x <| m_tx_counter := m_tx_counter x - 1 |>
        else
          let x := x <| m_tx_stop_count := m_tx_stop_count x + 1 |> in
          if m_tx_stop_count x >=? m_stop_bits c then
            x <| m_tx_state := TxState.IDLE |> <| m_tx_pin := true |>
          else x <| m_tx_counter := m_clocks_per_baud c |>
    end in
  (x, m_tx_pin x).

Definition TxTick (u : t) : t * bool :=
  let '(x, pin) := tx_tick (cfg u) (tx u) in
  (u <| tx := x |>, pin).

(** [SoftUART::TxBusy]. *)
Definition TxBusy (u : t) : bool :=
  match m_tx_state (tx u) with
  | TxState.IDLE => negb (match m_tx_queue (tx u) with [] => true | _ => false end)
  | _ => true
  end.

Definition RxByte (u : t) : Z := m_rx_byte (rx u).
Definition RxFrameError (u : t) : bool := m_rx_frame_error (rx u).
Definition GetClocksPerBaud (u : t) : Z := m_clocks_per_baud (cfg u).
Definition GetDataBits (u : t) : Z := m_data_bits (cfg u).

(** ** Specification *)

(** A configuration the setup register can produce. *)
Definition wf_cfg (c : Config) : Prop :=
  1 <= m_clocks_per_baud c /\ 1 <= m_data_bits c <= 8 /\ 1 <= m_stop_bits c.

(** The receiver as a machine: a pin per tick, and a byte with its frame
    error flag when one is complete. *)
Definition rx_step (c : Config) (r : Rx) (pin : bool) : Rx * option (Z * bool) :=
  let '(r', ready) := rx_tick c r pin in
  (r', if ready then Some (m_rx_byte r', m_rx_frame_error r') else None).
Definition tx_step (c : Config) (x : Tx) (_ : unit) : Tx * bool := tx_tick c x.

Definition rx_run (c : Config) := run (rx_step c).
Definition tx_run (c : Config) (x : Tx) (n : nat) := run (tx_step c) x (replicate n tt).

(** The bytes a run of the receiver delivers. *)
Definition delivered (os : list (option (Z * bool))) : list (Z * bool) := omap id os.

(** The number whose bit [k] is [f k] for [k < n]. *)
Fixpoint gather (f : nat -> bool) (n : nat) : Z :=
  match n with
  | O => 0
  | S n => if f n then gather f n ||| (1 <<< Z.of_nat n) else gather f n
  end.

(** The levels of one frame, one entry per bit period. *)
Definition data_levels (c : Config) (b : Z) : list bool :=
  (fun k => Z.testbit b (Z.of_nat k)) <$> seq 0 (Z.to_nat (m_data_bits c)).
(** The parity level makes the number of ones in the data and parity bits
    even, or odd. *)
Definition parity_level (c : Config) (b : Z) : bool :=
  xorb (foldl xorb false (data_levels c b)) (negb (m_parity_even c)).
Definition frame_levels (c : Config) (b : Z) : list bool :=
  false :: data_levels c b ++
  (if m_parity_en c then [parity_level c b] else []) ++
  replicate (Z.to_nat (m_stop_bits c)) true.

(** The waveform of a frame: every level held [p] ticks. *)
Definition wave (p : nat) (levels : list bool) : list bool :=
  mjoin (replicate p <$> levels).

(** The bit period of the device in ticks. *)
Definition period (c : Config) : nat := S (Z.to_nat (m_clocks_per_baud c)).

Definition frame_wave (c : Config) (b : Z) : list bool :=
  wave (period c) (frame_levels c b) ++ [true].

End SoftUART.

Import SoftUART.

(** C24: every 32-bit setup word configures a well-formed device, and its
    fields are exactly the documented bits: bits 0 to 23 are the clocks per
    baud, 0 meaning 1; bits 29 and 28 select 8, 7, 6 or 5 data bits, in that
    order; bit 27 selects two stop bits, bit 26 enables the parity bit and
    bit 24 makes it even.  The two halves of the device are left as they
    are. *)
Theorem uart_setup_wf (u : t) (setup : Z) (Hs : 0 <= setup < 2 ^ 32) :
  let u' := ConfigureFromSetup u setup in
  let c := cfg u' in
  wf_cfg c /\
  m_clocks_per_baud c = Z.max 1 (setup mod 2 ^ 24) /\
  m_data_bits c =
    (match Z.testbit setup 29, Z.testbit setup 28 with
     | false, false => 8 | false, true => 7 | true, false => 6 | true, true => 5 end) /\
  m_stop_bits c = (if Z.testbit setup 27 then 2 else 1) /\
  m_parity_en c = Z.testbit setup 26 /\ m_parity_even c = Z.testbit setup 24 /\
  rx u' = rx u /\ tx u' = tx u.
Proof.
  unfold ConfigureFromSetup, Configure.
  cbn -[Z.land Z.shiftr Z.pow Z.testbit Z.sub Z.max Z.modulo].
  rewrite !testbit_b2z_land1 by lia.
  change 0xFFFFFF with (Z.ones 24). change 3 with (Z.ones 2).
  rewrite !Z.land_ones by lia.
  rewrite !negb_b2z_eqb.
  unfold wf_cfg. cbn [cfg m_clocks_per_baud m_data_bits m_stop_bits m_parity_en m_parity_even].
  pose proof (Z.mod_pos_bound setup (2 ^ 24) ltac:(lia)) as Hm.
  assert (Hd : (setup >>> 28) mod 2 ^ 2 = b2z (Z.testbit setup 28) + 2 * b2z (Z.testbit setup 29)).
  { replace (Z.testbit setup 28) with (Z.testbit (setup >>> 28) 0) by (by rewrite Z.shiftr_spec).
    replace (Z.testbit setup 29) with (Z.testbit (setup >>> 28) 1) by (by rewrite Z.shiftr_spec).
    generalize (setup >>> 28). intros z. rewrite <- !testbit_b2z_land1 by lia.
    assert (L : forall x, x &&& 1 = x mod 2) by (intros x; change 1 with (Z.ones 1) at 1; by rewrite Z.land_ones).
    rewrite !L, !Z.shiftr_div_pow2 by lia.
    change (2 ^ 0) with 1. change (2 ^ 1) with 2. change (2 ^ 2) with 4. dlia. }
  rewrite Hd. generalize dependent (setup mod 2 ^ 24). intros m Hm.
  destruct (Z.gtb_spec m 0);
    destruct (Z.testbit setup 24), (Z.testbit setup 26), (Z.testbit setup 27),
      (Z.testbit setup 28), (Z.testbit setup 29);
    repeat split; simpl; lia.
Qed.

Lemma uart_setup_wf_witness :
  let c := cfg (ConfigureFromSetup init 0x1D000D39) in
  wf_cfg c /\ m_clocks_per_baud c = 3385 /\ m_data_bits c = 7 /\ m_stop_bits c = 2 /\
  m_parity_en c = true /\ m_parity_even c = true.
Proof.
  assert (H : 0 <= 0x1D000D39 < 2 ^ 32) by lia.
  destruct (uart_setup_wf init 0x1D000D39 H) as (H1 & H2 & H3 & H4 & H5 & H6 & _).
  split; [exact H1|]. split; [exact H2|]. split; [exact H3|]. split; [exact H4|].
  split; [exact H5|exact H6].
Defined.
