(* ===== verification/SoftUARTFacts.v ===== *)
(** * SoftUART: correctness of the soft UART

    The receiver is characterised by the instants at which it samples the
    line ([rx_frame]); the transmitter by the waveform it emits
    ([tx_frame]).  Loop-back, the tolerance to a sender with a different bit
    period, and what is read beyond it ([rx_any_period]) follow. *)

From S2P Require Import Prelude SoftUART.
Import SoftUART.
#[local] Open Scope c_scope.

(** ** Bits *)

Lemma gather_spec f n k :
  Z.testbit (gather f n) (Z.of_nat k) = (k <? n)%nat && f k.
Proof.
  induction n as [|n IH]; [apply Z.bits_0|]. cbn [gather].
  destruct (decide (k = n)) as [->|Hne].
  - rewrite (proj2 (Nat.ltb_lt n (S n))) by lia.
    rewrite (proj2 (Nat.ltb_ge n n)) in IH by lia. simpl in *.
    destruct (f n); [|done]. rewrite Z.lor_spec, IH, Z.shiftl_spec, Z.sub_diag by lia.
    done.
  - replace (k <? S n)%nat with (k <? n)%nat.
    2: { destruct (Nat.ltb_spec k n), (Nat.ltb_spec k (S n)); lia. }
    rewrite <- IH. destruct (f n); [|done].
    rewrite Z.lor_spec, Z.shiftl_spec by lia.
    change 1 with (2 ^ 0). rewrite Z.pow2_bits_false by lia. apply orb_false_r.
Qed.

Lemma gather_range f n : 0 <= gather f n < 2 ^ Z.of_nat n.
Proof.
  induction n as [|n IH]; [done|]. cbn [gather].
  assert (Hp : 2 ^ Z.of_nat (S n) = 2 * 2 ^ Z.of_nat n)
    by (rewrite Nat2Z.inj_succ, Z.pow_succ_r; lia).
  destruct (f n); [|lia].
  rewrite Z.shiftl_1_l, <- Z.lxor_lor, <- Z.add_nocarry_lxor.
  - lia.
  - rewrite land_pow2_testbit, (testbit_small _ (Z.of_nat n)) by lia. done.
  - rewrite land_pow2_testbit, (testbit_small _ (Z.of_nat n)) by lia. done.
Qed.

Lemma gather_ext f g n :
  (forall k, (k < n)%nat -> f k = g k) -> gather f n = gather g n.
Proof.
  induction n as [|n IH]; intros H; [done|]. cbn [gather].
  rewrite H, IH by (intros; try apply H; lia). done.
Qed.

Lemma bit_testbit b k : 0 <= k -> bit b k = Z.testbit b k.
Proof.
  intros Hk. unfold bit. rewrite testbit_b2z_land1 by done.
  by destruct (Z.testbit b k).
Qed.

(** Gathering the bits of [b] gives its low [n] bits. *)
Lemma gather_bits b n :
  gather (fun k => bit b (Z.of_nat k)) n = b mod 2 ^ Z.of_nat n.
Proof.
  rewrite <- Z.land_ones by lia. apply Z.bits_inj'. intros i Hi.
  replace i with (Z.of_nat (Z.to_nat i)) by lia. rewrite gather_spec.
  rewrite Z.land_spec, bit_testbit by lia.
  destruct (Nat.ltb_spec (Z.to_nat i) n).
  - by rewrite Z.ones_spec_low, andb_true_r by lia.
  - by rewrite Z.ones_spec_high, andb_false_r by lia.
Qed.

(** ** The receiver *)

Section Receiver.
Context (c : Config) (line : nat -> bool).
Context (Hwf : wf_cfg c).

#[local] Abbreviation n := (Z.to_nat (m_clocks_per_baud c)).
#[local] Abbreviation P := (period c).
#[local] Abbreviation db := (Z.to_nat (m_data_bits c)).

(** The fields of the receiver that matter between bits. *)
Definition rx_at (r : Rx) st cnt idx sh fe : Prop :=
  m_rx_state r = st /\ m_rx_counter r = cnt /\ m_rx_bit_index r = idx /\
  m_rx_shift r = sh /\ m_rx_frame_error r = fe.

(** A tick with a pending counter only decrements it. *)
Lemma rx_count r st cnt idx sh fe pin :
  st <> RxState.IDLE -> 0 < cnt -> rx_at r st cnt idx sh fe ->
  exists r', rx_step c r pin = (r', None) /\ rx_at r' st (cnt - 1) idx sh fe.
Proof.
  intros Hst Hc (<-&<-&<-&<-&<-). unfold rx_step, rx_tick. simpl.
  rewrite (proj2 (Z.gtb_lt _ 0)) by lia.
  destruct (m_rx_state r) eqn:E; [done|..]; simpl;
    eexists; (split; [done|]); by repeat split.
Qed.

Lemma rx_wait k a r st idx sh fe :
  st <> RxState.IDLE -> rx_at r st (Z.of_nat k) idx sh fe ->
  exists r', rx_run c r (line <$> seq a k) = (r', replicate k None) /\
    rx_at r' st 0 idx sh fe.
Proof.
  intros Hst. revert a r. induction k as [|k IH]; intros a r Hr.
  { by exists r. }
  destruct (rx_count r st (Z.of_nat (S k)) idx sh fe (line a) Hst ltac:(lia) Hr) as (r1&E1&Hr1).
  replace (Z.of_nat (S k) - 1) with (Z.of_nat k) in Hr1 by lia.
  destruct (IH (S a) r1 Hr1) as (r2&E2&Hr2).
  exists r2. split; [|done]. by eapply run_cons.
Qed.

(** A full bit period in a non-idle state: [n] ticks of countdown, then
    one tick with the counter at zero. *)
Lemma rx_period a r st idx sh fe r2 o :
  st <> RxState.IDLE -> rx_at r st (m_clocks_per_baud c) idx sh fe ->
  (forall r1, rx_at r1 st 0 idx sh fe -> exists r', 
     rx_step c r1 (line (a + n)%nat) = (r', o) /\ r2 r') ->
  exists r', rx_run c r (line <$> seq a P) = (r', replicate n None ++ [o]) /\ r2 r'.
Proof.
  intros Hst Hr Hstep. destruct Hwf as (?&?&?).
  destruct (rx_wait n a r st idx sh fe Hst) as (r1&E1&Hr1).
  { by replace (Z.of_nat n) with (m_clocks_per_baud c) by lia. }
  destruct (Hstep r1 Hr1) as (r'&E&H'). exists r'. split; [|done].
  unfold period. rewrite seq_S, fmap_app. by eapply run_snoc.
Qed.

Definition after_data : RxState.t :=
  if m_parity_en c then RxState.PARITY else RxState.STOP.

Lemma rx_data_bit a r idx sh fe :
  0 <= idx ->
  rx_at r RxState.DATA (m_clocks_per_baud c) idx sh fe ->
  exists r', rx_run c r (line <$> seq a P) = (r', replicate P None) /\
    rx_at r' (if idx + 1 >=? m_data_bits c then after_data else RxState.DATA)
      (m_clocks_per_baud c) (idx + 1)
      (if line (a + n)%nat then u8 (sh ||| (1 <<< idx)) else sh) fe.
Proof.
  intros Hidx Hr.
  replace (replicate P None) with (replicate n None ++ [@None (Z * bool)])
    by (symmetry; apply replicate_S_end).
  eapply rx_period; [|exact Hr|]; [done|].
  intros r1 (E1&E2&E3&E4&E5). unfold rx_step, rx_tick. simpl. rewrite E1, E2. simpl.
  destruct (line _); simpl; rewrite E3; unfold after_data;
    destruct (idx + 1 >=? _); simpl; eexists; (split; [done|]);
    repeat split; simpl; congruence.
Qed.

Lemma rx_data_bits k a r :
  (k <= db)%nat ->
  rx_at r RxState.DATA (m_clocks_per_baud c) 0 0 false ->
  exists r', rx_run c r (line <$> seq a (k * P)) = (r', replicate (k * P) None) /\
    rx_at r' (if (k <? db)%nat then RxState.DATA else after_data)
      (m_clocks_per_baud c) (Z.of_nat k)
      (gather (fun i => line (a + i * P + n)%nat) k) false.
Proof.
  destruct Hwf as (?&?&?). intros Hk Hr. induction k as [|k IH].
  { exists r. split; [done|].
    rewrite (proj2 (Nat.ltb_lt 0 db)) by lia. done. }
  destruct IH as (r1&E1&Hr1); [lia|].
  rewrite (proj2 (Nat.ltb_lt k db)) in Hr1 by lia.
  destruct (rx_data_bit (a + k * P) r1 (Z.of_nat k) _ _ ltac:(lia) Hr1) as (r2&E2&Hr2).
  exists r2. split.
  - replace (S k * P)%nat with (k * P + P)%nat by lia.
    rewrite seq_app, fmap_app, replicate_add.
    eapply run_seq; [exact E1|exact E2].
  - replace (Z.of_nat k + 1) with (Z.of_nat (S k)) in Hr2 by lia.
    replace (S k <? db)%nat with (negb (Z.of_nat (S k) >=? m_data_bits c)).
    2: { destruct (Nat.ltb_spec (S k) db); destruct (_ >=? _) eqn:E; simpl; lia. }
    cbn [gather].
    destruct (line (a + k * P + n)%nat); destruct (_ >=? _); simpl; try done.
    all: rewrite u8_small in Hr2; [done|].
    all: change 1 with (b2z true) in Hr2.
    all: pose proof (gather_range (fun i => if (i =? k)%nat then true
           else line (a + i * P + n)%nat) (S k)) as Hg.
    all: cbn [gather] in Hg; rewrite Nat.eqb_refl in Hg.
    all: rewrite (gather_ext _ (fun i => line (a + i * P + n)%nat)) in Hg
           by (intros i Hi; by rewrite (proj2 (Nat.eqb_neq i k)) by lia).
    all: assert (2 ^ Z.of_nat (S k) <= 2 ^ 8)
           by (apply Z.pow_le_mono_r; lia); lia.
Qed.

(** The offset, from the falling edge, of the tick that verifies the
    start bit; one period later the first data bit is sampled. *)
Definition start_sample : nat := S (Z.to_nat (m_clocks_per_baud c / 2)).
Definition parity_slots : nat := if m_parity_en c then 1 else 0.
(** The offset of the stop bit sample. *)
Definition stop_sample : nat :=
  (start_sample + (S db + parity_slots) * P)%nat.

Lemma start_sample_lt : (start_sample < P)%nat.
Proof.
  destruct Hwf as (?&_). unfold start_sample, period.
  pose proof (Z.div_lt (m_clocks_per_baud c) 2). lia.
Qed.

(** Start bit: from idle to the first data period. *)
Lemma rx_start a r :
  m_rx_state r = RxState.IDLE -> m_rx_last_pin r = true ->
  line a = false -> line (a + start_sample)%nat = false ->
  exists r', rx_run c r (line <$> seq a (S start_sample)) =
      (r', replicate (S start_sample) None) /\
    rx_at r' RxState.DATA (m_clocks_per_baud c) 0 0 false.
Proof.
  intros Hst Hlp Ha Hs. destruct Hwf as (?&_).
  assert (exists r1, rx_step c r (line a) = (r1, None) /\
    rx_at r1 RxState.START (m_clocks_per_baud c / 2) 0 0 false) as (r1&E1&Hr1).
  { unfold rx_step, rx_tick. simpl. rewrite Hst, Hlp, Ha. simpl.
    eexists. split; [done|]. by repeat split. }
  destruct (rx_wait (Z.to_nat (m_clocks_per_baud c / 2)) (S a) r1 RxState.START
    0 0 false) as (r2&E2&Hr2); [done| |].
  { rewrite Z2Nat.id; [done|]. apply Z.div_pos; lia. }
  assert (exists r3, rx_step c r2 (line (a + start_sample)%nat) = (r3, None) /\
    rx_at r3 RxState.DATA (m_clocks_per_baud c) 0 0 false) as (r3&E3&Hr3).
  { rewrite Hs. destruct Hr2 as (F1&F2&F3&F4&F5). unfold rx_step, rx_tick.
    simpl. rewrite F1, F2. simpl. eexists. split; [done|]. by repeat split. }
  exists r3. split; [|done].
  rewrite seq_S, fmap_app, replicate_S_end. eapply run_snoc; [|exact E3].
  unfold start_sample at 1 2. by eapply run_cons.
Qed.

Lemma rx_parity a r idx sh :
  rx_at r after_data (m_clocks_per_baud c) idx sh false ->
  exists r', rx_run c r (line <$> seq a (parity_slots * P)) =
      (r', replicate (parity_slots * P) None) /\
    rx_at r' RxState.STOP (m_clocks_per_baud c) idx sh false.
Proof.
  unfold after_data, parity_slots. intros Hr.
  destruct (m_parity_en c) eqn:E; [|by exists r].
  rewrite Nat.mul_1_l.
  replace (replicate P None) with (replicate n None ++ [@None (Z * bool)])
    by (symmetry; apply replicate_S_end).
  eapply rx_period; [|exact Hr|]; [done|].
  intros r1 (E1&E2&E3&E4&E5). unfold rx_step, rx_tick. simpl. rewrite E1, E2. simpl.
  eexists. split; [done|]. by repeat split.
Qed.

Lemma rx_stop a r idx sh :
  rx_at r RxState.STOP (m_clocks_per_baud c) idx sh false ->
  exists r', rx_run c r (line <$> seq a P) =
      (r', replicate n None ++ [Some (sh, negb (line (a + n)%nat))]) /\
    m_rx_state r' = RxState.IDLE /\ m_rx_last_pin r' = line (a + n)%nat.
Proof.
  intros Hr. eapply rx_period; [|exact Hr|]; [done|].
  intros r1 (E1&E2&E3&E4&E5). unfold rx_step, rx_tick. simpl. rewrite E1, E2. simpl.
  destruct (line _); simpl; rewrite E4, ?E5; eexists; (split; [done|]); done.
Qed.

(** The receiver's contract: it delivers one byte per frame, made of the
    levels of the line at the sampling instants. *)
Lemma rx_frame a r :
  m_rx_state r = RxState.IDLE -> m_rx_last_pin r = true ->
  line a = false -> line (a + start_sample)%nat = false ->
  exists r', rx_run c r (line <$> seq a (S stop_sample)) =
      (r', replicate stop_sample None ++
           [Some (gather (fun k => line (a + start_sample + S k * P)%nat) db,
                  negb (line (a + stop_sample)%nat))]) /\
    m_rx_state r' = RxState.IDLE /\
    m_rx_last_pin r' = line (a + stop_sample)%nat.
Proof.
  intros Hst Hlp Ha Hs.
  destruct (rx_start a r) as (r1&E1&Hr1); [done..|].
  destruct (rx_data_bits db (a + S start_sample) r1) as (r2&E2&Hr2); [done..|].
  rewrite Nat.ltb_irrefl in Hr2.
  destruct (rx_parity (a + S start_sample + db * P) r2 _ _ Hr2) as (r3&E3&Hr3).
  destruct (rx_stop (a + S start_sample + db * P + parity_slots * P) r3 _ _ Hr3)
    as (r4&E4&Hi&Hl).
  assert (Hlen : S stop_sample =
    (S start_sample + (db * P + (parity_slots * P + P)))%nat)
    by (unfold stop_sample; lia).
  assert (Hpos : (a + stop_sample)%nat =
    (a + S start_sample + db * P + parity_slots * P + n)%nat)
    by (unfold stop_sample, period in *; lia).
  exists r4. rewrite Hpos. split; [|done].
  replace (replicate stop_sample None) with
    (replicate (S start_sample) None ++ replicate (db * P) None ++
     replicate (parity_slots * P) None ++ replicate n (@None (Z * bool))).
  2: { rewrite <- !replicate_add. f_equal. unfold stop_sample, period. lia. }
  rewrite Hlen, !seq_app, !fmap_app, <- !app_assoc.
  rewrite (gather_ext _ (fun i => line (a + S start_sample + i * P + n)%nat))
    by (intros k Hk; f_equal; unfold period; lia).
  eapply run_seq; [exact E1|]. eapply run_seq; [exact E2|].
  eapply run_seq; [exact E3|]. exact E4.
Qed.

End Receiver.

(** An idle receiver on a high line stays idle. *)
Lemma rx_idle_high c r k :
  m_rx_state r = RxState.IDLE -> m_rx_last_pin r = true ->
  exists r', rx_run c r (replicate k true) = (r', replicate k None) /\
    m_rx_state r' = RxState.IDLE /\ m_rx_last_pin r' = true.
Proof.
  revert r. induction k as [|k IH]; intros r Hst Hlp; [by exists r|].
  assert (exists r1, rx_step c r true = (r1, None) /\
    m_rx_state r1 = RxState.IDLE /\ m_rx_last_pin r1 = true) as (r1&E1&H1&H2).
  { unfold rx_step, rx_tick. simpl. rewrite Hst, andb_false_r. simpl. by eexists. }
  destruct (IH r1 H1 H2) as (r2&E2&?). exists r2. split; [|done]. by eapply run_cons.
Qed.

(** ** The transmitter *)

Lemma wave_app p l1 l2 : wave p (l1 ++ l2) = wave p l1 ++ wave p l2.
Proof. unfold wave. by rewrite fmap_app, join_app. Qed.

Lemma wave_cons p l ls : wave p (l :: ls) = replicate p l ++ wave p ls.
Proof. done. Qed.

Lemma wave_one p l : wave p [l] = replicate p l.
Proof. rewrite wave_cons. apply app_nil_r. Qed.

Lemma wave_length p ls : length (wave p ls) = (length ls * p)%nat.
Proof.
  induction ls as [|l ls IH]; [done|].
  rewrite wave_cons, length_app, length_replicate, IH. simpl. lia.
Qed.

(** The level of a waveform [j] ticks into its [i]-th bit. *)
Lemma wave_lookup p ls i j l rest :
  (j < p)%nat -> ls !! i = Some l ->
  (wave p ls ++ rest) !! (i * p + j)%nat = Some l.
Proof.
  intros Hj. revert i. induction ls as [|l0 ls IH]; intros i Hi; [done|].
  rewrite wave_cons, <- app_assoc. destruct i as [|i]; simpl in Hi.
  - injection Hi as ->. rewrite lookup_app_l by (rewrite length_replicate; lia).
    by rewrite lookup_replicate_2 by lia.
  - rewrite lookup_app_r by (rewrite length_replicate; lia).
    rewrite length_replicate.
    replace (S i * p + j - p)%nat with (i * p + j)%nat by lia. by apply IH.
Qed.

Section Transmitter.
Context (c : Config) (Hwf : wf_cfg c).

#[local] Abbreviation n := (Z.to_nat (m_clocks_per_baud c)).
#[local] Abbreviation P := (period c).
#[local] Abbreviation db := (Z.to_nat (m_data_bits c)).

Lemma tx_run_seq x x1 x2 k1 k2 o1 o2 :
  tx_run c x k1 = (x1, o1) -> tx_run c x1 k2 = (x2, o2) ->
  tx_run c x (k1 + k2) = (x2, o1 ++ o2).
Proof. intros H1 H2. unfold tx_run. rewrite replicate_add. by eapply run_seq. Qed.

Lemma tx_hold k st idx sh pin sc q :
  st <> TxState.IDLE ->
  tx_run c (mkTx st (Z.of_nat k) idx sh pin sc q) k =
  (mkTx st 0 idx sh pin sc q, replicate k pin).
Proof.
  intros Hst. unfold tx_run. induction k as [|k IH]; [done|].
  eapply run_cons; [|exact IH]. unfold tx_step, tx_tick. cbn [m_tx_state m_tx_counter].
  rewrite (proj2 (Z.gtb_lt _ 0)) by lia.
  replace (Z.of_nat k) with (Z.of_nat (S k) - 1) by lia. by destruct st.
Qed.

(** One bit period: a transition that loads the counter, then the
    countdown. *)
Lemma tx_phase x st idx sh pin sc q :
  st <> TxState.IDLE ->
  tx_tick c x = (mkTx st (m_clocks_per_baud c) idx sh pin sc q, pin) ->
  tx_run c x P = (mkTx st 0 idx sh pin sc q, replicate P pin).
Proof.
  intros Hst H. destruct Hwf as (?&_). unfold tx_run, period. cbn [replicate].
  eapply run_cons; [exact H|].
  pose proof (tx_hold n st idx sh pin sc q Hst) as Hh.
  by rewrite Z2Nat.id in Hh by lia.
Qed.

Lemma tx_data k sh sc q :
  (k < db)%nat ->
  tx_run c (mkTx TxState.START 0 0 sh false sc q) (S k * P) =
  (mkTx TxState.DATA 0 (Z.of_nat k) sh (bit sh (Z.of_nat k)) sc q,
   wave P ((fun i => bit sh (Z.of_nat i)) <$> seq 0 (S k))).
Proof.
  induction k as [|k IH]; intros Hk.
  - rewrite Nat.mul_1_l. 
    change (_ <$> seq 0 1) with [bit sh 0]; rewrite (wave_one P).
    by apply tx_phase.
  - replace (S (S k) * P)%nat with (S k * P + P)%nat by lia.
    rewrite seq_S, fmap_app, wave_app.
    eapply tx_run_seq; [apply IH; lia|].
    change (?f <$> [?a]) with [f a]. rewrite wave_one. apply tx_phase; [done|].
    unfold tx_tick. cbn -[Z.add Z.geb].
    replace (Z.of_nat k + 1) with (Z.of_nat (S k)) by lia.
    destruct (_ >=? _) eqn:E; [lia|done].
Qed.

Lemma tx_stops k idx sh sc q :
  Z.of_nat k + sc + 1 = m_stop_bits c -> 0 <= sc ->
  tx_run c (mkTx TxState.STOP 0 idx sh true sc q) (k * P + 1) =
  (mkTx TxState.IDLE 0 idx sh true (m_stop_bits c) q,
   wave P (replicate k true) ++ [true]).
Proof.
  revert sc. induction k as [|k IH]; intros sc Hk Hsc.
  - unfold tx_run, run. simpl. unfold tx_tick. cbn -[Z.add Z.geb].
    destruct (_ >=? _) eqn:E; [|lia]. simpl. 
    by replace (sc + 1) with (m_stop_bits c) by lia.
  - replace (S k * P + 1)%nat with (P + (k * P + 1))%nat by lia.
    change (replicate (S k) true) with ([true] ++ replicate k true).
    rewrite wave_app, <- app_assoc. eapply tx_run_seq.
    + rewrite wave_one.
      apply (tx_phase _ TxState.STOP idx sh true (sc + 1) q); [done|].
      unfold tx_tick. cbn -[Z.add Z.geb]. by destruct (_ >=? _) eqn:E; [lia|].
    + apply IH; lia.
Qed.

(** From the last data bit to the start of the stop bits. *)
Lemma tx_tail sh pin sc q :
  exists st,
  tx_run c (mkTx TxState.DATA 0 (m_data_bits c - 1) sh pin sc q)
    (((if m_parity_en c then 1 else 0) + 1) * P) =
  (mkTx TxState.STOP 0 (m_data_bits c) sh true st q,
   wave P ((if m_parity_en c then [parity_pin c sh] else []) ++ [true])) /\ st = 0.
Proof.
  exists 0. split; [|done]. destruct (m_parity_en c) eqn:E.
  - replace ((1 + 1) * P)%nat with (P + P)%nat by lia. rewrite wave_app.
    rewrite ?app_nil_l, !wave_one. eapply tx_run_seq.
    + apply (tx_phase _ TxState.PARITY (m_data_bits c) sh (parity_pin c sh) sc q); [done|].
      unfold tx_tick. cbn -[Z.add Z.geb Z.sub parity_pin]. rewrite E.
      replace (m_data_bits c - 1 + 1) with (m_data_bits c) by lia.
      by destruct (_ >=? _) eqn:?; [|lia].
    + by apply tx_phase.
  - rewrite Nat.mul_1_l. rewrite ?app_nil_l, !wave_one.
    apply tx_phase; [done|].
    unfold tx_tick. cbn -[Z.add Z.geb Z.sub]. rewrite E.
    replace (m_data_bits c - 1 + 1) with (m_data_bits c) by lia.
    by destruct (_ >=? _) eqn:?; [|lia].
Qed.

(** The counting loop computes the parity. *)
Lemma count_ones_parity sh n :
  Z.odd (count_ones sh n) = foldl xorb false ((fun k => Z.testbit sh (Z.of_nat k)) <$> seq 0 n).
Proof.
  unfold count_ones. induction n as [|n IH]; [done|].
  rewrite seq_S, fmap_app, !foldl_app. cbn [foldl fmap list_fmap]. rewrite <- IH.
  fold (count_ones sh n). rewrite testbit_b2z_land1 by lia. cbn [Nat.add].
  destruct (Z.testbit sh (Z.of_nat n)); cbn [b2z Z.eqb Pos.eqb].
  - rewrite Z.add_1_r, Z.odd_succ, <- Z.negb_odd. by destruct (Z.odd _).
  - by destruct (Z.odd _).
Qed.

Lemma parity_pin_level b : parity_pin c b = parity_level c b.
Proof.
  unfold parity_pin, parity_level, data_levels. rewrite <- count_ones_parity.
  assert (E : forall o, (o &&& 1 =? 0) = negb (Z.odd o)).
  { intros o. rewrite <- (Z.shiftr_0_r o) at 1. rewrite testbit_b2z_land1 by lia.
    rewrite Z.bit0_odd. by destruct (Z.odd o). }
  rewrite E. by destruct (m_parity_even c), (Z.odd _).
Qed.

(** The frame in the terms of the transmitter. *)
Lemma frame_levels_code b :
  frame_levels c b = false :: ((fun k => bit b (Z.of_nat k)) <$> seq 0 (Z.to_nat (m_data_bits c)))
    ++ (if m_parity_en c then [parity_pin c b] else []) ++ replicate (Z.to_nat (m_stop_bits c)) true.
Proof.
  unfold frame_levels. rewrite parity_pin_level. do 2 f_equal. unfold data_levels.
  apply list_fmap_ext. intros i x _. by rewrite bit_testbit by lia.
Qed.

Lemma frame_levels_length b :
  length (frame_levels c b) =
  (1 + db + (if m_parity_en c then 1 else 0) + Z.to_nat (m_stop_bits c))%nat.
Proof.
  unfold frame_levels, data_levels. simpl.
  rewrite !length_app, length_fmap, length_seq, length_replicate.
  destruct (m_parity_en c); simpl; lia.
Qed.

Lemma frame_wave_length b :
  length (frame_wave c b) =
  ((1 + db + (if m_parity_en c then 1 else 0) + Z.to_nat (m_stop_bits c)) * P + 1)%nat.
Proof.
  unfold frame_wave. rewrite length_app, wave_length, frame_levels_length.
  simpl. lia.
Qed.

(** One queued byte puts one frame on the line. *)
Lemma tx_frame cnt idx sh pin sc b q :
  exists x, tx_run c (mkTx TxState.IDLE cnt idx sh pin sc (b :: q))
      (length (frame_wave c b)) = (x, frame_wave c b) /\
    m_tx_state x = TxState.IDLE /\ m_tx_pin x = true /\ m_tx_queue x = q.
Proof.
  destruct Hwf as (?&?&?).
  exists (mkTx TxState.IDLE 0 (m_data_bits c) b true (m_stop_bits c) q).
  split; [|done].
  rewrite frame_wave_length. unfold frame_wave. rewrite frame_levels_code.
  destruct (tx_tail b (bit b (Z.of_nat (db - 1))) sc q) as (st&Ht&->).
  replace (m_data_bits c - 1) with (Z.of_nat (db - 1)) in Ht by lia.
  pose proof (tx_data (db - 1) b sc q ltac:(lia)) as Hd.
  replace (S (db - 1)) with db in Hd by lia.
  destruct (Z.to_nat (m_stop_bits c)) as [|s] eqn:Es; [lia|].
  pose proof (tx_stops s (m_data_bits c) b 0 q ltac:(lia) ltac:(lia)) as Hs.
  assert (Ha : tx_run c (mkTx TxState.IDLE cnt idx sh pin sc (b :: q)) P =
    (mkTx TxState.START 0 0 b false sc q, replicate P false))
    by (by apply tx_phase).
  pose proof (tx_run_seq _ _ _ _ _ _ _ Ha (tx_run_seq _ _ _ _ _ _ _ Hd
    (tx_run_seq _ _ _ _ _ _ _ Ht Hs))) as H'.
  match type of H' with tx_run _ _ ?a = _ =>
    match goal with |- tx_run _ _ ?b = _ =>
      replace b with a by (destruct (m_parity_en c); lia) end end.
  rewrite H'. f_equal.
  change (replicate (S s) true) with ([true] ++ replicate s true).
  rewrite wave_cons, !wave_app, <- !app_assoc.
  done.
Qed.
End Transmitter.

(** ** Receiving a waveform *)

Lemma map_nth_seq {A} (l : list A) d : (fun i => nth i l d) <$> seq 0 (length l) = l.
Proof.
  apply (nth_ext _ _ d d); rewrite length_fmap, length_seq; [done|].
  intros i Hi. rewrite (nth_indep _ d (nth 0 l d)) by (rewrite length_fmap, length_seq; lia).
  change (nth 0 l d) with ((fun i => nth i l d) 0%nat) at 1.
  change (fmap ?f ?x) with (map f x). rewrite map_nth, seq_nth by done. done.
Qed.

Lemma fmap_const_seq {A} (f : nat -> A) a n v :
  (forall i, (a <= i < a + n)%nat -> f i = v) -> f <$> seq a n = replicate n v.
Proof.
  revert a. induction n as [|n IH]; intros a H; [done|]. simpl. f_equal.
  - apply H. lia.
  - apply IH. intros i Hi. apply H. lia.
Qed.

Lemma nth_replicate_same {A} (v : A) k i : nth i (replicate k v) v = v.
Proof. revert i. induction k; intros [|i]; simpl; auto. Qed.

Lemma omap_none {B} (l : list (option B)) :
  Forall (fun x => x = None) l -> omap (M := list) (A := option B) id l = [].
Proof. induction 1 as [|x l -> ? IH]; [done|]. simpl. exact IH. Qed.

(** Levels of the frame by position. *)
Lemma frame_levels_data c b i :
  (i < Z.to_nat (m_data_bits c))%nat ->
  frame_levels c b !! S i = Some (bit b (Z.of_nat i)).
Proof.
  intros Hi. unfold frame_levels. simpl.
  rewrite lookup_app_l by (unfold data_levels; rewrite length_fmap, length_seq; lia).
  unfold data_levels. rewrite list_lookup_fmap, lookup_seq_lt by lia.
  simpl. by rewrite bit_testbit by lia.
Qed.

Lemma frame_levels_stop c b i :
  (S (Z.to_nat (m_data_bits c)) + parity_slots c <= i < length (frame_levels c b))%nat ->
  frame_levels c b !! i = Some true.
Proof.
  rewrite frame_levels_length. unfold parity_slots. intros Hi.
  destruct i as [|i]; [lia|]. unfold frame_levels. simpl.
  rewrite lookup_app_r by (unfold data_levels; rewrite length_fmap, length_seq; lia).
  unfold data_levels. rewrite length_fmap, length_seq.
  destruct (m_parity_en c).
  - rewrite lookup_app_r by (simpl; lia). apply lookup_replicate_2. simpl. lia.
  - rewrite app_nil_l. apply lookup_replicate_2. lia.
Qed.

Section Waveform.
Context (c : Config) (Hwf : wf_cfg c).
(** The sender's bit period, at most the receiver's; the drift
    accumulated at the stop bit stays within a bit. *)
Context (p : nat) (Hp : (p <= period c)%nat).
#[local] Abbreviation P := (period c).
#[local] Abbreviation db := (Z.to_nat (m_data_bits c)).
#[local] Abbreviation slots := (S db + parity_slots c)%nat.
Context (Hdrift : (start_sample c + slots * (P - p) < p)%nat).

Lemma sample_slot j : (j <= slots)%nat ->
  exists o, (start_sample c + j * P = j * p + o)%nat /\ (o < p)%nat.
Proof.
  intros Hj. exists (start_sample c + j * (P - p))%nat. split; [nia|].
  assert (j * (P - p) <= slots * (P - p))%nat by (apply Nat.mul_le_mono_r; lia).
  lia.
Qed.

(** The line carrying one frame, and [rest], which is high. *)
Lemma wave_line b rest j :
  (j <= slots)%nat ->
  forall l, frame_levels c b !! j = Some l ->
  nth (start_sample c + j * P) (wave p (frame_levels c b) ++ rest) true = l.
Proof.
  intros Hj l Hl. destruct (sample_slot j Hj) as (o&->&Ho).
  apply nth_lookup_Some. by apply wave_lookup.
Qed.

Lemma wave_tail b k i :
  (start_sample c + slots * P <= i)%nat ->
  nth i (wave p (frame_levels c b) ++ replicate k true) true = true.
Proof.
  intros Hi. destruct (sample_slot slots (le_n _)) as (o&Heq&Ho).
  pose proof (wave_length p (frame_levels c b)) as Hlen.
  destruct (Nat.lt_ge_cases i (length (wave p (frame_levels c b)))) as [Hlt|Hge].
  - assert (Hip : (0 < p)%nat) by lia.
    pose proof (Nat.div_mod i p ltac:(lia)) as Hd.
    pose proof (Nat.mod_upper_bound i p ltac:(lia)).
    assert (slots <= i / p)%nat by (apply Nat.div_le_lower_bound; lia).
    assert (i / p < length (frame_levels c b))%nat
      by (apply Nat.Div0.div_lt_upper_bound; lia).
    apply nth_lookup_Some.
    replace i with (i / p * p + i mod p)%nat at 1 by lia.
    apply wave_lookup; [done|]. apply frame_levels_stop. lia.
  - rewrite app_nth2 by lia. apply nth_replicate_same.
Qed.

(** The receiver decodes a frame sent with bit period [p]. *)
Lemma rx_wave b k r :
  m_rx_state r = RxState.IDLE -> m_rx_last_pin r = true ->
  exists r' os, rx_run c r (wave p (frame_levels c b) ++ replicate k true) = (r', os) /\
    delivered os = [(b mod 2 ^ m_data_bits c, false)] /\
    m_rx_state r' = RxState.IDLE /\ m_rx_last_pin r' = true.
Proof.
  intros Hst Hlp. destruct Hwf as (?&?&?).
  set (fw := wave p (frame_levels c b) ++ replicate k true).
  set (line := fun i => nth i fw true).
  assert (Hlen : (S (stop_sample c) <= length fw)%nat).
  { unfold fw. rewrite length_app, wave_length, frame_levels_length.
    destruct (sample_slot slots (le_n _)) as (o&Heq&?). unfold stop_sample.
    rewrite Heq. unfold parity_slots in *. nia. }
  assert (Hlow : frame_levels c b !! 0%nat = Some false) by done.
  destruct (rx_frame c line Hwf 0 r Hst Hlp) as (r1&E1&Hi1&Hl1).
  { unfold line, fw. pose proof (wave_lookup p (frame_levels c b) 0 0 false
      (replicate k true) ltac:(lia) Hlow) as Hw. by apply nth_lookup_Some. }
  { rewrite Nat.add_0_l. pose proof (wave_line b (replicate k true) 0 ltac:(lia) _ Hlow) as Hw.
    by rewrite Nat.add_0_r in Hw. }
  assert (Hstop : line (0 + stop_sample c)%nat = true)
    by (apply wave_tail; unfold stop_sample; lia).
  rewrite Hstop in *.
  assert (Hfw : fw = (line <$> seq 0 (S (stop_sample c))) ++
    replicate (length fw - S (stop_sample c)) true).
  { rewrite <- (map_nth_seq fw true) at 1.
    replace (length fw) with (S (stop_sample c) + (length fw - S (stop_sample c)))%nat
      at 1 by lia.
    rewrite seq_app, fmap_app. f_equal. apply fmap_const_seq.
    intros i Hi. apply wave_tail. unfold stop_sample in *. lia. }
  destruct (rx_idle_high c r1 (length fw - S (stop_sample c)) Hi1 Hl1)
    as (r2&E2&Hi2&Hl2).
  exists r2. eexists. split; [rewrite Hfw; by eapply run_seq|].
  split; [|done]. unfold delivered.
  rewrite !omap_app, (omap_none (replicate (stop_sample c) None))
    by (by apply Forall_replicate).
  rewrite (omap_none (replicate (length fw - _) None)) by (by apply Forall_replicate).
  cbn [omap list_omap id app negb]. do 2 f_equal.
  pose proof (gather_bits b db) as Hg. rewrite Z2Nat.id in Hg by lia. rewrite <- Hg.
  apply gather_ext. intros i Hi. rewrite Nat.add_0_l.
  apply wave_line; [lia|]. by apply frame_levels_data.
Qed.

(** Frames sent back to back with bit period [p]. *)
Lemma rx_waves bs k r :
  m_rx_state r = RxState.IDLE -> m_rx_last_pin r = true ->
  exists r' os,
    rx_run c r (mjoin ((fun b => wave p (frame_levels c b) ++ replicate k true) <$> bs)) = (r', os) /\
    delivered os = (fun b => (b mod 2 ^ m_data_bits c, false)) <$> bs /\
    m_rx_state r' = RxState.IDLE /\ m_rx_last_pin r' = true.
Proof.
  revert r. induction bs as [|b bs IH]; intros r Hst Hlp; [by exists r, []|].
  destruct (rx_wave b k r Hst Hlp) as (r1&os1&E1&D1&Hi1&Hl1).
  destruct (IH r1 Hi1 Hl1) as (r2&os2&E2&D2&?).
  exists r2, (os1 ++ os2). split; [by eapply run_seq|]. split; [|done].
  unfold delivered in *. rewrite omap_app, D1, D2. done.
Qed.
End Waveform.

(** ** Drift *)

(** The level of the line at a tick: that of the bit it falls in, and high
    behind the frame. *)
Lemma wave_nth p ls k t : (0 < p)%nat ->
  nth t (wave p ls ++ replicate k true) true = nth (t / p) ls true.
Proof.
  intros Hp. pose proof (wave_length p ls) as Hlen.
  pose proof (Nat.div_mod t p ltac:(lia)) as Hd.
  pose proof (Nat.mod_upper_bound t p ltac:(lia)) as Hm.
  destruct (Nat.lt_ge_cases (t / p) (length ls)) as [Hlt|Hge].
  - destruct (lookup_lt_is_Some_2 ls (t / p) Hlt) as [l Hl].
    rewrite (nth_lookup_Some ls _ _ _ Hl). apply nth_lookup_Some.
    replace t with (t / p * p + t mod p)%nat at 1 by lia. by apply wave_lookup.
  - rewrite (nth_overflow ls) by lia.
    assert (length ls * p <= t)%nat by nia.
    rewrite app_nth2 by lia. apply nth_replicate_same.
Qed.

(** What the receiver makes of a byte sent with bit period [p]: data bit [i]
    is the level of the sender's bit its sampling instant falls in. *)
Definition read_as (c : Config) (p : nat) (b : Z) : Z :=
  gather (fun i => nth ((start_sample c + S i * period c) / p) (frame_levels c b) true)
    (Z.to_nat (m_data_bits c)).

(** A frame from a sender no slower than the receiver, then a high line. *)
Lemma rx_any_period c p b k : wf_cfg c ->
  (start_sample c < p <= period c)%nat ->
  (stop_sample c < length (wave p (frame_levels c b) ++ replicate k true))%nat ->
  exists r os, rx_run c init_rx (wave p (frame_levels c b) ++ replicate k true) = (r, os) /\
    delivered os = [(read_as c p b, false)].
Proof.
  intros Hwf [Hs Hp] Hlen. set (fw := wave p (frame_levels c b) ++ replicate k true) in *.
  assert (Hp0 : (0 < p)%nat) by lia.
  assert (Hline : forall t, nth t fw true = nth (t / p) (frame_levels c b) true)
    by (intros t; by apply wave_nth).
  assert (Htail : forall i, (stop_sample c <= i)%nat -> nth i fw true = true).
  { intros i Hi. rewrite Hline.
    assert (Hslot : (S (Z.to_nat (m_data_bits c)) + parity_slots c <= i / p)%nat).
    { apply Nat.div_le_lower_bound; [lia|]. unfold stop_sample in Hi.
      etransitivity; [|exact Hi]. rewrite (Nat.mul_comm p).
      pose proof (Nat.mul_le_mono_l p (period c)
        (S (Z.to_nat (m_data_bits c)) + parity_slots c)). lia. }
    destruct (Nat.lt_ge_cases (i / p) (length (frame_levels c b))) as [Hlt|Hge];
      [|by apply nth_overflow].
    apply nth_lookup_Some. by apply frame_levels_stop. }
  destruct (rx_frame c (fun i => nth i fw true) Hwf 0 init_rx) as (r1&E1&Hi1&Hl1); [done|done|..].
  { rewrite Hline, Nat.Div0.div_0_l. done. }
  { rewrite Hline, Nat.div_small by lia. done. }
  rewrite (Htail (0 + stop_sample c)%nat) in * by lia.
  assert (Hfw : fw = ((fun i => nth i fw true) <$> seq 0 (S (stop_sample c))) ++
    replicate (length fw - S (stop_sample c)) true).
  { rewrite <- (map_nth_seq fw true) at 1.
    replace (length fw) with (S (stop_sample c) + (length fw - S (stop_sample c)))%nat
      at 1 by lia.
    rewrite seq_app, fmap_app. f_equal. apply fmap_const_seq.
    intros i Hi. apply Htail. lia. }
  destruct (rx_idle_high c r1 (length fw - S (stop_sample c)) Hi1 Hl1) as (r2&E2&_).
  exists r2. eexists. split; [rewrite Hfw; by eapply run_seq|].
  unfold delivered. rewrite !omap_app, (omap_none (replicate (stop_sample c) None))
    by (by apply Forall_replicate).
  rewrite (omap_none (replicate (length fw - _) None)) by (by apply Forall_replicate).
  cbn [omap list_omap id app negb]. do 2 f_equal. unfold read_as.
  apply gather_ext. intros j Hj. by rewrite Hline, Nat.add_0_l.
Qed.

(** The drifted reading of a byte at 16 clocks per baud. *)
Definition cfg_16 : Config := mkConfig 16 8 1 false false.
Lemma read_as_16 b : 0 <= b < 256 ->
  read_as cfg_16 16 b = b mod 64 + 64 * (b / 128) + 128.
Proof.
  intros Hb. apply Z.eqb_eq.
  apply (forall_below (fun b => read_as cfg_16 16 b =? b mod 64 + 64 * (b / 128) + 128) 256);
    [by vm_compute|done].
Qed.

(** ** Loop-back *)

Lemma start_sample_period c : wf_cfg c ->
  (start_sample c + (S (Z.to_nat (m_data_bits c)) + parity_slots c) *
     (period c - period c) < period c)%nat.
Proof. intros Hwf. pose proof (start_sample_lt c Hwf). lia. Qed.

(** An idle transmitter with an empty queue holds the line high. *)
Lemma tx_idle c x k :
  m_tx_state x = TxState.IDLE -> m_tx_queue x = [] -> m_tx_pin x = true ->
  tx_run c x k = (x, replicate k true).
Proof.
  intros Hst Hq Hp. unfold tx_run. induction k as [|k IH]; [done|].
  eapply run_cons; [|exact IH]. unfold tx_step, tx_tick. by rewrite Hst, Hq, Hp.
Qed.

(** The waveform of a queue of bytes. *)
Definition queue_wave (c : Config) (bs : list Z) : list bool :=
  mjoin (frame_wave c <$> bs).

Lemma queue_wave_length c bs :
  length (queue_wave c bs) =
  (length bs * ((1 + Z.to_nat (m_data_bits c) + (if m_parity_en c then 1 else 0)
    + Z.to_nat (m_stop_bits c)) * period c + 1))%nat.
Proof.
  induction bs as [|b bs IH]; [done|].
  change (queue_wave c (b :: bs)) with (frame_wave c b ++ queue_wave c bs).
  rewrite length_app, IH, frame_wave_length. cbn [length]. lia.
Qed.

Lemma tx_queue_wave c bs x k :
  wf_cfg c ->
  m_tx_state x = TxState.IDLE -> m_tx_queue x = bs -> m_tx_pin x = true ->
  exists x', tx_run c x (length (queue_wave c bs) + k) =
      (x', queue_wave c bs ++ replicate k true) /\
    m_tx_state x' = TxState.IDLE /\ m_tx_queue x' = [].
Proof.
  intros Hwf. revert x. induction bs as [|b bs IH]; intros x Hst Hq Hp.
  { exists x. split; [|done]. by apply tx_idle. }
  destruct x as [st cnt idx sh pin sc q].
  cbn [m_tx_state m_tx_queue m_tx_pin] in *. subst.
  destruct (tx_frame c Hwf cnt idx sh true sc b bs) as (x1&E1&Hi&Hp1&Hq1).
  destruct (IH x1 Hi Hq1 Hp1) as (x2&E2&H2).
  exists x2. split; [|done].
  change (queue_wave c (b :: bs)) with (frame_wave c b ++ queue_wave c bs).
  rewrite length_app, <- Nat.add_assoc, <- app_assoc.
  exact (tx_run_seq c _ _ _ _ _ _ _ E1 E2).
Qed.

Lemma rx_queue_wave c bs r k :
  wf_cfg c -> m_rx_state r = RxState.IDLE -> m_rx_last_pin r = true ->
  exists r' os, rx_run c r (queue_wave c bs ++ replicate k true) = (r', os) /\
    delivered os = ((fun b => (b mod 2 ^ m_data_bits c, false)) <$> bs).
Proof.
  intros Hwf Hst Hlp.
  destruct (rx_waves c Hwf (period c) (le_n _) (start_sample_period c Hwf) bs 1 r
    Hst Hlp) as (r1&os&E&D&Hi&Hl).
  destruct (rx_idle_high c r1 k Hi Hl) as (r2&E2&_).
  exists r2. eexists. split; [by eapply run_seq|].
  unfold delivered in *. rewrite omap_app, D, (omap_none (replicate k None))
    by (by apply Forall_replicate). apply app_nil_r.
Qed.

(** Two UARTs, the transmit pin of [a] wired to the receive pin of [b]. *)
Definition link_step (ab : t * t) (_ : unit) : (t * t) * option (Z * bool) :=
  let '(a, pin) := TxTick ab.1 in
  let '(b, ready) := RxTick ab.2 pin in
  ((a, b), if ready then Some (RxByte b, RxFrameError b) else None).

Definition link_run (a b : t) (n : nat) := run link_step (a, b) (replicate n tt).

Lemma link_run_spec n a b x r pins os :
  tx_run (cfg a) (tx a) n = (x, pins) -> rx_run (cfg b) (rx b) pins = (r, os) ->
  exists ab, link_run a b n = (ab, os) /\
    ab.1 = a <| tx := x |> /\ ab.2 = b <| rx := r |>.
Proof.
  unfold link_run, tx_run, rx_run.
  revert a b pins os. induction n as [|n IH]; intros a b pins os Ht Hr.
  - injection Ht as <- <-. injection Hr as <- <-. exists (a, b).
    by destruct a, b.
  - change (replicate (S n) tt) with (tt :: replicate n tt) in *.
    unfold run in Ht; fold (run (tx_step (cfg a))) in Ht.
    unfold tx_step at 1 in Ht.
    destruct (tx_tick (cfg a) (tx a)) as [x1 pin] eqn:E1.
    destruct (run (tx_step (cfg a)) x1 _) as [x2 pins2] eqn:E2.
    injection Ht as <- <-.
    unfold run in Hr; fold (run (rx_step (cfg b))) in Hr.
    destruct (rx_step (cfg b) (rx b) pin) as [r1 o] eqn:E3.
    destruct (run (rx_step (cfg b)) r1 pins2) as [r2 os2] eqn:E4.
    injection Hr as <- <-.
    pose (a1 := a <| tx := x1 |>). pose (b1 := b <| rx := r1 |>).
    destruct (IH a1 b1 pins2 os2 E2 E4)
      as (ab&E&H1&H2).
    exists ab. split; [|done]. eapply run_cons; [|exact E].
    unfold link_step, TxTick, RxTick. cbn [fst snd]. rewrite E1.
    unfold rx_step in E3. destruct (rx_tick (cfg b) (rx b) pin) as [r1' rd] eqn:E5.
    injection E3 as -> <-. done.
Qed.

(** ** Properties *)

(** C7: over a direct link, whatever bytes are queued on one side, any
    well-formed 5- to 8-bit configuration delivers exactly these bytes (cut
    to the word length), in order, once, and without framing errors. *)
Theorem uart_link_delivers (c : Config) (Hwf : wf_cfg c) (bs : list Z) (k : nat)
    (a b : t)
    (Ha : cfg a = c /\ tx a = init_tx <| m_tx_queue := bs |>)
    (Hb : cfg b = c /\ rx b = init_rx) :
  exists ab os,
    link_run a b (length (queue_wave c bs) + k) = (ab, os) /\
    delivered os = ((fun x => (x mod 2 ^ m_data_bits c, false)) <$> bs) /\
    TxBusy ab.1 = false.
Proof.
  destruct Ha as [<- Hta], Hb as [Hcb Hrb].
  destruct (tx_queue_wave (cfg a) bs (tx a) k Hwf) as (x&Ex&Hi&Hq);
    [by rewrite Hta..|].
  destruct (rx_queue_wave (cfg a) bs (rx b) k Hwf) as (r&os&Er&D);
    [by rewrite Hrb..|]. rewrite <- Hcb in Er at 1.
  destruct (link_run_spec _ a b x r _ os Ex Er) as (ab&E&H1&_).
  exists ab, os. split; [done|]. split; [done|].
  rewrite H1. unfold TxBusy. simpl. by rewrite Hi, Hq.
Qed.

Lemma uart_link_delivers_witness :
  exists ab os, link_run (TxEnqueue (TxEnqueue init 72) 105) init
      (length (queue_wave init_cfg [72; 105]%Z) + 3)%nat = (ab, os) /\
    delivered os = [(72, false); (105, false)] /\ TxBusy ab.1 = false.
Proof.
  apply (uart_link_delivers init_cfg ltac:(unfold wf_cfg; cbn; lia) [72; 105] 3);
    split; reflexivity.
Defined.

(** C12: the transmitter puts each queued byte on the line as a start bit,
    its data bits from the least significant, the parity bit if enabled and
    the stop bits, each held [clocks_per_baud + 1] ticks, then goes idle. *)
Theorem uart_tx_waveform (c : Config) (Hwf : wf_cfg c) (bs : list Z) (k : nat) (x : Tx)
    (Hidle : m_tx_state x = TxState.IDLE /\ m_tx_pin x = true)
    (Hq : m_tx_queue x = bs) :
  exists x', tx_run c x (length (queue_wave c bs) + k) =
      (x', queue_wave c bs ++ replicate k true) /\
    m_tx_state x' = TxState.IDLE /\ m_tx_queue x' = [] /\
    length (queue_wave c bs) =
      (length bs * ((1 + Z.to_nat (m_data_bits c) + (if m_parity_en c then 1 else 0)
        + Z.to_nat (m_stop_bits c)) * period c + 1))%nat.
Proof.
  destruct Hidle. destruct (tx_queue_wave c bs x k Hwf) as (x'&E&?&?); [done..|].
  exists x'. repeat split; [done..|]. apply queue_wave_length.
Qed.

Lemma uart_tx_waveform_witness :
  exists x', tx_run (mkConfig 4 7 2 true true) (tx (TxEnqueue init 65)) (56 + 0) =
      (x', queue_wave (mkConfig 4 7 2 true true) [65]%Z ++ replicate 0 true) /\
    m_tx_state x' = TxState.IDLE /\ m_tx_queue x' = [] /\ 56%nat = 56%nat.
Proof.
  apply (uart_tx_waveform (mkConfig 4 7 2 true true) ltac:(unfold wf_cfg; cbn; lia) [65] 0);
    [split|]; reflexivity.
Defined.

(** C13: a sender with bit period [p] other than the receiver's own
    [clocks_per_baud + 1] is still decoded as long as the drift accumulated
    up to the stop bit sample stays inside the bit. *)
Theorem uart_rx_tolerance (c : Config) (Hwf : wf_cfg c) (p : nat)
    (Hp : (p <= period c)%nat)
    (Hdrift : (start_sample c + (S (Z.to_nat (m_data_bits c)) + parity_slots c) *
       (period c - p) < p)%nat) (bs : list Z) :
  exists r os,
    rx_run c init_rx (mjoin ((fun b => wave p (frame_levels c b)) <$> bs)) = (r, os) /\
    delivered os = ((fun b => (b mod 2 ^ m_data_bits c, false)) <$> bs).
Proof.
  destruct (rx_waves c Hwf p Hp Hdrift bs 0 init_rx) as (r&os&E&D&_); [done..|].
  exists r, os. split; [|done]. rewrite <- E. do 2 f_equal.
  apply list_fmap_ext. intros i b _. by rewrite app_nil_r.
Qed.

Lemma uart_rx_tolerance_witness :
  exists r os,
    rx_run (mkConfig 21 8 1 false false) init_rx
      (mjoin ((fun b => wave 21 (frame_levels (mkConfig 21 8 1 false false) b))
        <$> [0; 255; 85]%Z)) = (r, os) /\
    delivered os = [(0, false); (255, false); (85, false)].
Proof.
  apply (uart_rx_tolerance (mkConfig 21 8 1 false false)); 
    [unfold wf_cfg; cbn; lia | vm_compute; lia..].
Defined.

(** C25: what drift does to a byte.  In any configuration, a byte from a sender
    whose bits are shorter than the receiver's [clocks_per_baud + 1] ticks
    (but longer than its first half-bit delay) is always delivered, once and
    without a frame error, and each of its data bits is the level of the
    sender's bit that the sampling instant falls in.  So at 16 clocks per
    baud, 8N1, a sender that keeps exactly 16 clocks per bit has every byte
    misread that is not [0xC0] or above: bit 6 is taken from bit 7 and bit 7
    from the stop bit. *)
Theorem uart_rx_drift :
  (forall (c : Config) (p : nat) (b : Z) (k : nat), wf_cfg c ->
     (start_sample c < p <= period c)%nat ->
     (stop_sample c < length (wave p (frame_levels c b) ++ replicate k true))%nat ->
     exists r os, rx_run c init_rx (wave p (frame_levels c b) ++ replicate k true) = (r, os) /\
       delivered os =
         [(gather (fun i => nth ((start_sample c + S i * period c) / p) (frame_levels c b) true)
             (Z.to_nat (m_data_bits c)), false)]) /\
  (forall b, 0 <= b < 256 ->
     exists r os,
       rx_run cfg_16 init_rx (wave 16 (frame_levels cfg_16 b) ++ replicate 16 true) = (r, os) /\
       delivered os = [(b mod 64 + 64 * (b / 128) + 128, false)] /\
       (b mod 64 + 64 * (b / 128) + 128 = b <-> 192 <= b)).
Proof.
  split.
  - intros c p b k Hwf Hp Hlen. exact (rx_any_period c p b k Hwf Hp Hlen).
  - intros b Hb. assert (Hwf : wf_cfg cfg_16) by (unfold wf_cfg; cbn; lia).
    destruct (rx_any_period cfg_16 16 b 16 Hwf) as (r & os & E & D).
    + split; apply Nat.leb_le; by vm_compute.
    + rewrite length_app, wave_length, frame_levels_length, length_replicate.
      apply Nat.ltb_lt. by vm_compute.
    + exists r, os. rewrite read_as_16 in D by done. split; [exact E|]. split; [exact D|].
      split; intros; dlia.
Qed.

Lemma uart_rx_drift_witness :
  exists r os,
    rx_run cfg_16 init_rx (wave 16 (frame_levels cfg_16 65) ++ replicate 16 true) = (r, os) /\
    delivered os = [(129, false)].
Proof.
  destruct (proj2 uart_rx_drift 65 ltac:(lia)) as (r & os & E & D & _).
  exists r, os. split; [exact E|exact D].
Defined.
