(* ===== verification/SimBus.v ===== *)
(** * SimBus: the ioctl download channel

    [struct SimBus] of [verilator/sim/sim_bus.h] and [sim_bus.cpp]: a queue
    of files, each streamed to the core as 16-bit words, one per
    [BeforeEval] in which the core does not raise [ioctl_wait].  The file
    system is a parameter, [fs]; an open [FILE] is its unread bytes and its
    end-of-file flag.  Log messages are left out. *)

From S2P Require Import Prelude.
#[local] Open Scope c_scope.

Module SimBus.

(** [struct SimBus_DownloadChunk]. *)
Record Chunk := mkChunk { file : string; index : Z; restart : bool }.

(** The three-argument constructor. *)
Definition Chunk3 (f : string) (i : Z) (r : bool) : Chunk := mkChunk f i r.

(** The two-argument constructor: its body builds and drops another object,
    so [file] keeps its default value and the two scalars what was in memory
    ([junk]). *)
Definition Chunk2 (junk : Z * bool) (f : string) (i : Z) : Chunk :=
  let _ := Chunk3 f i false in mkChunk EmptyString junk.1 junk.2.

(** A stdio stream open for reading. *)
Record FILE := mkFILE { rest : list Z; eof : bool }.
Definition fgetc (f : FILE) : FILE * Z :=
  match rest f with
  | [] => (mkFILE [] true, -1)
  | b :: r => (mkFILE r (eof f), b)
  end.
Definition feof (f : FILE) : bool := eof f.

(** The pins driven to the core. *)
Record Pins := mkPins {
  ioctl_addr : Z; ioctl_index : Z; ioctl_download : bool; ioctl_wr : bool;
  ioctl_dout : Z }.
#[export] Instance eta_Pins : Eta Pins := fun p =>
  mkPins (ioctl_addr p) (ioctl_index p) (ioctl_download p) (ioctl_wr p) (ioctl_dout p).

Record t := mkBus {
  ioctl_file : option FILE;
  ioctl_next_addr : Z;
  nextword : Z;
  downloadQueue : list Chunk;
  currentDownload : Chunk;
  pins : Pins }.
#[export] Instance eta_t : Eta t := fun s =>
  mkBus (ioctl_file s) (ioctl_next_addr s) (nextword s) (downloadQueue s)
    (currentDownload s) (pins s).

Definition QueueDownload3 (s : t) (f : string) (i : Z) (r : bool) : t :=
  s <| downloadQueue := downloadQueue s ++ [Chunk3 f i r] |>.
Definition QueueDownload2 (junk : Z * bool) (s : t) (f : string) (i : Z) : t :=
  s <| downloadQueue := downloadQueue s ++ [Chunk2 junk f i] |>.
Definition HasQueue (s : t) : bool := (0 <? Z.of_nat (length (downloadQueue s))).

Section Files.
(** The contents of the files that can be opened. *)
Context (fs : string -> option (list Z)).

Definition fopen (name : string) : option FILE :=
  (fun c => mkFILE c false) <$> fs name.

(** The first half of [BeforeEval]: take the next chunk. *)
Definition start_download (s : t) : t :=
  match ioctl_file s, downloadQueue s with
  | None, c :: q =>
      let s := s <| currentDownload := c |> <| downloadQueue := q |> in
      let s := if negb (index c =? ioctl_index (pins s))
               then s <| ioctl_next_addr := 0 |> else s in
      let s := if restart c then s <| ioctl_next_addr := 0 |> else s in
      let s := s <| pins := (pins s) <| ioctl_addr := u32 (ioctl_next_addr s) |>
                                     <| ioctl_index := u8 (index c) |> |> in
      s <| ioctl_file := fopen (file c) |>
  | _, _ => s
  end.

(** The second half: stream a word of the open file. *)
Definition stream (s : t) (ioctl_wait : bool) : t :=
  match ioctl_file s with
  | Some f =>
      if ioctl_wait then s
      else
        let s := s <| pins := (pins s) <| ioctl_download := true |> |> in
        if feof f then
          s <| ioctl_file := None |>
            <| pins := (pins s) <| ioctl_download := false |> <| ioctl_wr := false |> |>
        else
          let '(f, byte1) := fgetc f in
          if feof f then s <| ioctl_file := Some f |>
          else
            let '(f, byte2) := fgetc f in
            let byte2 := if feof f then 0 else byte2 in
            let w := (byte1 <<< 8) ||| (byte2 &&& 0xFF) in
            s <| ioctl_file := Some f |>
              <| nextword := w |>
              <| pins := (pins s) <| ioctl_addr := u32 (ioctl_next_addr s) |>
                                  <| ioctl_dout := u16 w |>
                                  <| ioctl_wr := true |> |>
              <| ioctl_next_addr := ioctl_next_addr s + 2 |>
  | None =>
      s <| pins := (pins s) <| ioctl_download := false |> <| ioctl_wr := false |> |>
  end.

Definition BeforeEval (s : t) (ioctl_wait : bool) : t :=
  stream (start_download s) ioctl_wait.

(** ** Specification *)

(** A tick shows the core its pins. *)
Definition step (s : t) (ioctl_wait : bool) : t * Pins :=
  let s := BeforeEval s ioctl_wait in (s, pins s).

(** The core's memory after a tick. *)
Definition latch (m : gmap Z Z) (p : Pins) : gmap Z Z :=
  if ioctl_wr p then <[ioctl_addr p := ioctl_dout p]> m else m.

(** The big-endian words of a file, the last one padded with a zero byte. *)
Fixpoint words_of (bs : list Z) : list Z :=
  match bs with
  | a :: b :: r => (a * 256 + b) :: words_of r
  | [a] => [a * 256]
  | [] => []
  end.

(** [ws] written from address [a] on, two apart. *)
Fixpoint write_words (a : Z) (ws : list Z) (m : gmap Z Z) : gmap Z Z :=
  match ws with
  | [] => m
  | w :: ws => write_words (a + 2) ws (<[a := w]> m)
  end.

(** The ticks without [ioctl_wait]. *)
Definition active (ws : list bool) : nat := length (filter (fun w => w = false) ws).

(** Where a chunk is loaded. *)
Definition base (s : t) (c : Chunk) : Z :=
  if negb (index c =? ioctl_index (pins s)) || restart c then 0
  else ioctl_next_addr s.
End Files.

End SimBus.

Import SimBus.

Section Facts.
Context (fs : string -> option (list Z)).

(** The pins repeat a write the core has already made. *)
Definition settled (s : t) (m : gmap Z Z) : Prop :=
  ioctl_wr (pins s) = true -> m !! ioctl_addr (pins s) = Some (ioctl_dout (pins s)).

Lemma latch_settled s m : settled s m -> latch m (pins s) = m.
Proof.
  unfold settled, latch. destruct (ioctl_wr _); [|done].
  intros H. by apply insert_id, H.
Qed.

(** Active ticks left until an open file is closed. *)
Definition need (f : FILE) : nat :=
  if eof f then 1%nat else (length (rest f) / 2 + 2)%nat.

(** One active tick on an open file that is not at its end. *)
Lemma stream_word s r a b :
  ioctl_file s = Some (mkFILE (a :: b :: r) false) -> is_byte a -> is_byte b ->
  stream s false = s <| ioctl_file := Some (mkFILE r false) |>
    <| nextword := a * 256 + b |>
    <| pins := mkPins (u32 (ioctl_next_addr s)) (ioctl_index (pins s)) true true (a * 256 + b) |>
    <| ioctl_next_addr := ioctl_next_addr s + 2 |>.
Proof.
  intros Hf Ha Hb. destruct (word_value a b Ha Hb) as [E1 E2].
  unfold stream. rewrite Hf. cbn -[Z.lor Z.land Z.shiftl]. by rewrite E1, E2.
Qed.

Lemma stream_last s a :
  ioctl_file s = Some (mkFILE [a] false) -> is_byte a ->
  stream s false = s <| ioctl_file := Some (mkFILE [] true) |>
    <| nextword := a * 256 |>
    <| pins := mkPins (u32 (ioctl_next_addr s)) (ioctl_index (pins s)) true true (a * 256) |>
    <| ioctl_next_addr := ioctl_next_addr s + 2 |>.
Proof.
  intros Hf Ha. destruct (word_value a 0 Ha ltac:(done)) as [E1 E2].
  rewrite Z.add_0_r in E1, E2.
  unfold stream. rewrite Hf. cbn -[Z.lor Z.land Z.shiftl]. by rewrite E1, E2.
Qed.

Lemma active_cons w ws : active (w :: ws) = ((if w then 0 else 1) + active ws)%nat.
Proof. unfold active. rewrite filter_cons. by destruct w. Qed.

Lemma start_open s f : ioctl_file s = Some f -> start_download fs s = s.
Proof. intros Hf. unfold start_download. by rewrite Hf. Qed.

Lemma active_last ws : last ws = Some false -> (1 <= active ws)%nat.
Proof.
  induction ws as [|w ws IH]; [done|]. rewrite active_cons.
  destruct ws as [|w' ws]; [by intros [= ->]|]. intros H. simpl in H.
  specialize (IH H). lia.
Qed.

(** Memory, address and flags when the last active tick closes the file. *)
Lemma run_open ws s f m :
  ioctl_file s = Some f -> Forall is_byte (rest f) -> (eof f = true -> rest f = []) ->
  settled s m ->
  0 <= ioctl_next_addr s -> ioctl_next_addr s + 2 * Z.of_nat (length (words_of (rest f))) < 2 ^ 31 ->
  active ws = need f -> last ws = Some false ->
  exists s' ps, run (step fs) s ws = (s', ps) /\
    foldl latch m ps = write_words (ioctl_next_addr s) (words_of (rest f)) m /\
    ioctl_file s' = None /\ downloadQueue s' = downloadQueue s /\
    ioctl_next_addr s' = ioctl_next_addr s + 2 * Z.of_nat (length (words_of (rest f))) /\
    ioctl_download (pins s') = false /\ ioctl_wr (pins s') = false /\
    ioctl_index (pins s') = ioctl_index (pins s).
Proof.
  revert s f m. induction ws as [|w ws IH]; intros s [r e] m Hf Hb He Hset Ha0 Ha Hact Hlast;
    [done|]. cbn [rest eof] in *.
  rewrite active_cons in Hact.
  assert (Hlast' : ws <> [] -> last ws = Some false) by (destruct ws; [done|auto]).
  assert (Hstep : forall w, step fs s w = (stream s w, pins (stream s w))).
  { intros w'. unfold step, BeforeEval. by rewrite (start_open s _ Hf). }
  destruct w.
  { (* the core waits *)
    destruct (IH s (mkFILE r e) m) as (s'&ps&E&Hm&H'); [done..| |].
    - apply Hlast'. intros ->. simpl in Hact. unfold need in Hact. by destruct e.
    - exists s', (pins s :: ps). split; [|split; [|exact H']].
      + eapply run_cons; [rewrite Hstep; unfold stream; by rewrite Hf|done].
      + simpl. by rewrite latch_settled. }
  destruct e.
  { (* close *)
    rewrite (He eq_refl) in *. unfold need in Hact. cbn [eof] in Hact.
    assert (ws = []) as ->.
    { destruct ws; [done|]. pose proof (active_last _ (Hlast' ltac:(done))). lia. }
    eexists. eexists. split; [eapply run_cons; [apply Hstep|reflexivity]|].
    unfold stream. rewrite Hf. simpl. repeat split; lia. }
  unfold need in Hact. cbn [eof rest] in Hact.
  assert (Hne : ws <> []) by (intros ->; cbn in Hact; lia).
  destruct r as [|a [|b r]].
  - (* end of an even file *)
    destruct (IH (s <| ioctl_file := Some (mkFILE [] true) |>
        <| pins := (pins s) <| ioctl_download := true |> |>) (mkFILE [] true) m)
      as (s'&ps&E&Hm&H'); [done..|cbn in *; lia|by apply Hlast'|].
    exists s'. eexists. split; [eapply run_cons; [rewrite Hstep; unfold stream; rewrite Hf; reflexivity|exact E]|].
    split; [|exact H']. simpl.
    match goal with |- context [latch m ?p] => replace (latch m p) with m end; [exact Hm|].
    symmetry. by apply (latch_settled s).
  - (* last byte of an odd file *)
    inversion Hb as [|?? Hba _]; subst.
    pose proof (stream_last s a Hf Hba) as Hs.
    destruct (IH (stream s false) (mkFILE [] true) (<[ioctl_next_addr s := a * 256]> m))
      as (s'&ps&E&Hm&H1&H2&H3&H4&H5&H6).
    all: try (by constructor); try done;
      try (rewrite Hs; cbn -[Z.mul Z.of_nat Z.add]; done || (cbn in Ha; lia)).
    + rewrite Hs. intros _. cbn. rewrite u32_small by (cbn in Ha; lia). apply lookup_insert_eq.
    + cbn in Hact |- *. lia.
    + by apply Hlast'.
    + exists s'. eexists. split; [eapply run_cons; [apply Hstep|exact E]|].
      rewrite Hs in H2, H3, H6, Hm.
      cbn -[Z.mul Z.of_nat Z.add] in H2, H3, H6, Hm, Ha.
      repeat split; try done; [|cbn; lia].
      cbn [foldl]. rewrite Hs. unfold latch at 2. cbn -[Z.mul]. rewrite u32_small by lia.
      exact Hm.
  - (* a word *)
    inversion Hb as [|?? Hba Hb']; subst. inversion Hb' as [|?? Hbb Hbr]; subst.
    pose proof (stream_word s r a b Hf Hba Hbb) as Hs.
    cbn [words_of length] in Ha |- *.
    destruct (IH (stream s false) (mkFILE r false) (<[ioctl_next_addr s := a * 256 + b]> m))
      as (s'&ps&E&Hm&H1&H2&H3&H4&H5&H6).
    all: try done; try (rewrite Hs; cbn -[words_of Z.mul Z.of_nat Z.add]; done || lia).
    + rewrite Hs. intros _. cbn. rewrite u32_small by lia. apply lookup_insert_eq.
    + unfold need. cbn [eof rest]. cbn [length] in Hact.
      replace (S (S (length r))) with (length r + 1 * 2)%nat in Hact by lia.
      rewrite Nat.div_add in Hact by lia. lia.
    + by apply Hlast'.
    + exists s'. eexists. split; [eapply run_cons; [apply Hstep|exact E]|].
      rewrite Hs in H2, H3, H6, Hm.
      cbn -[words_of Z.mul Z.of_nat Z.add] in H2, H3, H6, Hm.
      repeat split; try done; [|lia].
      cbn [foldl]. rewrite Hs. unfold latch at 2. cbn -[Z.mul]. rewrite u32_small by lia.
      exact Hm.
Qed.
End Facts.

Lemma list_pair_ind {A} (P : list A -> Prop) :
  P [] -> (forall a, P [a]) -> (forall a b l, P l -> P (a :: b :: l)) -> forall l, P l.
Proof.
  intros H0 H1 H2. fix IH 1. intros [|a [|b l]]; [exact H0|apply H1|apply H2, IH].
Qed.

Lemma words_of_length bs : length (words_of bs) = ((length bs + 1) / 2)%nat.
Proof.
  induction bs as [| a | a b r IH] using list_pair_ind; [done..|].
  cbn [words_of length]. rewrite IH.
  replace (S (S (length r)) + 1)%nat with (length r + 1 + 1 * 2)%nat by lia.
  rewrite Nat.div_add by lia. lia.
Qed.

Lemma words_of_nth bs i : (2 * i < length bs)%nat ->
  words_of bs !! i = Some (nth (2 * i) bs 0 * 256 + nth (2 * i + 1) bs 0).
Proof.
  revert i. induction bs as [| a | a b r IH] using list_pair_ind; intros i Hi; cbn in Hi.
  - lia.
  - replace i with 0%nat by lia. cbn. f_equal. lia.
  - destruct i as [|i]; [done|]. cbn [words_of].
    change ((?x :: ?l) !! S i) with (l !! i). rewrite IH by lia.
    by replace (2 * S i)%nat with (S (S (2 * i))) by lia.
Qed.

Lemma write_words_other ws a m x :
  x < a \/ a + 2 * Z.of_nat (length ws) <= x -> write_words a ws m !! x = m !! x.
Proof.
  revert a m. induction ws as [|w ws IH]; intros a m Hx; [done|].
  cbn [write_words length] in *. rewrite IH by lia. rewrite lookup_insert_ne by lia. done.
Qed.

Lemma write_words_lookup ws a m i w :
  ws !! i = Some w -> write_words a ws m !! (a + 2 * Z.of_nat i) = Some w.
Proof.
  revert a m i. induction ws as [|w' ws IH]; intros a m i Hi; [done|].
  cbn [write_words]. destruct i as [|i]; simpl in Hi.
  - injection Hi as ->. rewrite write_words_other by lia.
    replace (a + 2 * Z.of_nat 0) with a by lia. apply lookup_insert_eq.
  - replace (a + 2 * Z.of_nat (S i)) with (a + 2 + 2 * Z.of_nat i) by lia. by apply IH.
Qed.

(** C5: whatever the core's wait states, a queued file that can be opened is
    written to the core's memory as consecutive big-endian words from the
    chunk's base address (an odd last byte padded with zero), nothing else is
    written, and after [length / 2 + 2] ticks without wait the channel is
    idle again, with the next address behind the file. *)
Theorem bus_download_complete (fs : string -> option (list Z)) (s : t) (c : Chunk)
    (q : list Chunk) (bs : list Z) (m : gmap Z Z) (ws : list bool)
    (Hidle : ioctl_file s = None /\ ioctl_wr (pins s) = false)
    (Hq : downloadQueue s = c :: q)
    (Hopen : fs (file c) = Some bs) (Hbytes : Forall is_byte bs)
    (Hbase : 0 <= base s c) (Hfit : base s c + Z.of_nat (length bs) + 1 < 2 ^ 31)
    (Hticks : active ws = (length bs / 2 + 2)%nat) (Hlast : last ws = Some false) :
  let a := base s c in
  exists s' ps, run (step fs) s ws = (s', ps) /\
    (forall i, (2 * i < length bs)%nat ->
       foldl latch m ps !! (a + 2 * Z.of_nat i) =
       Some (nth (2 * i) bs 0 * 256 + nth (2 * i + 1) bs 0)) /\
    (forall x, x < a \/ a + Z.of_nat (length bs) + 1 <= x ->
       foldl latch m ps !! x = m !! x) /\
    ioctl_file s' = None /\ downloadQueue s' = q /\
    ioctl_next_addr s' = a + 2 * Z.of_nat ((length bs + 1) / 2) /\
    ioctl_download (pins s') = false /\ ioctl_wr (pins s') = false.
Proof.
  intros a. destruct Hidle as [Hf Hwr].
  pose (s0 := start_download fs s).
  assert (Hs0 : ioctl_file s0 = Some (mkFILE bs false) /\ ioctl_next_addr s0 = a /\
    downloadQueue s0 = q /\ ioctl_wr (pins s0) = false).
  { unfold s0, start_download, a, base. rewrite Hf, Hq. unfold fopen. 
    destruct (negb (index c =? _)), (restart c); simpl; rewrite Hopen; done. }
  destruct Hs0 as (Hf0&Ha0&Hq0&Hw0).
  assert (Hrun : run (step fs) s ws = run (step fs) s0 ws).
  { destruct ws as [|w ws]; [done|]. unfold run. fold (run (step fs)).
    unfold step at 1 3, BeforeEval. by rewrite (start_open fs s0 _ Hf0). }
  assert (Hlen : 2 * Z.of_nat (length (words_of bs)) <= Z.of_nat (length bs) + 1).
  { rewrite words_of_length. pose proof (Nat.Div0.mul_div_le (length bs + 1) 2). lia. }
  destruct (run_open fs ws s0 _ m Hf0) as (s'&ps&E&Hm&H1&H2&H3&H4&H5&_);
    cbn [rest eof] in *; rewrite ?Ha0 in *; try done; try lia.
  { unfold settled. by rewrite Hw0. }
  exists s', ps. rewrite Hrun, Hm, H2, H3, words_of_length.
  repeat split; try done.
  - intros i Hi. apply write_words_lookup. by apply words_of_nth.
  - intros x Hx. apply write_words_other. lia.
Qed.

Lemma bus_download_complete_witness :
  let s := QueueDownload3 (mkBus None 0 0 [] (mkChunk EmptyString (-1) false)
             (mkPins 0 255 false false 0)) "boot.rom" 0 true in
  exists s' ps, run (step (fun _ => Some [1; 2; 3])) s [true; false; true; false; false] = (s', ps) /\
    (forall i, (2 * i < 3)%nat ->
       foldl latch ∅ ps !! (0 + 2 * Z.of_nat i) =
       Some (nth (2 * i) [1; 2; 3] 0 * 256 + nth (2 * i + 1) [1; 2; 3] 0)) /\
    (forall x, x < 0 \/ 0 + 3 + 1 <= x -> foldl latch ∅ ps !! x = (∅ : gmap Z Z) !! x) /\
    ioctl_file s' = None /\ downloadQueue s' = [] /\ ioctl_next_addr s' = 0 + 2 * Z.of_nat 2 /\
    ioctl_download (pins s') = false /\ ioctl_wr (pins s') = false.
Proof.
  intros s. apply (bus_download_complete (fun _ => Some [1; 2; 3]) s
    (mkChunk "boot.rom" 0 true) [] [1; 2; 3] ∅ [true; false; true; false; false]).
  - split; reflexivity.
  - reflexivity.
  - reflexivity.
  - repeat constructor; lia.
  - reflexivity.
  - reflexivity.
  - reflexivity.
  - reflexivity.
Defined.

(** C30: a chunk queued through the two-argument [QueueDownload] names the
    empty file: where no file has an empty name, nothing is ever opened for
    it and no word is strobed. *)
Theorem bus_queue2_opens_nothing (fs : string -> option (list Z)) (junk : Z * bool)
    (s : t) (f : string) (i : Z) (ws : list bool)
    (Hempty : fs EmptyString = None)
    (Hidle : ioctl_file s = None /\ downloadQueue s = [] /\ ioctl_wr (pins s) = false) :
  Forall (fun p => ioctl_wr p = false /\ ioctl_download p = false)
    (run (step fs) (QueueDownload2 junk s f i) ws).2.
Proof.
  destruct Hidle as (Hf&Hq&Hw).
  set (s1 := QueueDownload2 junk s f i).
  assert (Hinv : ioctl_file s1 = None /\
    Forall (fun c => file c = EmptyString) (downloadQueue s1)).
  { unfold s1, QueueDownload2. simpl. rewrite Hq. repeat constructor; done. }
  clearbody s1. clear -Hempty Hinv. revert s1 Hinv.
  induction ws as [|w ws IH]; intros s1 [Hf Hq]; [constructor|].
  assert (H : let s2 := BeforeEval fs s1 w in ioctl_file s2 = None /\
    Forall (fun c => file c = EmptyString) (downloadQueue s2) /\
    ioctl_wr (pins s2) = false /\ ioctl_download (pins s2) = false).
  { unfold BeforeEval, start_download. rewrite Hf.
    destruct (downloadQueue s1) as [|c q] eqn:E.
    - unfold stream. rewrite Hf. simpl. by rewrite E.
    - inversion Hq as [|?? Hc Hq']; subst.
      destruct (negb _), (restart c); unfold stream, fopen; simpl; by rewrite Hc, Hempty. }
  cbv zeta in H. destruct H as (H1&H2&H3&H4).
  specialize (IH (BeforeEval fs s1 w) (conj H1 H2)).
  unfold run; fold (run (step fs)). unfold step at 1.
  destruct (run (step fs) (BeforeEval fs s1 w) ws). constructor; done.
Qed.

Lemma bus_queue2_opens_nothing_witness :
  Forall (fun p => ioctl_wr p = false /\ ioctl_download p = false)
    (run (step (fun n => if String.eqb n "boot.rom" then Some [1; 2] else None))
      (QueueDownload2 (0, false) (mkBus None 0 0 [] (mkChunk EmptyString (-1) false)
        (mkPins 0 255 false false 0)) "boot.rom" 0) [false; false; false]).2.
Proof.
  apply (bus_queue2_opens_nothing
    (fun n => if String.eqb n "boot.rom" then Some [1; 2] else None)); repeat split; reflexivity.
Defined.
