(* ===== verification/SimBlockDevice.v ===== *)
(** * SimBlockDevice: the simulated SD block device

    [struct SimBlockDevice] of [verilator/sim/sim_blkdevice.h] and
    [sim_blkdevice.cpp]: ten disk images behind one shared transfer engine.
    [BeforeEval] runs once per clock and visits the ten disks in order; the
    pins [sd_rd], [sd_wr], [sd_lba] and [sd_buff_din] come from the core, the
    others are driven to it.  The read latency and the
    [ignore_scsi_writes] switch are command-line arguments. *)

From S2P Require Import Prelude.
#[local] Open Scope c_scope.

Module SimBlockDevice.

Definition kVDNUM : nat := 10.
Definition kBLKSZ : Z := 512.

(** A [std::fstream] opened for binary access: one joint position, and the
    fail/bad state that makes operations do nothing. *)
Record Stream := mkStream {
  is_open : bool; data : list Z; fpos : Z; failed : bool; writable : bool }.
#[export] Instance eta_Stream : Eta Stream := fun d =>
  mkStream (is_open d) (data d) (fpos d) (failed d) (writable d).
Definition closed : Stream := mkStream false [] 0 false false.

(** [get()]: the next byte, or EOF (-1). *)
Definition get (d : Stream) : Stream * Z :=
  if negb (is_open d) || failed d then (d <| failed := true |>, -1)
  else match data d !! Z.to_nat (fpos d) with
       | Some b => (d <| fpos := fpos d + 1 |>, b)
       | None => (d <| failed := true |>, -1)
       end.

(** [put(b)]: overwrite or extend at the position. *)
Definition store (l : list Z) (p : nat) (b : Z) : list Z :=
  take p (l ++ replicate (p - length l) 0) ++ [b] ++ drop (S p) l.
Definition put (d : Stream) (b : Z) : Stream :=
  if negb (is_open d) || failed d then d
  else if negb (writable d) then d <| failed := true |>
  else d <| data := store (data d) (Z.to_nat (fpos d)) b |> <| fpos := fpos d + 1 |>.

Definition clear (d : Stream) : Stream := d <| failed := false |>.
(** [seekg] and [seekp] move the joint position; a negative target fails. *)
Definition seek (d : Stream) (p : Z) : Stream :=
  if failed d then d
  else if negb (is_open d) || (p <? 0) then d <| failed := true |>
  else d <| fpos := p |>.
(** [open]: fails on an open stream or when the file cannot be opened. *)
Definition open (d : Stream) (f : option (list Z)) (wr : bool) : Stream :=
  if is_open d then d <| failed := true |>
  else match f with
       | Some c => mkStream true c (Z.of_nat (length c)) false wr
       | None => d <| failed := true |>
       end.

(** The pins from the core. *)
Record In := mkIn {
  sd_rd : Z; sd_wr : Z; sd_lba : nat -> Z; sd_buff_din : nat -> Z }.

Record t := mkDev {
  sd_ack : Z; sd_buff_addr : Z; sd_buff_dout : Z; sd_buff_wr : bool;
  img_mounted : Z; img_readonly : bool; img_size : Z;
  bytecnt : Z; reading : bool; writing : bool; ack_delay : Z; current_disk : Z;
  disk_size : list Z; mountQueue : list bool; disk : list Stream }.
#[export] Instance eta_t : Eta t := fun s =>
  mkDev (sd_ack s) (sd_buff_addr s) (sd_buff_dout s) (sd_buff_wr s) (img_mounted s)
    (img_readonly s) (img_size s) (bytecnt s) (reading s) (writing s) (ack_delay s)
    (current_disk s) (disk_size s) (mountQueue s) (disk s).

(** The macros on 8-bit pins. *)
Definition bitset (byte : Z) (n : nat) : Z := u8 (byte ||| (1 <<< Z.of_nat n)).
Definition bitclear (byte : Z) (n : nat) : Z := u8 (Z.ldiff byte (1 <<< Z.of_nat n)).
Definition bitcheck (byte : Z) (n : nat) : bool :=
  negb ((byte &&& (1 <<< Z.of_nat n)) =? 0).

Definition the_disk (s : t) (i : nat) : Stream := nth i (disk s) closed.
Definition set_disk (s : t) (i : nat) (d : Stream) : t := s <| disk := <[i := d]> (disk s) |>.
Definition queued (s : t) (i : nat) : bool := nth i (mountQueue s) false.

(** The constructor. *)
Definition make (s : t) : t :=
  s <| current_disk := -1 |> <| mountQueue := replicate kVDNUM false |>.

(** [MountDisk]: [rw] and [ro] are the file opened for update and for
    reading only, when the host allows it. *)
Definition MountDisk (s : t) (rw ro : option (list Z)) (index : nat) : t :=
  let d := open (the_disk s index) rw true in
  let d := if failed d then open (clear d) ro false else d in
  if failed d then set_disk s index d
  else
    let s := s <| disk_size := <[index := fpos d]> (disk_size s) |> in
    let s := set_disk s index (seek d 0) in
    s <| mountQueue := <[index := true]> (mountQueue s) |>.

Section Device.
Context (latency : Z) (ignore_writes : bool).

(** The data phase of the current disk. *)
Definition transfer (inp : In) (s : t) (i : nat) : t :=
  if ack_delay s =? 1 then
    if reading s && negb (sd_buff_wr s) && (bytecnt s <? kBLKSZ) then
      let '(d, byte1) := get (the_disk s i) in
      let '(d, byte2) := get d in
      (set_disk s i d)
        <| sd_buff_dout := u16 ((byte1 <<< 8) ||| (byte2 &&& 0xFF)) |>
        <| sd_buff_addr := u8 (bytecnt s / 2) |>
        <| bytecnt := bytecnt s + 2 |>
        <| sd_buff_wr := true |>
    else if writing s && (bytecnt s <? kBLKSZ) then
      let word := u16 (sd_buff_din inp i) in
      let s := if negb ignore_writes
               then set_disk s i (put (put (the_disk s i) ((word >>> 8) &&& 0xFF))
                                      (word &&& 0xFF))
               else s in
      let s := s <| bytecnt := bytecnt s + 2 |> in
      s <| sd_buff_addr := if bytecnt s <? kBLKSZ then u8 (bytecnt s / 2) else 0 |>
    else if writing s then
      s <| sd_buff_addr := 0 |> <| writing := false |>
    else
      let s := s <| sd_buff_wr := false |> in
      if reading s && (bytecnt s >=? kBLKSZ) then s <| reading := false |> else s
  else s <| sd_buff_wr := false |>.

(** Mounting, and the countdown outside of transfers. *)
Definition mount_phase (s : t) (i : nat) : t :=
  if negb (reading s) && negb (writing s) && queued s i && (img_mounted s =? 0) then
    let s := s <| mountQueue := <[i := false]> (mountQueue s) |>
               <| img_size := nth i (disk_size s) 0 |>
               <| img_readonly := true |> in
    let s := set_disk s i (seek (the_disk s i) 0) in
    s <| img_mounted := bitset (img_mounted s) i |> <| ack_delay := 1200 |>
  else if (ack_delay s =? 1) && bitcheck (img_mounted s) i then
    s <| img_mounted := bitclear (img_mounted s) i |>
  else if negb (reading s) && negb (writing s) && (ack_delay s >? 0) then
    s <| ack_delay := ack_delay s - 1 |>
  else s.

(** A new request. *)
Definition request (inp : In) (s : t) (i : nat) : t :=
  if ((current_disk s =? -1) || (current_disk s =? Z.of_nat i)) &&
     (bitcheck (sd_rd inp) i || bitcheck (sd_wr inp) i) then
    let s := s <| current_disk := Z.of_nat i |> in
    if ack_delay s =? 0 then
      let lba := i32 (sd_lba inp i) in
      let s := if bitcheck (sd_rd inp) i then s <| reading := true |> else s in
      let s := if bitcheck (sd_wr inp) i then s <| writing := true |> else s in
      let p := i32 (lba * kBLKSZ) in
      let s := set_disk s i (seek (seek (clear (the_disk s i)) p) p) in
      s <| bytecnt := 0 |> <| sd_buff_addr := 0 |> <| ack_delay := latency |>
    else s
  else s.

(** The acknowledge pin and the release of the device. *)
Definition acknowledge (s : t) (i : nat) : t :=
  if current_disk s =? Z.of_nat i then
    let s := if ack_delay s =? 1 then s <| sd_ack := bitset (sd_ack s) i |>
             else s <| sd_ack := bitclear (sd_ack s) i |> in
    let s := if (ack_delay s >? 1) ||
                ((ack_delay s =? 1) && negb (reading s) && negb (writing s))
             then s <| ack_delay := ack_delay s - 1 |> else s in
    if (ack_delay s =? 0) && negb (reading s) && negb (writing s)
    then s <| current_disk := -1 |> else s
  else s.

(** The body of the loop over the disks. *)
Definition visit (inp : In) (s : t) (i : nat) : t :=
  let s := if current_disk s =? Z.of_nat i then transfer inp s i else s in
  let s := mount_phase s i in
  let s := request inp s i in
  acknowledge s i.

Definition BeforeEval (cycles : Z) (inp : In) (s : t) : t :=
  if cycles <? 2000 then s else foldl (visit inp) s (seq 0 kVDNUM).

(** ** Specification *)

(** A clock after the boot guard: what the core sees. *)
Record Out := mkOut { o_ack : Z; o_addr : Z; o_dout : Z; o_wr : bool }.
Definition out (s : t) : Out :=
  mkOut (sd_ack s) (sd_buff_addr s) (sd_buff_dout s) (sd_buff_wr s).
Definition step (s : t) (inp : In) : t * Out :=
  let s := BeforeEval 2000 inp s in (s, out s).

(** The words strobed into the core's sector buffer, with their address. *)
Definition strobes (os : list Out) : list (Z * Z) :=
  omap (fun o => if o_wr o then Some (o_addr o, o_dout o) else None) os.

(** No transfer, no mount pending, no pin raised. *)
Definition idle (s : t) : Prop :=
  current_disk s = -1 /\ ack_delay s = 0 /\ reading s = false /\ writing s = false /\
  sd_buff_wr s = false /\ sd_ack s = 0 /\ img_mounted s = 0 /\
  (forall i, queued s i = false).

(** A request for disk [i] alone. *)
Definition only (mask : Z) (i : nat) : Prop :=
  forall j, bitcheck mask j = (j =? i)%nat.
Definition none (mask : Z) : Prop := forall j, bitcheck mask j = false.

(** The words of a sector. *)
Definition sector_word (d : list Z) (lba : Z) (k : nat) : Z :=
  let p := Z.to_nat (lba * 512) in
  nth (p + 2 * k) d 0 * 256 + nth (p + 2 * k + 1) d 0.
End Device.

End SimBlockDevice.

Import SimBlockDevice.

Section Facts.
Context (latency : Z) (ignore_writes : bool).
#[local] Abbreviation visit := (visit latency ignore_writes).
#[local] Abbreviation step := (step latency ignore_writes).

Lemma bit_pins i : (i < kVDNUM)%nat ->
  bitset (bitset 0 i) i = bitset 0 i /\ bitclear (bitset 0 i) i = 0 /\ bitclear 0 i = 0.
Proof.
  unfold kVDNUM. intros Hi. do 10 (destruct i as [|i]; [by repeat split|]). lia.
Qed.

Lemma strobes_cons o os :
  strobes (o :: os) = (if o_wr o then [(o_addr o, o_dout o)] else []) ++ strobes os.
Proof. unfold strobes. cbn. by destruct (o_wr o). Qed.
Lemma strobes_app os1 os2 : strobes (os1 ++ os2) = strobes os1 ++ strobes os2.
Proof. apply omap_app. Qed.
Lemma strobes_low n o : o_wr o = false -> strobes (replicate n o) = [].
Proof. intros H. apply omap_replicate_None. by rewrite H. Qed.

Lemma seek_at c w p q : 0 <= q ->
  seek (mkStream true c p false w) q = mkStream true c q false w.
Proof.
  intros H. unfold seek. cbn [failed is_open].
  by rewrite (proj2 (Z.ltb_ge q 0) H).
Qed.

(** The phases that find nothing to do. *)
Lemma mount_busy s j : reading s || writing s = true -> img_mounted s = 0 ->
  mount_phase s j = s.
Proof.
  intros Hrw Hm. unfold mount_phase.
  replace (negb (reading s) && negb (writing s)) with false
    by (by destruct (reading s), (writing s)).
  rewrite Hm. unfold bitcheck. rewrite Z.land_0_l, andb_false_r. done.
Qed.

Lemma mount_rest s j : ack_delay s = 0 -> img_mounted s = 0 -> queued s j = false ->
  mount_phase s j = s.
Proof.
  intros Ha Hm Hq. unfold mount_phase. rewrite Hq, Ha, andb_false_r. simpl.
  by rewrite andb_false_r.
Qed.

Lemma request_none inp s j :
  (current_disk s <> -1 /\ current_disk s <> Z.of_nat j) \/
  (bitcheck (sd_rd inp) j = false /\ bitcheck (sd_wr inp) j = false) ->
  request latency inp s j = s.
Proof.
  unfold request. intros [[H1 H2]|[H1 H2]].
  - by rewrite (proj2 (Z.eqb_neq _ _) H1), (proj2 (Z.eqb_neq _ _) H2).
  - by rewrite H1, H2, andb_false_r.
Qed.

Lemma acknowledge_none s j : current_disk s <> Z.of_nat j -> acknowledge s j = s.
Proof. intros H. unfold acknowledge. by rewrite (proj2 (Z.eqb_neq _ _) H). Qed.

Lemma visit_phases inp s j :
  current_disk s <> Z.of_nat j -> mount_phase s j = s -> request latency inp s j = s ->
  visit inp s j = s.
Proof.
  intros Hc Hm Hr. unfold SimBlockDevice.visit.
  rewrite (proj2 (Z.eqb_neq _ _) Hc), Hm, Hr. by apply acknowledge_none.
Qed.

(** A disk other than the one being served does nothing. *)
Lemma visit_other inp s i j :
  current_disk s = Z.of_nat i -> j <> i -> reading s || writing s = true ->
  img_mounted s = 0 -> visit inp s j = s.
Proof.
  intros Hc Hne Hrw Hm. apply visit_phases; [lia|by apply mount_busy|].
  apply request_none. left. lia.
Qed.

(** A device at rest ignores a disk without a request. *)
Lemma visit_idle inp s j :
  current_disk s = -1 -> ack_delay s = 0 -> img_mounted s = 0 -> queued s j = false ->
  bitcheck (sd_rd inp) j = false -> bitcheck (sd_wr inp) j = false -> visit inp s j = s.
Proof.
  intros. apply visit_phases; [lia|by apply mount_rest|]. apply request_none. by right.
Qed.

(** One clock in which only disk [i] acts. *)
Lemma step_only inp s s' i :
  (i < kVDNUM)%nat ->
  (forall j, (j < i)%nat -> visit inp s j = s) -> visit inp s i = s' ->
  (forall j, (i < j)%nat -> visit inp s' j = s') ->
  step s inp = (s', out s').
Proof.
  intros Hi H1 H2 H3. unfold SimBlockDevice.step, BeforeEval. simpl (2000 <? 2000).
  cbv iota. assert (foldl (visit inp) s (seq 0 kVDNUM) = s') as ->; [|done].
  replace kVDNUM with (i + S (kVDNUM - S i))%nat by lia.
  rewrite seq_app, foldl_app. cbn [seq foldl].
  rewrite (foldl_id _ s) by (intros j Hj; apply elem_of_seq in Hj; apply H1; lia).
  rewrite Nat.add_0_l, H2. apply foldl_id.
  intros j Hj. apply elem_of_seq in Hj. apply H3. lia.
Qed.

Lemma request_busy inp s i :
  current_disk s = Z.of_nat i -> 1 <= ack_delay s -> request latency inp s i = s.
Proof.
  intros Hc Ha. unfold request. destruct (_ && _); [|done].
  destruct s. cbn in *. subst. rewrite (proj2 (Z.eqb_neq _ 0)) by lia. done.
Qed.

(** ** A transfer on disk [i] *)

Section Transfer.
Context (s0 : t) (i : nat) (Hi : (i < kVDNUM)%nat) (Hdisks : length (disk s0) = kVDNUM).

(** The states of a transfer: the mount fields stay those of [s0]. *)
Definition mid (ack addr dout : Z) (wr : bool) (bc : Z) (rd wg : bool) (ad cur : Z)
    (d : Stream) : t :=
  mkDev ack addr dout wr 0 (img_readonly s0) (img_size s0) bc rd wg ad cur
    (disk_size s0) (mountQueue s0) (<[i := d]> (disk s0)).

#[local] Abbreviation I := (Z.of_nat i).
#[local] Abbreviation A := (bitset 0 i).

Lemma the_disk_mid ack addr dout wr bc rd wg ad cur d :
  the_disk (mid ack addr dout wr bc rd wg ad cur d) i = d.
Proof.
  unfold the_disk, mid. cbn [disk]. apply nth_lookup_Some.
  apply list_lookup_insert_eq. lia.
Qed.

Lemma set_disk_mid ack addr dout wr bc rd wg ad cur d d' :
  set_disk (mid ack addr dout wr bc rd wg ad cur d) i d' =
  mid ack addr dout wr bc rd wg ad cur d'.
Proof.
  unfold set_disk, mid, update. cbn. by rewrite list_insert_insert_eq.
Qed.

(** A clock of a transfer is the visit of disk [i]. *)
Lemma step_busy inp ack addr dout wr bc rd wg ad d ack' addr' dout' wr' bc' rd' wg' ad' d' :
  rd || wg = true -> rd' || wg' = true ->
  visit inp (mid ack addr dout wr bc rd wg ad I d) i =
    mid ack' addr' dout' wr' bc' rd' wg' ad' I d' ->
  step (mid ack addr dout wr bc rd wg ad I d) inp =
    (mid ack' addr' dout' wr' bc' rd' wg' ad' I d', mkOut ack' addr' dout' wr').
Proof.
  intros H H' Hv.
  rewrite (step_only inp _
    (mid ack' addr' dout' wr' bc' rd' wg' ad' I d') i); [done|done| |done|];
    intros j Hj; apply (visit_other inp _ i j); (done || lia).
Qed.

(** Waiting for the latency to pass. *)
Lemma step_count inp addr dout bc rd wg ad d :
  rd || wg = true -> 2 <= ad ->
  step (mid 0 addr dout false bc rd wg ad I d) inp =
    (mid 0 addr dout false bc rd wg (ad - 1) I d, mkOut 0 addr dout false).
Proof.
  intros H Ha. destruct (bit_pins i Hi) as (_&_&Hb). apply step_busy; [done..|].
  unfold SimBlockDevice.visit, transfer. cbn [current_disk ack_delay mid].
  rewrite Z.eqb_refl, (proj2 (Z.eqb_neq ad 1)) by lia.
  change (_ <| sd_buff_wr := false |>) with (mid 0 addr dout false bc rd wg ad I d).
  rewrite mount_busy, request_busy by (done || cbn; lia).
  unfold acknowledge. cbn [current_disk ack_delay mid].
  rewrite Z.eqb_refl, (proj2 (Z.eqb_neq ad 1)) by lia. simpl. rewrite Hb.
  rewrite (proj2 (Z.gtb_lt ad 1)) by lia. simpl.
  rewrite (proj2 (Z.eqb_neq (ad - 1) 0)) by lia. done.
Qed.

(** Acknowledge when the data phase goes on. *)
Lemma acknowledge_busy ack addr dout wr bc rd wg d :
  ack = 0 \/ ack = A -> rd || wg = true ->
  acknowledge (mid ack addr dout wr bc rd wg 1 I d) i =
    mid A addr dout wr bc rd wg 1 I d.
Proof.
  intros Hack H. destruct (bit_pins i Hi) as (Hb&_&_).
  unfold acknowledge. cbn [current_disk ack_delay mid]. rewrite Z.eqb_refl. simpl.
  replace (negb rd && negb wg) with false by (by destruct rd, wg). simpl.
  destruct Hack as [->| ->]; [done|]. by rewrite Hb.
Qed.

Lemma step_data inp ack addr dout wr bc rd wg d ack' addr' dout' wr' bc' d' :
  ack = 0 \/ ack = A -> rd || wg = true ->
  transfer ignore_writes inp (mid ack addr dout wr bc rd wg 1 I d) i =
    mid ack addr' dout' wr' bc' rd wg 1 I d' ->
  ack' = A ->
  step (mid ack addr dout wr bc rd wg 1 I d) inp =
    (mid A addr' dout' wr' bc' rd wg 1 I d', mkOut A addr' dout' wr').
Proof.
  intros Hack H Ht _. apply step_busy; [done..|].
  unfold SimBlockDevice.visit. cbn [current_disk mid]. rewrite Z.eqb_refl.
  fold (mid ack addr dout wr bc rd wg 1 I d). rewrite Ht.
  rewrite mount_busy, request_busy by (done || cbn; lia).
  by apply acknowledge_busy.
Qed.

(** The clock that ends a transfer. *)
Lemma step_end inp ack addr dout wr bc rd wg d addr' dout' d' :
  ack = 0 \/ ack = A -> rd || wg = true -> (forall j, queued s0 j = false) ->
  none (sd_rd inp) -> none (sd_wr inp) ->
  transfer ignore_writes inp (mid ack addr dout wr bc rd wg 1 I d) i =
    mid ack addr' dout' false bc false false 1 I d' ->
  step (mid ack addr dout wr bc rd wg 1 I d) inp =
    (mid 0 addr' dout' false bc false false 0 (-1) d', mkOut 0 addr' dout' false).
Proof.
  intros Hack H Hq Hr Hw Ht. destruct (bit_pins i Hi) as (_&Hb1&Hb2).
  assert (Hidle : forall j, queued (mid 0 addr' dout' false bc false false 0 (-1) d') j = false)
    by (intros j; apply Hq).
  rewrite (step_only inp _
    (mid 0 addr' dout' false bc false false 0 (-1) d') i); [done|done| | |].
  - intros j Hj. apply (visit_other inp _ i j); (done || lia).
  - unfold SimBlockDevice.visit. cbn [current_disk mid]. rewrite Z.eqb_refl.
    fold (mid ack addr dout wr bc rd wg 1 I d). rewrite Ht.
    unfold mount_phase. cbn [reading writing mid img_mounted ack_delay].
    fold (mid ack addr' dout' false bc false false 1 I d').
    replace (queued _ i) with false by (symmetry; apply Hq).
    unfold bitcheck at 1. rewrite Z.land_0_l. simpl.
    change (_ <| ack_delay := _ |>) with (mid ack addr' dout' false bc false false 0 I d').
    unfold request. rewrite (Hr i), (Hw i), andb_false_r.
    unfold acknowledge. cbn [current_disk ack_delay mid]. rewrite Z.eqb_refl. simpl.
    destruct Hack as [->| ->]; by rewrite ?Hb1, ?Hb2.
  - intros j Hj. apply visit_idle; (done || apply Hidle).
Qed.

(** A request of a device at rest. *)
Lemma step_start inp rdq wrq :
  idle s0 -> 2 <= latency -> rdq || wrq = true ->
  (forall j, bitcheck (sd_rd inp) j = rdq && (j =? i)%nat) ->
  (forall j, bitcheck (sd_wr inp) j = wrq && (j =? i)%nat) ->
  let p := i32 (i32 (sd_lba inp i) * kBLKSZ) in
  step s0 inp =
    (mid 0 0 (sd_buff_dout s0) false 0 rdq wrq (latency - 1) I
       (seek (seek (clear (the_disk s0 i)) p) p),
     mkOut 0 0 (sd_buff_dout s0) false).
Proof.
  intros (Hc&Ha&Hrd&Hwg&Hbw&Hk&Hm&Hq) HL Hany Hr Hw p.
  destruct (bit_pins i Hi) as (_&_&Hb).
  set (d := seek _ p).
  rewrite (step_only inp s0
    (mid 0 0 (sd_buff_dout s0) false 0 rdq wrq (latency - 1) I d) i); [done|done| | |].
  - intros j Hj. apply visit_idle; auto; [rewrite Hr|rewrite Hw];
      rewrite (proj2 (Nat.eqb_neq j i)) by lia; apply andb_false_r.
  - unfold SimBlockDevice.visit. rewrite Hc.
    rewrite (proj2 (Z.eqb_neq (-1) I)) by lia.
    unfold mount_phase. rewrite Hrd, Hwg, Hq, Ha. simpl.
    unfold request. rewrite Hc, Hr, Hw, Nat.eqb_refl, !andb_true_r, Hany. simpl.
    rewrite Ha. simpl. unfold mid.
    destruct s0 as [f1 f2 f3 f4 f5 f6 f7 f8 f9 f10 f11 f12 f13 f14 f15].
    cbn in Hc, Ha, Hrd, Hwg, Hbw, Hk, Hm. subst.
    assert (H1 : forall z, acknowledge (mkDev 0 0 f3 false 0 f6 f7 0 rdq wrq latency I f13 f14 z) i =
      mkDev 0 0 f3 false 0 f6 f7 0 rdq wrq (latency - 1) I f13 f14 z).
    { intros z. unfold acknowledge. cbn -[Z.gtb Z.eqb]. rewrite Z.eqb_refl.
      rewrite (proj2 (Z.eqb_neq latency 1)) by lia. cbn -[Z.gtb Z.eqb].
      rewrite Hb, (proj2 (Z.gtb_lt latency 1)) by lia. cbn -[Z.gtb Z.eqb].
      by rewrite (proj2 (Z.eqb_neq (latency - 1) 0)) by lia. }
    destruct rdq, wrq; [..|done]; apply H1.
  - intros j Hj. apply (visit_other inp _ i j); (done || lia).
Qed.

(** *** Sector reads *)

Context (c : list Z) (Hbytes : Forall is_byte c) (w : bool).
#[local] Abbreviation at_ p := (mkStream true c p false w).

Lemma get_at p b : c !! Z.to_nat p = Some b -> get (at_ p) = (at_ (p + 1), b).
Proof. intros H. unfold get. cbn. by rewrite H. Qed.

Lemma byte_at j : (j < length c)%nat -> c !! j = Some (nth j c 0) /\ is_byte (nth j c 0).
Proof.
  intros Hj. destruct (lookup_lt_is_Some_2 c j Hj) as [b Hb].
  rewrite (nth_lookup_Some _ _ _ _ Hb). split; [done|].
  by eapply Forall_lookup_1.
Qed.

Lemma read_word inp ack addr dout lba k :
  (k < 256)%nat -> 0 <= lba -> lba * 512 + 512 <= Z.of_nat (length c) ->
  transfer ignore_writes inp
    (mid ack addr dout false (2 * Z.of_nat k) true false 1 I
       (at_ (lba * 512 + 2 * Z.of_nat k))) i =
  mid ack (Z.of_nat k) (sector_word c lba k) true (2 * Z.of_nat (S k)) true false 1 I
    (at_ (lba * 512 + 2 * Z.of_nat (S k))).
Proof.
  intros Hk Hl Hlen. unfold transfer. rewrite the_disk_mid.
  cbn [ack_delay reading sd_buff_wr bytecnt mid]. simpl (1 =? 1). cbv iota.
  unfold kBLKSZ. rewrite (proj2 (Z.ltb_lt (2 * Z.of_nat k) 512)) by lia. simpl (true && _).
  cbv iota.
  destruct (byte_at (Z.to_nat (lba * 512) + 2 * k)) as [E1 B1]; [lia|].
  destruct (byte_at (Z.to_nat (lba * 512) + 2 * k + 1)) as [E2 B2]; [lia|].
  rewrite (get_at _ (nth (Z.to_nat (lba * 512) + 2 * k) c 0))
    by (rewrite <- E1; f_equal; lia).
  rewrite (get_at _ (nth (Z.to_nat (lba * 512) + 2 * k + 1) c 0))
    by (rewrite <- E2; f_equal; lia).
  destruct (word_value _ _ B1 B2) as [-> ->].
  fold (mid ack addr dout false (2 * Z.of_nat k) true false 1 I
    (at_ (lba * 512 + 2 * Z.of_nat k))). rewrite set_disk_mid.
  replace (2 * Z.of_nat k / 2) with (Z.of_nat k) by dlia.
  rewrite (u8_small (Z.of_nat k)) by lia.
  replace (lba * 512 + 2 * Z.of_nat k + 1 + 1) with (lba * 512 + 2 * Z.of_nat (S k)) by lia.
  replace (2 * Z.of_nat k + 2) with (2 * Z.of_nat (S k)) by lia. done.
Qed.

Lemma read_gap inp ack addr dout bc d :
  bc < 512 ->
  transfer ignore_writes inp (mid ack addr dout true bc true false 1 I d) i =
  mid ack addr dout false bc true false 1 I d.
Proof.
  intros Hbc. unfold transfer. cbn [ack_delay reading writing sd_buff_wr bytecnt mid].
  simpl. unfold kBLKSZ. rewrite Z.geb_leb, (proj2 (Z.leb_gt 512 bc)) by lia. done.
Qed.

Lemma read_fin inp ack addr dout d :
  transfer ignore_writes inp (mid ack addr dout true 512 true false 1 I d) i =
  mid ack addr dout false 512 false false 1 I d.
Proof. done. Qed.

(** The countdown as a run. *)
Lemma run_count n inps addr dout bc rd wg d :
  rd || wg = true -> length inps = n ->
  run step (mid 0 addr dout false bc rd wg (Z.of_nat n + 1) I d) inps =
    (mid 0 addr dout false bc rd wg 1 I d, replicate n (mkOut 0 addr dout false)).
Proof.
  intros H. revert inps. induction n as [|n IH]; intros [|inp inps] Hl; try done.
  eapply run_cons; [apply step_count; [done|lia]|].
  replace (Z.of_nat (S n) + 1 - 1) with (Z.of_nat n + 1) by lia.
  apply IH. by injection Hl.
Qed.

(** [n] words, each followed by a clock with the strobe low. *)
Lemma run_words n k inps ack addr dout lba :
  length inps = (2 * n)%nat -> (k + n < 256)%nat -> 0 <= lba ->
  lba * 512 + 512 <= Z.of_nat (length c) -> ack = 0 \/ ack = A ->
  exists os ack' addr' dout',
    run step (mid ack addr dout false (2 * Z.of_nat k) true false 1 I
                (at_ (lba * 512 + 2 * Z.of_nat k))) inps =
      (mid ack' addr' dout' false (2 * Z.of_nat (k + n)) true false 1 I
         (at_ (lba * 512 + 2 * Z.of_nat (k + n))), os) /\
    (ack' = 0 \/ ack' = A) /\
    strobes os = ((fun j => (Z.of_nat j, sector_word c lba j)) <$> seq k n) /\
    o_ack <$> os = replicate (2 * n) A.
Proof.
  revert k inps ack addr dout.
  induction n as [|n IH]; intros k inps ack addr dout Hl Hk Hlba Hlen Hack.
  { destruct inps; [|done]. rewrite Nat.add_0_r. by repeat eexists. }
  destruct inps as [|i1 [|i2 inps]]; [done|simpl in Hl; lia|].
  pose proof (step_data i1 ack addr dout false _ true false _ A _ _ _ _ _ Hack eq_refl
    (read_word i1 ack addr dout lba k ltac:(lia) Hlba Hlen) eq_refl) as S1.
  pose proof (step_data i2 A (Z.of_nat k) (sector_word c lba k) true _ true false
    (at_ (lba * 512 + 2 * Z.of_nat (S k))) A _ _ _ _ _ (or_intror eq_refl) eq_refl
    (read_gap i2 A (Z.of_nat k) (sector_word c lba k) (2 * Z.of_nat (S k)) _ ltac:(lia))
    eq_refl) as S2.
  destruct (IH (S k) inps A (Z.of_nat k) (sector_word c lba k))
    as (os&ack'&addr'&dout'&E&Ha&Hs&Ho); [simpl in Hl; lia|lia|done|done|by right|].
  do 4 eexists. split.
  { eapply run_cons; [exact S1|]. eapply run_cons; [exact S2|].
    replace (k + S n)%nat with (S k + n)%nat by lia. exact E. }
  split; [exact Ha|]. split.
  - rewrite !strobes_cons, Hs. done.
  - replace (2 * S n)%nat with (S (S (2 * n))) by lia.
    rewrite !fmap_cons, Ho. done.
Qed.

Lemma run_read first inps last lba :
  idle s0 -> 2 <= latency -> (exists p, the_disk s0 i = at_ p) ->
  (forall j, bitcheck (sd_rd first) j = (j =? i)%nat) -> none (sd_wr first) ->
  sd_lba first i = lba -> 0 <= lba < 2 ^ 22 -> lba * 512 + 512 <= Z.of_nat (length c) ->
  length inps = Z.to_nat (latency + 509) -> none (sd_rd last) -> none (sd_wr last) ->
  exists os dout,
    run step s0 (first :: inps ++ [last]) =
      (mid 0 255 dout false 512 false false 0 (-1) (at_ (lba * 512 + 512)), os) /\
    strobes os = ((fun j => (Z.of_nat j, sector_word c lba j)) <$> seq 0 256) /\
    o_ack <$> os = replicate (Z.to_nat (latency - 1)) 0 ++ replicate 511 A ++ [0].
Proof.
  intros Hidle HL Hd Hr Hw Hlba Hl Hlen Hn Hr' Hw'.
  assert (Hd' : seek (seek (clear (the_disk s0 i)) (lba * 512)) (lba * 512) = at_ (lba * 512)).
  { destruct Hd as [p ->].
    change (clear (at_ p)) with (at_ p). by rewrite !seek_at by lia. }
  pose proof (step_start first true false Hidle HL eq_refl
    ltac:(intros j; by rewrite Hr) ltac:(intros j; by rewrite Hw)) as S0.
  cbv zeta in S0. unfold kBLKSZ in S0. rewrite Hlba in S0.
  rewrite (i32_small lba), (i32_small (lba * 512)), Hd' in S0 by lia.
  (* countdown, words 0..254, word 255, end *)
  destruct (app_split_at inps (Z.to_nat (latency - 2)) ltac:(lia)) as (is1&is2&->&H1&H2).
  destruct (app_split_at is2 510 ltac:(lia)) as (is3&is4&->&H3&H4).
  destruct is4 as [|iw [|? ?]]; [cbn in H4; lia| |cbn in H4; lia].
  pose proof (run_count (Z.to_nat (latency - 2)) is1 0 (sd_buff_dout s0) 0 true false
    (at_ (lba * 512)) eq_refl H1) as R1.
  replace (Z.of_nat (Z.to_nat (latency - 2)) + 1) with (latency - 1) in R1 by lia.
  destruct (run_words 255 0 is3 0 0 (sd_buff_dout s0) lba ltac:(lia) ltac:(lia)
    ltac:(lia) Hlen (or_introl eq_refl)) as (os&ack'&addr'&dout'&R2&Hack&Hs&Ho).
  replace (lba * 512 + 2 * Z.of_nat 0) with (lba * 512) in R2 by lia.
  pose proof (step_data iw ack' addr' dout' false _ true false _ A _ _ _ _ _ Hack eq_refl
    (read_word iw ack' addr' dout' lba 255 ltac:(lia) ltac:(lia) Hlen) eq_refl) as S3.
  destruct Hidle as (_&_&_&_&_&_&_&Hq).
  pose proof (step_end last A 255 (sector_word c lba 255) true 512 true false
    (at_ (lba * 512 + 512)) _ _ _ (or_intror eq_refl) eq_refl Hq Hr' Hw'
    (read_fin last A 255 (sector_word c lba 255) (at_ (lba * 512 + 512)))) as S4.
  do 2 eexists. split.
  { eapply run_cons; [exact S0|]. rewrite <- !app_assoc.
    eapply run_seq; [exact R1|]. eapply run_seq; [exact R2|].
    eapply run_cons; [exact S3|]. eapply run_cons; [exact S4|]. reflexivity. }
  split.
  - rewrite strobes_cons, !strobes_app, Hs. change 256%nat with (255 + 1)%nat. rewrite seq_app, fmap_app.
    rewrite strobes_low by done. done.
  - rewrite fmap_cons, !fmap_app, Ho, fmap_replicate.
    replace (Z.to_nat (latency - 1)) with (S (Z.to_nat (latency - 2))) by lia.
    cbn [replicate app o_ack]. f_equal.
Qed.

(** *** Sector writes *)

Definition word_bytes (z : Z) : list Z := [z / 256; z mod 256].

(** The image with the first [k] words of the sector at [p] replaced. *)
Definition patched (f : nat -> Z) (p : Z) (k : nat) : list Z :=
  take (Z.to_nat p) c ++ mjoin (word_bytes <$> (f <$> seq 0 k)) ++
  drop (Z.to_nat p + 2 * k) c.

Lemma words_bytes_length (l : list Z) : length (mjoin (word_bytes <$> l)) = (2 * length l)%nat.
Proof.
  induction l as [|x l IH]; [done|].
  change (mjoin (word_bytes <$> (x :: l))) with (word_bytes x ++ mjoin (word_bytes <$> l)).
  rewrite length_app, IH. cbn [length word_bytes]. lia.
Qed.

Lemma store_app (u r : list Z) x b : store (u ++ x :: r) (length u) b = u ++ b :: r.
Proof.
  unfold store. rewrite length_app. cbn [length].
  replace (length u - (length u + S (length r)))%nat with 0%nat by lia.
  cbn [replicate]. rewrite app_nil_r, take_app_length.
  change (S (length u)) with (1 + length u)%nat. rewrite Nat.add_comm, <- drop_drop.
  by rewrite drop_app_length.
Qed.

#[local] Abbreviation wr_at f p k :=
  (mkStream true (patched f p k) (p + 2 * Z.of_nat k) false true).

Lemma put_word f p k : 0 <= p -> p + 512 <= Z.of_nat (length c) -> (k < 256)%nat ->
  0 <= f k < 65536 ->
  put (put (wr_at f p k) (f k / 256)) (f k mod 256) = wr_at f p (S k).
Proof.
  intros Hp Hlen Hk Hf.
  set (u := take (Z.to_nat p) c ++ mjoin (word_bytes <$> (f <$> seq 0 k))).
  assert (Hu : length u = (Z.to_nat p + 2 * k)%nat).
  { unfold u. rewrite length_app, words_bytes_length, length_fmap, length_seq.
    rewrite length_take_le by lia. lia. }
  destruct (drop (Z.to_nat p + 2 * k) c) as [|x [|y r]] eqn:E.
  1, 2: apply (f_equal length) in E; rewrite length_drop in E; cbn in E; lia.
  assert (Hd : drop (Z.to_nat p + 2 * S k) c = r).
  { replace (Z.to_nat p + 2 * S k)%nat with (Z.to_nat p + 2 * k + 2)%nat by lia.
    by rewrite <- drop_drop, E. }
  assert (H1 : patched f p k = u ++ x :: y :: r) by (unfold patched, u; by rewrite E, app_assoc).
  assert (H2 : patched f p (S k) = u ++ (f k / 256) :: (f k mod 256) :: r).
  { unfold patched, u. rewrite Hd, seq_S, !fmap_app, join_app, <- !app_assoc. done. }
  unfold put at 2. cbn [is_open failed writable data fpos negb orb].
  rewrite H1. replace (Z.to_nat (p + 2 * Z.of_nat k)) with (length u) by lia.
  rewrite store_app. unfold put, update. cbn.
  replace (Z.to_nat (p + 2 * Z.of_nat k + 1)) with (length (u ++ [f k / 256]))
    by (rewrite length_app; cbn; lia).
  change (u ++ ?a :: y :: r) with (u ++ [a] ++ y :: r). rewrite app_assoc, store_app.
  rewrite H2, <- app_assoc. simpl. f_equal. lia.
Qed.

Lemma write_word inp ack addr dout f p k :
  ignore_writes = false ->
  0 <= p -> p + 512 <= Z.of_nat (length c) -> (k < 256)%nat ->
  0 <= f k < 65536 -> sd_buff_din inp i = f k ->
  transfer ignore_writes inp
    (mid ack addr dout false (2 * Z.of_nat k) false true 1 I (wr_at f p k)) i =
  mid ack (Z.of_nat (S k) mod 256) dout false (2 * Z.of_nat (S k)) false true 1 I
    (wr_at f p (S k)).
Proof.
  intros -> Hp Hlen Hk Hf Hd. unfold transfer. rewrite the_disk_mid.
  cbn [ack_delay reading writing bytecnt mid]. simpl (1 =? 1). cbv iota.
  simpl (false && _ && _). cbv iota.
  unfold kBLKSZ. rewrite (proj2 (Z.ltb_lt (2 * Z.of_nat k) 512)) by lia.
  simpl (true && true). cbv iota. simpl (negb false). cbv iota.
  rewrite Hd, u16_small by done. destruct (word_split _ Hf) as [-> ->].
  rewrite put_word by done.
  fold (mid ack addr dout false (2 * Z.of_nat k) false true 1 I (wr_at f p k)).
  rewrite set_disk_mid. cbn [bytecnt mid].
  replace (2 * Z.of_nat k + 2) with (2 * Z.of_nat (S k)) by lia.
  unfold update, mid; cbn -[Z.mul Z.of_nat Z.modulo Z.div Z.ltb]. 
  replace (2 * Z.of_nat k + 2) with (2 * Z.of_nat (S k)) by lia.
  replace (if _ <? 512 then _ else 0) with (Z.of_nat (S k) mod 256); [done|].
  destruct (Z.ltb_spec (2 * Z.of_nat (S k)) 512).
  - unfold u8. f_equal. dlia.
  - replace k with 255%nat by lia. done.
Qed.

Lemma write_fin inp ack addr dout d :
  transfer ignore_writes inp (mid ack addr dout false 512 false true 1 I d) i =
  mid ack 0 dout false 512 false false 1 I d.
Proof. done. Qed.

Lemma run_write_words f p n k inps ack addr dout :
  ignore_writes = false -> 0 <= p -> p + 512 <= Z.of_nat (length c) ->
  (k + n <= 256)%nat -> length inps = n ->
  (forall j inp, inps !! j = Some inp ->
     sd_buff_din inp i = f (k + j)%nat /\ 0 <= f (k + j)%nat < 65536) ->
  ack = 0 \/ ack = A ->
  exists os ack' addr',
    run step (mid ack addr dout false (2 * Z.of_nat k) false true 1 I (wr_at f p k)) inps =
      (mid ack' addr' dout false (2 * Z.of_nat (k + n)) false true 1 I (wr_at f p (k + n)), os) /\
    (ack' = 0 \/ ack' = A) /\
    o_addr <$> os = (fun j => Z.of_nat j mod 256) <$> seq (S k) n.
Proof.
  intros Hig Hp Hlen. revert k inps ack addr.
  induction n as [|n IH]; intros k inps ack addr Hk Hl Hin Hack.
  { destruct inps; [|done]. rewrite Nat.add_0_r. by repeat eexists. }
  destruct inps as [|i1 inps]; [done|]. injection Hl as Hl.
  destruct (Hin 0%nat i1 eq_refl) as [Hd Hf]. rewrite Nat.add_0_r in Hd, Hf.
  pose proof (step_data i1 ack addr dout false _ false true _ A _ _ _ _ _ Hack eq_refl
    (write_word i1 ack addr dout f p k Hig Hp Hlen ltac:(lia) Hf Hd) eq_refl) as S1.
  destruct (IH (S k) inps A (Z.of_nat (S k) mod 256)) as (os&ack'&addr'&E&Ha&Ho);
    [lia|done| |by right|].
  { intros j inp Hj. rewrite Nat.add_succ_comm. by apply Hin. }
  do 3 eexists. split.
  { eapply run_cons; [exact S1|]. replace (k + S n)%nat with (S k + n)%nat by lia. exact E. }
  split; [exact Ha|]. rewrite fmap_cons, Ho. done.
Qed.

Lemma run_write first inps dins last lba f :
  ignore_writes = false -> w = true ->
  idle s0 -> 2 <= latency -> (exists p, the_disk s0 i = at_ p) ->
  none (sd_rd first) -> (forall j, bitcheck (sd_wr first) j = (j =? i)%nat) ->
  sd_lba first i = lba -> 0 <= lba < 2 ^ 22 -> lba * 512 + 512 <= Z.of_nat (length c) ->
  length inps = Z.to_nat (latency - 2) -> length dins = 256%nat ->
  (forall j inp, dins !! j = Some inp -> sd_buff_din inp i = f j /\ 0 <= f j < 65536) ->
  none (sd_rd last) -> none (sd_wr last) ->
  exists os dout,
    run step s0 (first :: inps ++ dins ++ [last]) =
      (mid 0 0 dout false 512 false false 0 (-1) (wr_at f (lba * 512) 256), os) /\
    o_addr <$> os = replicate (Z.to_nat (latency - 1)) 0 ++
      ((fun j => Z.of_nat j mod 256) <$> seq 1 256) ++ [0].
Proof.
  intros Hig -> Hidle HL Hd Hr Hw Hlba Hl Hlen Hn Hdn Hdin Hr' Hw'.
  destruct Hd as [p0 Hd].
  pose proof (step_start first false true Hidle HL eq_refl
    ltac:(intros j; by rewrite Hr) ltac:(intros j; by rewrite Hw)) as S0.
  cbv zeta in S0. unfold kBLKSZ in S0. rewrite Hlba, Hd in S0.
  rewrite (i32_small lba), (i32_small (lba * 512)) in S0 by lia.
  assert (Hst : forall q, 0 <= q ->
    seek (seek (clear (mkStream true c p0 false true)) q) q = mkStream true c q false true).
  { intros q Hq. change (clear ?d) with d. by rewrite !seek_at. }
  rewrite Hst in S0 by lia.
  assert (Hp0 : wr_at f (lba * 512) 0 = mkStream true c (lba * 512) false true).
  { unfold patched. simpl. rewrite Nat.add_0_r, take_drop. f_equal. lia. }
  rewrite <- Hp0 in S0.
  pose proof (run_count (Z.to_nat (latency - 2)) inps 0 (sd_buff_dout s0) 0 false true
    (wr_at f (lba * 512) 0) eq_refl Hn) as R1.
  replace (Z.of_nat (Z.to_nat (latency - 2)) + 1) with (latency - 1) in R1 by lia.
  destruct (run_write_words f (lba * 512) 256 0 dins 0 0 (sd_buff_dout s0) Hig ltac:(lia)
    Hlen ltac:(lia) Hdn Hdin (or_introl eq_refl)) as (os&ack'&addr'&R2&Hack&Ho).
  destruct Hidle as (_&_&_&_&_&_&_&Hq).
  pose proof (step_end last ack' addr' (sd_buff_dout s0) false 512 false true
    _ _ _ _ Hack eq_refl Hq Hr' Hw'
    (write_fin last ack' addr' (sd_buff_dout s0) (wr_at f (lba * 512) 256))) as S4.
  do 2 eexists. split.
  { eapply run_cons; [exact S0|].
    eapply run_seq; [exact R1|]. eapply run_seq; [exact R2|].
    eapply run_cons; [exact S4|]. reflexivity. }
  rewrite fmap_cons, !fmap_app, Ho, fmap_replicate.
  replace (Z.to_nat (latency - 1)) with (S (Z.to_nat (latency - 2))) by lia.
  cbn [replicate app o_addr]. done.
Qed.
End Transfer.
End Facts.

(** A transfer ends with the device at rest. *)
Lemma mid_idle s0 i addr dout bc d :
  idle s0 -> idle (mid s0 i 0 addr dout false bc false false 0 (-1) d).
Proof. intros (_&_&_&_&_&_&_&Hq). repeat split; try done. Qed.

Lemma mid_disk s0 i ack addr dout wr bc rd wg ad cur d j :
  (i < length (disk s0))%nat ->
  the_disk (mid s0 i ack addr dout wr bc rd wg ad cur d) j =
  if decide (j = i) then d else the_disk s0 j.
Proof.
  intros Hi. unfold the_disk, mid. cbn [disk]. rewrite !nth_lookup.
  case_decide as Hj; [subst; by rewrite list_lookup_insert_eq|].
  by rewrite list_lookup_insert_ne by done.
Qed.

(** C1: a sector read requested of a device at rest raises no acknowledge for
    [latency - 1] clocks, then acknowledges on one disk for 511 clocks in
    which the 256 big-endian words of exactly that sector are strobed, in
    order, at buffer addresses 0 to 255; it leaves the device at rest and
    every image unchanged. *)
Theorem blk_read_sector (latency : Z) (ignore_writes : bool) (s : t) (i : nat)
    (c : list Z) (w : bool) (p lba : Z) (first last : In) (inps : list In)
    (Hidle : idle s) (Hlat : 2 <= latency)
    (Hi : (i < kVDNUM)%nat) (Hn : length (disk s) = kVDNUM)
    (Hdisk : the_disk s i = mkStream true c p false w) (Hbytes : Forall is_byte c)
    (Hfirst : only (sd_rd first) i /\ none (sd_wr first) /\ sd_lba first i = lba)
    (Hlba : 0 <= lba < 2 ^ 22) (Hin : lba * 512 + 512 <= Z.of_nat (length c))
    (Hlen : length inps = Z.to_nat (latency + 509))
    (Hlast : none (sd_rd last) /\ none (sd_wr last)) :
  exists s' os, run (step latency ignore_writes) s (first :: inps ++ [last]) = (s', os) /\
    strobes os = ((fun k => (Z.of_nat k, sector_word c lba k)) <$> seq 0 256) /\
    o_ack <$> os = replicate (Z.to_nat (latency - 1)) 0 ++ replicate 511 (bitset 0 i) ++ [0] /\
    idle s' /\ data (the_disk s' i) = c /\
    (forall j, j <> i -> the_disk s' j = the_disk s j).
Proof.
  destruct Hfirst as (H1&H2&H3), Hlast as [H4 H5].
  destruct (run_read latency ignore_writes s i Hi Hn c Hbytes w first inps last lba)
    as (os&dout&E&Hs&Ho); [done|done|by exists p|done..|].
  eexists. exists os. split; [exact E|]. split; [done|]. split; [done|].
  split; [by apply mid_idle|]. split.
  - rewrite mid_disk by lia. by rewrite decide_True.
  - intros j Hj. rewrite mid_disk by lia. by rewrite decide_False.
Qed.

(** An input that holds the request pins and the data of disk 0. *)
Definition pins_in (rd wr lba din : Z) : In := mkIn rd wr (fun _ => lba) (fun _ => din).
(** A device at rest with one writable image in slot 0. *)
Definition rest_with (c : list Z) : t :=
  mkDev 0 0 0 false 0 true 0 0 false false 0 (-1) (replicate 10 0) (replicate 10 false)
    (mkStream true c 0 false true :: replicate 9 closed).

Lemma rest_with_idle c : idle (rest_with c).
Proof.
  repeat split; try done. intros i. unfold queued, rest_with. cbn [mountQueue].
  by do 10 (destruct i as [|i]; [done|]); destruct i.
Defined.

Lemma bitcheck_0 j : bitcheck 0 j = false.
Proof. unfold bitcheck. by rewrite Z.land_0_l. Defined.
Lemma bitcheck_1 j : bitcheck 1 j = (j =? 0)%nat.
Proof.
  destruct j as [|j]; [done|]. unfold bitcheck.
  rewrite Z.shiftl_1_l, land_pow2_testbit by lia.
  change 1 with (2 ^ 0). by rewrite Z.pow2_bits_false by lia.
Defined.

Lemma blk_read_sector_witness :
  exists s' os, run (step 2 false) (rest_with (replicate 1024 7))
      (pins_in 1 0 1 0 :: replicate 511 (pins_in 0 0 0 0) ++ [pins_in 0 0 0 0]) = (s', os) /\
    strobes os = ((fun k => (Z.of_nat k, sector_word (replicate 1024 7) 1 k)) <$> seq 0 256) /\
    o_ack <$> os = replicate 1 0 ++ replicate 511 1 ++ [0] /\
    idle s' /\ data (the_disk s' 0) = replicate 1024 7 /\
    (forall j, j <> 0%nat -> the_disk s' j = the_disk (rest_with (replicate 1024 7)) j).
Proof.
  apply (blk_read_sector 2 false (rest_with (replicate 1024 7)) 0 (replicate 1024 7) true 0 1
    (pins_in 1 0 1 0) (pins_in 0 0 0 0) (replicate 511 (pins_in 0 0 0 0))).
  - apply rest_with_idle.
  - lia.
  - vm_compute; lia.
  - reflexivity.
  - reflexivity.
  - apply Forall_replicate. vm_compute. split; congruence.
  - split; [|split]; [exact bitcheck_1|exact bitcheck_0|reflexivity].
  - lia.
  - vm_compute; congruence.
  - reflexivity.
  - split; exact bitcheck_0.
Defined.

(** C2: a sector write requested of a device at rest presents the buffer
    addresses 0 to 255 one clock ahead of taking the word, and replaces
    exactly the 512 bytes of that sector of that image by the 256 words the
    core's buffer returned, high byte first; then the device is at rest. *)
Theorem blk_write_sector (latency : Z) (s : t) (i : nat) (c : list Z) (p lba : Z)
    (f : nat -> Z) (first last : In) (inps dins : list In)
    (Hidle : idle s) (Hlat : 2 <= latency)
    (Hi : (i < kVDNUM)%nat) (Hn : length (disk s) = kVDNUM)
    (Hdisk : the_disk s i = mkStream true c p false true) (Hbytes : Forall is_byte c)
    (Hfirst : none (sd_rd first) /\ only (sd_wr first) i /\ sd_lba first i = lba)
    (Hlba : 0 <= lba < 2 ^ 22) (Hin : lba * 512 + 512 <= Z.of_nat (length c))
    (Hlen : length inps = Z.to_nat (latency - 2) /\ length dins = 256%nat)
    (Hdin : forall j inp, dins !! j = Some inp -> sd_buff_din inp i = f j /\ 0 <= f j < 65536)
    (Hlast : none (sd_rd last) /\ none (sd_wr last)) :
  exists s' os, run (step latency false) s (first :: inps ++ dins ++ [last]) = (s', os) /\
    (forall k, (k < 256)%nat ->
       (o_addr <$> os) !! (Z.to_nat (latency - 2) + k)%nat = Some (Z.of_nat k)) /\
    data (the_disk s' i) = take (Z.to_nat (lba * 512)) c ++
      mjoin (word_bytes <$> (f <$> seq 0 256)) ++ drop (Z.to_nat (lba * 512) + 512) c /\
    idle s' /\ (forall j, j <> i -> the_disk s' j = the_disk s j).
Proof.
  destruct Hfirst as (H1&H2&H3), Hlast as [H4 H5], Hlen as [Hl1 Hl2].
  destruct (run_write latency false s i Hi Hn c true first inps dins last lba f)
    as (os&dout&E&Ho); [done|done|done|done|by exists p|done..|].
  eexists. exists os. split; [exact E|]. split; [|split; [|split]].
  - intros k Hk. rewrite Ho. 
    replace (Z.to_nat (latency - 1)) with (Z.to_nat (latency - 2) + 1)%nat by lia.
    destruct k as [|k].
    + rewrite lookup_app_l by (rewrite length_replicate; lia).
      rewrite lookup_replicate_2 by lia. done.
    + rewrite lookup_app_r by (rewrite length_replicate; lia). rewrite length_replicate.
      replace (Z.to_nat (latency - 2) + S k - (Z.to_nat (latency - 2) + 1))%nat with k by lia.
      rewrite lookup_app_l by (rewrite length_fmap, length_seq; lia).
      rewrite list_lookup_fmap, lookup_seq_lt by lia. cbn [fmap option_fmap option_map].
      f_equal. rewrite Z.mod_small by lia. lia.
  - rewrite mid_disk by lia. by rewrite decide_True.
  - by apply mid_idle.
  - intros j Hj. rewrite mid_disk by lia. by rewrite decide_False.
Qed.

Lemma blk_write_sector_witness :
  exists s' os, run (step 3 false) (rest_with (replicate 512 7))
      (pins_in 0 1 0 0 :: [pins_in 0 0 0 0] ++ replicate 256 (pins_in 0 0 0 513) ++
       [pins_in 0 0 0 0]) = (s', os) /\
    (forall k, (k < 256)%nat -> (o_addr <$> os) !! (1 + k)%nat = Some (Z.of_nat k)) /\
    data (the_disk s' 0) = take 0 (replicate 512 7) ++
      mjoin (word_bytes <$> ((fun _ => 513) <$> seq 0 256)) ++ drop (0 + 512) (replicate 512 7) /\
    idle s' /\ (forall j, j <> 0%nat -> the_disk s' j = the_disk (rest_with (replicate 512 7)) j).
Proof.
  apply (blk_write_sector 3 (rest_with (replicate 512 7)) 0 (replicate 512 7) 0 0 (fun _ => 513)
    (pins_in 0 1 0 0) (pins_in 0 0 0 0) [pins_in 0 0 0 0] (replicate 256 (pins_in 0 0 0 513))).
  - apply rest_with_idle.
  - lia.
  - vm_compute; lia.
  - reflexivity.
  - reflexivity.
  - apply Forall_replicate. vm_compute. split; congruence.
  - split; [|split]; [exact bitcheck_0|exact bitcheck_1|reflexivity].
  - lia.
  - vm_compute; congruence.
  - split; reflexivity.
  - intros j inp H. apply lookup_replicate_1 in H as [-> _]. split; [reflexivity|lia].
  - split; exact bitcheck_0.
Defined.

(** *** The acknowledge pins *)

(** The device between clocks, as long as nothing is mounted: at rest, or
    serving one disk. *)
Definition serving (s : t) (i : nat) : Prop :=
  (i < kVDNUM)%nat /\ current_disk s = Z.of_nat i /\ reading s || writing s = true /\
  1 <= ack_delay s /\ (sd_ack s = 0 \/ sd_ack s = bitset 0 i).
Definition resting (s : t) : Prop :=
  current_disk s = -1 /\ reading s || writing s = false /\ ack_delay s = 0 /\ sd_ack s = 0.
Definition no_mount (s : t) : Prop :=
  img_mounted s = 0 /\ forall i, queued s i = false.
Definition dev_inv (s : t) : Prop :=
  no_mount s /\ (resting s \/ exists i, serving s i).

Lemma transfer_keeps ig inp s i :
  let s' := transfer ig inp s i in
  sd_ack s' = sd_ack s /\ current_disk s' = current_disk s /\ ack_delay s' = ack_delay s /\
  (no_mount s -> no_mount s') /\
  (reading s || writing s = true -> ack_delay s <> 1 -> reading s' || writing s' = true).
Proof.
  unfold transfer. destruct (Z.eqb_spec (ack_delay s) 1); [|done].
  destruct (reading s && _ && _).
  { destruct (get (the_disk s i)) as [d ?]. by destruct (get d). }
  destruct (writing s && _); [by destruct ig|]. destruct (writing s); [done|].
  simpl. by destruct (reading s && _).
Qed.

Lemma acknowledge_serving s i :
  no_mount s -> serving s i -> dev_inv (acknowledge s i).
Proof.
  intros Hm (Hi&Hc&Hb&Ha&Hk). destruct (bit_pins i Hi) as (B1&_&B3).
  destruct (bit_pins i Hi) as (_&B2&_).
  unfold acknowledge. rewrite Hc, Z.eqb_refl. destruct s as [k f2 f3 f4 mt f6 f7 bc rd wg ad cur f13 f14 f15].
  cbn in Hc, Hb, Ha, Hk. subst cur.
  assert (Hrw : negb rd && negb wg = false) by (by destruct rd, wg).
  assert (Hset : bitset k i = bitset 0 i) by (by destruct Hk as [->| ->]).
  assert (Hclr : bitclear k i = 0) by (by destruct Hk as [->| ->]).
  cbn -[bitset bitclear Z.eqb Z.gtb Z.sub].
  destruct (Z.eqb_spec ad 1) as [->|Hne]; cbn -[bitset bitclear Z.eqb Z.gtb Z.sub];
    rewrite ?Hset, ?Hclr.
  - cbn -[bitset bitclear]. rewrite Hrw. cbn -[bitset bitclear].
    split; [done|]. right. exists i. repeat split; auto; cbn; lia.
  - rewrite (proj2 (Z.gtb_lt ad 1)) by lia. cbn -[bitset bitclear Z.eqb Z.sub].
    rewrite (proj2 (Z.eqb_neq (ad - 1) 0)) by lia. cbn.
    split; [done|]. right. exists i. repeat split; auto; cbn; lia.
Qed.

Lemma acknowledge_release s i :
  (i < kVDNUM)%nat -> no_mount s -> current_disk s = Z.of_nat i ->
  reading s || writing s = false ->
  ack_delay s = 0 -> sd_ack s = 0 \/ sd_ack s = bitset 0 i -> dev_inv (acknowledge s i).
Proof.
  intros Hi Hm Hc Hb Ha Hk. destruct (bit_pins i Hi) as (_&B2&B3).
  unfold acknowledge. rewrite Hc, Z.eqb_refl, Ha. simpl (0 =? 1). cbv iota.
  assert (Hclr : bitclear (sd_ack s) i = 0) by (by destruct Hk as [->| ->]).
  rewrite Hclr. apply orb_false_iff in Hb as [H1 H2].
  destruct s. cbn in *. subst. cbn. split; [done|]. by left.
Qed.

(** Starting a transfer: [request] on disk [i] when it may. *)
Lemma request_cases lat inp s i :
  current_disk s = -1 \/ current_disk s = Z.of_nat i -> ack_delay s = 0 ->
  request lat inp s i = s \/
  (let s' := request lat inp s i in
   current_disk s' = Z.of_nat i /\ reading s' || writing s' = true /\ ack_delay s' = lat /\
   sd_ack s' = sd_ack s /\ (no_mount s -> no_mount s')).
Proof.
  intros Hc Ha. unfold request.
  replace ((current_disk s =? -1) || _) with true by lia. simpl (true && _).
  destruct (bitcheck (sd_rd inp) i) eqn:E1, (bitcheck (sd_wr inp) i) eqn:E2; simpl;
    [| | |by left]; right; rewrite Ha; simpl; repeat split; auto; try apply H;
    by rewrite orb_true_r.
Qed.

Lemma visit_inv lat ig inp s j :
  1 <= lat -> (j < kVDNUM)%nat -> dev_inv s -> dev_inv (visit lat ig inp s j).
Proof.
  intros HL Hj [Hm [(Hc&Hb&Ha&Hk)|(i&Hs)]].
  - unfold visit. rewrite Hc, (proj2 (Z.eqb_neq (-1) (Z.of_nat j))) by lia.
    destruct Hm as [Hm Hq]. rewrite mount_rest by auto.
    destruct (request_cases lat inp s j (or_introl Hc) Ha) as [->|(R1&R2&R3&R4&R5)].
    + rewrite acknowledge_none by lia. split; [done|by left].
    + apply acknowledge_serving; [by apply R5|]. repeat split; try done; [lia|].
      left. congruence.
  - destruct (decide (j = i)) as [->|Hne].
    2: { destruct Hs as (H1&H2&H3&H4&H5). rewrite (visit_other lat ig inp s i j); try done.
         - split; [done|]. right. by exists i.
         - apply Hm. }
    destruct Hs as (_&Hc&Hb&Ha&Hk). unfold visit. rewrite Hc, Z.eqb_refl.
    destruct (transfer_keeps ig inp s i) as (T1&T2&T3&T4&T5).
    specialize (T4 Hm). set (s1 := transfer ig inp s i) in *. clearbody s1.
    rewrite Hc in T2. rewrite <- T1 in Hk.
    destruct (reading s1 || writing s1) eqn:Hb1.
    + rewrite mount_busy by (done || apply T4). rewrite request_busy by lia.
      apply acknowledge_serving; [done|]. repeat split; (done || lia).
    + assert (Ha1 : ack_delay s1 = 1).
      { destruct (decide (ack_delay s = 1)); [congruence|]. discriminate (T5 Hb n). }
      apply orb_false_iff in Hb1 as [Hr1 Hw1]. destruct T4 as [Hm1 Hq1].
      assert (Hmp : mount_phase s1 i = s1 <| ack_delay := 0 |>).
      { unfold mount_phase. rewrite Hr1, Hw1, Hq1, Ha1, Hm1, bitcheck_0. done. }
      rewrite Hmp. set (s2 := s1 <| ack_delay := 0 |>).
      destruct (request_cases lat inp s2 i (or_intror T2) eq_refl) as [->|(R1&R2&R3&R4&R5)].
      * apply acknowledge_release; try done. unfold s2. simpl. by rewrite Hr1, Hw1.
      * apply acknowledge_serving; [by apply R5|]. repeat split; try done; [lia|].
        by rewrite R4.
Qed.

(** C9: from rest, with no image waiting to be mounted, whatever the core
    requests on whichever disks and however often, at every clock at most
    one acknowledge pin is up, and only while a transfer of that very disk
    is in progress. *)
Theorem blk_one_ack (latency : Z) (ignore_writes : bool) (s : t) (ins : list In)
    (Hlat : 1 <= latency) (Hs : idle s) :
  let s' := (run (step latency ignore_writes) s ins).1 in
  sd_ack s' = 0 \/
  exists i, (i < kVDNUM)%nat /\ current_disk s' = Z.of_nat i /\ sd_ack s' = bitset 0 i /\
    reading s' || writing s' = true.
Proof.
  intros s'. assert (H : dev_inv s').
  { apply (run_invariant (step latency ignore_writes) dev_inv).
    - intros s1 inp H. unfold step, BeforeEval. simpl (2000 <? 2000). cbv iota. cbn [fst].
      assert (Hb : forall j, j ∈ seq 0 kVDNUM -> (j < kVDNUM)%nat)
        by (intros j Hj; apply elem_of_seq in Hj; lia).
      revert s1 H Hb. generalize (seq 0 kVDNUM). intros l.
      induction l as [|j l IH]; intros s1 H Hb; [done|]. simpl. apply IH.
      + apply visit_inv; [done|apply Hb; by left|done].
      + intros j' Hj'. apply Hb. by right.
    - destruct Hs as (H1&H2&H3&H4&H5&H6&H7&H8). split; [done|]. left.
      repeat split; try done. by rewrite H3, H4. }
  destruct H as [_ [(_&_&_&H)|(i&H1&H2&H3&_&[H|H])]]; [by left|by left|].
  right. by exists i.
Qed.

Lemma blk_one_ack_witness :
  let s' := (run (step 2 false) (rest_with (replicate 512 1)) [pins_in 3 0 0 0; pins_in 2 1 0 0]).1 in
  sd_ack s' = 0 \/
  exists i, (i < kVDNUM)%nat /\ current_disk s' = Z.of_nat i /\ sd_ack s' = bitset 0 i /\
    reading s' || writing s' = true.
Proof.
  apply (blk_one_ack 2 false (rest_with (replicate 512 1)) [pins_in 3 0 0 0; pins_in 2 1 0 0]).
  - lia.
  - apply rest_with_idle.
Defined.

(** *** A request during the countdown of a mount *)

(** The device counts [a] down after a mount of disk [m]. *)
Definition counting (s : t) (m : nat) (a : Z) : Prop :=
  reading s = false /\ writing s = false /\ sd_buff_wr s = false /\
  (forall j, queued s j = false) /\ img_mounted s = bitset 0 m /\ sd_ack s = 0 /\
  ack_delay s = a.
(** Disk [i] alone is requested, for reading, writing or both. *)
Definition requests (inp : In) (i : nat) : Prop :=
  forall j, bitcheck (sd_rd inp) j || bitcheck (sd_wr inp) j = (j =? i)%nat.

Section Countdown.
Context (latency : Z) (ignore_writes : bool) (m i : nat) (Hi : (i < kVDNUM)%nat).
#[local] Abbreviation visit := (visit latency ignore_writes).
#[local] Abbreviation step := (step latency ignore_writes).
#[local] Abbreviation waiting s := (current_disk s = -1 \/ current_disk s = Z.of_nat i).

Lemma mount_count s j a : counting s m a -> 2 <= a ->
  mount_phase s j = s <| ack_delay := a - 1 |>.
Proof.
  intros (Hr&Hw&_&Hq&_&_&Ha) H2. unfold mount_phase. rewrite Hr, Hw, Hq, Ha.
  cbn [negb andb]. rewrite (proj2 (Z.eqb_neq a 1)), (proj2 (Z.gtb_lt a 0)) by lia. done.
Qed.

(** Every disk takes one off the counter. *)
Lemma visit_count s j inp a :
  counting s m a -> 2 <= a -> waiting s -> requests inp i -> j <> i ->
  visit inp s j = s <| ack_delay := a - 1 |>.
Proof.
  intros Hc H2 Hd Hq Hne. unfold SimBlockDevice.visit.
  rewrite (proj2 (Z.eqb_neq _ (Z.of_nat j))) by lia. rewrite (mount_count s j a) by done.
  rewrite request_none.
  - apply acknowledge_none. cbn. lia.
  - right. specialize (Hq j). rewrite (proj2 (Nat.eqb_neq j i)) in Hq by done.
    by apply orb_false_iff in Hq.
Qed.

(** The requesting disk waits, and takes a second one off; on the last it
    raises its acknowledge and is forgotten. *)
Lemma visit_count_request s inp a :
  counting s m a -> 2 <= a -> waiting s -> requests inp i ->
  visit inp s i =
  if a =? 2 then s <| sd_ack := bitset 0 i |> <| ack_delay := 0 |> <| current_disk := -1 |>
  else s <| ack_delay := a - 2 |> <| current_disk := Z.of_nat i |>.
Proof.
  intros Hc H2 Hd Hq. pose proof Hc as (Hr&Hw&Hb&_&_&Hk&Ha). unfold SimBlockDevice.visit.
  assert (Ht : (if current_disk s =? Z.of_nat i then transfer ignore_writes inp s i else s) = s).
  { destruct (_ =? _); [|done]. unfold transfer.
    rewrite (proj2 (Z.eqb_neq (ack_delay s) 1)) by lia. destruct s. cbn in *. by subst. }
  rewrite Ht, (mount_count s i a) by done.
  assert (Hreq : request latency inp (s <| ack_delay := a - 1 |>) i =
    s <| ack_delay := a - 1 |> <| current_disk := Z.of_nat i |>).
  { unfold request. specialize (Hq i). rewrite Nat.eqb_refl in Hq. rewrite Hq.
    cbn [current_disk ack_delay update].
    replace ((current_disk s =? -1) || (current_disk s =? Z.of_nat i)) with true by lia.
    cbn [andb]. by rewrite (proj2 (Z.eqb_neq (a - 1) 0)) by lia. }
  rewrite Hreq. destruct (bit_pins i Hi) as (_&_&B). unfold acknowledge.
  destruct s as [k f2 f3 f4 mt f6 f7 bc rd wg ad cur f13 f14 f15]. cbn in Hr, Hw, Hb, Hk, Ha. subst.
  cbn -[bitset bitclear Z.sub Z.eqb Z.gtb]. rewrite Z.eqb_refl.
  destruct (Z.eqb_spec a 2) as [->|Hne]; [done|].
  rewrite (proj2 (Z.eqb_neq (a - 1) 1)) by lia. cbn -[bitset bitclear Z.sub Z.eqb Z.gtb].
  rewrite (proj2 (Z.gtb_lt (a - 1) 1)), B by lia. cbn -[bitset bitclear Z.sub Z.eqb Z.gtb].
  replace (a - 1 - 1) with (a - 2) by lia.
  by rewrite (proj2 (Z.eqb_neq (a - 2) 0)) by lia.
Qed.

Lemma counting_dec s a x cur :
  counting s m a -> counting (s <| ack_delay := x |> <| current_disk := cur |>) m x.
Proof. intros (?&?&?&?&?&?&?). by repeat split. Qed.
Lemma counting_set s a x : counting s m a -> counting (s <| ack_delay := x |>) m x.
Proof. intros (?&?&?&?&?&?&?). by repeat split. Qed.

(** A row of disks without the requesting one. *)
Lemma visits_count inp k b s a :
  counting s m a -> Z.of_nat k + 1 <= a -> waiting s -> requests inp i ->
  (i < b \/ b + k <= i)%nat ->
  foldl (visit inp) s (seq b k) = s <| ack_delay := a - Z.of_nat k |>.
Proof.
  revert b s a. induction k as [|k IH]; intros b s a Hc Ha Hd Hq Hb.
  - rewrite Z.sub_0_r. destruct Hc as (_&_&_&_&_&_&E). destruct s. cbn in *. by subst.
  - cbn [seq foldl]. rewrite (visit_count s b inp a) by (done || lia).
    rewrite (IH (S b) _ (a - 1)); [|by apply (counting_set _ a)|lia|done|done|lia].
    replace (a - 1 - Z.of_nat k) with (a - Z.of_nat (S k)) by lia. by destruct s.
Qed.

(** One clock of waiting takes 11 off the counter. *)
Lemma step_waiting s inp a :
  counting s m a -> 12 <= a -> waiting s -> requests inp i ->
  let s' := s <| ack_delay := a - 11 |> <| current_disk := Z.of_nat i |> in
  step s inp = (s', out s').
Proof.
  intros Hc Ha Hd Hq s'. unfold SimBlockDevice.step, BeforeEval. simpl (2000 <? 2000). cbv iota.
  assert (foldl (visit inp) s (seq 0 kVDNUM) = s') as ->; [|done].
  unfold kVDNUM in *. replace 10%nat with (i + S (10 - S i))%nat by lia.
  rewrite seq_app, foldl_app. cbn [seq foldl Nat.add].
  rewrite (visits_count inp i 0 s a) by (done || lia).
  rewrite (visit_count_request _ inp (a - Z.of_nat i)); [|by apply (counting_set _ a)|lia|done|done].
  rewrite (proj2 (Z.eqb_neq (a - Z.of_nat i) 2)) by lia.
  rewrite (visits_count inp (10 - S i) (S i) _ (a - Z.of_nat i - 2));
    [|by apply (counting_dec _ (a - Z.of_nat i)), (counting_set _ a)|lia|by right|done|lia].
  replace (a - Z.of_nat i - 2 - Z.of_nat (10 - S i)) with (a - 11) by lia. by destruct s.
Qed.

(** The clock in which the counter passes 1 at the requesting disk. *)
Lemma step_spurious s inp :
  counting s m (Z.of_nat i + 2) -> waiting s -> requests inp i ->
  let s' := s <| sd_ack := bitset 0 i |> <| ack_delay := 0 |> <| current_disk := -1 |> in
  step s inp = (s', out s').
Proof.
  intros Hc Hd Hq s'. unfold SimBlockDevice.step, BeforeEval. simpl (2000 <? 2000). cbv iota.
  assert (foldl (visit inp) s (seq 0 kVDNUM) = s') as ->; [|done].
  unfold kVDNUM in *. replace 10%nat with (i + S (10 - S i))%nat by lia.
  rewrite seq_app, foldl_app. cbn [seq foldl Nat.add].
  rewrite (visits_count inp i 0 s (Z.of_nat i + 2)) by (done || lia).
  rewrite (visit_count_request _ inp 2);
    [|replace (Z.of_nat i + 2 - Z.of_nat i) with 2 by lia; by eapply counting_set|lia|done|done].
  rewrite Z.eqb_refl. destruct Hc as (Hr&Hw&_&Hm&_).
  rewrite foldl_id; [by destruct s|]. intros j Hj. apply elem_of_seq in Hj.
  apply visit_phases; [cbn; lia| |].
  - unfold mount_phase. destruct s. cbn in *. subst. rewrite Hm. done.
  - apply request_none. right. specialize (Hq j). rewrite (proj2 (Nat.eqb_neq j i)) in Hq by lia.
    by apply orb_false_iff in Hq.
Qed.

Lemma run_spurious n : forall s ins,
  counting s m (11 * Z.of_nat n + Z.of_nat i + 2) -> waiting s ->
  Forall (fun inp => requests inp i) ins -> length ins = S n ->
  exists os, run step s ins =
    (s <| sd_ack := bitset 0 i |> <| ack_delay := 0 |> <| current_disk := -1 |>, os) /\
    Forall (fun o => o_wr o = false) os.
Proof.
  induction n as [|n IH]; intros s ins Hc Hd Hq Hl;
    (destruct ins as [|inp ins]; [done|]); apply Forall_cons in Hq as [Hq1 Hq2].
  - destruct ins; [|done]. eexists. split.
    + eapply run_cons; [apply step_spurious; done|done].
    + constructor; [|done]. by destruct Hc as (_&_&Hb&_).
  - set (s1 := s <| ack_delay := 11 * Z.of_nat (S n) + Z.of_nat i + 2 - 11 |>
                 <| current_disk := Z.of_nat i |>).
    destruct (IH s1 ins) as (os & E & Ho); [|by right|done|by injection Hl|].
    { replace (11 * Z.of_nat n + Z.of_nat i + 2) with (11 * Z.of_nat (S n) + Z.of_nat i + 2 - 11)
        by lia. by eapply counting_dec. }
    eexists. split.
    + eapply run_cons; [apply (step_waiting s inp _ Hc); [lia|done|done]|].
      etransitivity; [exact E|]. unfold s1. by destruct s.
    + constructor; [|done]. by destruct Hc as (_&_&Hb&_).
Qed.
End Countdown.

(** C26: with a mount in progress the invariant of C9 fails.  A disk whose
    request stands while the countdown of a mount, of whichever disk, runs
    takes a second tick off the shared counter every clock; if the counter so
    comes to pass 1 at that very disk (when its value is 2 plus the disk's
    number, modulo 11), the disk's acknowledge is raised in that clock
    although no transfer has been started and no word strobed; the request is
    forgotten, no image is changed, and the acknowledge stays up for as long
    as no disk requests. *)
Theorem blk_mount_spurious_ack (latency : Z) (ignore_writes : bool) (s : t) (m i n : nat)
    (ins : list In) (Hi : (i < kVDNUM)%nat)
    (Hc : counting s m (11 * Z.of_nat n + Z.of_nat i + 2)) (Hcur : current_disk s = -1)
    (Hins : Forall (fun inp => requests inp i) ins) (Hlen : length ins = S n) :
  let s' := s <| sd_ack := bitset 0 i |> <| ack_delay := 0 |> in
  exists os, run (step latency ignore_writes) s ins = (s', os) /\ strobes os = [] /\
    reading s' || writing s' = false /\ current_disk s' = -1 /\
    forall quiet, Forall (fun inp => none (sd_rd inp) /\ none (sd_wr inp)) quiet ->
      (run (step latency ignore_writes) s' quiet).1 = s'.
Proof.
  intros s'.
  destruct (run_spurious latency ignore_writes m i Hi n s ins Hc (or_introl Hcur) Hins Hlen)
    as (os & E & Ho).
  destruct Hc as (Hr&Hw&Hb&Hm&_).
  assert (Es : s <| sd_ack := bitset 0 i |> <| ack_delay := 0 |> <| current_disk := -1 |> = s').
  { unfold s'. destruct s. cbn in *. by subst. }
  rewrite Es in E. exists os. split; [exact E|]. split.
  { clear -Ho. induction Ho as [|o os H _ IH]; [done|]. by rewrite strobes_cons, H, IH. }
  unfold s'. split; [by destruct s; cbn in *; subst|]. split; [exact Hcur|]. fold s'.
  induction 1 as [|inp quiet [Q1 Q2] _ IH]; [done|].
  assert (Estep : step latency ignore_writes s' inp = (s', out s')).
  { unfold step, BeforeEval. simpl (2000 <? 2000). cbv iota.
    rewrite foldl_id; [done|]. intros j Hj. apply visit_phases; [unfold s'; cbn; lia| |].
    - unfold mount_phase, s'. destruct s. cbn in *. subst. rewrite Hm. done.
    - apply request_none. by right. }
  destruct (run (step latency ignore_writes) s' quiet) as [x os'] eqn:Er.
  erewrite run_cons; [|exact Estep|exact Er]. exact IH.
Qed.

Lemma bitcheck_2 j : bitcheck 2 j = (j =? 1)%nat.
Proof.
  destruct j as [|[|j] ]; [done|done|]. unfold bitcheck.
  change 2 with (2 ^ 1). rewrite Z.shiftl_1_l, Z.land_comm, land_pow2_testbit by lia.
  by rewrite Z.pow2_bits_false by lia.
Qed.

(** One clock after a mount of disk 0 the counter is at 1191. *)
Lemma blk_mount_spurious_ack_witness :
  let s := (step 16000 false ((rest_with [7; 7]) <| mountQueue := true :: replicate 9 false |>)
              (pins_in 0 0 0 0)).1 in
  ack_delay s = 1191 /\ img_mounted s = 1 /\
  exists os, run (step 16000 false) s (replicate 109 (pins_in 2 0 0 0)) =
    (s <| sd_ack := 2 |> <| ack_delay := 0 |>, os) /\ strobes os = [].
Proof.
  split; [reflexivity|]. split; [reflexivity|].
  destruct (blk_mount_spurious_ack 16000 false
    ((step 16000 false ((rest_with [7; 7]) <| mountQueue := true :: replicate 9 false |>)
       (pins_in 0 0 0 0)).1) 0 1 108 (replicate 109 (pins_in 2 0 0 0))) as (os & E & H & _).
  - unfold kVDNUM. lia.
  - repeat split; try reflexivity. intros j. do 10 (destruct j as [|j]; [reflexivity|]).
    by destruct j.
  - reflexivity.
  - apply Forall_replicate. intros j. cbn [sd_rd sd_wr pins_in].
    rewrite bitcheck_0, orb_false_r. exact (bitcheck_2 j).
  - reflexivity.
  - exists os. split; [exact E|exact H].
Defined.

(** A sector number from [2 ^ 22] on overflows the [int] byte offset: the
    seek fails, and the transfer returns no data of the image. *)
Lemma request_overflow latency inp s i c p w :
  (i < length (disk s))%nat -> the_disk s i = mkStream true c p false w ->
  current_disk s = -1 -> ack_delay s = 0 -> bitcheck (sd_rd inp) i = true ->
  2 ^ 22 <= sd_lba inp i < 2 ^ 23 ->
  let s' := request latency inp s i in
  failed (the_disk s' i) = true /\ (get (the_disk s' i)).2 = -1.
Proof.
  intros Hi Hd Hc Ha Hr Hl.
  assert (Hp : i32 (i32 (sd_lba inp i) * kBLKSZ) < 0) by (unfold kBLKSZ; ilia).
  assert (Hx : the_disk (request latency inp s i) i = mkStream true c p true w).
  { unfold the_disk in *. unfold request. rewrite Hc, Hr. simpl ((_ || _) && _). cbv iota.
    set (q := i32 _) in *. unfold set_disk, the_disk.
    destruct s as [f1 f2 f3 f4 f5 f6 f7 f8 f9 f10 f11 f12 f13 f14 f15]. cbn in Hi, Hd, Hc, Ha.
    subst f11. cbn -[i32 Z.mul seek clear bitcheck].
    destruct (bitcheck (sd_wr inp) i); cbn -[i32 Z.mul seek clear];
      rewrite nth_lookup, list_lookup_insert_eq by done; cbn [default];
      fold q; rewrite Hd; unfold seek, clear; cbn;
      rewrite (proj2 (Z.ltb_lt q 0)) by done; done. }
  cbv zeta. rewrite Hx. done.
Qed.
