(* ===== verification/SimSerialTerminal.v ===== *)
(** * SimSerialTerminal: the serial terminal behind the soft UART

    [struct SimSerialTerminal] of [verilator/sim/sim_serial.h] and
    [sim_serial.cpp]: the line buffer with its noise suppression, the input
    line and the status.  Lines are lists of bytes.  The widgets of [Draw]
    appear as the events they report; drawing itself and the debug output on
    stderr are left out. *)

From S2P Require Import Prelude CText SoftUART.
#[local] Open Scope c_scope.

Module SimSerialTerminal.

Inductive LineEnding := CR | LF | CRLF.
Inductive NoiseMute := Off | Auto | On.

Definition MAX_LINES : Z := 1000.
Definition NULL_RUN_THRESHOLD : Z := 8.

Record Scc := mkScc {
  m_scc_wr3 : Z; m_scc_wr4 : Z; m_scc_wr5 : Z; m_scc_wr9 : Z; m_scc_wr14 : Z;
  m_is_sync_mode : bool }.

Record t := mkTerm {
  m_uart : SoftUART.t;
  m_lines : list (list Z);
  m_current_line : list Z;
  m_auto_scroll : bool;
  m_scroll_to_bottom : bool;
  m_input_buf : list Z;
  m_rx_byte_count : Z;
  m_tx_byte_count : Z;
  m_frame_error_count : Z;
  m_hex_mode : bool;
  m_last_was_cr : bool;
  m_line_ending : LineEnding;
  m_scc : Scc;
  m_noise_mute : NoiseMute;
  m_null_run_count : Z;
  m_suppressed_count : Z;
  m_suppressing : bool }.
#[export] Instance eta_t : Eta t := fun s =>
  mkTerm (m_uart s) (m_lines s) (m_current_line s) (m_auto_scroll s)
    (m_scroll_to_bottom s) (m_input_buf s) (m_rx_byte_count s) (m_tx_byte_count s)
    (m_frame_error_count s) (m_hex_mode s) (m_last_was_cr s) (m_line_ending s)
    (m_scc s) (m_noise_mute s) (m_null_run_count s) (m_suppressed_count s)
    (m_suppressing s).

(** The constructor and the default member initialisers. *)
Definition make : t :=
  mkTerm SoftUART.init [bytes_of "[Serial terminal ready]"] [] true false (replicate 256 0) 0 0 0
    false false CR (mkScc 0 0 0 0 0 false) Auto 0 0 false.

(** [m_lines.push_back(m_current_line); m_current_line.clear();] *)
Definition push_line (s : t) : t :=
  s <| m_lines := m_lines s ++ [m_current_line s] |> <| m_current_line := [] |>.

(** The trimming loop: erase the first line while there are too many. *)
Fixpoint trim (fuel : nat) (ls : list (list Z)) : list (list Z) :=
  match fuel with
  | O => ls
  | S fuel => if (Z.of_nat (length ls) >? MAX_LINES) then trim fuel (tail ls) else ls
  end.
Definition trim_lines (ls : list (list Z)) : list (list Z) := trim (length ls) ls.

Definition AddReceivedChar (s : t) (c : Z) : t :=
  let s :=
    if m_hex_mode s then
      let s := s <| m_current_line := m_current_line s ++ bytes_of (snprintf 8 (hex 2 c +:+ " ")) |> in
      if Z.of_nat (length (m_current_line s)) >? 72 then push_line s else s
    else if c =? 13 then
      push_line s <| m_last_was_cr := true |>
    else if c =? 10 then
      let s := if negb (m_last_was_cr s) then push_line s else s in
      s <| m_last_was_cr := false |>
    else if (c =? 8) || (c =? 127) then
      let s := match m_current_line s with
               | [] => s
               | l => s <| m_current_line := removelast l |>
               end in
      s <| m_last_was_cr := false |>
    else if (c >=? 32) && (c <? 127) then
      s <| m_current_line := m_current_line s ++ [c] |> <| m_last_was_cr := false |>
    else
      s <| m_current_line := m_current_line s ++ bytes_of (snprintf 8 ("<" +:+ hex 2 c +:+ ">")) |>
        <| m_last_was_cr := false |> in
  s <| m_lines := trim_lines (m_lines s) |> <| m_scroll_to_bottom := true |>.

(** A message line, appended to the current one. *)
Definition push_message (s : t) (msg : list Z) : t :=
  push_line (s <| m_current_line := m_current_line s ++ msg |>) <| m_scroll_to_bottom := true |>.

(** The byte handler inside [Tick]. *)
Definition receive (s : t) (byte : Z) (frame_error : bool) : t :=
  let s := s <| m_rx_byte_count := u64 (m_rx_byte_count s + 1) |> in
  let s := if frame_error
           then s <| m_frame_error_count := u32 (m_frame_error_count s + 1) |> else s in
  match m_noise_mute s with
  | On => s <| m_suppressed_count := u64 (m_suppressed_count s + 1) |>
  | Auto =>
      if byte =? 0 then
        let s := s <| m_null_run_count := m_null_run_count s + 1 |> in
        if m_null_run_count s >=? NULL_RUN_THRESHOLD then
          let s :=
            if negb (m_suppressing s) then
              push_message (s <| m_suppressing := true |>)
                (bytes_of (snprintf 64 "[muted: sync/null noise]"))
            else s in
          s <| m_suppressed_count := u64 (m_suppressed_count s + 1) |>
        else AddReceivedChar s byte
      else
        let s :=
          if m_suppressing s && (m_suppressed_count s >? 0) then
            push_message s
              (bytes_of (snprintf 64 ("[" +:+ dec (m_suppressed_count s) +:+ " bytes suppressed]")))
          else s in
        let s := s <| m_null_run_count := 0 |> <| m_suppressed_count := 0 |>
                   <| m_suppressing := false |> in
        AddReceivedChar s byte
  | Off => AddReceivedChar s byte
  end.

Definition Tick (s : t) (fpga_txd_pin : bool) : t * bool :=
  let '(u, ready) := SoftUART.RxTick (m_uart s) fpga_txd_pin in
  let s := s <| m_uart := u |> in
  let s := if ready then receive s (SoftUART.RxByte u) (SoftUART.RxFrameError u) else s in
  let '(u, pin) := SoftUART.TxTick (m_uart s) in
  (s <| m_uart := u |>, pin).

Definition UpdateConfig (s : t) (uart_setup_reg : Z) : t :=
  s <| m_uart := SoftUART.ConfigureFromSetup (m_uart s) uart_setup_reg |>.
Definition UpdateConfigDirect (s : t) (clocks_per_baud data_bits stop_bits : Z)
    (parity_en parity_even : bool) : t :=
  s <| m_uart := SoftUART.Configure (m_uart s) clocks_per_baud data_bits stop_bits
                   parity_en parity_even |>.

(** The characters of a NUL-terminated buffer. *)
Fixpoint until_nul (buf : list Z) : list Z :=
  match buf with
  | [] => []
  | c :: buf => if c =? 0 then [] else c :: until_nul buf
  end.

Definition enqueue (s : t) (c : Z) : t :=
  s <| m_uart := SoftUART.TxEnqueue (m_uart s) (u8 c) |>.
Definition count_tx (s : t) (n : Z) : t :=
  s <| m_tx_byte_count := u64 (m_tx_byte_count s + n) |>.

Definition SendInput (s : t) : t :=
  let s := foldl (fun s c => count_tx (enqueue s c) 1) s (until_nul (m_input_buf s)) in
  let s :=
    match m_line_ending s with
    | CR => count_tx (enqueue s 13) 1
    | LF => count_tx (enqueue s 10) 1
    | CRLF => count_tx (enqueue (enqueue s 13) 10) 2
    end in
  s <| m_input_buf := match m_input_buf s with [] => [] | _ :: r => 0 :: r end |>.

Definition UpdateSCCStatus (s : t) (wr3 wr4 wr5 wr9 wr14 : Z) : t :=
  s <| m_scc := mkScc wr3 wr4 wr5 wr9 wr14 ((wr4 &&& 0x0C) =? 0) |>.

(** [Draw]: the ready indicator. *)
Definition scc_ready (s : t) : bool :=
  let rx_en := negb ((m_scc_wr3 (m_scc s) &&& 1) =? 0) in
  let tx_en := negb ((m_scc_wr5 (m_scc s) &&& 8) =? 0) in
  let brg_en := negb ((m_scc_wr14 (m_scc s) &&& 1) =? 0) in
  let has_traffic := (m_rx_byte_count s >? 0) || (m_tx_byte_count s >? 0) in
  (rx_en && tx_en && brg_en) || (brg_en && has_traffic) || has_traffic.

(** [Draw]: the baud estimate of the status bar. *)
Definition approx_baud (s : t) : Z :=
  let cpb := SoftUART.GetClocksPerBaud (m_uart s) in
  if cpb >? 0 then 32500000 / cpb else 0.

(** [Draw]: the text put on the clipboard by "Copy". *)
Definition copy_text (s : t) : list Z :=
  let all_text := foldl (fun a line => (a ++ line) ++ [10]) [] (m_lines s) in
  match m_current_line s with [] => all_text | l => all_text ++ l end.

(** [Draw]: what the widgets report. *)
Inductive Widget :=
  | Clear
  | Hex (b : bool)
  | AutoScroll (b : bool)
  | Mute (m : NoiseMute)
  | Enter (buf : list Z)
  | Ending (e : LineEnding).

Definition Draw (s : t) (w : Widget) : t :=
  match w with
  | Clear =>
      s <| m_lines := [] |> <| m_current_line := [] |> <| m_rx_byte_count := 0 |>
        <| m_tx_byte_count := 0 |> <| m_frame_error_count := 0 |>
  | Hex b => s <| m_hex_mode := b |>
  | AutoScroll b => s <| m_auto_scroll := b |>
  | Mute m => s <| m_noise_mute := m |>
  | Enter buf => SendInput (s <| m_input_buf := buf |>)
  | Ending e => s <| m_line_ending := e |>
  end.

(** ** Specification *)

Inductive Event :=
  | ETick (pin : bool)
  | EConfig (setup : Z)
  | EScc (wr3 wr4 wr5 wr9 wr14 : Z)
  | EWidget (w : Widget).
Definition step (s : t) (e : Event) : t * unit :=
  (match e with
   | ETick pin => (Tick s pin).1
   | EConfig r => UpdateConfig s r
   | EScc a b c d e => UpdateSCCStatus s a b c d e
   | EWidget w => Draw s w
   end, tt).

(** The last [n] elements of a list. *)
Definition lastn {A} (n : nat) (l : list A) : list A := drop (length l - n) l.

Definition printable (c : Z) : Prop := 32 <= c < 127.
Definition ending_bytes (e : LineEnding) : list Z :=
  match e with CR => [13] | LF => [10] | CRLF => [13; 10] end.

(** Lines received as text, each ended the same way. *)
Definition line_stream (e : LineEnding) (ls : list (list Z)) : list Z :=
  mjoin ((fun l => l ++ ending_bytes e) <$> ls).
Definition receive_all (s : t) (bs : list Z) : t :=
  foldl (fun s b => receive s b false) s bs.

End SimSerialTerminal.

Import SimSerialTerminal.

(** ** The line buffer *)

Lemma trim_spec fuel ls :
  (length ls <= fuel)%nat -> trim fuel ls = lastn 1000 ls.
Proof.
  unfold lastn. revert ls. induction fuel as [|fuel IH]; intros ls Hf.
  { destruct ls; [done|simpl in Hf; lia]. }
  cbn [trim]. unfold MAX_LINES. destruct (Z.gtb_spec (Z.of_nat (length ls)) 1000).
  - destruct ls as [|l ls]; [done|]. cbn [tail length] in *. rewrite IH by lia.
    by replace (S (length ls) - 1000)%nat with (S (length ls - 1000)) by lia.
  - replace (length ls - 1000)%nat with 0%nat by lia. done.
Qed.

Lemma trim_lines_spec ls : trim_lines ls = lastn 1000 ls.
Proof. by apply trim_spec. Qed.

Lemma lastn_length {A} n (l : list A) : length (lastn n l) = Nat.min n (length l).
Proof. unfold lastn. rewrite length_drop. lia. Qed.

Lemma lastn_all {A} n (l : list A) : (length l <= n)%nat -> lastn n l = l.
Proof. intros H. unfold lastn. by replace (length l - n)%nat with 0%nat by lia. Qed.

Lemma lastn_app {A} n (l1 l2 : list A) : lastn n (lastn n l1 ++ l2) = lastn n (l1 ++ l2).
Proof.
  destruct (Nat.le_gt_cases (length l1) n); [by rewrite (lastn_all n l1)|].
  unfold lastn. rewrite !length_app, length_drop.
  rewrite <- (drop_app_le l1 l2) by lia. rewrite drop_drop. f_equal. lia.
Qed.

Definition lines_bounded (s : t) : Prop :=
  Z.of_nat (length (m_lines s)) <= MAX_LINES + b2z (m_suppressing s).

Lemma b2z_nonneg b : 0 <= b2z b.
Proof. by destruct b. Qed.

(** Every received character trims the buffer. *)
Lemma add_bounded s c : lines_bounded (AddReceivedChar s c).
Proof.
  unfold lines_bounded. pose proof (b2z_nonneg (m_suppressing (AddReceivedChar s c))).
  assert (Z.of_nat (length (m_lines (AddReceivedChar s c))) <= MAX_LINES); [|lia].
  unfold AddReceivedChar.
  match goal with |- context [trim_lines ?l] => generalize l end. intros l.
  simpl. rewrite trim_lines_spec, lastn_length. unfold MAX_LINES. lia.
Qed.

Lemma receive_bounded s b fe : lines_bounded s -> lines_bounded (receive s b fe).
Proof.
  intros H. unfold receive.
  set (s1 := if fe then _ else _).
  assert (H1 : lines_bounded s1) by (unfold s1; by destruct fe).
  clearbody s1. destruct (m_noise_mute s1); [apply add_bounded| |exact H1].
  destruct (b =? 0); [|apply add_bounded].
  destruct (_ >=? _); [|apply add_bounded].
  unfold lines_bounded in *. simpl.
  destruct (m_suppressing s1) eqn:E; simpl in *; rewrite ?E; [exact H1|].
  rewrite length_app. simpl in *. lia.
Qed.

Lemma send_keeps s :
  m_lines (SendInput s) = m_lines s /\ m_suppressing (SendInput s) = m_suppressing s.
Proof.
  unfold SendInput.
  assert (H : forall l s0, let s' := foldl (fun s c => count_tx (enqueue s c) 1) s0 l in
    m_lines s' = m_lines s0 /\ m_suppressing s' = m_suppressing s0)
    by (induction l as [|x l IH]; intros s0; [done|exact (IH (count_tx (enqueue s0 x) 1))]).
  specialize (H (until_nul (m_input_buf s)) s). cbv zeta in H.
  destruct H as [<- <-]. generalize (foldl (fun s c => count_tx (enqueue s c) 1) s
    (until_nul (m_input_buf s))). intros s1. by destruct (m_line_ending s1).
Qed.

(** C19: whatever is received and whatever the user does, the terminal never
    holds more than [MAX_LINES] lines, or one more while it suppresses noise
    (the marker line is appended without trimming). *)
Theorem term_lines_bounded (es : list Event) :
  let s := (run step make es).1 in
  Z.of_nat (length (m_lines s)) <= MAX_LINES + b2z (m_suppressing s).
Proof.
  apply (run_invariant step lines_bounded); [|by vm_compute].
  intros s e H. destruct e as [pin|r|a b c d e|w]; try exact H.
  - unfold step, Tick. cbn [fst].
    destruct (SoftUART.RxTick (m_uart s) pin) as [u ready].
    assert (H1 : lines_bounded (if ready then receive (s <| m_uart := u |>)
        (SoftUART.RxByte u) (SoftUART.RxFrameError u) else s <| m_uart := u |>))
      by (destruct ready; [by apply receive_bounded|done]).
    match goal with |- context [SoftUART.TxTick (m_uart ?x)] =>
      destruct (SoftUART.TxTick (m_uart x)) as [u' pin'] end. exact H1.
  - destruct w as [| | | |buf|e]; try exact H; [unfold lines_bounded; simpl; unfold MAX_LINES; destruct (m_suppressing s); simpl; lia|].
    unfold step. cbn [fst Draw].
    destruct (send_keeps (s <| m_input_buf := buf |>)) as [E1 E2].
    unfold lines_bounded. rewrite E1, E2. exact H.
Qed.

(** The bound is reached. *)
Lemma term_bound_tight :
  length (m_lines (receive_all make (replicate 1000 13 ++ replicate 8 0))) = 1001%nat.
Proof. vm_compute. reflexivity. Qed.

(** ** Received text *)

(** A state in which received text is shown as it is. *)
Definition showing (s : t) : Prop :=
  m_noise_mute s <> On /\ m_hex_mode s = false /\ m_suppressing s = false /\
  (length (m_lines s) <= 1000)%nat.

Definition text_state (s : t) (ls : list (list Z)) (cur : list Z) (cr : bool) (s' : t) : Prop :=
  showing s' /\ m_lines s' = ls /\ m_current_line s' = cur /\ m_last_was_cr s' = cr /\
  m_noise_mute s' = m_noise_mute s.

(** Bytes other than NUL reach [AddReceivedChar] unchanged. *)
Lemma receive_shown s b :
  showing s -> b <> 0 ->
  exists s1, receive s b false = AddReceivedChar s1 b /\ showing s1 /\
    m_lines s1 = m_lines s /\ m_current_line s1 = m_current_line s /\
    m_last_was_cr s1 = m_last_was_cr s /\ m_noise_mute s1 = m_noise_mute s.
Proof.
  intros (Hm&Hh&Hs&Hl) Hb. unfold receive. simpl.
  destruct (m_noise_mute s) eqn:E; [| |done].
  - eexists. split; [reflexivity|]. unfold showing. simpl. by rewrite E.
  - rewrite (proj2 (Z.eqb_neq b 0) Hb), Hs. simpl.
    eexists. split; [reflexivity|]. unfold showing. simpl. by rewrite E.
Qed.

Lemma receive_printable s b ls cur cr :
  text_state s ls cur cr s -> printable b ->
  text_state s ls (cur ++ [b]) false (receive s b false).
Proof.
  intros (Hs&<-&<-&<-&_) Hb. unfold printable in Hb.
  destruct (receive_shown s b Hs ltac:(lia)) as (s1&->&(Hm&Hh&Hsup&Hl)&E1&E2&E3&E4).
  unfold AddReceivedChar. rewrite Hh.
  rewrite (proj2 (Z.eqb_neq b 13)), (proj2 (Z.eqb_neq b 10)), (proj2 (Z.eqb_neq b 8)),
    (proj2 (Z.eqb_neq b 127)) by lia.
  replace ((b >=? 32) && (b <? 127)) with true by lia.
  unfold text_state, showing. simpl. rewrite trim_lines_spec, lastn_all by done.
  rewrite E1, E2 in *. done.
Qed.

Lemma receive_cr s ls cur cr :
  text_state s ls cur cr s ->
  text_state s (lastn 1000 (ls ++ [cur])) [] true (receive s 13 false).
Proof.
  intros (Hs&<-&<-&<-&_).
  destruct (receive_shown s 13 Hs ltac:(lia)) as (s1&->&(Hm&Hh&Hsup&Hl)&E1&E2&E3&E4).
  unfold AddReceivedChar. rewrite Hh. unfold text_state, showing. simpl.
  rewrite trim_lines_spec, E1, E2, lastn_length. repeat split; try done. lia.
Qed.

Lemma receive_lf s ls cur cr :
  text_state s ls cur cr s ->
  text_state s (if cr then ls else lastn 1000 (ls ++ [cur])) (if cr then cur else [])
    false (receive s 10 false).
Proof.
  intros (Hs&<-&<-&<-&_).
  destruct (receive_shown s 10 Hs ltac:(lia)) as (s1&->&(Hm&Hh&Hsup&Hl)&E1&E2&E3&E4).
  unfold AddReceivedChar. rewrite Hh. simpl. rewrite E3.
  destruct (m_last_was_cr s); unfold text_state, showing; simpl;
    rewrite trim_lines_spec, E1, E2.
  - rewrite lastn_all by (rewrite <- E1; done). repeat split; try done. by rewrite <- E1.
  - rewrite lastn_length. repeat split; try done. lia.
Qed.

Lemma text_state_trans s s1 ls cur cr s2 :
  m_noise_mute s1 = m_noise_mute s -> text_state s1 ls cur cr s2 -> text_state s ls cur cr s2.
Proof. intros E (H1&H2&H3&H4&H5). repeat split; try done; try apply H1. congruence. Qed.

Lemma receive_line_body l s ls cur cr :
  text_state s ls cur cr s -> Forall printable l ->
  text_state s ls (cur ++ l) (match l with [] => cr | _ => false end) (receive_all s l).
Proof.
  revert s cur cr. induction l as [|b l IH]; intros s cur cr H Hp.
  { by rewrite app_nil_r. }
  inversion Hp as [|?? Hb Hl]; subst. cbn [receive_all foldl].
  pose proof (receive_printable s b ls cur cr H Hb) as H1.
  destruct H1 as (A1&A2&A3&A4&A5).
  specialize (IH (receive s b false) (cur ++ [b]) false).
  rewrite <- app_assoc in IH. simpl in IH.
  replace (match l with [] => false | _ => false end) with false in IH by (by destruct l).
  apply (text_state_trans s (receive s b false)); [done|]. apply IH; [|done].
  by repeat split; try apply A1.
Qed.

Lemma receive_line e l s ls cr :
  text_state s ls [] cr s -> (e = LF -> cr = false) -> Forall printable l ->
  text_state s (lastn 1000 (ls ++ [l])) [] (match e with CR => true | _ => false end)
    (receive_all s (l ++ ending_bytes e)).
Proof.
  intros H He Hp. unfold receive_all. rewrite foldl_app. fold (receive_all s l).
  pose proof (receive_line_body l s ls [] cr H Hp) as H1. rewrite app_nil_l in H1.
  destruct H1 as (A1&A2&A3&A4&A5).
  set (s1 := receive_all s l) in *. clearbody s1.
  apply (text_state_trans s s1); [done|].
  assert (B : text_state s1 ls l (match l with [] => cr | _ => false end) s1) by done.
  destruct e; cbn [ending_bytes foldl].
  - by eapply receive_cr.
  - pose proof (receive_lf _ _ _ _ B) as C.
    rewrite (He eq_refl) in C. by destruct l.
  - pose proof (receive_cr _ _ _ _ B) as C. destruct C as (C1&C2&C3&C4&C5).
    apply (text_state_trans _ (receive s1 13 false)); [done|].
    by apply (receive_lf _ _ _ true).
Qed.

(** C10: text received line by line, whichever of CR, LF or CR LF ends the
    lines, appears as exactly these lines behind what was there (the last
    1000 of them are kept), with no empty line in between and nothing left
    over. *)
Theorem term_receives_lines (s : t) (e : LineEnding) (ls : list (list Z))
    (Hs : showing s) (Hcur : m_current_line s = []) (Hcr : m_last_was_cr s = false)
    (Hp : Forall (Forall printable) ls) :
  let s' := receive_all s (line_stream e ls) in
  m_lines s' = lastn 1000 (m_lines s ++ ls) /\ m_current_line s' = [].
Proof.
  assert (G : forall ls s cr, text_state s (m_lines s) [] cr s -> (e = LF -> cr = false) ->
    Forall (Forall printable) ls ->
    let s' := receive_all s (line_stream e ls) in
    m_lines s' = lastn 1000 (m_lines s ++ ls) /\ m_current_line s' = []).
  { clear. induction ls as [|l ls IH]; intros s cr H He Hp.
    - destruct H as ((_&_&_&Hl)&_&Hc&_). cbn. rewrite app_nil_r, lastn_all by done. done.
    - inversion Hp as [|?? Hl Hls]; subst.
      destruct (receive_line e l s _ cr H He Hl) as (A1&A2&A3&A4&A5).
      change (line_stream e (l :: ls)) with ((l ++ ending_bytes e) ++ line_stream e ls).
      unfold receive_all in *. rewrite foldl_app.
      destruct (IH _ (match e with CR => true | _ => false end) (conj A1 (conj eq_refl (conj A3 (conj A4 eq_refl)))))
        as [B1 B2]; [by destruct e|done|].
      rewrite A2 in B1. split; [|done]. rewrite B1, lastn_app, <- app_assoc. done. }
  apply (G ls s (m_last_was_cr s)); [done|by rewrite Hcr|done].
Qed.

Lemma term_receives_lines_witness :
  let s' := receive_all make (line_stream CRLF [[72; 105]; []; [33]]) in
  m_lines s' = lastn 1000 (m_lines make ++ [[72; 105]; []; [33]]) /\ m_current_line s' = [].
Proof.
  apply (term_receives_lines make CRLF [[72; 105]; []; [33]]).
  - repeat split; try discriminate. cbn. lia.
  - reflexivity.
  - reflexivity.
  - repeat constructor; unfold printable; lia.
Defined.

(** ** Sent text *)

Lemma send_chars l s :
  Forall is_byte l ->
  let s' := foldl (fun s c => count_tx (enqueue s c) 1) s l in
  SoftUART.m_tx_queue (SoftUART.tx (m_uart s')) = SoftUART.m_tx_queue (SoftUART.tx (m_uart s)) ++ l /\
  m_line_ending s' = m_line_ending s /\ m_input_buf s' = m_input_buf s /\
  u64 (m_tx_byte_count s') = u64 (m_tx_byte_count s + Z.of_nat (length l)).
Proof.
  revert s. induction l as [|c l IH]; intros s Hl.
  { cbn. rewrite app_nil_r, Z.add_0_r. done. }
  inversion Hl as [|?? Hc Hl']; subst. cbn [foldl].
  destruct (IH (count_tx (enqueue s c) 1) Hl') as (A1&A2&A3&A4). cbv zeta.
  rewrite A1, A2, A3, A4. simpl. rewrite u8_small by exact Hc. rewrite <- app_assoc.
  repeat split; try done. unfold u64. dlia.
Qed.

(** C17: pressing Enter queues for transmission the text up to its NUL
    followed by the chosen line ending, behind what is still queued, counts
    these bytes and empties the input line. *)
Theorem term_send_input (s : t) (Hb : Forall is_byte (m_input_buf s)) :
  let s' := SendInput s in
  let sent := until_nul (m_input_buf s) ++ ending_bytes (m_line_ending s) in
  SoftUART.m_tx_queue (SoftUART.tx (m_uart s')) =
    SoftUART.m_tx_queue (SoftUART.tx (m_uart s)) ++ sent /\
  m_tx_byte_count s' = u64 (m_tx_byte_count s + Z.of_nat (length sent)) /\
  until_nul (m_input_buf s') = [].
Proof.
  assert (Hb' : Forall is_byte (until_nul (m_input_buf s))).
  { induction Hb as [|c l Hc Hl IH]; [constructor|]. simpl. destruct (c =? 0); by constructor. }
  destruct (send_chars _ s Hb') as (A1&A2&A3&A4). cbv zeta in *. unfold SendInput.
  set (s1 := foldl _ _ _) in *. clearbody s1. rewrite A2.
  destruct (m_line_ending s); cbn [ending_bytes]; simpl; rewrite A1, A3;
    rewrite ?length_app, <- ?app_assoc; repeat split; try done;
    try (by destruct (m_input_buf s)); simpl length; unfold u64 in *; dlia.
Qed.

Lemma term_send_input_witness :
  let s := make <| m_input_buf := [72; 105; 0; 7] |> <| m_line_ending := CRLF |> in
  SoftUART.m_tx_queue (SoftUART.tx (m_uart (SendInput s))) = [] ++ [72; 105; 13; 10] /\
  m_tx_byte_count (SendInput s) = 4 /\ until_nul (m_input_buf (SendInput s)) = [].
Proof.
  intros s. apply (term_send_input s). repeat constructor; lia.
Defined.
