(* ===== verification/SimInput.v ===== *)
(** * SimInput: keyboard to PS/2

    [struct SimInput] of [verilator/sim/sim_input.h] and [sim_input.cpp]:
    keyboard snapshots become a queue of key events, fed to the core's
    [ps2_key] pin at a bounded rate.  The file is built for DirectInput
    ([WIN32]) or SDL; the platform is a parameter.  The snapshot comes from
    the platform's library; what a read behind the SDL table gives is a
    parameter too ([beyond]). *)

From S2P Require Import Prelude.
#[local] Open Scope c_scope.

Module SimInput.

Inductive Platform := WIN32 | SDL.

Definition NONE : Z := 0xFF.
Definition EXT : Z := 0x080000.
Definition EMU_SWITCH_1 : Z := 0x100000.
Definition EMU_SWITCH_2 : Z := 0x200000.

(** [ev2ps2] of the DirectInput build, in two halves. *)
Definition ev2ps2_win32_lo : list Z := [
  NONE; 0x76; 0x16; 0x1e; 0x26; 0x25; 0x2e; 0x36;
  0x3d; 0x3e; 0x46; 0x45; 0x4e; 0x55; 0x66; 0x0d;
  0x15; 0x1d; 0x24; 0x2d; 0x2c; 0x35; 0x3c; 0x43;
  0x44; 0x4d; 0x54; 0x5b; 0x5a; 0x14; 0x1c; 0x1b;
  0x23; 0x2b; 0x34; 0x33; 0x3b; 0x42; 0x4b; 0x4c;
  0x52; 0x0e; 0x12; 0x5d; 0x1a; 0x22; 0x21; 0x2a;
  0x32; 0x31; 0x3a; 0x41; 0x49; 0x4a; 0x59; 0x7c;
  0x11; 0x29; 0x58; 0x05; 0x06; 0x04; 0x0c; 0x03;
  0x0b; 0x83; 0x0a; 0x01; 0x09; EMU_SWITCH_2 ||| 0x77; EMU_SWITCH_1 ||| 0x7E; 0x6c;
  0x75; 0x7d; 0x7b; 0x6b; 0x73; 0x74; 0x79; 0x69;
  0x72; 0x7a; 0x70; 0x71; NONE; NONE; 0x61; 0x78;
  0x07; NONE; NONE; NONE; NONE; NONE; NONE; NONE;
  EXT ||| 0x5a; EXT ||| 0x14; EXT ||| 0x4a; 0xE2; EXT ||| 0x11; NONE; EXT ||| 0x6c; EXT ||| 0x75;
  EXT ||| 0x7d; EXT ||| 0x6b; EXT ||| 0x74; EXT ||| 0x69; EXT ||| 0x72; EXT ||| 0x7a; EXT ||| 0x70; EXT ||| 0x71;
  NONE; NONE; NONE; NONE; NONE; NONE; NONE; 0xE1;
  NONE; NONE; NONE; NONE; NONE; EXT ||| 0x1f; EXT ||| 0x27; NONE].

Definition ev2ps2_win32_hi : list Z := [
  NONE; NONE; NONE; NONE; NONE; NONE; NONE; NONE;
  NONE; NONE; NONE; NONE; NONE; NONE; NONE; NONE;
  NONE; NONE; NONE; NONE; NONE; NONE; NONE; NONE;
  NONE; NONE; NONE; NONE; NONE; NONE; NONE; NONE;
  NONE; NONE; NONE; NONE; NONE; NONE; NONE; NONE;
  NONE; NONE; NONE; NONE; NONE; NONE; NONE; NONE;
  NONE; NONE; NONE; NONE; NONE; NONE; NONE; NONE;
  NONE; NONE; NONE; EMU_SWITCH_1 ||| 1; EMU_SWITCH_1 ||| 2; EMU_SWITCH_1 ||| 3; EMU_SWITCH_1 ||| 4; NONE;
  NONE; NONE; 0x5D; NONE; NONE; NONE; NONE; NONE;
  EXT ||| 0x75; NONE; NONE; EXT ||| 0x6b; NONE; EXT ||| 0x74; NONE; NONE;
  EXT ||| 0x72; NONE; NONE; NONE; NONE; NONE; NONE; NONE;
  NONE; NONE; NONE; NONE; NONE; NONE; NONE; NONE;
  NONE; NONE; NONE; NONE; NONE; NONE; NONE; NONE;
  NONE; NONE; NONE; NONE; NONE; NONE; NONE; NONE;
  NONE; NONE; NONE; NONE; NONE; NONE; NONE; NONE;
  NONE; NONE; NONE; NONE; NONE; NONE; NONE; NONE].

(** [ev2ps2] of the SDL build, in two parts. *)
Definition ev2ps2_sdl_lo : list Z := [
  NONE; NONE; NONE; NONE; 0x1c; 0x32; 0x21; 0x23;
  0x24; 0x2b; 0x34; 0x33; 0x43; 0x3b; 0x42; 0x4b;
  0x3a; 0x31; 0x44; 0x4d; 0x15; 0x2d; 0x1b; 0x2c;
  0x3c; 0x2a; 0x1d; 0x22; 0x35; 0x1a; 0x16; 0x1e;
  0x26; 0x25; 0x2e; 0x36; 0x3d; 0x3e; 0x46; 0x45;
  0x5a; 0x76; 0x66; 0x0d; 0x29; 0x4e; 0x55; 0x54;
  0x5b; 0x5d; NONE; 0x4c; 0x52; 0x0e; 0x41; 0x49;
  0x4a; 0x58; 0x05; 0x06; 0x04; 0x0c; 0x03; 0x0b;
  0x83; 0x0a; 0x01; 0x09; 0x78; 0x07; NONE; EMU_SWITCH_1 ||| 0x7E;
  0xE1; EXT ||| 0x70; EXT ||| 0x6c; EXT ||| 0x7d; EXT ||| 0x71; EXT ||| 0x69; EXT ||| 0x7a; EXT ||| 0x74;
  EXT ||| 0x6b; EXT ||| 0x72; EXT ||| 0x75; EMU_SWITCH_2 ||| 0x77; EXT ||| 0x4a; 0x7c; 0x7b; 0x79;
  EXT ||| 0x5a; 0x69; 0x72; 0x7a; 0x6b; 0x73; 0x74; 0x6c;
  0x75; 0x7d; 0x70; 0x71; NONE; NONE; NONE; NONE;
  NONE; NONE; NONE; NONE; EMU_SWITCH_1 ||| 1; EMU_SWITCH_1 ||| 2; EMU_SWITCH_1 ||| 3; EMU_SWITCH_1 ||| 4;
  NONE; NONE; NONE; NONE; NONE; NONE; NONE; NONE;
  NONE; NONE; NONE; NONE; NONE; NONE; NONE; NONE].

Definition ev2ps2_sdl_hi : list Z := [
  NONE; NONE; NONE; NONE; NONE; NONE; NONE; NONE;
  NONE; NONE; NONE; NONE; NONE; NONE; NONE; NONE;
  NONE; NONE; NONE; NONE; NONE; NONE; NONE; NONE;
  NONE; NONE; NONE; NONE; NONE; NONE; NONE; NONE;
  NONE; NONE; NONE; NONE; NONE; NONE; NONE; NONE;
  NONE; NONE; NONE; NONE; NONE; NONE; NONE; NONE;
  NONE; NONE; NONE; NONE; NONE; NONE; NONE; NONE;
  NONE; NONE; NONE; NONE; NONE; NONE; NONE; NONE;
  NONE; NONE; NONE; NONE; NONE; NONE; NONE; NONE;
  NONE; NONE; NONE; NONE; NONE; NONE; NONE; NONE;
  NONE; NONE; NONE; NONE; NONE; NONE; NONE; NONE;
  NONE; NONE; NONE; NONE; NONE; NONE; NONE; NONE;
  NONE; 0x12; 0x11; NONE; EXT ||| 0x14; 0x59; EXT ||| 0x11].

Definition ev2ps2_win32 : list Z := ev2ps2_win32_lo ++ ev2ps2_win32_hi.
Definition ev2ps2_sdl : list Z := ev2ps2_sdl_lo ++ ev2ps2_sdl_hi.
Definition ev2ps2 (p : Platform) : list Z :=
  match p with WIN32 => ev2ps2_win32 | SDL => ev2ps2_sdl end.

(** [SimInput_PS2KeyEvent]; [code] is a [char]. *)
Record KeyEvent := mkKey { code : Z; pressed : bool; extended : bool; mapped : Z }.

Record t := mkInput {
  inputCount : nat;
  inputs : list bool;
  mappings : list Z;
  ps2_key : Z;
  keyEvents : list KeyEvent;
  keyEventTimer : Z;
  keyEventWait : Z;
  ps2_key_temp : Z;
  ps2_clock : bool;
  m_keyboardState_last : list Z }.
#[export] Instance eta_t : Eta t := fun s =>
  mkInput (inputCount s) (inputs s) (mappings s) (ps2_key s) (keyEvents s)
    (keyEventTimer s) (keyEventWait s) (ps2_key_temp s) (ps2_clock s)
    (m_keyboardState_last s).

(** The constructor; [n] is the size of the keyboard snapshot, whose first
    copy is cleared. *)
Definition make (count n : nat) : t :=
  mkInput count (replicate 16 false) (replicate 16 0) 0 [] 0 50000 0 true (replicate n 0).

Definition SetMapping (s : t) (index : nat) (c : Z) : t :=
  s <| mappings := <[index := if c <? 256 then c else 0]> (mappings s) |>.

Section Keyboard.
Context (p : Platform) (beyond : nat -> Z).

(** [ev2ps2[k]]. *)
Definition lookup_key (k : nat) : Z :=
  match ev2ps2 p !! k with Some m => m | None => beyond k end.

(** The event for a changed key. *)
Definition key_event (kb : list Z) (k : nat) : KeyEvent :=
  let m := lookup_key k in
  let ext := match p with WIN32 => negb ((m &&& EXT) =? 0) | SDL => false end in
  mkKey (i8 (Z.of_nat k)) (negb (nth k kb 0 =? 0)) ext m.

(** The keys scanned: 220 of the DirectInput snapshot, all of SDL's. *)
Definition scanned (kb : list Z) : nat :=
  match p with WIN32 => 220%nat | SDL => length kb end.

Definition scan_key (kb : list Z) (s : t) (k : nat) : t :=
  let s := if negb (nth k (m_keyboardState_last s) 0 =? nth k kb 0)
           then s <| keyEvents := keyEvents s ++ [key_event kb k] |> else s in
  s <| m_keyboardState_last := <[k := nth k kb 0]> (m_keyboardState_last s) |>.

(** [Read], given the new snapshot. *)
Definition Read (s : t) (kb : list Z) : t :=
  let s := foldl (fun s i =>
    let v := nth (Z.to_nat (nth i (mappings s) 0)) kb 0 in
    let down := match p with WIN32 => negb ((v &&& 0x80) =? 0) | SDL => negb (v =? 0) end in
    s <| inputs := <[i := down]> (inputs s) |>) s (seq 0 (inputCount s)) in
  foldl (scan_key kb) s (seq 0 (scanned kb)).
End Keyboard.

Definition BeforeEval (s : t) : t :=
  if keyEventTimer s =? 0 then
    match keyEvents s with
    | evt :: q =>
        let s := s <| keyEvents := q |> <| ps2_key_temp := mapped evt |> in
        let s := if extended evt
                 then s <| ps2_key_temp := ps2_key_temp s ||| (1 <<< 8) |> else s in
        let s := if pressed evt
                 then s <| ps2_key_temp := ps2_key_temp s ||| (1 <<< 9) |> else s in
        let s := if ps2_clock s
                 then s <| ps2_key_temp := ps2_key_temp s ||| (1 <<< 10) |> else s in
        let s := s <| ps2_clock := negb (ps2_clock s) |> in
        let s := s <| ps2_key := u16 (ps2_key_temp s) |> in
        s <| keyEventTimer := keyEventWait s |>
    | [] => s
    end
  else s <| keyEventTimer := u32 (keyEventTimer s - 1) |>.

(** ** Specification *)

(** The pin value of an event under a given toggle. *)
Definition key_word (e : KeyEvent) (clk : bool) : Z :=
  u16 (mapped e ||| (b2z (extended e) <<< 8) ||| (b2z (pressed e) <<< 9) ||| (b2z clk <<< 10)).

(** The pin after each of [n] clocks. *)
Definition step (s : t) (_ : unit) : t * Z := let s := BeforeEval s in (s, ps2_key s).
Definition pin_run (s : t) (n : nat) : t * list Z := run step s (replicate n tt).

(** The waveform of a queue of events: each held [w] clocks, the toggle
    alternating. *)
Fixpoint key_wave (w : nat) (es : list KeyEvent) (clk : bool) : list Z :=
  match es with
  | [] => []
  | e :: es => replicate w (key_word e clk) ++ key_wave w es (negb clk)
  end.

(** A key press is visible on the pin when the toggle bit changes. *)
Definition toggle (v : Z) : bool := Z.testbit v 10.

(** The keys whose state differs between two snapshots. *)
Definition changed (kb0 kb1 : list Z) (n : nat) : list nat :=
  filter (fun k => nth k kb0 0 <> nth k kb1 0) (seq 0 n).

End SimInput.

Import SimInput.

Lemma pin_run_S s n :
  pin_run s (S n) = let '(s2, os) := pin_run (BeforeEval s) n in
                    (s2, ps2_key (BeforeEval s) :: os).
Proof. done. Qed.

(** An event is taken when the timer is at zero. *)
Lemma BeforeEval_take s e q :
  keyEventTimer s = 0 -> keyEvents s = e :: q ->
  exists s', BeforeEval s = s' /\ keyEvents s' = q /\ ps2_key s' = key_word e (ps2_clock s) /\
    ps2_clock s' = negb (ps2_clock s) /\ keyEventTimer s' = keyEventWait s /\
    keyEventWait s' = keyEventWait s.
Proof.
  intros Ht Hq. unfold BeforeEval. rewrite Ht, Hq. eexists. split; [reflexivity|].
  unfold key_word. simpl (0 =? 0). cbv iota.
  destruct (extended e), (pressed e), (ps2_clock s) eqn:E; cbn -[Z.lor Z.shiftl u16 b2z];
    rewrite ?E; cbn -[Z.lor Z.shiftl u16 b2z]; rewrite ?E; repeat split;
    cbn [b2z]; rewrite ?Z.shiftl_0_l, ?Z.lor_0_r; done.
Qed.

Lemma pin_hold n s :
  keyEventTimer s = Z.of_nat n -> Z.of_nat n < 2 ^ 32 ->
  exists s', pin_run s n = (s', replicate n (ps2_key s)) /\ keyEventTimer s' = 0 /\
    keyEvents s' = keyEvents s /\ ps2_key s' = ps2_key s /\ ps2_clock s' = ps2_clock s /\
    keyEventWait s' = keyEventWait s.
Proof.
  revert s. induction n as [|n IH]; intros s Ht Hn; [by exists s|].
  assert (E : BeforeEval s = s <| keyEventTimer := Z.of_nat n |>).
  { unfold BeforeEval. rewrite Ht. rewrite (proj2 (Z.eqb_neq _ 0)) by lia.
    rewrite u32_small by lia. by replace (Z.of_nat (S n) - 1) with (Z.of_nat n) by lia. }
  rewrite pin_run_S, E.
  destruct (IH (s <| keyEventTimer := Z.of_nat n |>)) as (s'&->&H); [done|lia|].
  by exists s'.
Qed.

(** C11: queued key events reach the core in order, each exactly once: from
    an idle timer every event is on the pin for [keyEventWait + 1] clocks,
    with its extended and pressed flags in bits 8 and 9 and the toggle in
    bit 10 inverted from one event to the next. *)
Theorem input_events_paced (s : t) (Ht : keyEventTimer s = 0)
    (Hw : 0 <= keyEventWait s < 2 ^ 32) :
  let w := Z.to_nat (keyEventWait s + 1) in
  exists s', pin_run s (length (keyEvents s) * w) =
      (s', key_wave w (keyEvents s) (ps2_clock s)) /\
    keyEvents s' = [] /\ keyEventTimer s' = 0.
Proof.
  intros w. remember (keyEvents s) as es eqn:Hes. symmetry in Hes.
  remember (keyEventWait s) as W eqn:HW. symmetry in HW.
  revert s Ht Hes HW. induction es as [|e es IH]; intros s Ht Hes HW; [by exists s|].
  destruct (BeforeEval_take s e es Ht Hes) as (s1&E1&Q1&P1&C1&T1&W1).
  rewrite HW in T1, W1.
  destruct (pin_hold (Z.to_nat W) s1) as (s2&E2&T2&Q2&P2&C2&W2); [lia..|].
  destruct (IH s2) as (s3&E3&Q3&T3); [done|congruence|congruence|].
  exists s3. split; [|done].
  assert (Ew : w = S (Z.to_nat W)) by lia.
  change (length (e :: es) * w)%nat with (w + length es * w)%nat.
  unfold pin_run. rewrite replicate_add. cbn [key_wave].
  rewrite C2, C1 in E3. eapply run_seq; [|exact E3].
  rewrite Ew, <- P1. cbn [replicate].
  apply (run_cons step s s1 s2); [unfold step; by rewrite E1|exact E2].
Qed.

Lemma input_events_paced_witness :
  let s := (make 0 0) <| keyEventWait := 2 |>
             <| keyEvents := [mkKey 4 true false 0x1c; mkKey 4 false false 0x1c] |> in
  exists s', pin_run s 6 = (s', key_wave 3 [mkKey 4 true false 0x1c; mkKey 4 false false 0x1c] true) /\
    keyEvents s' = [] /\ keyEventTimer s' = 0.
Proof.
  intros s. apply (input_events_paced s).
  - reflexivity.
  - split; reflexivity || discriminate.
Defined.

(** The low sixteen bits of every table entry are a scan code below 256. *)
Lemma table_codes p :
  forallb (fun m => (0 <=? m) && (u16 m =? m mod 256)) (ev2ps2 p) = true.
Proof. by destruct p; vm_compute. Qed.

(** ** Reading the keyboard *)

Lemma changed_S kb0 kb1 n :
  changed kb0 kb1 (S n) =
  changed kb0 kb1 n ++ if negb (nth n kb0 0 =? nth n kb1 0) then [n] else [].
Proof.
  unfold changed. rewrite seq_S, filter_app. f_equal. cbn [filter list_filter Nat.add].
  destruct (Z.eqb_spec (nth n kb0 0) (nth n kb1 0)) as [E|E]; simpl; by case_decide.
Qed.

Lemma changed_none kb0 kb1 n :
  (forall k, (k < n)%nat -> nth k kb0 0 = nth k kb1 0) -> changed kb0 kb1 n = [].
Proof.
  induction n as [|n IH]; intros H; [done|].
  rewrite changed_S, IH, (H n), Z.eqb_refl by auto. done.
Qed.

Lemma nth_insert {A} (l : list A) i j x d :
  (i < length l)%nat -> nth j (<[i:=x]> l) d = if decide (j = i) then x else nth j l d.
Proof.
  intros Hi. rewrite !nth_lookup. case_decide; subst.
  - by rewrite list_lookup_insert_eq.
  - by rewrite list_lookup_insert_ne by done.
Qed.

Lemma scan_spec p beyond kb s n :
  (n <= length (m_keyboardState_last s))%nat ->
  let s' := foldl (scan_key p beyond kb) s (seq 0 n) in
  keyEvents s' = keyEvents s ++
    (key_event p beyond kb <$> changed (m_keyboardState_last s) kb n) /\
  length (m_keyboardState_last s') = length (m_keyboardState_last s) /\
  (forall k, nth k (m_keyboardState_last s') 0 =
     if (k <? n)%nat then nth k kb 0 else nth k (m_keyboardState_last s) 0) /\
  keyEventTimer s' = keyEventTimer s.
Proof.
  induction n as [|n IH]; intros Hn.
  { cbn. by rewrite app_nil_r. }
  destruct IH as (A1&A2&A3&A4); [lia|]. cbv zeta.
  rewrite seq_S, foldl_app. cbn [foldl Nat.add].
  set (s1 := foldl _ s (seq 0 n)) in *. clearbody s1.
  rewrite changed_S, fmap_app. unfold scan_key.
  assert (E : nth n (m_keyboardState_last s1) 0 = nth n (m_keyboardState_last s) 0)
    by (by rewrite A3, (proj2 (Nat.ltb_ge n n)) by lia).
  rewrite E.
  assert (L : forall k, nth k (<[n:=nth n kb 0]> (m_keyboardState_last s1)) 0 =
    if (k <? S n)%nat then nth k kb 0 else nth k (m_keyboardState_last s) 0).
  { intros k. rewrite nth_insert by lia. case_decide as Hk; [subst|rewrite A3].
    - by rewrite (proj2 (Nat.ltb_lt n (S n))) by lia.
    - destruct (Nat.ltb_spec k n), (Nat.ltb_spec k (S n)); done || lia. }
  destruct (negb _); simpl; rewrite length_insert; (split; [|done]);
    rewrite A1; [by rewrite <- app_assoc|by rewrite app_nil_r].
Qed.

(** C16: a snapshot adds to the queue one event for every scanned key whose
    state changed since the last snapshot, in key order, and none for the
    others; the snapshot is remembered, so reading it again adds nothing. *)
Theorem input_read_changes (p : Platform) (beyond : nat -> Z) (s : t) (kb : list Z)
    (Hn : (scanned p kb <= length (m_keyboardState_last s))%nat) :
  let s' := Read p beyond s kb in
  keyEvents s' = keyEvents s ++
    (key_event p beyond kb <$> changed (m_keyboardState_last s) kb (scanned p kb)) /\
  keyEvents (Read p beyond s' kb) = keyEvents s'.
Proof.
  assert (G : forall s, (scanned p kb <= length (m_keyboardState_last s))%nat ->
    keyEvents (Read p beyond s kb) = keyEvents s ++
      (key_event p beyond kb <$> changed (m_keyboardState_last s) kb (scanned p kb)) /\
    length (m_keyboardState_last (Read p beyond s kb)) = length (m_keyboardState_last s) /\
    (forall k, (k < scanned p kb)%nat ->
       nth k (m_keyboardState_last (Read p beyond s kb)) 0 = nth k kb 0)).
  { clear. intros s Hn. unfold Read.
    set (f := fun (s : t) (i : nat) => _).
    assert (F : forall l s0, keyEvents (foldl f s0 l) = keyEvents s0 /\
      m_keyboardState_last (foldl f s0 l) = m_keyboardState_last s0).
    { induction l as [|i l IH]; intros s0; [done|]. simpl.
      destruct (IH (f s0 i)) as [-> ->]. by destruct p. }
    destruct (F (seq 0 (inputCount s)) s) as [F1 F2].
    set (s1 := foldl f s _) in *. clearbody s1.
    destruct (scan_spec p beyond kb s1 (scanned p kb)) as (A1&A2&A3&_); [by rewrite F2|].
    rewrite A1, A2, F1, F2. split; [done|]. split; [done|]. intros k Hk. rewrite A3.
    by rewrite (proj2 (Nat.ltb_lt k _)) by lia. }
  destruct (G s Hn) as (A1&A2&A3). split; [done|].
  destruct (G (Read p beyond s kb)) as (B1&_&_); [lia|]. rewrite B1.
  replace (changed _ kb _) with (@nil nat); [apply app_nil_r|].
  symmetry. by apply changed_none.
Qed.

Lemma input_read_changes_witness :
  let s := make 0 512 in
  let kb := replicate 4 0 ++ [1] ++ replicate 507 0 in
  let s' := Read SDL (fun _ => 0) s kb in
  keyEvents s' = [] ++ (key_event SDL (fun _ => 0) kb <$>
    changed (m_keyboardState_last s) kb (scanned SDL kb)) /\
  keyEvents (Read SDL (fun _ => 0) s' kb) = keyEvents s'.
Proof.
  intros s kb. apply (input_read_changes SDL (fun _ => 0) s kb). vm_compute. lia.
Defined.

(** C32: the SDL build sends cursor keys and their keypad counterparts as the
    same words, because it never sets the extended flag: arrow up and keypad
    8, right and keypad 6, left and keypad 4, down and keypad 2.  In the
    DirectInput build the corresponding keys differ. *)
Theorem input_sdl_aliases (beyond : nat -> Z) (kb : list Z) (clk : bool) :
  Forall (fun ab => nth ab.1 kb 0 = nth ab.2 kb 0 ->
    key_word (key_event SDL beyond kb ab.1) clk = key_word (key_event SDL beyond kb ab.2) clk)
    [(82, 96); (79, 94); (80, 92); (81, 90)]%nat /\
  Forall (fun ab =>
    key_word (key_event WIN32 beyond kb ab.1) clk <> key_word (key_event WIN32 beyond kb ab.2) clk)
    [(200, 72); (205, 77); (203, 75); (208, 80)]%nat.
Proof.
  split; repeat constructor; cbn [fst snd].
  1-4: intros H; unfold key_word, key_event; cbn [mapped extended pressed]; rewrite H;
    match goal with |- context [nth ?a ?l 0] => generalize (negb (nth a l 0 =? 0)) end;
    intros b; destruct b, clk; vm_compute; reflexivity.
  all: unfold key_word, key_event; cbn [mapped extended pressed].
  all: match goal with |- context [nth ?a ?l 0] => generalize (negb (nth a l 0 =? 0)) end;
    intros b1; match goal with |- context [nth ?a ?l 0] => generalize (negb (nth a l 0 =? 0)) end;
    intros b2; destruct b1, b2, clk; vm_compute; discriminate.
Qed.

(** The left control key (SDL scan code 224) has no mapping, and codes from
    231 on are read behind the table. *)
Lemma sdl_gaps beyond k :
  lookup_key SDL beyond 224 = NONE /\ ((231 <= k)%nat -> lookup_key SDL beyond k = beyond k).
Proof.
  split; [reflexivity|]. intros Hk. unfold lookup_key.
  by rewrite lookup_ge_None_2 by (change (length (ev2ps2 SDL)) with 231%nat; lia).
Qed.
