(* ===== verification/JsonlWriter.v ===== *)
(** * JsonlWriter: batched result lines on a raw medium

    [SingleStepTests/preboot/common/runtime/jsonl_writer.{h,c}] with the
    [freestanding.h] helpers it uses, and its media: the driver path of
    [jsonl_writer.c] that slices a batch into requests of at most 16 KB, the
    Amiga trackdisk path ([amiga/jsonl_trackdisk.c]) and the RAM window of
    the RTL simulation ([sim040/jsonl_sim.c]).

    The medium is an interface, [Backend]: what [jw_backend_write] promises
    to the writer.  The three media are instances; the operating-system
    calls below two of them ([_Write], [DoIO]) are parameters with their
    documented behaviour as hypotheses. *)

From S2P Require Import Prelude CText.
#[local] Open Scope c_scope.

(** ** freestanding.h *)

Module Freestanding.

(** [f_memset] and [f_memcpy] on the [n] bytes of [dst] from [o] on. *)
Definition f_memset (dst : list Z) (o : nat) (c : Z) (n : nat) : list Z :=
  take o dst ++ replicate n (u8 c) ++ drop (o + n) dst.
Definition f_memcpy (dst : list Z) (o : nat) (src : list Z) (n : nat) : list Z :=
  take o dst ++ take n src ++ drop (o + n) dst.

(** [f_strlen] of a NUL-terminated buffer. *)
Fixpoint f_strlen (s : list Z) : Z :=
  match s with
  | [] => 0
  | c :: s => if c =? 0 then 0 else f_strlen s + 1
  end.

(** The loop of [f_putul] that fills [buf] from the low digit up. *)
Fixpoint putul_digits (fuel : nat) (v : Z) (buf : list Z) : list Z :=
  match fuel with
  | O => buf
  | S fuel => if v =? 0 then buf
              else putul_digits fuel (v / 10) (buf ++ [48 + v mod 10])
  end.

(** [f_putul]: the bytes appended; [buf] holds 11 digits. *)
Definition f_putul (v : Z) : list Z :=
  if v =? 0 then [48] else rev (putul_digits 11 v []).

End Freestanding.

Import Freestanding.

Lemma putul_digits_go fuel v buf :
  rev (putul_digits fuel v buf) = dec_go fuel v (rev buf).
Proof.
  revert v buf. induction fuel as [|fuel IH]; intros v buf; [done|]. simpl.
  destruct (v =? 0); [done|]. rewrite IH, rev_app_distr. done.
Qed.

Lemma dec_go_fuel f1 f2 v acc n :
  0 <= v < 10 ^ Z.of_nat n -> (n <= f1)%nat -> (n <= f2)%nat ->
  dec_go f1 v acc = dec_go f2 v acc.
Proof.
  revert f1 f2 v acc. induction n as [|n IH]; intros f1 f2 v acc Hv H1 H2.
  { replace v with 0 by (simpl in Hv; lia). by destruct f1, f2. }
  destruct f1 as [|f1], f2 as [|f2]; [lia..|]. simpl. destruct (Z.eqb_spec v 0); [done|].
  rewrite Nat2Z.inj_succ, Z.pow_succ_r in Hv by lia.
  apply IH; [|lia..]. split; [apply Z.div_pos; lia|]. apply Z.div_lt_upper_bound; lia.
Qed.

(** [f_putul] prints the decimal numeral of any 32-bit value. *)
Lemma f_putul_dec v : 0 <= v < 2 ^ 32 -> f_putul v = dec_bytes v.
Proof.
  intros Hv. unfold f_putul, dec_bytes. destruct (v =? 0); [done|].
  rewrite putul_digits_go. apply (dec_go_fuel _ _ _ _ 10); [|unfold dec_fuel; lia..].
  change (Z.of_nat 10) with 10. lia.
Qed.

(** ** The medium *)

(** [JwCtx]. *)
Record JwCtx := mkCtx { refnum : Z; drive : Z; base_offset : Z; max_bytes : Z }.

(** What a backend offers: [jw_backend_write ctx sector_idx buf] changes the
    medium and returns an error code; [byte] reads the medium. *)
Class Backend (D : Type) := {
  backend_write : JwCtx -> Z -> list Z -> D -> D * Z;
  byte_of : D -> Z -> Z }.

(** The contract of a write of [B] bytes: on success exactly the batch is
    replaced; on failure nothing outside the batch is touched. *)
Definition in_batch (B : Z) (ctx : JwCtx) (idx a : Z) : Prop :=
  base_offset ctx + idx * B <= a < base_offset ctx + idx * B + B.

Class BackendOk (D : Type) `{Backend D} (B : Z) (valid : JwCtx -> Z -> Prop) := {
  write_same : forall ctx idx buf d d' r a, valid ctx idx -> Z.of_nat (length buf) = B ->
    backend_write ctx idx buf d = (d', r) -> ~ in_batch B ctx idx a ->
    byte_of d' a = byte_of d a;
  write_batch : forall ctx idx buf d d' a, valid ctx idx -> Z.of_nat (length buf) = B ->
    backend_write ctx idx buf d = (d', 0) -> in_batch B ctx idx a ->
    byte_of d' a = nth (Z.to_nat (a - (base_offset ctx + idx * B))) buf 0 }.

(** ** jsonl_writer.c *)

Module JsonlWriter.

Record t := mkJw {
  ctx : JwCtx;
  sector : list Z;
  used : Z;
  written : Z;
  last_err : Z }.
#[export] Instance eta_t : Eta t := fun w =>
  mkJw (ctx w) (sector w) (used w) (written w) (last_err w).

Section Writer.
(** [JW_BATCH_BYTES]. *)
Context (B : Z) {D : Type} `{Backend D}.

Definition jw_init (c : JwCtx) : t :=
  mkJw c (replicate (Z.to_nat B) 0) 0 0 0.

Definition write_current_batch (w : t) (d : D) : t * D :=
  let w := if used w <? B
           then w <| sector := f_memset (sector w) (Z.to_nat (used w)) 0
                                 (Z.to_nat (B - used w)) |>
           else w in
  let batch_idx := written w / B in
  let '(d, r) := backend_write (ctx w) batch_idx (sector w) d in
  let w := if negb (r =? 0) && (last_err w =? 0) then w <| last_err := r |> else w in
  (w, d).

Definition flush_sector (w : t) (d : D) : t * D :=
  let '(w, d) := write_current_batch w d in
  (w <| written := u32 (written w + B) |> <| used := 0 |>, d).

Definition jw_putc (w : t) (c : Z) (d : D) : t * D :=
  if u32 (written w + used w) >=? max_bytes (ctx w) then (w, d)
  else
    let w := w <| sector := <[Z.to_nat (used w) := u8 c]> (sector w) |>
               <| used := used w + 1 |> in
    if used w =? B then flush_sector w d else (w, d).

(** [jw_puts] of a string, given without its NUL. *)
Definition jw_puts (w : t) (s : list Z) (d : D) : t * D :=
  foldl (fun wd c => jw_putc wd.1 c wd.2) (w, d) s.

Definition jw_putul (w : t) (v : Z) (d : D) : t * D := jw_puts w (f_putul v) d.

Definition jw_commit_line (w : t) (d : D) : t * D :=
  if used w =? 0 then (w, d) else write_current_batch w d.

Definition jw_flush (w : t) (d : D) : t * D :=
  if used w >? 0 then flush_sector w d else (w, d).

(** ** Specification *)

Inductive Op := Put (c : Z) | Commit.
Definition apply_op (wd : t * D) (o : Op) : t * D :=
  match o with
  | Put c => jw_putc wd.1 c wd.2
  | Commit => jw_commit_line wd.1 wd.2
  end.
Definition apply_ops (wd : t * D) (os : list Op) : t * D := foldl apply_op wd os.

(** The bytes of a sequence of operations, and those kept. *)
Definition put_bytes (os : list Op) : list Z :=
  omap (fun o => match o with Put c => Some (u8 c) | Commit => None end) os.
Definition kept (c : JwCtx) (os : list Op) : list Z :=
  take (Z.to_nat (max_bytes c)) (put_bytes os).

(** The end of the last batch a file of [n] bytes occupies. *)
Definition batches_end (n : Z) : Z := (n + B - 1) / B * B.
End Writer.

End JsonlWriter.

Import JsonlWriter.

Section Refinement.
Context (B : Z) (HB : 0 < B) {D : Type} `{Backend D} (c : JwCtx).
Context (valid : JwCtx -> Z -> Prop) (Hok : BackendOk D B valid).
(** Every batch of the file is on the medium. *)
Context (Hvalid : forall idx, 0 <= idx < batches_end B (max_bytes c) / B -> valid c idx).
Context (Hmax : 0 <= max_bytes c /\ max_bytes c + B < 2 ^ 32).

#[local] Abbreviation base := (base_offset c).
#[local] Abbreviation len l := (Z.of_nat (length l)).

(** A recorded error is one that a write of a batch of the file returned. *)
Definition from_medium (e : Z) : Prop :=
  e = 0 \/ exists idx buf d, valid c idx /\ (backend_write c idx buf d).2 = e.

(** The writer after keeping the bytes [l]: unless an error is recorded the
    whole batches of [l] are on the medium; the rest of [l] is in the buffer,
    and the medium below the file and behind the current batch is as in
    [d0]. *)
Definition holds (d0 : D) (l : list Z) (wd : t * D) : Prop :=
  let '(w, d) := wd in
  ctx w = c /\ from_medium (last_err w) /\ len l <= max_bytes c /\
  len (sector w) = B /\ 0 <= used w < B /\
  (exists k, 0 <= k /\ written w = k * B) /\
  len l = written w + used w /\
  (forall i, 0 <= i < used w ->
     nth (Z.to_nat i) (sector w) 0 = nth (Z.to_nat (written w + i)) l 0) /\
  (last_err w = 0 ->
     forall i, 0 <= i < written w -> byte_of d (base + i) = nth (Z.to_nat i) l 0) /\
  (forall a, a < base \/ base + written w + (if used w =? 0 then 0 else B) <= a ->
     byte_of d a = byte_of d0 a).

Lemma batches_end_bound n k u :
  0 <= k -> 0 < u <= B -> k * B + u <= n -> (k + 1) * B <= batches_end B n.
Proof.
  intros Hk Hu Hn. unfold batches_end. apply Z.mul_le_mono_nonneg_r; [lia|].
  apply Z.div_le_lower_bound; [lia|]. nia.
Qed.

Lemma holds_init d : holds d [] (jw_init B c, d).
Proof.
  unfold holds, jw_init. cbn. rewrite length_replicate.
  repeat split; try lia; [by left|]. exists 0. lia.
Qed.

(** Writing the current batch, partially or completely filled. *)
Lemma write_batch_spec w d k :
  ctx w = c -> len (sector w) = B -> 0 <= k -> written w = k * B ->
  0 < used w <= B -> written w + used w <= max_bytes c ->
  exists w' d', write_current_batch B w d = (w', d') /\
    ctx w' = c /\ used w' = used w /\ written w' = written w /\
    (from_medium (last_err w) -> from_medium (last_err w')) /\
    (last_err w' = 0 -> last_err w = 0) /\
    len (sector w') = B /\
    (forall i, 0 <= i < B -> nth (Z.to_nat i) (sector w') 0 =
       if i <? used w then nth (Z.to_nat i) (sector w) 0 else 0) /\
    (last_err w' = 0 -> forall i, 0 <= i < B -> byte_of d' (base + written w + i) =
       if i <? used w then nth (Z.to_nat i) (sector w) 0 else 0) /\
    (forall a, a < base + written w \/ base + written w + B <= a ->
       byte_of d' a = byte_of d a).
Proof.
  intros Hc Hs Hk Hw Hu Hn. unfold write_current_batch.
  set (w1 := if used w <? B then _ else w).
  assert (H1 : ctx w1 = c /\ last_err w1 = last_err w /\ used w1 = used w /\
    written w1 = written w /\ len (sector w1) = B /\
    (forall i, 0 <= i < B -> nth (Z.to_nat i) (sector w1) 0 =
       if i <? used w then nth (Z.to_nat i) (sector w) 0 else 0)).
  { unfold w1. destruct (Z.ltb_spec (used w) B) as [Hlt|Hge].
    - cbn. unfold f_memset. rewrite !length_app, length_take, length_replicate, length_drop.
      repeat split; try done; [lia|]. intros i Hi. rewrite nth_lookup.
      destruct (Z.ltb_spec i (used w)).
      + rewrite lookup_app_l by (rewrite length_take; lia).
        rewrite lookup_take_lt by lia. by rewrite nth_lookup.
      + rewrite lookup_app_r by (rewrite length_take; lia).
        rewrite length_take, lookup_app_l by (rewrite length_replicate; lia).
        by rewrite lookup_replicate_2 by lia.
    - repeat split; try done. intros i Hi. by rewrite (proj2 (Z.ltb_lt i (used w))) by lia. }
  clearbody w1. destruct H1 as (C1&L1&U1&W1&S1&N1). rewrite C1, W1, Hw, Z.div_mul by lia.
  assert (Hv : valid c k).
  { apply Hvalid. split; [done|].
    pose proof (batches_end_bound (max_bytes c) k (used w) Hk Hu ltac:(lia)).
    apply (Z.lt_le_trans _ (k + 1)); [lia|]. by apply Z.div_le_lower_bound; lia. }
  destruct (backend_write c k (sector w1) d) as [d' r] eqn:E.
  assert (Hr : from_medium r) by (right; exists k, (sector w1), d; by rewrite E).
  set (w2 := if _ && _ then _ else w1).
  assert (H2 : ctx w2 = c /\ used w2 = used w /\ written w2 = written w /\ sector w2 = sector w1 /\
    (from_medium (last_err w) -> from_medium (last_err w2)) /\
    (last_err w2 = 0 -> last_err w = 0 /\ r = 0)).
  { unfold w2. rewrite <- L1. destruct (Z.eqb_spec r 0) as [Er|Er]; cbn [negb andb].
    { by repeat split. }
    destruct (Z.eqb_spec (last_err w1) 0) as [El|El]; repeat split; try done; try (by intros ?). }
  clearbody w2. destruct H2 as (C2&U2&W2&S2&F2&G2).
  exists w2, d'. split; [done|]. split; [done|]. split; [done|]. split; [congruence|]. split; [done|].
  split; [intros H2; by apply G2|]. split; [congruence|]. rewrite S2. split; [done|]. split.
  - intros H2 i Hi. destruct (G2 H2) as [_ ->].
    rewrite (write_batch c k (sector w1) d d' _ Hv S1 E) by (unfold in_batch; lia).
    rewrite <- N1 by done. f_equal. lia.
  - intros a Ha. apply (write_same c k (sector w1) d d' r a Hv S1 E). unfold in_batch. lia.
Qed.

Lemma holds_put d0 l wd x :
  holds d0 l wd ->
  holds d0 (if len l <? max_bytes c then l ++ [u8 x] else l) (apply_op B wd (Put x)).
Proof.
  destruct wd as [w d].
  intros (Hc&He&Hl&Hs&Hu&(k&Hk&Hw)&Hlen&Hbuf&Hdisk&Hrest).
  unfold apply_op, jw_putc. cbn [fst snd]. rewrite Hc, u32_small by lia.
  rewrite <- Hlen, Z.geb_leb, Z.leb_antisym.
  destruct (Z.ltb_spec (len l) (max_bytes c)) as [Hlt|Hge]; cbn [negb].
  2: { repeat split; try done; try lia. by exists k. }
  set (w1 := w <| sector := _ |> <| used := used w + 1 |>).
  assert (S1 : len (sector w1) = B) by (cbn; by rewrite length_insert).
  assert (N1 : forall i, 0 <= i < used w + 1 ->
    nth (Z.to_nat i) (sector w1) 0 = nth (Z.to_nat (written w + i)) (l ++ [u8 x]) 0).
  { intros i Hi. cbn. rewrite !nth_lookup. destruct (decide (i = used w)) as [->|Hne].
    - rewrite list_lookup_insert_eq by lia.
      rewrite lookup_app_r by lia. by replace (Z.to_nat _ - length l)%nat with 0%nat by lia.
    - rewrite list_lookup_insert_ne by lia. rewrite lookup_app_l by lia.
      rewrite <- !nth_lookup. apply Hbuf. lia. }
  assert (Hpre : forall i, 0 <= i < written w ->
    nth (Z.to_nat i) (l ++ [u8 x]) 0 = nth (Z.to_nat i) l 0)
    by (intros i Hi; apply app_nth1; lia).
  change (used w1) with (used w + 1).
  destruct (Z.eqb_spec (used w + 1) B) as [Efull|Hpart].
  - (* the batch is full *)
    destruct (write_batch_spec w1 d k) as (w2&d2&E&C2&U2&W2&F2&G2&S2&N2&D2&R2);
      [done..|cbn; lia|cbn; lia|].
    unfold flush_sector. rewrite E. unfold holds. cbn [fst snd].
    cbn -[Z.mul u32]. rewrite W2. change (written w1) with (written w) in *.
    rewrite u32_small by lia. rewrite length_app. cbn [length].
    repeat split; try done; try lia.
    + by apply F2.
    + exists (k + 1). lia.
    + intros He2 i Hi. destruct (Z.lt_ge_cases i (written w)).
      * rewrite R2 by lia. rewrite Hpre by lia. apply Hdisk; [by apply G2|lia].
      * replace (base + i) with (base + written w + (i - written w)) by lia.
        rewrite D2 by (done || lia). change (used w1) with (used w + 1).
        rewrite (proj2 (Z.ltb_lt _ _)) by lia. rewrite N1 by lia. f_equal. lia.
    + intros a Ha. rewrite R2 by lia. apply Hrest. destruct (used w =? 0); lia.
  - repeat split; try done; try (cbn; lia).
    + rewrite length_app. cbn. lia.
    + exists k. done.
    + rewrite length_app. cbn. lia.
    + intros He2 i Hi. rewrite Hpre by done. by apply Hdisk.
    + intros a Ha. apply Hrest. cbn in Ha.
      rewrite (proj2 (Z.eqb_neq (used w + 1) 0)) in Ha by lia.
      destruct (used w =? 0); lia.
Qed.

(** After a commit that leaves no error [e] all the kept bytes are on the
    medium. *)
Definition persisted (d0 : D) (l : list Z) (e : Z) (d : D) : Prop :=
  (e = 0 -> forall i, (i < length l)%nat -> byte_of d (base + Z.of_nat i) = nth i l 0) /\
  (e = 0 -> forall a, base + len l <= a < base + batches_end B (len l) -> byte_of d a = 0) /\
  (forall a, a < base \/ base + batches_end B (len l) <= a -> byte_of d a = byte_of d0 a).

Lemma batches_end_eq k u : 0 <= k -> 0 <= u < B ->
  batches_end B (k * B + u) = k * B + if u =? 0 then 0 else B.
Proof.
  intros Hk Hu. unfold batches_end. destruct (Z.eqb_spec u 0) as [->|].
  - replace (k * B + 0 + B - 1) with (B - 1 + k * B) by lia.
    rewrite Z.div_add, Z.div_small by lia. lia.
  - replace (k * B + u + B - 1) with (u - 1 + (k + 1) * B) by lia.
    rewrite Z.div_add, Z.div_small by lia. lia.
Qed.

Lemma holds_commit d0 l wd :
  holds d0 l wd ->
  holds d0 l (apply_op B wd Commit) /\
  persisted d0 l (last_err (apply_op B wd Commit).1) (apply_op B wd Commit).2.
Proof.
  destruct wd as [w d]. intros Hh. pose proof Hh as Hh'.
  destruct Hh as (Hc&He&Hl&Hs&Hu&(k&Hk&Hw)&Hlen&Hbuf&Hdisk&Hrest).
  unfold apply_op, jw_commit_line. cbn [fst snd]. unfold persisted.
  rewrite Hlen, Hw, batches_end_eq by done. rewrite Hw in *.
  destruct (Z.eqb_spec (used w) 0) as [E0|Hne].
  - split; [exact Hh'|]. rewrite E0 in *. cbn [fst snd]. rewrite !Z.add_0_r.
    split; [|split].
    + intros He0 i Hi. rewrite Hdisk by (done || lia). f_equal. lia.
    + lia.
    + intros a Ha. apply Hrest. cbn. lia.
  - destruct (write_batch_spec w d k) as (w2&d2&E&C2&U2&W2&F2&G2&S2&N2&D2&R2);
      [done..|lia|lia|]. rewrite E. cbn [fst snd].
    assert (Hd2 : last_err w2 = 0 -> forall i, 0 <= i < k * B + used w ->
      byte_of d2 (base + i) = nth (Z.to_nat i) l 0).
    { intros He2 i Hi. destruct (Z.lt_ge_cases i (k * B)).
      - rewrite R2 by lia. apply Hdisk; [by apply G2|lia].
      - replace (base + i) with (base + written w + (i - k * B)) by lia.
        rewrite D2 by (done || lia). rewrite (proj2 (Z.ltb_lt _ _)) by lia.
        rewrite Hbuf by lia. f_equal. lia. }
    assert (Hr2 : forall a, a < base \/ base + k * B + B <= a -> byte_of d2 a = byte_of d0 a).
    { intros a Ha. rewrite R2 by lia. apply Hrest. lia. }
    split; [|split; [|split]].
    + unfold holds. rewrite U2, W2, Hw, (proj2 (Z.eqb_neq (used w) 0)) by done.
      repeat split; try done; try lia.
      * by apply F2.
      * by exists k.
      * intros i Hi. rewrite N2 by lia. rewrite (proj2 (Z.ltb_lt _ _)) by lia. by apply Hbuf.
      * intros He2 i Hi. apply Hd2; [done|lia].
    + intros He2 i Hi. rewrite Hd2 by (done || lia). f_equal. lia.
    + intros He2 a Ha. replace a with (base + written w + (a - base - k * B)) by lia.
      rewrite D2 by (done || lia). by rewrite (proj2 (Z.ltb_ge _ _)) by lia.
    + intros a Ha. apply Hr2. lia.
Qed.

Lemma kept_snoc os o :
  kept c (os ++ [o]) =
  match o with
  | Put x => if len (kept c os) <? max_bytes c then kept c os ++ [u8 x] else kept c os
  | Commit => kept c os
  end.
Proof.
  unfold kept, put_bytes. rewrite omap_app. destruct o; cbn; [|by rewrite app_nil_r].
  set (l := omap _ os). rewrite length_take. destruct (Z.ltb_spec
    (Z.of_nat (Z.to_nat (max_bytes c) `min` length l)) (max_bytes c)).
  - rewrite take_app_ge by lia. rewrite (take_ge l) by lia. f_equal.
    apply take_ge. cbn. lia.
  - by rewrite take_app_le by lia.
Qed.

Lemma holds_ops d0 os :
  holds d0 (kept c os) (apply_ops B (jw_init B c, d0) os).
Proof.
  induction os as [|o os IH] using rev_ind.
  { unfold kept. cbn. rewrite take_nil. apply holds_init. }
  unfold apply_ops. rewrite foldl_snoc. fold (apply_ops B (jw_init B c, d0) os).
  rewrite kept_snoc. destruct o as [x|].
  - by apply holds_put.
  - by apply holds_commit.
Qed.

Lemma jw_puts_ops w s d : jw_puts B w s d = apply_ops B (w, d) (Put <$> s).
Proof.
  unfold jw_puts, apply_ops. generalize (w, d). intros wd. revert wd.
  induction s as [|x s IH]; intros wd; [done|]. apply IH.
Qed.

(** Committing or flushing at the end makes everything durable. *)
Lemma commit_persists d0 os :
  let wd := apply_ops B (jw_init B c, d0) (os ++ [Commit]) in
  from_medium (last_err wd.1) /\ persisted d0 (kept c os) (last_err wd.1) wd.2.
Proof.
  unfold apply_ops. rewrite foldl_snoc.
  destruct (holds_commit _ _ _ (holds_ops d0 os)) as [Hh Hp].
  unfold apply_ops in *. set (wd := apply_op _ _ _) in *. split; [|exact Hp].
  destruct wd. apply Hh.
Qed.

Lemma flush_persists d0 os :
  let '(w, d) := apply_ops B (jw_init B c, d0) os in
  let '(w', d') := jw_flush B w d in
  persisted d0 (kept c os) (last_err w') d' /\ used w' = 0 /\ from_medium (last_err w') /\
  written w' = batches_end B (len (kept c os)).
Proof.
  pose proof (holds_ops d0 os) as Hh.
  destruct (apply_ops B (jw_init B c, d0) os) as [w d].
  pose proof (proj2 (holds_commit _ _ _ Hh)) as Hp.
  destruct Hh as (Hc&He&Hl&Hs&Hu&(k&Hk&Hw)&Hlen&Hbuf&Hdisk&Hrest).
  unfold apply_op, jw_commit_line in Hp. cbn [fst snd] in Hp. unfold jw_flush.
  destruct (Z.gtb_spec (used w) 0) as [Hpos|Hz].
  - rewrite (proj2 (Z.eqb_neq (used w) 0)) in Hp by lia. unfold flush_sector.
    destruct (write_batch_spec w d k) as (w2&d2&E&C2&U2&W2&F2&_); [done..|lia|lia|].
    rewrite E in *. split; [exact Hp|]. cbn -[Z.mul u32].
    rewrite W2, Hlen, Hw, batches_end_eq by done.
    rewrite (proj2 (Z.eqb_neq (used w) 0)) by lia. rewrite u32_small by lia.
    split; [done|]. split; [by apply F2|lia].
  - rewrite (proj2 (Z.eqb_eq (used w) 0)) in Hp by lia.
    split; [exact Hp|]. rewrite Hlen, Hw, batches_end_eq by done.
    rewrite (proj2 (Z.eqb_eq (used w) 0)) by lia. repeat split; (done || lia).
Qed.

(** Where every write succeeds no error is recorded. *)
Lemma from_medium_good e :
  (forall idx buf d, valid c idx -> (backend_write c idx buf d).2 = 0) ->
  from_medium e -> e = 0.
Proof. intros Hgood [|(idx & buf & d & Hv & <-)]; [done|by apply Hgood]. Qed.

(** A recorded error stays. *)
Lemma write_sticky w d : last_err w <> 0 ->
  last_err (write_current_batch B w d).1 = last_err w.
Proof.
  intros He. apply Z.eqb_neq in He. unfold write_current_batch.
  destruct (used w <? B); cbn [sector written ctx update];
    destruct (backend_write _ _ _ _) as [d' r]; cbn [last_err update]; by rewrite He, andb_false_r.
Qed.
Lemma flush_sector_sticky w d : last_err w <> 0 ->
  last_err (flush_sector B w d).1 = last_err w.
Proof.
  intros He. pose proof (write_sticky w d He) as H1. unfold flush_sector.
  by destruct (write_current_batch B w d).
Qed.
Lemma putc_sticky w x d : last_err w <> 0 -> last_err (jw_putc B w x d).1 = last_err w.
Proof.
  intros He. unfold jw_putc. destruct (_ >=? _); [done|].
  destruct (_ =? B); [|done]. by rewrite flush_sector_sticky.
Qed.
Lemma puts_sticky w s d : last_err w <> 0 -> last_err (jw_puts B w s d).1 = last_err w.
Proof.
  revert w d. induction s as [|x s IH]; intros w d He; [done|].
  pose proof (putc_sticky w x d He) as H1. unfold jw_puts in *. cbn [foldl fst snd].
  destruct (jw_putc B w x d) as [w1 d1]. cbn [fst] in H1. rewrite IH; congruence.
Qed.
Lemma flush_sticky w d : last_err w <> 0 -> last_err (jw_flush B w d).1 = last_err w.
Proof. intros He. unfold jw_flush. destruct (_ >? _); [by apply flush_sector_sticky|done]. Qed.
End Refinement.

(** ** The media *)

(** A write of bytes at an address of a byte-addressed medium. *)
Definition poke (m : Z -> Z) (a : Z) (buf : list Z) : Z -> Z :=
  fun x => if (a <=? x) && (x <? a + Z.of_nat (length buf))
           then nth (Z.to_nat (x - a)) buf 0 else m x.

Lemma poke_in m a buf x : a <= x < a + Z.of_nat (length buf) ->
  poke m a buf x = nth (Z.to_nat (x - a)) buf 0.
Proof. intros H. unfold poke. by replace (_ && _) with true by lia. Qed.
Lemma poke_out m a buf x : x < a \/ a + Z.of_nat (length buf) <= x -> poke m a buf x = m x.
Proof. intros H. unfold poke. by replace (_ && _) with false by lia. Qed.

(** *** The RAM window of the RTL simulation ([sim040/jsonl_sim.c]) *)

Module SimWindow.
(** [jw_backend_write]: [dst[i] = buf[i]] for a whole batch. *)
Fixpoint copy (n : nat) (dst : Z) (i : nat) (buf : list Z) (m : Z -> Z) : Z -> Z :=
  match n with
  | O => m
  | S n => copy n dst (S i) buf
             (fun x => if x =? dst + Z.of_nat i then nth i buf 0 else m x)
  end.
Definition jw_backend_write (B : Z) (ctx : JwCtx) (batch_idx : Z) (buf : list Z)
    (m : Z -> Z) : (Z -> Z) * Z :=
  let dst := u32 (base_offset ctx + batch_idx * B) in
  (copy (Z.to_nat B) dst 0 buf m, 0).
Definition backend (B : Z) : Backend (Z -> Z) :=
  {| backend_write := jw_backend_write B; byte_of := fun m a => m a |}.
End SimWindow.

Lemma copy_spec n dst i buf m x :
  SimWindow.copy n dst i buf m x =
  if (dst + Z.of_nat i <=? x) && (x <? dst + Z.of_nat (i + n))
  then nth (Z.to_nat (x - dst)) buf 0 else m x.
Proof.
  revert i m. induction n as [|n IH]; intros i m.
  { cbn. by replace (_ && _) with false by lia. }
  cbn [SimWindow.copy]. rewrite IH.
  replace (S i + n)%nat with (i + S n)%nat by lia.
  destruct (Z.eqb_spec x (dst + Z.of_nat i)) as [->|Hne].
  - replace (dst + Z.of_nat (S i) <=? dst + Z.of_nat i) with false by lia. cbn [andb].
    replace (_ && _) with true by lia. f_equal. lia.
  - by replace (dst + Z.of_nat (S i) <=? x) with (dst + Z.of_nat i <=? x) by lia.
Qed.

(** A medium whose batches end below the 32-bit limit. *)
Definition below_4g (B : Z) (ctx : JwCtx) (idx : Z) : Prop :=
  0 <= idx /\ 0 <= base_offset ctx /\ base_offset ctx + idx * B + B <= 2 ^ 32.

Lemma below_batch B ctx idx : 0 < B -> below_4g B ctx idx ->
  0 <= base_offset ctx + idx * B /\ base_offset ctx + idx * B + B <= 4294967296.
Proof. intros HB (Hi&Hb&Hlim). assert (0 <= idx * B) by nia. lia. Qed.

Lemma window_ok B : 0 < B ->
  @BackendOk (Z -> Z) (SimWindow.backend B) B (below_4g B).
Proof.
  intros HB. split.
  - intros ctx idx buf d d' r a Hv Hl E Ha. destruct (below_batch _ _ _ HB Hv) as [Hb Hlim]. cbn in *.
    unfold SimWindow.jw_backend_write in E. injection E as <- <-.
    rewrite u32_small, copy_spec by lia. unfold in_batch in Ha.
    by replace (_ && _) with false by lia.
  - intros ctx idx buf d d' a Hv Hl E Ha. destruct (below_batch _ _ _ HB Hv) as [Hb Hlim]. cbn in *.
    unfold SimWindow.jw_backend_write in E. injection E as <-.
    rewrite u32_small, copy_spec by lia. unfold in_batch in Ha.
    replace (_ && _) with true by lia. done.
Qed.

(** *** The Mac driver path *)

Module MacDriver.
Section Driver.
(** The [_Write] trap: request of [len] bytes at a byte offset for a given
    reference and drive number, with the buffer; its result is [ioResult]. *)
Context (D : Type) (trap_Write : Z -> Z -> Z -> list Z -> D -> D * Z).

(** [driver_write_chunk]: the parameter block is cleared and given the
    reference and drive numbers, the buffer, the count, [fsFromStart] and the
    offset; the fields that vary are the trap's arguments here. *)
Definition driver_write_chunk (ctx : JwCtx) (byte_off : Z) (buf : list Z) (len : Z)
    (d : D) : D * Z :=
  trap_Write (refnum ctx) (drive ctx) byte_off (take (Z.to_nat len) buf) d.

(** [driver_write_sector]: slices of at most 16 KB until the first error. *)
Fixpoint write_slices (fuel : nat) (B : Z) (ctx : JwCtx) (base off : Z) (buf : list Z)
    (d : D) : D * Z :=
  match fuel with
  | O => (d, 0)
  | S fuel =>
      if off <? B then
        let len := if B - off >? 16384 then 16384 else B - off in
        let '(d, r) := driver_write_chunk ctx (u32 (base + off)) (drop (Z.to_nat off) buf) len d in
        if negb (r =? 0) then (d, r)
        else write_slices fuel B ctx base (off + len) buf d
      else (d, 0)
  end.
Definition driver_write_sector (B : Z) (ctx : JwCtx) (sector_idx : Z) (buf : list Z)
    (d : D) : D * Z :=
  write_slices (Z.to_nat B) B ctx (u32 (base_offset ctx + sector_idx * B)) 0 buf d.

Definition backend (B : Z) (view : D -> Z -> Z) : Backend D :=
  {| backend_write := driver_write_sector B; byte_of := view |}.
End Driver.
End MacDriver.

Section Mac.
(** What the Device Manager documents for [_Write]: a request that returns
    [noErr] has stored the buffer at the offset, and a failing one has
    changed at most the requested bytes. *)
Context {D : Type} (trap_Write : Z -> Z -> Z -> list Z -> D -> D * Z) (view : D -> Z -> Z).
Context (Hstore : forall rn dr off buf d x, (trap_Write rn dr off buf d).2 = 0 ->
  view (trap_Write rn dr off buf d).1 x = poke (view d) off buf x).
Context (Helse : forall rn dr off buf d x,
  x < off \/ off + Z.of_nat (length buf) <= x ->
  view (trap_Write rn dr off buf d).1 x = view d x).

Lemma slices_spec B c base buf fuel off d d' r :
  0 <= off <= B -> Z.of_nat (length buf) = B -> 0 <= base -> base + B <= 2 ^ 32 ->
  (Z.to_nat (B - off) <= fuel)%nat ->
  MacDriver.write_slices D trap_Write fuel B c base off buf d = (d', r) ->
  (forall x, x < base + off \/ base + B <= x -> view d' x = view d x) /\
  (r = 0 -> forall x, base + off <= x < base + B -> view d' x = nth (Z.to_nat (x - base)) buf 0).
Proof.
  revert off d. induction fuel as [|fuel IH]; intros off d Ho Hl Hb Hlim Hf E.
  { injection E as <- <-. split; [done|]. lia. }
  cbn [MacDriver.write_slices] in E. destruct (Z.ltb_spec off B) as [Hlt|Hge].
  2: { injection E as <- <-. split; [done|]. lia. }
  set (n := if B - off >? 16384 then 16384 else B - off) in *.
  assert (Hn : 0 < n /\ n <= B - off) by (unfold n; destruct (Z.gtb_spec (B - off) 16384); lia).
  clearbody n. rewrite u32_small in E by lia. unfold MacDriver.driver_write_chunk in E.
  set (sl := take (Z.to_nat n) (drop (Z.to_nat off) buf)) in *.
  assert (Hsl : Z.of_nat (length sl) = n)
    by (unfold sl; rewrite length_take, length_drop; lia).
  pose proof (Hstore (refnum c) (drive c) (base + off) sl d) as H1.
  pose proof (Helse (refnum c) (drive c) (base + off) sl d) as H2.
  destruct (trap_Write _ _ _ _ d) as [d1 r1]. cbn in H1, H2, E.
  destruct (Z.eqb_spec r1 0) as [Hr1|Hne]; [rewrite Hr1 in *|].
  - cbn in E. destruct (IH (off + n) d1) as [A1 A2]; [lia|done..|lia|exact E|].
    split.
    + intros x Hx. rewrite A1 by lia. apply H2. lia.
    + intros Hr x Hx. destruct (Z.lt_ge_cases x (base + (off + n))).
      * rewrite A1 by lia. rewrite H1, poke_in by (done || lia).
        unfold sl. rewrite !nth_lookup, lookup_take_lt by lia.
        rewrite lookup_drop. do 2 f_equal. lia.
      * apply A2; [done|lia].
  - cbn in E. injection E as <- <-. split; [|done]. intros x Hx. apply H2. lia.
Qed.

(** The sliced driver write is a write of the whole batch. *)
Lemma mac_ok B : 0 < B ->
  @BackendOk D (MacDriver.backend D trap_Write B view) B (below_4g B).
Proof.
  intros HB. split.
  - intros ctx idx buf d d' r a Hv Hl E Ha. destruct (below_batch _ _ _ HB Hv) as [Hb Hlim]. cbn in *.
    unfold MacDriver.driver_write_sector in E. rewrite u32_small in E by lia.
    destruct (slices_spec B ctx (base_offset ctx + idx * B) buf (Z.to_nat B) 0 d d' r
      ltac:(lia) Hl ltac:(lia) ltac:(lia) ltac:(lia) E) as [A1 _].
    apply A1. unfold in_batch in Ha. lia.
  - intros ctx idx buf d d' a Hv Hl E Ha. destruct (below_batch _ _ _ HB Hv) as [Hb Hlim]. cbn in *.
    unfold MacDriver.driver_write_sector in E. rewrite u32_small in E by lia.
    destruct (slices_spec B ctx (base_offset ctx + idx * B) buf (Z.to_nat B) 0 d d' 0
      ltac:(lia) Hl ltac:(lia) ltac:(lia) ltac:(lia) E) as [_ A2].
    apply A2; [done|]. unfold in_batch in Ha. lia.
Qed.
End Mac.

(** *** The Amiga trackdisk path ([amiga/jsonl_trackdisk.c]) *)

Module Trackdisk.
Definition CMD_WRITE : Z := 3.
Definition CMD_UPDATE : Z := 4.
Section Device.
(** [DoIO] with the request's command, data, length and offset; the result
    is [io_Error] as a signed byte. *)
Context (D : Type) (do_io : Z -> list Z -> Z -> Z -> D -> D * Z).

(** [jw_backend_write] without the switches of vectors, interrupts and
    privilege around it. *)
Definition jw_backend_write (B : Z) (ctx : JwCtx) (batch_idx : Z) (buf : list Z)
    (d : D) : D * Z :=
  let off := u32 (base_offset ctx + batch_idx * B) in
  let '(d, err) := do_io CMD_WRITE buf B off d in
  if err =? 0 then do_io CMD_UPDATE buf 0 off d else (d, err).
Definition backend (B : Z) (view : D -> Z -> Z) : Backend D :=
  {| backend_write := jw_backend_write B; byte_of := view |}.
(** [amiga_diag_marker]: the buffer is the tag, big-endian, repeated. *)
Definition g_diag_buf (tag : Z) : list Z :=
  mjoin (replicate 128 [u8 (tag >>> 24); u8 (tag >>> 16); u8 (tag >>> 8); u8 tag]).
Definition amiga_diag_marker (slot tag : Z) (d : D) : D :=
  let off := u32 (0xD8000 + slot * 0x200) in
  let '(d, _) := do_io CMD_WRITE (g_diag_buf tag) 512 off d in
  (do_io CMD_UPDATE (g_diag_buf tag) 0 off d).1.
End Device.
End Trackdisk.

Section Amiga.
(** What trackdisk.device documents: a successful write has stored the data
    and a failing one has changed nothing else; an update flushes the track
    buffer and changes no data. *)
Context {D : Type} (do_io : Z -> list Z -> Z -> Z -> D -> D * Z) (view : D -> Z -> Z).
Context (Hwrite : forall buf len off d x, (do_io Trackdisk.CMD_WRITE buf len off d).2 = 0 ->
  view (do_io Trackdisk.CMD_WRITE buf len off d).1 x = poke (view d) off (take (Z.to_nat len) buf) x).
Context (Helse : forall buf len off d x, x < off \/ off + len <= x ->
  view (do_io Trackdisk.CMD_WRITE buf len off d).1 x = view d x).
Context (Hupdate : forall buf len off d x,
  view (do_io Trackdisk.CMD_UPDATE buf len off d).1 x = view d x).

Lemma trackdisk_ok B : 0 < B ->
  @BackendOk D (Trackdisk.backend D do_io B view) B (below_4g B).
Proof.
  intros HB.
  assert (U : forall buf off d d' r x, do_io Trackdisk.CMD_UPDATE buf 0 off d = (d', r) ->
    view d' x = view d x)
    by (intros buf off d d' r x E; specialize (Hupdate buf 0 off d x); by rewrite E in Hupdate).
  split.
  - intros ctx idx buf d d' r a Hv Hl E Ha. destruct (below_batch _ _ _ HB Hv) as [Hb Hlim]. cbn in *.
    unfold Trackdisk.jw_backend_write in E. rewrite u32_small in E by lia.
    pose proof (Helse buf B (base_offset ctx + idx * B) d a) as H1.
    destruct (do_io _ buf B _ d) as [d1 r1]. cbn in H1.
    unfold in_batch in Ha. destruct (r1 =? 0).
    + rewrite (U _ _ _ _ _ _ E). apply H1. lia.
    + injection E as <- <-. apply H1. lia.
  - intros ctx idx buf d d' a Hv Hl E Ha. destruct (below_batch _ _ _ HB Hv) as [Hb Hlim]. cbn in *.
    unfold Trackdisk.jw_backend_write in E. rewrite u32_small in E by lia.
    pose proof (Hwrite buf B (base_offset ctx + idx * B) d a) as H1.
    destruct (do_io _ buf B _ d) as [d1 r1]. cbn in H1. unfold in_batch in Ha.
    destruct (Z.eqb_spec r1 0) as [Hr1|Hne]; [rewrite Hr1 in *|congruence].
    rewrite (U _ _ _ _ _ _ E), H1 by done.
    rewrite take_ge by lia. rewrite poke_in by lia. f_equal.
Qed.
End Amiga.

(** ** Properties *)

(** C4: on any medium that keeps the backend contract, when every batch
    write succeeds, committing after any sequence of characters and commits
    makes every character accepted so far (the first [max_bytes]) durable at
    its place, with zeros up to the end of the batch and nothing else on the
    medium changed. *)
Theorem jw_commit_durable (B : Z) (HB : 0 < B) (D : Type) (HD : Backend D)
    (valid : JwCtx -> Z -> Prop) (Hok : BackendOk D B valid) (c : JwCtx)
    (Hmax : 0 <= max_bytes c /\ max_bytes c + B < 2 ^ 32)
    (Hvalid : forall idx, 0 <= idx < batches_end B (max_bytes c) / B -> valid c idx)
    (Hgood : forall idx buf d, valid c idx -> (backend_write c idx buf d).2 = 0)
    (os : list Op) (d0 : D) :
  let d := (apply_ops B (jw_init B c, d0) (os ++ [Commit])).2 in
  let l := kept c os in
  let n := Z.of_nat (length l) in
  (forall i, (i < length l)%nat -> byte_of d (base_offset c + Z.of_nat i) = nth i l 0) /\
  (forall a, base_offset c + n <= a < base_offset c + batches_end B n -> byte_of d a = 0) /\
  (forall a, a < base_offset c \/ base_offset c + batches_end B n <= a ->
     byte_of d a = byte_of d0 a).
Proof.
  destruct (commit_persists B HB c valid Hok Hvalid Hmax d0 os) as [Hm (P1 & P2 & P3)].
  apply (from_medium_good c valid _ Hgood) in Hm. auto.
Qed.

Lemma jw_commit_durable_witness :
  let c := mkCtx (-33) 1 1000 40 in
  let H := SimWindow.backend 16 in
  let os := Put <$> bytes_of "{ 'frame': 1 }, { 'frame': 22 }" in
  let d := (apply_ops 16 (jw_init 16 c, fun _ => 7) (os ++ [Commit])).2 in
  let l := kept c os in
  (forall i, (i < length l)%nat -> byte_of d (1000 + Z.of_nat i) = nth i l 0) /\
  (forall a, 1000 + 31 <= a < 1000 + 32 -> byte_of d a = 0) /\
  (forall a, a < 1000 \/ 1000 + 32 <= a -> byte_of d a = 7).
Proof.
  apply (jw_commit_durable 16 ltac:(lia) (Z -> Z) (SimWindow.backend 16) (below_4g 16)
    (window_ok 16 ltac:(lia)) (mkCtx (-33) 1 1000 40)).
  - split; reflexivity || discriminate.
  - intros idx Hi. change (batches_end 16 _ / 16) with 3 in Hi.
    unfold below_4g. cbn [base_offset]. lia.
  - reflexivity.
Defined.



(** C8: where the driver's [_Write] stores what it is asked to, the Mac path
    that slices a batch into requests of at most 16 KB refines the backend
    contract, whatever the batch size. *)
Theorem jw_mac_driver_refines (D : Type)
    (trap_Write : Z -> Z -> Z -> list Z -> D -> D * Z) (view : D -> Z -> Z)
    (Hstore : forall rn dr off buf d x, (trap_Write rn dr off buf d).2 = 0 ->
       view (trap_Write rn dr off buf d).1 x = poke (view d) off buf x)
    (Helse : forall rn dr off buf d x, x < off \/ off + Z.of_nat (length buf) <= x ->
       view (trap_Write rn dr off buf d).1 x = view d x)
    (B : Z) (HB : 0 < B) :
  @BackendOk D (MacDriver.backend D trap_Write B view) B (below_4g B).
Proof. by apply mac_ok. Qed.

Lemma jw_mac_driver_refines_witness :
  @BackendOk (Z -> Z)
    (MacDriver.backend (Z -> Z) (fun _ _ off buf d => (poke d off buf, 0)) 49152 (fun d => d))
    49152 (below_4g 49152).
Proof.
  apply (jw_mac_driver_refines (Z -> Z) (fun _ _ off buf d => (poke d off buf, 0)) (fun d => d)).
  - reflexivity.
  - intros rn dr off buf d x Hx. cbn. by apply poke_out.
  - lia.
Defined.

(** C18: [f_putul] prints any 32-bit value as a decimal numeral of at most
    ten digits that reads back to it, without leading zeros. *)
Theorem f_putul_roundtrip (v : Z) (Hv : 0 <= v < 2 ^ 32) :
  undec (f_putul v) = v /\ (1 <= length (f_putul v) <= 10)%nat /\
  Forall (fun d => 48 <= d < 58) (f_putul v) /\
  (hd 48 (f_putul v) = 48 -> f_putul v = [48]).
Proof.
  rewrite f_putul_dec by done.
  destruct (dec_bytes_spec v) as (A1&A2&A3&A4); [lia|].
  pose proof (dec_bytes_length v 10 ltac:(change (Z.of_nat 10) with 10; lia) ltac:(lia)).
  repeat split; (done || lia).
Qed.

Lemma f_putul_roundtrip_witness :
  undec (f_putul 4294967295) = 4294967295 /\ (1 <= length (f_putul 4294967295) <= 10)%nat /\
  Forall (fun d => 48 <= d < 58) (f_putul 4294967295) /\
  (hd 48 (f_putul 4294967295) = 48 -> f_putul 4294967295 = [48]).
Proof. apply (f_putul_roundtrip 4294967295). lia. Defined.
