(* ===== verification/FlineDisasm.v ===== *)
(** * FlineDisasm: the F-line pretty-printer and the CIR bus driver

    [SingleStepTests/fpu/fline_disasm.h] (namespace [fline]) and the bus
    driver and smoke table of [SingleStepTests/fpu/sim_main.cpp].  The
    printed line is a [string]; [snprintf] truncates to its buffer.  The
    Verilated FPU is a parameter of the bus driver. *)

From S2P Require Import Prelude CText.
From Stdlib Require Import Ascii.
#[local] Open Scope string_scope.
#[local] Open Scope list_scope.
#[local] Open Scope Z_scope.
#[local] Open Scope c_scope.

Module fline.

Definition gen_mnem (op7 : Z) : option string :=
  match op7 with
  | 0x00 => Some "FMOVE"
  | 0x01 => Some "FINT"
  | 0x02 => Some "FSINH"
  | 0x03 => Some "FINTRZ"
  | 0x04 => Some "FSQRT"
  | 0x06 => Some "FLOGNP1"
  | 0x08 => Some "FETOXM1"
  | 0x09 => Some "FTANH"
  | 0x0A => Some "FATAN"
  | 0x0C => Some "FASIN"
  | 0x0D => Some "FATANH"
  | 0x0E => Some "FSIN"
  | 0x0F => Some "FTAN"
  | 0x10 => Some "FETOX"
  | 0x11 => Some "FTWOTOX"
  | 0x12 => Some "FTENTOX"
  | 0x14 => Some "FLOGN"
  | 0x15 => Some "FLOG10"
  | 0x16 => Some "FLOG2"
  | 0x18 => Some "FABS"
  | 0x19 => Some "FCOSH"
  | 0x1A => Some "FNEG"
  | 0x1C => Some "FACOS"
  | 0x1D => Some "FCOS"
  | 0x1E => Some "FGETEXP"
  | 0x1F => Some "FGETMAN"
  | 0x20 => Some "FDIV"
  | 0x21 => Some "FMOD"
  | 0x22 => Some "FADD"
  | 0x23 => Some "FMUL"
  | 0x24 => Some "FSGLDIV"
  | 0x25 => Some "FREM"
  | 0x26 => Some "FSCALE"
  | 0x27 => Some "FSGLMUL"
  | 0x28 => Some "FSUB"
  | 0x38 => Some "FCMP"
  | 0x3A => Some "FTST"
  | _ => if (op7 &&& 0x78) =? 0x30 then Some "FSINCOS" else None
  end.

Definition fmt_letter (spec : Z) : ascii :=
  match String.get (Z.to_nat (spec &&& 7)) "LSXPWDB?" with
  | Some c => c
  | None => "?"%char
  end.

Definition cc_tab : list string :=
  ["F"; "EQ"; "OGT"; "OGE"; "OLT"; "OLE"; "OGL"; "OR";
   "UN"; "UEQ"; "UGT"; "UGE"; "ULT"; "ULE"; "NE"; "T";
   "SF"; "SEQ"; "GT"; "GE"; "LT"; "LE"; "GL"; "GLE";
   "NGLE"; "NGL"; "NLE"; "NLT"; "NGE"; "NGT"; "SNE"; "ST"].
Definition cc_mnem (cc : Z) : string := nth (Z.to_nat (cc &&& 31)) cc_tab "".

(** [ea_str] without the truncation to the caller's buffer. *)
Definition ea_text (mode reg : Z) : string :=
  match mode with
  | 0 => "D" +:+ dec reg
  | 1 => "A" +:+ dec reg
  | 2 => "(A" +:+ dec reg +:+ ")"
  | 3 => "(A" +:+ dec reg +:+ ")+"
  | 4 => "-(A" +:+ dec reg +:+ ")"
  | 5 => "d16(A" +:+ dec reg +:+ ")"
  | 6 => "d8(A" +:+ dec reg +:+ ",Xn)"
  | 7 =>
      match reg with
      | 0 => "(xxx).W"
      | 1 => "(xxx).L"
      | 2 => "d16(PC)"
      | 3 => "d8(PC,Xn)"
      | 4 => "#imm"
      | _ => "(7," +:+ dec reg +:+ "?)"
      end
  | _ => "(?," +:+ dec mode +:+ ")"
  end.
Definition ea_str (mode reg : Z) (n : nat) : string := snprintf n (ea_text mode reg).

Definition chars (c : ascii) : string := String c EmptyString.
Definition mnem (op7 : Z) : string :=
  match gen_mnem op7 with Some m => m | None => "FxOP" end.

(** The text [disasm] formats, given how effective addresses are printed. *)
Definition text (ea_str : Z -> Z -> string) (opword ext : Z) : string :=
  let cop := (opword >>> 9) &&& 7 in
  let type := (opword >>> 6) &&& 7 in
  let mode := (opword >>> 3) &&& 7 in
  let reg := opword &&& 7 in
  if negb (cop =? 1) then
    "cp" +:+ dec cop +:+ ".??? $" +:+ hex 4 opword +:+ " $" +:+ hex 4 ext
  else
    match type with
    | 0 =>
        let family := (ext >>> 13) &&& 7 in
        let src := (ext >>> 10) &&& 7 in
        let dst := (ext >>> 7) &&& 7 in
        let op7 := ext &&& 0x7F in
        match family with
        | 0 => mnem op7 +:+ ".X FP" +:+ dec src +:+ ",FP" +:+ dec dst
        | 2 => "FMOVE." +:+ chars (fmt_letter src) +:+ " FP" +:+ dec dst +:+ ","
               +:+ ea_str mode reg
        | 4 => mnem op7 +:+ "." +:+ chars (fmt_letter src) +:+ " "
               +:+ ea_str mode reg +:+ ",FP" +:+ dec dst
        | 5 => "FMOVECR #$" +:+ hex 2 (ext &&& 0x7F) +:+ ",FP" +:+ dec dst
        | 6 | 7 => "FMOVEM ext=$" +:+ hex 4 ext +:+ "," +:+ ea_str mode reg
        | _ => "cpGEN $" +:+ hex 4 opword +:+ " $" +:+ hex 4 ext
        end
    | 1 =>
        let cc := ext &&& 0x3F in
        if mode =? 1 then "FDB" +:+ cc_mnem cc +:+ " D" +:+ dec reg +:+ ",disp"
        else if (mode =? 7) && ((reg =? 2) || (reg =? 3) || (reg =? 4)) then
          "FTRAP" +:+ cc_mnem cc
        else "FS" +:+ cc_mnem cc +:+ ".B " +:+ ea_str mode reg
    | 2 => "FB" +:+ cc_mnem (opword &&& 0x3F) +:+ ".W disp=$" +:+ hex 4 ext
    | 3 => "FB" +:+ cc_mnem (opword &&& 0x3F) +:+ ".L disp_hi=$" +:+ hex 4 ext
    | 4 => "FSAVE " +:+ ea_str mode reg
    | 5 => "FRESTORE " +:+ ea_str mode reg
    | _ => "F? $" +:+ hex 4 opword +:+ " $" +:+ hex 4 ext
    end.

(** [disasm]: [buf] has 64 bytes, [ea] has 16. *)
Definition disasm (opword ext : Z) : string :=
  snprintf 64 (text (fun mode reg => ea_str mode reg 16) opword ext).

End fline.

(** ** The CIR bus driver of sim_main.cpp *)

Module CirBus.
Section Bus.
(** The Verilated FPU: its state, one [tick] under the pins, and the
    outputs. *)
Context (Fpu : Type).

Record Pins := mkPins {
  a_in : Z; size_n : Z; rw : bool; d_in : Z;
  cs_n : bool; as_n : bool; ds_n : bool; reset : bool }.
#[export] Instance eta_Pins : Eta Pins := fun p =>
  mkPins (a_in p) (size_n p) (rw p) (d_in p) (cs_n p) (as_n p) (ds_n p) (reset p).

Context (tick : Pins -> Fpu -> Fpu) (dsack0_n dsack1_n : Fpu -> bool) (d_out : Fpu -> Z).

(** The wait loop with its watchdog. *)
Fixpoint wait_ack (watchdog : nat) (p : Pins) (top : Fpu) : Fpu :=
  match watchdog with
  | O => top
  | S n => if dsack0_n top && dsack1_n top then wait_ack n p (tick p top) else top
  end.

Definition bus_cycle (p : Pins) (top : Fpu) (offset : Z) (write : bool) (size_code wdata : Z)
    : Pins * Fpu * Z :=
  let p := p <| a_in := offset &&& 0x1F |> <| size_n := size_code &&& 0x3 |>
             <| rw := negb write |> <| d_in := wdata |>
             <| cs_n := false |> <| as_n := false |> <| ds_n := false |> in
  let top := wait_ack 1000 p top in
  let result := d_out top in
  let p := p <| cs_n := true |> <| as_n := true |> <| ds_n := true |> in
  (p, tick p top, result).

(** The reset sequence of [main]. *)
Definition power_up (top : Fpu) : Pins * Fpu :=
  let p := mkPins 0 3 true 0 true true true true in
  let top := Nat.iter 32 (tick p) top in
  let p := p <| reset := false |> in
  (p, Nat.iter 8 (tick p) top).
End Bus.

(** The smoke table: operation word, extension word and label. *)
Definition cases : list (Z * Z * string) :=
  [(0xF200, 0x0080, "FMOVE.X FP0,FP1     ");
   (0xF200, 0x0022, "FADD.X  FP0,FP0     ");
   (0xF210, 0x8423, "FMUL.S  (A0),FP0    ");
   (0xF200, 0x0038, "FCMP.X  FP0,FP0     ");
   (0xF248, 0x0001, "FDBEQ   D0,disp     ");
   (0xF28E, 0x1234, "FBNE.W  disp        ");
   (0xF327, 0x0000, "FSAVE   -(A7)       ");
   (0xF35F, 0x0000, "FRESTORE (A7)+      ")].
End CirBus.

Import fline CirBus.

(** ** Lengths *)

Abbreviation slen s := (String.length s).

Lemma mnem_length op7 : 0 <= op7 < 128 -> (slen (mnem op7) <= 7)%nat.
Proof.
  intros H. apply Nat.leb_le.
  apply (forall_below (fun z => slen (mnem z) <=? 7)%nat 128); [by vm_compute|done].
Qed.

Lemma cc_length cc : (slen (cc_mnem cc) <= 4)%nat.
Proof.
  unfold cc_mnem. pose proof (low_range cc 5 ltac:(lia)) as H. change (Z.ones 5) with 31 in H.
  apply Nat.leb_le. revert H. generalize (cc &&& 31). intros z Hz.
  apply (forall_below (fun z => slen (nth (Z.to_nat z) cc_tab "") <=? 4)%nat 32);
    [by vm_compute|exact Hz].
Qed.

Lemma ea_length mode reg : 0 <= mode < 8 -> 0 <= reg < 8 -> (slen (ea_text mode reg) <= 10)%nat.
Proof.
  intros Hm Hr. apply Nat.leb_le. revert reg Hr.
  assert (H : forallb (fun m => forallb (fun r => slen (ea_text m r) <=? 10)%nat
    (Z.of_nat <$> seq 0 8)) (Z.of_nat <$> seq 0 8) = true) by (by vm_compute).
  pose proof (forall_below _ 8 H mode Hm) as H1. cbv beta in H1.
  intros reg Hr. exact (forall_below _ 8 H1 reg Hr).
Qed.

Lemma dec1_length z : 0 <= z < 8 -> (slen (dec z) <= 1)%nat.
Proof.
  intros H. apply Nat.leb_le.
  apply (forall_below (fun z => slen (dec z) <=? 1)%nat 8); [by vm_compute|done].
Qed.

(** ** Properties *)

(** C33: no line is ever cut: for every pair of words the text fits the
    64-byte buffer and the effective address its 16 bytes, so what is
    printed is the full text. *)
Theorem disasm_fits (opword ext : Z) :
  disasm opword ext = text ea_text opword ext /\
  (slen (text ea_text opword ext) < 64)%nat.
Proof.
  assert (Hlen : (slen (text ea_text opword ext) < 64)%nat).
  { unfold text.
    pose proof (field_range opword 9 3 ltac:(lia)) as Hcop.
    pose proof (field_range opword 3 3 ltac:(lia)) as Hmode.
    pose proof (low_range opword 3 ltac:(lia)) as Hreg.
    pose proof (field_range ext 10 3 ltac:(lia)) as Hsrc.
    pose proof (field_range ext 7 3 ltac:(lia)) as Hdst.
    pose proof (low_range ext 7 ltac:(lia)) as Hop.
    change (Z.ones 3) with 7 in *. change (Z.ones 7) with 0x7F in *.
    change (2 ^ 3) with 8 in *. change (2 ^ 7) with 128 in *.
    pose proof (dec1_length _ Hcop). pose proof (dec1_length _ Hreg).
    pose proof (dec1_length _ Hsrc). pose proof (dec1_length _ Hdst).
    pose proof (mnem_length _ Hop). pose proof (ea_length _ _ Hmode Hreg).
    pose proof (cc_length (ext &&& 0x3F)). pose proof (cc_length (opword &&& 0x3F)).
    cases; rewrite ?string_app_length, ?hex_length; cbn [String.length chars]; lia. }
  split; [|done].
  unfold disasm. rewrite <- (snprintf_fits 64 (text ea_text opword ext)) by done.
  f_equal. unfold text.
  assert (E : ea_str ((opword >>> 3) &&& 7) (opword &&& 7) 16 =
    ea_text ((opword >>> 3) &&& 7) (opword &&& 7)).
  { unfold ea_str. apply snprintf_fits.
    pose proof (field_range opword 3 3 ltac:(lia)) as Hmode.
    pose proof (low_range opword 3 ltac:(lia)) as Hreg.
    pose proof (ea_length _ _ Hmode Hreg). change (Z.ones 3) with 7 in *. lia. }
  cbv beta zeta. rewrite !E. done.
Qed.

(** A line without its blanks. *)
Definition unspaced (s : string) : list Z := List.filter (fun b => negb (b =? 32)) (bytes_of s).

(** For the smoke table of the harness the printed line is the label, up to
    blanks (the branch goes on with its displacement). *)
Example smoke_labels :
  map (fun c => bool_decide (unspaced c.2 `prefix_of` unspaced (disasm c.1.1 c.1.2))) cases =
    replicate 8 true /\
  map (fun c => bool_decide (unspaced c.2 = unspaced (disasm c.1.1 c.1.2))) cases =
    [true; true; true; true; true; false; true; true].
Proof. split; vm_compute; reflexivity. Qed.

(** The opmodes with a mnemonic of their own: FSINCOS takes eight. *)
Definition distinct_op (op7 : Z) : bool :=
  match gen_mnem op7 with Some _ => negb ((op7 &&& 0x78) =? 0x30) | None => false end.

(** The register-register instructions of an opmode, source and destination. *)
Definition reg_ext (op7 src dst : Z) : Z := ((src <<< 10) ||| (dst <<< 7)) ||| op7.

(** Reads a printed register-register line back, by the mnemonic table and the
    fixed places of the two digits. *)
Fixpoint find_op (n : nat) (m : string) : option Z :=
  match n with
  | O => None
  | S n =>
      if distinct_op (Z.of_nat n) then
        if String.eqb (mnem (Z.of_nat n)) m then Some (Z.of_nat n) else find_op n m
      else find_op n m
  end.
Definition digit_at (s : string) (i : nat) : Z :=
  match String.get i s with Some c => ord c - 48 | None => 0 end.
Definition undisasm (s : string) : option (Z * Z * Z) :=
  let k := (String.length s - 10)%nat in     (* ".X FPs,FPd" *)
  match find_op 128 (String.substring 0 k s) with
  | Some op => Some (op, digit_at s (k + 5), digit_at s (k + 9))
  | None => None
  end.

Lemma undisasm_all :
  forallb (fun z => let op := z / 64 in let s := (z / 8) mod 8 in let d := z mod 8 in
    if distinct_op op
    then bool_decide (undisasm (disasm 0xF200 (reg_ext op s d)) = Some (op, s, d)) else true)
    (Z.of_nat <$> seq 0 (64 * 128)) = true.
Proof. vm_compute. reflexivity. Qed.

(** C34: a register-register instruction is printed without loss: for every
    opmode that has a mnemonic of its own and all registers, the opmode and
    both registers are read back from the printed line, so no two such
    instructions print the same. *)
Theorem disasm_reg_roundtrip (op7 src dst : Z) :
  0 <= op7 < 128 -> distinct_op op7 = true -> 0 <= src < 8 -> 0 <= dst < 8 ->
  undisasm (disasm 0xF200 (reg_ext op7 src dst)) = Some (op7, src, dst).
Proof.
  intros Ho Hn Hs Hd.
  pose proof (forall_below _ (64 * 128) undisasm_all (op7 * 64 + src * 8 + dst) ltac:(simpl Z.of_nat; lia)) as H.
  cbv beta zeta in H.
  replace ((op7 * 64 + src * 8 + dst) / 64) with op7 in H by dlia.
  replace ((op7 * 64 + src * 8 + dst) / 8 mod 8) with src in H by dlia.
  replace ((op7 * 64 + src * 8 + dst) mod 8) with dst in H by dlia.
  rewrite Hn in H. by apply bool_decide_eq_true in H.
Qed.

Lemma disasm_reg_roundtrip_witness :
  disasm 0xF200 (reg_ext 0x22 3 5) = "FADD.X FP3,FP5"%string /\
  undisasm "FADD.X FP3,FP5" = Some (0x22, 3, 5).
Proof.
  assert (H : 0 <= 0x22 < 128 /\ 0 <= 3 < 8 /\ 0 <= 5 < 8) by lia.
  destruct H as (H1 & H2 & H3). split; [reflexivity|].
  exact (disasm_reg_roundtrip 0x22 3 5 H1 eq_refl H2 H3).
Defined.

Section BusFacts.
Context (Fpu : Type) (tick : Pins -> Fpu -> Fpu) (dsack0_n dsack1_n : Fpu -> bool)
  (d_out : Fpu -> Z).

Lemma wait_ack_spec n p top :
  exists k, (k <= n)%nat /\ wait_ack Fpu tick dsack0_n dsack1_n n p top = Nat.iter k (tick p) top /\
    (forall j, (j < k)%nat -> dsack0_n (Nat.iter j (tick p) top) = true /\
                              dsack1_n (Nat.iter j (tick p) top) = true) /\
    ((k < n)%nat -> dsack0_n (Nat.iter k (tick p) top) && dsack1_n (Nat.iter k (tick p) top) = false).
Proof.
  revert top. induction n as [|n IH]; intros top.
  { exists 0%nat. repeat split; lia. }
  cbn [wait_ack]. destruct (dsack0_n top && dsack1_n top) eqn:E.
  - destruct (IH (tick p top)) as (k&Hk&He&Hb&Ha). exists (S k).
    assert (S_iter : forall j, Nat.iter (S j) (tick p) top = Nat.iter j (tick p) (tick p top))
      by (intros j; apply Nat.iter_succ_r).
    rewrite S_iter. split; [lia|]. split; [done|]. split.
    + intros [|j] Hj; [by apply andb_true_iff in E|]. rewrite S_iter. apply Hb. lia.
    + intros Hlt. apply Ha. lia.
  - exists 0%nat. repeat split; (lia || done).
Qed.

(** C35: a CIR access ends: it takes the data of the first clock in which the
    device acknowledges, or of the thousandth if it does not, then releases
    the strobes for one clock. *)
Theorem bus_cycle_ends (p : Pins) (top : Fpu) (offset size_code wdata : Z) (write : bool) :
  exists k p1, (k <= 1000)%nat /\
    bus_cycle Fpu tick dsack0_n dsack1_n d_out p top offset write size_code wdata =
      (p1 <| cs_n := true |> <| as_n := true |> <| ds_n := true |>,
       tick (p1 <| cs_n := true |> <| as_n := true |> <| ds_n := true |>)
         (Nat.iter k (tick p1) top),
       d_out (Nat.iter k (tick p1) top)) /\
    cs_n p1 = false /\ as_n p1 = false /\ ds_n p1 = false /\ rw p1 = negb write /\
    (forall j, (j < k)%nat -> dsack0_n (Nat.iter j (tick p1) top) = true /\
                              dsack1_n (Nat.iter j (tick p1) top) = true) /\
    ((k < 1000)%nat ->
       dsack0_n (Nat.iter k (tick p1) top) && dsack1_n (Nat.iter k (tick p1) top) = false).
Proof.
  unfold bus_cycle. set (p1 := p <| a_in := _ |> <| size_n := _ |> <| rw := _ |>
    <| d_in := wdata |> <| cs_n := false |> <| as_n := false |> <| ds_n := false |>).
  destruct (wait_ack_spec 1000 p1 top) as (k&Hk&->&Hb&Ha).
  exists k, p1. by repeat split; try apply Hb.
Qed.
End BusFacts.
