(* ===== verification/GenFpu.v ===== *)
(** * GenFpu: the FPU test corpus generator

    [SingleStepTests/gen/gen_fpu.c]: a seeded generator of test rows, each a
    68040 program with the register and value the bench must find after it
    halts.  The random number generator is the state of a small monad; the
    rejection loops run on fuel ([None] when it ends).  Rows are records,
    printed by [emit_row] as the program prints them. *)

From S2P Require Import Prelude CText.
From Stdlib Require Import Ascii.
#[local] Open Scope string_scope.
#[local] Open Scope list_scope.
#[local] Open Scope Z_scope.
#[local] Open Scope c_scope.

Module GenFpu.

(** ** The generator's state *)

(** [r32]: xorshift32 on [g_rng]. *)
Definition r32_step (x : Z) : Z :=
  let x := u32 (x ^^^ u32 (x <<< 13)) in
  let x := x ^^^ (x >>> 17) in
  u32 (x ^^^ u32 (x <<< 5)).

(** A computation on the generator state that may not end. *)
Definition Gen (A : Type) : Type := Z -> option (A * Z).
Definition ret {A} (a : A) : Gen A := fun g => Some (a, g).
Definition bind {A B} (m : Gen A) (k : A -> Gen B) : Gen B :=
  fun g => match m g with Some (a, g) => k a g | None => None end.
Notation "'let*' x := m 'in' k" := (bind m (fun x => k))
  (at level 10, x name, m at level 200, k at level 200).
Notation "'let**' p := m 'in' k" := (bind m (fun x => match x with p => k end))
  (at level 10, p pattern, m at level 200, k at level 200).

Definition r32 : Gen Z := fun g => let x := r32_step g in Some (x, x).

Definition r_moveq : Gen Z := let* x := r32 in ret (i8 (x &&& 0xFF)).
Definition r_moveq_lim (limit : Z) : Gen Z :=
  let* x := r32 in
  let v := i8 (x mod u32 (2 * limit + 1)) in
  ret (i8 (v - i8 limit)).

Definition pick_fp : Gen Z := let* x := r32 in ret (x &&& 7).
Definition pick_result_reg : Gen Z := let* x := r32 in ret (1 + x mod 7).

(** ** Encodings *)

Definition OPMODE_FADD : Z := 0x22.
Definition OPMODE_FSUB : Z := 0x28.
Definition OPMODE_FMUL : Z := 0x23.
Definition OPMODE_FDIV : Z := 0x20.
Definition OPMODE_FSQRT : Z := 0x04.
Definition OPMODE_FNEG : Z := 0x1A.
Definition OPMODE_FABS : Z := 0x18.
Definition OPMODE_FINT : Z := 0x01.
Definition OPMODE_FINTRZ : Z := 0x03.
(** The opmodes the 68040 leaves to software, by name. *)
Definition UNIMPL_DYADIC : list (string * Z) :=
  [("FMOD", 0x21); ("FREM", 0x25); ("FSCALE", 0x26); ("FSGLMUL", 0x27); ("FSGLDIV", 0x24)].
Definition UNIMPL_MONADIC : list (string * Z) :=
  [("FGETEXP", 0x1E); ("FGETMAN", 0x1F); ("FSIN", 0x0E); ("FCOS", 0x1D); ("FTAN", 0x0F);
   ("FATAN", 0x0A); ("FASIN", 0x0C); ("FACOS", 0x1C); ("FETOX", 0x10); ("FETOXM1", 0x08);
   ("FTWOTOX", 0x11); ("FTENTOX", 0x12); ("FLOGN", 0x14); ("FLOGNP1", 0x06);
   ("FLOG10", 0x15); ("FLOG2", 0x16); ("FSINH", 0x02); ("FCOSH", 0x19); ("FTANH", 0x09);
   ("FATANH", 0x0D)].
Definition FP_UNIMP_VECTOR : Z := 11.

Definition FMT_L : Z := 0.
Definition FMT_S : Z := 1.
Definition FMT_X : Z := 2.
Definition FMT_W : Z := 4.
Definition FMT_B : Z := 6.

Definition ext_monadic_fp (fp opmode : Z) : Z :=
  u16 (((fp &&& 7) <<< 10) ||| ((fp &&& 7) <<< 7) ||| opmode).
Definition ext_dyadic (fpm_src fpn_dst opmode : Z) : Z :=
  u16 (((fpm_src &&& 7) <<< 10) ||| ((fpn_dst &&& 7) <<< 7) ||| opmode).
Definition moveq_d0 (imm : Z) : Z := u16 (0x7000 ||| u8 imm).
Definition MOVE_L_IMM_D0 : Z := 0x203C.
Definition fmove_size_d0_fpn (n fmt : Z) : Z :=
  u16 (0x4000 ||| ((fmt &&& 7) <<< 10) ||| ((n &&& 7) <<< 7)).
Definition fmove_l_fpn_dn_opw (n : Z) : Z := u16 (0xF200 ||| (n &&& 7)).
(** [0x7000 | (reg & 7) << 9 | imm]. *)
Definition moveq_dn (reg imm : Z) : Z := u16 (0x7000 ||| ((reg &&& 7) <<< 9) ||| imm).

(** [int_to_ieee_single]: the bits of [(float)n], exact below [2 ^ 24]. *)
Definition int_to_ieee_single (n : Z) : Z :=
  if n =? 0 then 0
  else
    let sign := if n <? 0 then 1 else 0 in
    let mag := Z.abs n in
    let e := Z.log2 mag in
    (sign <<< 31) ||| ((127 + e) <<< 23) ||| ((mag - 2 ^ e) <<< (23 - e)).

(** The [BW] macro: a word as two bytes. *)
Definition BW (w : Z) : list Z := [(w >>> 8) &&& 0xFF; w &&& 0xFF].
Definition bytes_of_words (ws : list Z) : list Z := mjoin (BW <$> ws).

(** ** Rows *)

(** [test_t]; [expected] and the trap fields belong to the row. *)
Record test_t := mkTest {
  has_b : bool; op_a : Z; op_b : Z; dst_fp : Z; src_fp : Z; opmode : Z;
  load_fmt : Z; result_reg : Z; expected : Z; traps : bool; exc_vec : Z }.

Inductive Style := Clean (traps : bool) (exc_vec : Z) | Custom.
Record Row := mkRow {
  row_name : string; row_a : Z; row_b : option Z; row_program : list Z;
  row_reg : Z; row_expected : Z; row_style : Style }.

(** The words that load an operand into an FP register. *)
Definition load_words (fmt op fp : Z) : list Z :=
  (if fmt =? FMT_S then
     let bits := u32 (int_to_ieee_single op) in
     [MOVE_L_IMM_D0; u16 (bits >>> 16); u16 (bits &&& 0xFFFF)]
   else [moveq_d0 (i8 op)]) ++ [0xF200; fmove_size_d0_fpn fp fmt].

(** [emit_program]. *)
Definition program_words (t : test_t) : list Z :=
  load_words (load_fmt t) (op_a t) (dst_fp t) ++
  (if has_b t then load_words (load_fmt t) (op_b t) (src_fp t) else []) ++
  [0xF200;
   if has_b t then ext_dyadic (src_fp t) (dst_fp t) (opmode t)
   else ext_monadic_fp (dst_fp t) (opmode t);
   fmove_l_fpn_dn_opw (result_reg t);
   u16 (0x6000 ||| ((dst_fp t &&& 7) <<< 7));
   0x4E72; 0x2700].

Definition clean_row (nm : string) (t : test_t) : Row :=
  mkRow nm (op_a t) (if has_b t then Some (op_b t) else None)
    (bytes_of_words (program_words t)) (result_reg t) (i32 (expected t))
    (Clean (traps t) (exc_vec t)).
Definition custom_row (nm : string) (a : Z) (b : option Z) (ws : list Z) (tail : list Z)
    (rr e : Z) : Row :=
  mkRow nm a b (bytes_of_words ws ++ tail) rr e Custom.

(** ** Printing *)

Definition quote : string := String (chr 34) EmptyString.
Definition newline : string := String (chr 10) EmptyString.
Definition key (k : string) : string := "    " +:+ quote +:+ k +:+ quote +:+ ":".
Fixpoint join_comma (bs : list Z) : string :=
  match bs with
  | [] => ""
  | [b] => dec b
  | b :: bs => dec b +:+ "," +:+ join_comma bs
  end.
(** [emit_test_clean], and the same layout spelled out by the other
    generators (which print no trap fields). *)
Definition emit_row (is_first : bool) (r : Row) : string :=
  (if is_first then "" else "," +:+ newline) +:+
  "  {" +:+ newline +:+
  key "name" +:+ quote +:+ row_name r +:+ quote +:+ "," +:+ newline +:+
  key "op_a" +:+ sdec (row_a r) +:+ "," +:+
  (match row_b r with
   | Some b => quote +:+ "op_b" +:+ quote +:+ ":" +:+ sdec b +:+ ","
   | None => "" end) +:+ newline +:+
  key "program" +:+ "[" +:+ join_comma (row_program r) +:+ "]," +:+ newline +:+
  key "result_reg" +:+ sdec (row_reg r) +:+ "," +:+ newline +:+
  key "expected" +:+ sdec (row_expected r) +:+
  (match row_style r with
   | Clean true v => "," +:+ newline +:+ key "traps" +:+ "1," +:+ newline +:+
                     key "exc_vec" +:+ sdec v +:+ newline
   | Clean false _ => "," +:+ newline +:+ key "traps" +:+ "0" +:+ newline
   | Custom => newline
   end) +:+ "  }".

(** [%03d] of a small index. *)
Definition d3 (i : Z) : string :=
  String.substring 0 (3 - String.length (dec i)) "000" +:+ dec i.
Definition fp_s (n : Z) : string := "FP" +:+ sdec n.
Definition dn_s (n : Z) : string := "D" +:+ sdec n.
Definition fmt_str (fmt : Z) : string :=
  if fmt =? FMT_L then "L" else if fmt =? FMT_W then "W"
  else if fmt =? FMT_B then "B" else if fmt =? FMT_S then "S" else "?".

(** ** Conditions *)

Definition eval_cond_int (cond n m : Z) : bool :=
  let Z := n =? m in let N := n <? m in let NaN := false in
  match cond with
  | 0x00 | 0x10 => false
  | 0x0F | 0x1F => true
  | 0x01 | 0x11 => Z
  | 0x0E | 0x1E => negb Z
  | 0x02 | 0x12 => negb (NaN || Z || N)
  | 0x03 | 0x13 => Z || negb (NaN || N)
  | 0x04 | 0x14 => N && negb (NaN || Z)
  | 0x05 | 0x15 => Z || (N && negb NaN)
  | 0x06 | 0x16 => negb (NaN || Z)
  | 0x07 => negb NaN
  | 0x08 => NaN
  | 0x09 => NaN || Z
  | 0x0A => NaN || negb (Z || N)
  | 0x0B => NaN || negb N
  | 0x0C => NaN || (N && negb Z)
  | 0x0D => NaN || Z || N
  | 0x17 => negb NaN
  | 0x18 => NaN
  | 0x19 => NaN || Z
  | 0x1A => NaN || negb (N || Z)
  | 0x1B => NaN || Z || negb N
  | 0x1C => NaN || (N && negb Z)
  | 0x1D => NaN || Z || N
  | _ => false
  end.

Definition COND_NAMES : list string :=
  ["F"; "EQ"; "OGT"; "OGE"; "OLT"; "OLE"; "OGL"; "OR";
   "UN"; "UEQ"; "UGT"; "UGE"; "ULT"; "ULE"; "NE"; "T";
   "SF"; "SEQ"; "GT"; "GE"; "LT"; "LE"; "GL"; "GLE";
   "NGLE"; "NGL"; "NLE"; "NLT"; "NGE"; "NGT"; "SNE"; "ST"].
(** [CONDS_ALL]: the entry with index [ci] has code [ci]. *)
Definition CONDS_ALL (ci : Z) : Z * string := (ci, nth (Z.to_nat ci) COND_NAMES "").

(** ** Memory operands *)

(** The position of the top bit, as the search loop finds it. *)
Fixpoint top_bit (e : nat) (mag : Z) : Z :=
  match e with
  | O => 0
  | S e' => if negb ((mag &&& (1 <<< Z.of_nat e)) =? 0) then Z.of_nat e else top_bit e' mag
  end.
Definition be_bytes (n : nat) (z : Z) : list Z :=
  (fun i => u8 (z >>> (8 * (Z.of_nat n - 1 - Z.of_nat i)))) <$> seq 0 n.

Definition m68881_extended_int (v : Z) : list Z :=
  if v =? 0 then replicate 12 0
  else
    let sign := if v <? 0 then 1 else 0 in
    let mag := if v <? 0 then - v else v in
    let e := top_bit 31 mag in
    let mant64 := u64 (mag <<< (63 - e)) in
    let exp_biased := 16383 + e in
    [u8 ((sign <<< 7) ||| ((exp_biased >>> 8) &&& 0x7F)); exp_biased &&& 0xFF; 0; 0]
    ++ be_bytes 8 mant64.

Definition ieee_double_int (v : Z) : list Z :=
  if v =? 0 then replicate 8 0
  else
    let sign := if v <? 0 then 1 else 0 in
    let mag := if v <? 0 then - v else v in
    let e := top_bit 31 mag in
    let frac := u64 ((mag - (1 <<< e)) <<< (52 - e)) in
    let exp_biased := 1023 + e in
    let bits := u64 ((sign <<< 63) ||| ((exp_biased &&& 0x7FF) <<< 52)
                     ||| (frac &&& 0x000FFFFFFFFFFFFF)) in
    be_bytes 8 bits.

(** ** The generators *)

(** [for (i = 0; i < count; ++i)] collecting a row each. *)
Fixpoint for_rows (n : nat) (i : Z) (body : Z -> Gen Row) : Gen (list Row) :=
  match n with
  | O => ret []
  | S n => let* r := body i in let* rs := for_rows n (i + 1) body in ret (r :: rs)
  end.

(** A generator prints rows and returns a number of them, for [main] to add
    up.  [int gen_x(..., int count) { for (...) {...} return count; }]: *)
Definition for_count (count : nat) (body : Z -> Gen Row) : Gen (list Row * Z) :=
  let* rs := for_rows count 0 body in ret (rs, Z.of_nat count).

Section Fuel.
(** The bound on the iterations of each rejection loop. *)
Context (fuel : nat).

(** [do x = draw; while (bad x)]. *)
Fixpoint draw_until (n : nat) (draw : Gen Z) (bad : Z -> bool) : Gen Z :=
  match n with
  | O => fun _ => None
  | S n => let* x := draw in if bad x then draw_until n draw bad else ret x
  end.

(** [while (emitted < count)] with [continue] and [return emitted]: the body
    yields a row or nothing. *)
Fixpoint while_rows (n : nat) (count emitted : Z) (body : Z -> Gen (option Row))
    : Gen (list Row * Z) :=
  if emitted <? count then
    match n with
    | O => fun _ => None
    | S n =>
        let* o := body emitted in
        match o with
        | Some r =>
            let** (rs, e) := while_rows n count (emitted + 1) body in ret (r :: rs, e)
        | None => while_rows n count emitted body
        end
    end
  else ret ([], emitted).

Definition pick_two_fp : Gen (Z * Z) :=
  let* a := pick_fp in
  let* b := draw_until fuel pick_fp (fun b => b =? a) in
  ret (a, b).

Definition gen_monadic_sized (op_name : string) (opm : Z) (compute : Z -> Z) (fmt : Z)
    (count : nat) : Gen (list Row * Z) :=
  for_count count (fun i =>
    let* a := r_moveq in
    let* fp := pick_fp in
    let* rr := pick_result_reg in
    let t := mkTest false a 0 fp fp opm fmt rr (compute a) false 0 in
    let nm := op_name +:+ ".X (load." +:+ fmt_str fmt +:+ ") " +:+ fp_s fp +:+ " (#"
              +:+ sdec a +:+ ") -> " +:+ dn_s rr +:+ " #" +:+ d3 i in
    ret (clean_row (snprintf 100 nm) t)).

Definition gen_dyadic_sized (op_name : string) (opm : Z) (compute : Z -> Z -> Z)
    (limit_a limit_b fmt : Z) (count : nat) : Gen (list Row * Z) :=
  for_count count (fun i =>
    let* a := r_moveq_lim limit_a in
    let* b := r_moveq_lim limit_b in
    let** (dst, src) := pick_two_fp in
    let* rr := pick_result_reg in
    let t := mkTest true a b dst src opm fmt rr (compute a b) false 0 in
    let nm := op_name +:+ " (load." +:+ fmt_str fmt +:+ ") " +:+ fp_s src +:+ "," +:+ fp_s dst
              +:+ " (" +:+ sdec a +:+ "," +:+ sdec b +:+ ") -> " +:+ dn_s rr +:+ " #" +:+ d3 i in
    ret (clean_row (snprintf 120 nm) t)).

Definition gen_monadic op_name opm compute count :=
  gen_monadic_sized op_name opm compute FMT_L count.
Definition gen_dyadic op_name opm compute limit_a limit_b count :=
  gen_dyadic_sized op_name opm compute limit_a limit_b FMT_L count.

Definition gen_unimpl_monadic (op_name : string) (opm : Z) (count : nat) : Gen (list Row * Z) :=
  for_count count (fun i =>
    let* a := r_moveq in
    let* fp := pick_fp in
    let* rr := pick_result_reg in
    let t := mkTest false a 0 fp fp opm FMT_L rr 0 true FP_UNIMP_VECTOR in
    let nm := op_name +:+ ".X " +:+ fp_s fp +:+ " (#" +:+ sdec a
              +:+ ") -> vec11 (040 unimplemented) #" +:+ d3 i in
    ret (clean_row (snprintf 120 nm) t)).

Definition gen_unimpl_dyadic (op_name : string) (opm : Z) (count : nat) : Gen (list Row * Z) :=
  for_count count (fun i =>
    let* a := r_moveq_lim 64 in
    let* b := r_moveq_lim 64 in
    let** (dst, src) := pick_two_fp in
    let* rr := pick_result_reg in
    let t := mkTest true a b dst src opm FMT_L rr 0 true FP_UNIMP_VECTOR in
    let nm := op_name +:+ " " +:+ fp_s src +:+ "," +:+ fp_s dst +:+ " (" +:+ sdec a +:+ ","
              +:+ sdec b +:+ ") -> vec11 (040 unimplemented) #" +:+ d3 i in
    ret (clean_row (snprintf 120 nm) t)).

Definition squares : list Z := [0; 1; 4; 9; 16; 25; 36; 49; 64; 81; 100; 121].
Definition square_root (a : Z) : Z :=
  match a with
  | 0 => 0 | 1 => 1 | 4 => 2 | 9 => 3 | 16 => 4 | 25 => 5 | 36 => 6 | 49 => 7
  | 64 => 8 | 81 => 9 | 100 => 10 | 121 => 11 | _ => 0
  end.
Definition gen_fsqrt (count : nat) : Gen (list Row * Z) :=
  for_count count (fun i =>
    let a := nth (Z.to_nat (i mod 12)) squares 0 in
    let* fp := pick_fp in
    let* rr := pick_result_reg in
    let e := square_root a in
    let t := mkTest false a 0 fp fp OPMODE_FSQRT FMT_L rr e false 0 in
    let nm := "FSQRT.X " +:+ fp_s fp +:+ " (#" +:+ sdec a +:+ " -> " +:+ sdec e +:+ ") -> "
              +:+ dn_s rr +:+ " #" +:+ d3 i in
    ret (clean_row (snprintf 80 nm) t)).

Definition fdiv_trunc_words (a b dst src rr : Z) : list Z :=
  [moveq_d0 a; 0xF200; fmove_size_d0_fpn dst FMT_L;
   moveq_d0 b; 0xF200; fmove_size_d0_fpn src FMT_L;
   0xF200; ext_dyadic src dst OPMODE_FDIV;
   0xF200; ext_monadic_fp dst OPMODE_FINTRZ;
   u16 (0xF200 ||| (rr &&& 7)); u16 (0x6000 ||| ((dst &&& 7) <<< 7));
   0x4E72; 0x2700].
Definition gen_fdiv_trunc (count : Z) : Gen (list Row * Z) :=
  while_rows fuel count 0 (fun emitted =>
    let* b := r_moveq_lim 20 in
    if b =? 0 then ret None
    else
      let* a := r_moveq_lim 127 in
      let quot := Z.quot a b in
      if (quot >? 127) || (quot <? -128) then ret None
      else
        let** (dst, src) := pick_two_fp in
        let* rr := pick_result_reg in
        let nm := "FDIV+FINTRZ " +:+ fp_s src +:+ "," +:+ fp_s dst +:+ " (" +:+ sdec a +:+ "/"
                  +:+ sdec b +:+ "=" +:+ sdec quot +:+ ") -> " +:+ dn_s rr +:+ " #" +:+ d3 emitted in
        ret (Some (custom_row (snprintf 120 nm) a (Some b)
               (fdiv_trunc_words a b dst src rr) [] rr quot))).

(** [while ((s + 1) * (s + 1) <= a) s++]. *)
Fixpoint isqrt (n : nat) (s a : Z) : Z :=
  match n with
  | O => s
  | S n => if (s + 1) * (s + 1) <=? a then isqrt n (s + 1) a else s
  end.
Definition fsqrt_trunc_words (a fp rr : Z) : list Z :=
  [moveq_d0 (i8 a); 0xF200; fmove_size_d0_fpn fp FMT_L;
   0xF200; ext_monadic_fp fp OPMODE_FSQRT;
   0xF200; ext_monadic_fp fp OPMODE_FINTRZ;
   u16 (0xF200 ||| (rr &&& 7)); u16 (0x6000 ||| ((fp &&& 7) <<< 7));
   0x4E72; 0x2700].
Definition gen_fsqrt_trunc (count : Z) : Gen (list Row * Z) :=
  while_rows fuel count 0 (fun emitted =>
    let* x := r32 in
    let a := x mod 128 in
    if a =? 0 then ret None
    else
      let s := isqrt 128 0 a in
      let* fp := pick_fp in
      let* rr := pick_result_reg in
      let nm := "FSQRT+FINTRZ " +:+ fp_s fp +:+ " (sqrt(" +:+ sdec a +:+ ")=" +:+ sdec s
                +:+ ") -> " +:+ dn_s rr +:+ " #" +:+ d3 emitted in
      ret (Some (custom_row (snprintf 120 nm) a None (fsqrt_trunc_words a fp rr) [] rr s))).

Definition gen_fdiv (count : Z) : Gen (list Row * Z) :=
  while_rows fuel count 0 (fun emitted =>
    let* b := r_moveq_lim 10 in
    if b =? 0 then ret None
    else
      let* quot := r_moveq_lim 10 in
      if quot =? 0 then ret None
      else
        let a := b * quot in
        if (a <? -128) || (a >? 127) then ret None
        else
          let** (dst, src) := pick_two_fp in
          let* rr := pick_result_reg in
          let t := mkTest true a b dst src OPMODE_FDIV FMT_L rr quot false 0 in
          let nm := "FDIV " +:+ fp_s src +:+ "," +:+ fp_s dst +:+ " (" +:+ sdec a +:+ "/"
                    +:+ sdec b +:+ "=" +:+ sdec quot +:+ ") -> " +:+ dn_s rr +:+ " #" +:+ d3 emitted in
          ret (Some (clean_row (snprintf 100 nm) t))).
End Fuel.

(** [*_compute]. *)
Definition fneg_compute (a : Z) : Z := - a.
Definition fabs_compute (a : Z) : Z := if a <? 0 then - a else a.
Definition fint_compute (a : Z) : Z := a.
Definition fintrz_compute (a : Z) : Z := a.
Definition fadd_compute (a b : Z) : Z := a + b.
Definition fsub_compute (a b : Z) : Z := a - b.
Definition fmul_compute (a b : Z) : Z := a * b.

(** ** Condition tests *)

(** The loads of both operands and the compare shared by the [FCMP] rows:
    [a] into [FPra], [b] into [FPrb]. *)
Definition ext_fcmp (src dst : Z) : Z :=
  u16 (((src &&& 7) <<< 10) ||| ((dst &&& 7) <<< 7) ||| 0x38).

Definition fcmp_fscc_words (a b dst src rr cond : Z) : list Z :=
  [moveq_dn rr 0;
   moveq_d0 a; 0xF200; fmove_size_d0_fpn dst FMT_L;
   moveq_d0 b; 0xF200; fmove_size_d0_fpn src FMT_L;
   0xF200; ext_fcmp src dst;
   u16 (0xF240 ||| (rr &&& 7)); u16 cond;
   0x4E72; 0x2700].
Definition gen_fcmp_fscc (fuel count : nat) : Gen (list Row * Z) :=
  for_count count (fun i =>
    let* a := r_moveq_lim 50 in
    let* b := r_moveq_lim 50 in
    let** (dst, src) := pick_two_fp fuel in
    let* rr := pick_result_reg in
    let* x := r32 in
    let '(cond, cname) := CONDS_ALL (x mod 32) in
    let expected := eval_cond_int cond a b in
    let nm := "FCMP+FS" +:+ cname +:+ " " +:+ fp_s src +:+ "," +:+ fp_s dst +:+ " (" +:+ sdec a
              +:+ "," +:+ sdec b +:+ ") -> " +:+ dn_s rr +:+ " #" +:+ d3 i in
    ret (custom_row (snprintf 120 nm) a (Some b) (fcmp_fscc_words a b dst src rr cond) [] rr
           (if expected then 0xFF else 0x00))).

Definition ftst_fscc_words (a src rr cond : Z) : list Z :=
  [moveq_dn rr 0;
   moveq_d0 a; 0xF200; fmove_size_d0_fpn src FMT_L;
   0xF200; u16 (((src &&& 7) <<< 10) ||| 0x3A);
   u16 (0xF240 ||| (rr &&& 7)); u16 cond;
   0x4E72; 0x2700].
Definition gen_ftst_fscc (count : nat) : Gen (list Row * Z) :=
  for_count count (fun i =>
    let* a := r_moveq_lim 50 in
    let* y := r32 in
    let src := y &&& 7 in
    let* rr := pick_result_reg in
    let* x := r32 in
    let '(cond, cname) := CONDS_ALL (x mod 32) in
    let expected := eval_cond_int cond a 0 in
    let nm := "FTST+FS" +:+ cname +:+ " " +:+ fp_s src +:+ " (" +:+ sdec a
              +:+ ") -> " +:+ dn_s rr +:+ " #" +:+ d3 i in
    ret (custom_row (snprintf 120 nm) a None (ftst_fscc_words a src rr cond) [] rr
           (if expected then 0xFF else 0x00))).

(** The two branch generators differ in the branch words and the name. *)
Definition fcmp_fbcc_words (a b dst src rr : Z) (branch : list Z) : list Z :=
  [moveq_dn rr 1;
   moveq_d0 a; 0xF200; fmove_size_d0_fpn dst FMT_L;
   moveq_d0 b; 0xF200; fmove_size_d0_fpn src FMT_L;
   0xF200; ext_fcmp src dst] ++ branch ++
  [moveq_dn rr 0; 0x4E72; 0x2700].
Definition gen_fcmp_fbcc (fuel count : nat) : Gen (list Row * Z) :=
  for_count count (fun i =>
    let* a := r_moveq_lim 50 in
    let* b := r_moveq_lim 50 in
    let** (dst, src) := pick_two_fp fuel in
    let* rr := pick_result_reg in
    let* x := r32 in
    let '(cond, cname) := CONDS_ALL (x mod 32) in
    let taken := eval_cond_int cond a b in
    let nm := "FCMP+FB" +:+ cname +:+ " " +:+ fp_s src +:+ "," +:+ fp_s dst +:+ " (" +:+ sdec a
              +:+ "," +:+ sdec b +:+ ") -> " +:+ dn_s rr +:+ " #" +:+ d3 i in
    ret (custom_row (snprintf 120 nm) a (Some b)
           (fcmp_fbcc_words a b dst src rr [u16 (0xF280 ||| cond); 0x0004]) [] rr
           (if taken then 1 else 0))).
Definition gen_fcmp_fbcc_l (fuel count : nat) : Gen (list Row * Z) :=
  for_count count (fun i =>
    let* a := r_moveq_lim 50 in
    let* b := r_moveq_lim 50 in
    let** (dst, src) := pick_two_fp fuel in
    let* rr := pick_result_reg in
    let* x := r32 in
    let '(cond, cname) := CONDS_ALL (x mod 32) in
    let taken := eval_cond_int cond a b in
    let nm := "FCMP+FB" +:+ cname +:+ ".L " +:+ fp_s src +:+ "," +:+ fp_s dst +:+ " (" +:+ sdec a
              +:+ "," +:+ sdec b +:+ ") -> " +:+ dn_s rr +:+ " #" +:+ d3 i in
    ret (custom_row (snprintf 120 nm) a (Some b)
           (fcmp_fbcc_words a b dst src rr [u16 (0xF2C0 ||| cond); 0x0000; 0x0006]) [] rr
           (if taken then 1 else 0))).

(** ** Register moves *)

Definition fmove_x_chain_words (a via1 via2 via3 rr : Z) : list Z :=
  [moveq_d0 a; 0xF200; fmove_size_d0_fpn via1 FMT_L;
   0xF200; u16 (((via1 &&& 7) <<< 10) ||| ((via2 &&& 7) <<< 7) ||| 0x00);
   0xF200; u16 (((via2 &&& 7) <<< 10) ||| ((via3 &&& 7) <<< 7) ||| 0x00);
   u16 (0xF200 ||| (rr &&& 7));
   u16 ((3 <<< 13) ||| (0 <<< 10) ||| ((via3 &&& 7) <<< 7) ||| 0);
   0x4E72; 0x2700].
Definition gen_fmove_x_chain (fuel count : nat) : Gen (list Row * Z) :=
  for_count count (fun i =>
    let* a := r_moveq_lim 127 in
    let* via1 := pick_fp in
    let* via2 := draw_until fuel pick_fp (fun v => v =? via1) in
    let* via3 := draw_until fuel pick_fp (fun v => (v =? via1) || (v =? via2)) in
    let* rr := pick_result_reg in
    let nm := "FMOVE.X " +:+ fp_s via1 +:+ "->" +:+ fp_s via2 +:+ "->" +:+ fp_s via3 +:+ " ("
              +:+ sdec a +:+ ") -> " +:+ dn_s rr +:+ " #" +:+ d3 i in
    ret (custom_row (snprintf 120 nm) a None (fmove_x_chain_words a via1 via2 via3 rr) [] rr a)).

Definition sized_expected (fmt a : Z) : Z :=
  if fmt =? FMT_S then i32 (int_to_ieee_single a)
  else if fmt =? FMT_W then i32 (u32 a &&& 0xFFFF)
  else if fmt =? FMT_B then i32 (u32 a &&& 0xFF)
  else a.
Definition fmove_sized_words (a src_fp rr fmt : Z) : list Z :=
  [moveq_dn rr 0;
   moveq_d0 a; 0xF200; fmove_size_d0_fpn src_fp FMT_L;
   u16 (0xF200 ||| (rr &&& 7));
   u16 ((3 <<< 13) ||| (fmt <<< 10) ||| ((src_fp &&& 7) <<< 7) ||| 0);
   0x4E72; 0x2700].
Definition gen_fmove_sized_fp_to_d (fmt : Z) (fmt_name : string) (count : nat)
    : Gen (list Row * Z) :=
  for_count count (fun i =>
    let range := if fmt =? FMT_B then 100 else 1000 in
    let* a := r_moveq_lim (if range >? 127 then 127 else range) in
    let* x := r32 in
    let src_fp := x &&& 7 in
    let* rr := pick_result_reg in
    let nm := "FMOVE." +:+ fmt_name +:+ " " +:+ fp_s src_fp +:+ "->" +:+ dn_s rr +:+ " ("
              +:+ sdec a +:+ ") #" +:+ d3 i in
    ret (custom_row (snprintf 120 nm) a None (fmove_sized_words a src_fp rr fmt) [] rr
           (sized_expected fmt a))).

Definition fmovem_words (a rr : Z) : list Z :=
  [moveq_d0 a; 0xF200; fmove_size_d0_fpn 0 FMT_L;
   0xF227; 0xE001; 0xF21F; 0xC040;
   u16 (0xF200 ||| (rr &&& 7)); u16 ((0x3 <<< 13) ||| (0 <<< 10) ||| (1 <<< 7));
   0x4E72; 0x2700].
Definition gen_fmovem_x_roundtrip (count : nat) : Gen (list Row * Z) :=
  for_count count (fun i =>
    let* a := r_moveq_lim 50 in
    let* rr := pick_result_reg in
    let nm := "FMOVEM.X FP0,-(A7); (A7)+,FP1 a=" +:+ sdec a +:+ " -> " +:+ dn_s rr
              +:+ " #" +:+ d3 i in
    ret (custom_row (snprintf 120 nm) a None (fmovem_words a rr) [] rr a)).

Definition pcrel_words (fmt dst rr : Z) : list Z :=
  [0xF23A; u16 ((0x2 <<< 13) ||| ((fmt &&& 7) <<< 10) ||| ((dst &&& 7) <<< 7)); 0x000A;
   u16 (0xF200 ||| (rr &&& 7)); u16 ((0x3 <<< 13) ||| (0 <<< 10) ||| ((dst &&& 7) <<< 7));
   0x4E72; 0x2700].
(** [pack] fills a zeroed buffer of 12 bytes, of which [data_bytes] are
    emitted. *)
Definition gen_fmove_pcrel_load (fmt : Z) (fmt_name : string) (data_bytes : nat)
    (pack : Z -> list Z) (count : nat) : Gen (list Row * Z) :=
  for_count count (fun i =>
    let* v := r_moveq_lim 50 in
    let* x := r32 in
    let dst := x &&& 7 in
    let* rr := pick_result_reg in
    let fpdata := take 12 (pack v ++ replicate 12 0) in
    let nm := "FMOVE." +:+ fmt_name +:+ " (d16,PC)," +:+ fp_s dst +:+ " v=" +:+ sdec v
              +:+ " -> " +:+ dn_s rr +:+ " #" +:+ d3 i in
    ret (custom_row (snprintf 120 nm) v None (pcrel_words fmt dst rr)
           (take data_bytes fpdata) rr v)).

(** [FPCRS]: select bit, name, test value. *)
Definition FPCRS (i : Z) : Z * string * Z :=
  match i with
  | 0 => (0x1000, "FPIAR", 0x12345678)
  | 1 => (0x0800, "FPSR", 0)
  | _ => (0x0400, "FPCR", 0x30)
  end.
Definition fpcr_words (v rr_w rr_r sel : Z) : list Z :=
  [u16 (0x203C ||| ((rr_w &&& 7) <<< 9));
   u16 ((v >>> 16) &&& 0xFFFF); u16 (v &&& 0xFFFF);
   u16 (0xF200 ||| (rr_w &&& 7)); u16 (0x8000 ||| sel);
   u16 (0xF200 ||| (rr_r &&& 7)); u16 (0xA000 ||| sel);
   0x4E72; 0x2700].
Definition gen_fmove_l_fpcr_roundtrip (fuel count : nat) : Gen (list Row * Z) :=
  for_count count (fun i =>
    let '(sel, name, v) := FPCRS (i mod 3) in
    let* rr_w := pick_result_reg in
    let* rr_r := draw_until fuel pick_result_reg (fun r => r =? rr_w) in
    let nm := "FMOVE.L " +:+ dn_s rr_w +:+ "->" +:+ name +:+ "; " +:+ name +:+ "->"
              +:+ dn_s rr_r +:+ " #" +:+ d3 i in
    ret (custom_row (snprintf 120 nm) v None (fpcr_words v rr_w rr_r sel) [] rr_r v)).

Definition fcmp_fdbcc_words (a b dst src rr ctr cond : Z) : list Z :=
  [moveq_dn rr 42; moveq_dn ctr 1;
   moveq_d0 a; 0xF200; fmove_size_d0_fpn src FMT_L;
   moveq_d0 b; 0xF200; fmove_size_d0_fpn dst FMT_L;
   0xF200; ext_fcmp src dst;
   u16 (0xF248 ||| (ctr &&& 7)); u16 cond; 0x0004;
   moveq_dn rr 99; 0x4E72; 0x2700].
Definition gen_fcmp_fdbcc (fuel count : nat) : Gen (list Row * Z) :=
  for_count count (fun i =>
    let* a := r_moveq_lim 50 in
    let* b := r_moveq_lim 50 in
    let** (dst, src) := pick_two_fp fuel in
    let* rr := pick_result_reg in
    let* ctr := draw_until fuel pick_result_reg (fun c => c =? rr) in
    let* x := r32 in
    let '(cond, cname) := CONDS_ALL (x mod 32) in
    let cond_true := eval_cond_int cond b a in
    let nm := "FCMP+FDB" +:+ cname +:+ " " +:+ fp_s src +:+ "," +:+ fp_s dst +:+ " (" +:+ sdec a
              +:+ "," +:+ sdec b +:+ ") ctr=" +:+ dn_s ctr +:+ " -> " +:+ dn_s rr
              +:+ " #" +:+ d3 i in
    ret (custom_row (snprintf 120 nm) a (Some b) (fcmp_fdbcc_words a b dst src rr ctr cond) [] rr
           (if cond_true then 99 else 42))).

Definition ftrapcc_words (a rr : Z) : list Z :=
  [moveq_dn rr (u8 a); 0xF27C; 0x0000; 0x4E72; 0x2700].
Definition gen_ftrapcc_false (count : nat) : Gen (list Row * Z) :=
  for_count count (fun i =>
    let* a := r_moveq_lim 127 in
    let* rr := pick_result_reg in
    let nm := "FTRAPcc.F (no operand) preserves " +:+ dn_s rr +:+ "=" +:+ sdec a
              +:+ " #" +:+ d3 i in
    ret (custom_row (snprintf 120 nm) a None (ftrapcc_words a rr) [] rr a)).

Definition fnop_words (a rr : Z) : list Z :=
  [moveq_dn rr (u8 a); 0xF280; 0x0000; 0x4E72; 0x2700].
Definition gen_fnop (count : nat) : Gen (list Row * Z) :=
  for_count count (fun i =>
    let* a := r_moveq_lim 127 in
    let* rr := pick_result_reg in
    let nm := "FNOP preserves " +:+ dn_s rr +:+ "=" +:+ sdec a +:+ " #" +:+ d3 i in
    ret (custom_row (snprintf 120 nm) a None (fnop_words a rr) [] rr a)).

(** ** The whole corpus *)

(** [total += gen_x(...)], call after call. *)
Fixpoint sequence (total : Z) (gs : list (Gen (list Row * Z))) : Gen (list Row * Z) :=
  match gs with
  | [] => ret ([], total)
  | g :: gs =>
      let** (r, n) := g in
      let** (rs, total') := sequence (total + n) gs in
      ret (r ++ rs, total')
  end.

(** The calls of [main], in order; [N] is 40 and [M] is 16. *)
Definition main_calls (fuel : nat) : list (Gen (list Row * Z)) :=
  let N := 40%nat in
  let M := 16%nat in
  [gen_monadic "FNEG" OPMODE_FNEG fneg_compute N;
   gen_monadic "FABS" OPMODE_FABS fabs_compute N;
   gen_monadic "FINT" OPMODE_FINT fint_compute N;
   gen_monadic "FINTRZ" OPMODE_FINTRZ fintrz_compute N;
   gen_dyadic fuel "FADD" OPMODE_FADD fadd_compute 127 127 N;
   gen_dyadic fuel "FSUB" OPMODE_FSUB fsub_compute 127 127 N;
   gen_dyadic fuel "FMUL" OPMODE_FMUL fmul_compute 10 10 N;
   gen_fsqrt N;
   gen_fdiv fuel 40;
   gen_monadic_sized "FNEG" OPMODE_FNEG fneg_compute FMT_W M;
   gen_monadic_sized "FNEG" OPMODE_FNEG fneg_compute FMT_B M;
   gen_monadic_sized "FABS" OPMODE_FABS fabs_compute FMT_W M;
   gen_monadic_sized "FABS" OPMODE_FABS fabs_compute FMT_B M;
   gen_dyadic_sized fuel "FADD" OPMODE_FADD fadd_compute 127 127 FMT_W M;
   gen_dyadic_sized fuel "FADD" OPMODE_FADD fadd_compute 127 127 FMT_B M;
   gen_dyadic_sized fuel "FMUL" OPMODE_FMUL fmul_compute 10 10 FMT_W M;
   gen_dyadic_sized fuel "FMUL" OPMODE_FMUL fmul_compute 10 10 FMT_B M;
   gen_monadic_sized "FNEG" OPMODE_FNEG fneg_compute FMT_S M;
   gen_monadic_sized "FABS" OPMODE_FABS fabs_compute FMT_S M;
   gen_monadic_sized "FINT" OPMODE_FINT fint_compute FMT_S M;
   gen_dyadic_sized fuel "FADD" OPMODE_FADD fadd_compute 127 127 FMT_S M;
   gen_dyadic_sized fuel "FSUB" OPMODE_FSUB fsub_compute 127 127 FMT_S M;
   gen_dyadic_sized fuel "FMUL" OPMODE_FMUL fmul_compute 10 10 FMT_S M;
   gen_fdiv_trunc fuel 40;
   gen_fsqrt_trunc fuel 40;
   gen_fcmp_fscc fuel (2 * N);
   gen_ftst_fscc (2 * N);
   gen_fcmp_fbcc fuel (2 * N);
   gen_fcmp_fbcc_l fuel (2 * N);
   gen_fmove_x_chain fuel N;
   gen_fmove_sized_fp_to_d FMT_S "S" M;
   gen_fmove_sized_fp_to_d FMT_W "W" M;
   gen_fmove_sized_fp_to_d FMT_B "B" M;
   gen_fnop M;
   gen_fcmp_fdbcc fuel (2 * N);
   gen_ftrapcc_false M;
   gen_fmove_l_fpcr_roundtrip fuel (3 * M);
   gen_fmove_pcrel_load 2 "X" 12 m68881_extended_int N;
   gen_fmove_pcrel_load 5 "D" 8 ieee_double_int N;
   gen_fmovem_x_roundtrip M] ++
  ((fun '(nm, opm) => gen_unimpl_dyadic fuel nm opm M) <$> UNIMPL_DYADIC) ++
  ((fun '(nm, opm) => gen_unimpl_monadic nm opm M) <$> UNIMPL_MONADIC).

Definition corpus (fuel : nat) : Gen (list Row * Z) := sequence 0 (main_calls fuel).

(** The text of the file [main] writes. *)
Fixpoint print_rows (is_first : bool) (rs : list Row) : string :=
  match rs with
  | [] => ""
  | r :: rs => emit_row is_first r +:+ print_rows false rs
  end.
Definition DEFAULT_SEED : Z := 0xBEEFC0DE.
Definition file_text (rs : list Row) : string :=
  "[" +:+ newline +:+ print_rows true rs +:+ newline +:+ "]" +:+ newline.
(** The file, the total [main] reports, and the state left in [g_rng]. *)
Definition main (fuel : nat) (seed : Z) : option (string * Z * Z) :=
  match corpus fuel (u32 seed) with
  | Some (rs, total, g) => Some (file_text rs, total, g)
  | None => None
  end.

End GenFpu.
