(* ===== verification/Fpu040.v ===== *)
(** * Fpu040: an instruction-level specification of the corpus programs

    A small machine that gives the words of a test program their meaning: the
    68040 instructions the corpus generator emits, over registers, exact
    floating-point values and the condition codes.  It is the specification
    against which [GenFpu]'s rows are judged, written from the encodings the
    comments of [gen_fpu.c] state; no definition of it is taken from the
    generator.

    The repository describes two chips.  [gen_fpu.c] assumes one that executes
    FINT and FINTRZ, leaves FSGLMUL and FSGLDIV to software, and keeps what is
    written to FPIAR; the adjudication on the real Quadra 800
    ([test-blockers.md], findings 22 and 26; [HW_OPMODES] of
    [gen_fpu_header.py]) found the opposite on all three counts.  What they
    disagree on is a [Chip], an argument of the execution. *)

From S2P Require Import Prelude.
#[local] Open Scope list_scope.
#[local] Open Scope Z_scope.
#[local] Open Scope c_scope.

Module Fpu040.

(** ** Values *)

(** The contents of a floating-point register, exact: an integer, a quotient
    that is not one, a square root that is not one, or anything else. *)
Inductive FV := FUndef | FInt (z : Z) | FQuot (a b : Z) | FRoot (a : Z).

(** [m * 2 ^ (e - bias - p)], negated when [s] is set, where it is an integer. *)
Definition float_value (s e m bias p : Z) : FV :=
  let sgn := if s =? 0 then 1 else -1 in
  let sh := e - bias - p in
  if m =? 0 then FInt 0
  else if 0 <=? sh then FInt (sgn * (m * 2 ^ sh))
  else if m mod 2 ^ (- sh) =? 0 then FInt (sgn * (m / 2 ^ (- sh))) else FUndef.

(** Adds the leading one of a normalised significand of [p] fraction bits. *)
Definition hidden (e m p : Z) : Z := if e =? 0 then m else m + 2 ^ p.

Definition single_value (raw : Z) : FV :=
  let e := (raw / 2 ^ 23) mod 256 in
  float_value (raw / 2 ^ 31) e (hidden e (raw mod 2 ^ 23) 23) 127 23.
Definition double_value (raw : Z) : FV :=
  let e := (raw / 2 ^ 52) mod 2048 in
  float_value (raw / 2 ^ 63) e (hidden e (raw mod 2 ^ 52) 52) 1023 52.
(** The extended format has an explicit leading one and a padding word. *)
Definition extended_value (w0 mant : Z) : FV :=
  float_value (w0 / 2 ^ 15) (w0 mod 2 ^ 15) mant 16383 63.

(** The single with integer value [z], for [|z| < 2 ^ 24]. *)
Definition single_of (z : Z) : Z :=
  let m := Z.abs z in
  if m =? 0 then 0
  else (if z <? 0 then 2 ^ 31 else 0) + (127 + Z.log2 m) * 2 ^ 23
       + (m * 2 ^ 23 / 2 ^ Z.log2 m - 2 ^ 23).

(** ** State *)

Record Cpu := mkCpu {
  D : Z -> Z;                  (* D0..D7 *)
  FP : Z -> FV;                (* FP0..FP7 *)
  CC : option comparison;      (* FPCC: the last compare, [None] if unordered *)
  SP : list FV;                (* what FMOVEM pushed *)
  CR : Z -> Z }.               (* FPIAR, FPSR, FPCR by select bit *)
#[global] Instance eta_Cpu : Eta Cpu := fun x => mkCpu (D x) (FP x) (CC x) (SP x) (CR x).

Definition upd {A} (f : Z -> A) (k : Z) (v : A) : Z -> A :=
  fun i => if i =? k then v else f i.

(** ** Decoding *)

Inductive Op :=
  | OStop | OMoveq (n imm : Z) | OMoveL (n : Z)
  | OGen (ea : Z) | OScc (ea : Z) | OBccW (cond : Z) | OBccL (cond : Z) | OBad.

Definition decode (w : Z) : Op :=
  if w =? 0x4E72 then OStop
  else if (w &&& 0xF100) =? 0x7000 then OMoveq ((w >>> 9) &&& 7) (i8 w)
  else if (w &&& 0xF1FF) =? 0x203C then OMoveL ((w >>> 9) &&& 7)
  else if (w >>> 9) =? 0x79 then
    match (w >>> 6) &&& 7 with
    | 0 => OGen (w &&& 63)
    | 1 => OScc (w &&& 63)
    | 2 => OBccW (w &&& 63)
    | 3 => OBccL (w &&& 63)
    | _ => OBad
    end
  else OBad.

(** The fields of a general-instruction extension word. *)
Record Ext := mkExt { opclass : Z; fld_src : Z; fld_dst : Z; fld_op : Z }.
Definition decode_ext (x : Z) : Ext :=
  mkExt (x >>> 13) ((x >>> 10) &&& 7) ((x >>> 7) &&& 7) (x &&& 127).

(** ** Execution *)

(** A predicate holds by the relation the compare found; bits 0, 1 and 2 of
    the selector are "equal", "greater" and "less", bit 3 "unordered". *)
Definition cond_holds (cond : Z) (cc : option comparison) : bool :=
  Z.testbit cond
    match cc with Some Eq => 0 | Some Gt => 1 | Some Lt => 2 | None => 3 end.

Definition compare_values (dst src : FV) : option comparison :=
  match dst, src with FInt x, FInt y => Some (x ?= y) | _, _ => None end.

(** A result rounded to single precision, where that is exact. *)
Definition sgl (z : Z) : FV := if Z.abs z <? 2 ^ 24 then FInt z else FUndef.

(** The arithmetic of the opmodes, whether or not a chip has them. *)
Definition arith (op : Z) (src dst : FV) : option FV :=
  match op, src, dst with
  | 0x00, v, _ => Some v
  | 0x01, FInt z, _ | 0x03, FInt z, _ => Some (FInt z)
  | 0x01, _, _ => Some FUndef
  | 0x03, FQuot a b, _ => Some (FInt (Z.quot a b))
  | 0x03, FRoot a, _ => Some (FInt (Z.sqrt a))
  | 0x03, FUndef, _ => Some FUndef
  | 0x04, FInt z, _ =>
      Some (if z <? 0 then FUndef
            else if Z.sqrt z * Z.sqrt z =? z then FInt (Z.sqrt z) else FRoot z)
  | 0x04, _, _ => Some FUndef
  | 0x18, FInt z, _ => Some (FInt (Z.abs z))
  | 0x18, _, _ => Some FUndef
  | 0x1A, FInt z, _ => Some (FInt (- z))
  | 0x1A, _, _ => Some FUndef
  | 0x20, FInt y, FInt x =>
      Some (if y =? 0 then FUndef
            else if Z.rem x y =? 0 then FInt (Z.quot x y) else FQuot x y)
  | 0x20, _, _ => Some FUndef
  | 0x22, FInt y, FInt x => Some (FInt (x + y))
  | 0x22, _, _ => Some FUndef
  | 0x23, FInt y, FInt x => Some (FInt (x * y))
  | 0x23, _, _ => Some FUndef
  | 0x24, FInt y, FInt x =>
      Some (if y =? 0 then FUndef
            else if Z.rem x y =? 0 then sgl (Z.quot x y) else FUndef)
  | 0x24, _, _ => Some FUndef
  | 0x27, FInt y, FInt x => Some (sgl (x * y))
  | 0x27, _, _ => Some FUndef
  | 0x28, FInt y, FInt x => Some (FInt (x - y))
  | 0x28, _, _ => Some FUndef
  | _, _, _ => None
  end.

(** What the two descriptions of the 68040 disagree on: the opmodes executed
    in hardware, and what a write of a data register to FPIAR keeps. *)
Record Chip := mkChip { hw_opmodes : list Z; fpiar_keeps : Z -> Z }.

(** The 68040 [gen_fpu.c] has in mind. *)
Definition assumed_chip : Chip :=
  mkChip [0x00; 0x01; 0x03; 0x04; 0x18; 0x1A; 0x20; 0x22; 0x23; 0x28; 0x38; 0x3A] id.

(** The 68040 of the Quadra 800, as adjudicated. *)
Definition HW_OPMODES : list Z :=
  [0x00; 0x04; 0x18; 0x1A; 0x20; 0x22; 0x23; 0x24; 0x27; 0x28; 0x38; 0x3A].
Definition quadra_chip : Chip := mkChip HW_OPMODES u16.

(** [FMOVE Dn,FPm] by format. *)
Definition load_reg (fmt raw : Z) : FV :=
  match fmt with
  | 0 => FInt (i32 raw)
  | 1 => single_value (u32 raw)
  | 4 => FInt (i16 raw)
  | 6 => FInt (i8 raw)
  | _ => FUndef
  end.
(** [FMOVE mem,FPm] by format, from the words at the address. *)
Definition load_mem (fmt : Z) (ws : list Z) : FV :=
  match fmt, ws with
  | 2, w0 :: _ :: a :: b :: c :: d :: _ =>
      extended_value w0 (((a * 65536 + b) * 65536 + c) * 65536 + d)
  | 5, a :: b :: c :: d :: _ =>
      double_value (((a * 65536 + b) * 65536 + c) * 65536 + d)
  | _, _ => FUndef
  end.
(** [FMOVE FPm,Dn] by format; the narrow formats keep the register's upper
    bits. *)
Definition store_reg (fmt : Z) (old : Z) (v : FV) : option Z :=
  match fmt, v with
  | 0, FInt z => if (-2147483648 <=? z) && (z <? 2147483648) then Some (u32 z) else None
  | 1, FInt z => Some (single_of z)
  | 4, FInt z => Some (old / 65536 * 65536 + u16 z)
  | 6, FInt z => Some (old / 256 * 256 + u8 z)
  | _, _ => None
  end.

(** How a program ends: at its STOP, by an exception, or at an [FMOVE] to a
    data register of a value with no exact integer of the format, which the
    specification leaves open.  [Stuck]: not one of the programs' instructions. *)
Inductive Outcome := Stopped (c : Cpu) | Trapped (vec : Z) | Inexact | Stuck.

(** The words from [base + disp] on. *)
Definition target (base : list Z) (disp : Z) : list Z := drop (Z.to_nat (disp / 2)) base.

(** An [FMOVEM] list naming one register, by mask bit. *)
Definition single_bit (mask : Z) : Z := Z.log2 mask.

Section Execution.
Context (chip : Chip).

(** The arithmetic of the chip; [None]: left to software. *)
Definition hw_arith (op : Z) (src dst : FV) : option FV :=
  if bool_decide (op ∈ hw_opmodes chip) then arith op src dst else None.

(** A control register from a data register: select bit 4 is FPIAR. *)
Definition control_keeps (sel v : Z) : Z := if sel =? 4 then fpiar_keeps chip v else v.

Definition step_gen (c : Cpu) (ea : Z) (x : Z) (rest : list Z) : Outcome + (Cpu * list Z) :=
  let e := decode_ext x in
  let n := ea &&& 7 in
  if opclass e =? 0 then
    if ea =? 0 then
      let src := FP c (fld_src e) in
      let dst := FP c (fld_dst e) in
      if fld_op e =? 0x38 then inr (c <| CC := compare_values dst src |>, rest)
      else if fld_op e =? 0x3A then inr (c <| CC := compare_values src (FInt 0) |>, rest)
      else match hw_arith (fld_op e) src dst with
           | Some v => inr (c <| FP := upd (FP c) (fld_dst e) v |>, rest)
           | None => inl (Trapped 11)
           end
    else inl Stuck
  else if opclass e =? 2 then
    if ea <? 8 then
      inr (c <| FP := upd (FP c) (fld_dst e) (load_reg (fld_src e) (D c n)) |>, rest)
    else if ea =? 0x3A then
      match rest with
      | disp :: rest' =>
          inr (c <| FP := upd (FP c) (fld_dst e) (load_mem (fld_src e) (target rest disp)) |>,
               rest')
      | [] => inl Stuck
      end
    else inl Stuck
  else if opclass e =? 3 then
    if ea <? 8 then
      match store_reg (fld_src e) (D c n) (FP c (fld_dst e)) with
      | Some v => inr (c <| D := upd (D c) n v |>, rest)
      | None => inl Inexact
      end
    else inl Stuck
  else if (opclass e =? 4) && (ea <? 8) then
    inr (c <| CR := upd (CR c) (fld_src e) (control_keeps (fld_src e) (D c n)) |>, rest)
  else if (opclass e =? 5) && (ea <? 8) then
    inr (c <| D := upd (D c) n (CR c (fld_src e)) |>, rest)
  else if (opclass e =? 7) && (ea =? 0x27) then    (* predecrement: bit k is FPk *)
    inr (c <| SP := FP c (single_bit (x &&& 255)) :: SP c |>, rest)
  else if (opclass e =? 6) && (ea =? 0x1F) then    (* postincrement: bit k is FP(7-k) *)
    match SP c with
    | v :: sp =>
        inr ((c <| FP := upd (FP c) (7 - single_bit (x &&& 255)) v |>) <| SP := sp |>, rest)
    | [] => inl Stuck
    end
  else inl Stuck.

(** One instruction; the rest of the program is the program counter. *)
Definition step (c : Cpu) (code : list Z) : Outcome + (Cpu * list Z) :=
  match code with
  | [] => inl Stuck
  | w :: code =>
      match decode w, code with
      | OStop, _ => inl (Stopped c)
      | OMoveq n imm, _ => inr (c <| D := upd (D c) n (u32 imm) |>, code)
      | OMoveL n, h :: l :: code => inr (c <| D := upd (D c) n (h * 65536 + l) |>, code)
      | OGen ea, x :: code => step_gen c ea x code
      | OScc ea, cond :: code =>
          let n := ea &&& 7 in
          if ea <? 8 then
            let v := if cond_holds cond (CC c) then 255 else 0 in
            inr (c <| D := upd (D c) n (D c n / 256 * 256 + v) |>, code)
          else if ea <? 16 then                     (* FDBcc *)
            match code with
            | disp :: code' =>
                if cond_holds cond (CC c) then inr (c, code')
                else
                  let k := u16 (D c n - 1) in
                  let c := c <| D := upd (D c) n (D c n / 65536 * 65536 + k) |> in
                  if k =? 65535 then inr (c, code') else inr (c, target code disp)
            | [] => inl Stuck
            end
          else if ea =? 0x3C then                   (* FTRAPcc, no operand *)
            if cond_holds cond (CC c) then inl (Trapped 7) else inr (c, code)
          else inl Stuck
      | OBccW cond, disp :: code' =>
          inr (c, if cond_holds cond (CC c) then target code disp else code')
      | OBccL cond, h :: l :: code' =>
          inr (c, if cond_holds cond (CC c) then target code (h * 65536 + l) else code')
      | _, _ => inl Stuck
      end
  end.

Fixpoint exec (n : nat) (c : Cpu) (code : list Z) : Outcome :=
  match n with
  | O => Stuck
  | S n => match step c code with inl o => o | inr (c, code) => exec n c code end
  end.

Lemma exec_S n c code :
  exec (S n) c code = match step c code with inl o => o | inr (c, code) => exec n c code end.
Proof. done. Qed.
End Execution.

(** A program is its bytes, two to a word. *)
Fixpoint words (bs : list Z) : list Z :=
  match bs with
  | h :: l :: bs => h * 256 + l :: words bs
  | _ => []
  end.

End Fpu040.
