(* ===== verification/GenFpuFacts.v ===== *)
(** * GenFpuFacts: what the rows of the corpus show

    The properties of [GenFpu]: the random draws stay in their ranges, the
    number encoders denote the number, the condition evaluator is the FPU's
    predicate table, and the verdict of every row the program prints, whatever
    the seed, on both chips of [Fpu040].  Section [OnChip] runs the programs
    on any chip that has the opmodes the two descriptions share; [Modelled]
    says what the corpus can tell of a chip, and both are instances of it. *)

From S2P Require Import Prelude CText FlineDisasm GenFpu Fpu040.
From Stdlib Require Import Ascii.
#[local] Open Scope string_scope.
#[local] Open Scope list_scope.
#[local] Open Scope Z_scope.
#[local] Open Scope c_scope.

Module GenFpuFacts.
Import GenFpu Fpu040.

(** ** Ranges of the draws *)

Definition is_reg (n : Z) : Prop := 0 <= n < 8.
Definition is_i8 (a : Z) : Prop := -128 <= a < 128.

(** Every result of [m] satisfies [P]. *)
Definition Yields {A} (m : Gen A) (P : A -> Prop) : Prop :=
  forall g a g', m g = Some (a, g') -> P a.

Lemma yields_ret {A} (a : A) (P : A -> Prop) : P a -> Yields (ret a) P.
Proof. unfold Yields, ret. intros. by simplify_eq. Qed.

Lemma yields_bind {A B} (m : Gen A) (k : A -> Gen B) P Q :
  Yields m P -> (forall a, P a -> Yields (k a) Q) -> Yields (bind m k) Q.
Proof.
  unfold Yields, bind. intros Hm Hk g b g' H.
  destruct (m g) as [[a g1]|] eqn:E; [|done]. eauto.
Qed.

Lemma yields_mono {A} (m : Gen A) (P Q : A -> Prop) :
  Yields m P -> (forall a, P a -> Q a) -> Yields m Q.
Proof. unfold Yields. eauto. Qed.

Lemma yields_r32 : Yields r32 (fun x => 0 <= x < 4294967296).
Proof.
  intros g a g'. unfold r32. intros [= <- <-]. unfold r32_step. cbv zeta. apply u32_range.
Qed.

Lemma yields_draw_until m draw bad P :
  Yields draw P -> Yields (draw_until m draw bad) (fun x => P x /\ bad x = false).
Proof.
  intros Hd. induction m as [|m IH]; [intros g a g' H; done|].
  simpl. eapply yields_bind; [exact Hd|]. intros x Hx. cbv beta.
  destruct (bad x) eqn:E; [exact IH|]. by apply yields_ret.
Qed.

Lemma land7_reg x : is_reg (x &&& 7).
Proof. unfold is_reg. change 7 with (Z.ones 3). apply (low_range x 3). lia. Qed.

Lemma yields_pick_fp : Yields pick_fp is_reg.
Proof.
  eapply yields_bind; [apply yields_r32|]. intros x _. apply yields_ret, land7_reg.
Qed.

Lemma yields_pick_result_reg : Yields pick_result_reg (fun r => 1 <= r < 8).
Proof.
  eapply yields_bind; [apply yields_r32|]. intros x Hx. apply yields_ret. dlia.
Qed.

Lemma yields_r_moveq : Yields r_moveq is_i8.
Proof.
  eapply yields_bind; [apply yields_r32|]. intros x Hx. apply yields_ret. apply i8_range.
Qed.

(** The value is limited although [int8_t] wraps before the subtraction. *)
Lemma yields_r_moveq_lim l : 0 <= l <= 127 ->
  Yields (r_moveq_lim l) (fun a => - l <= a <= l).
Proof.
  intros Hl. eapply yields_bind; [apply yields_r32|]. intros x Hx. apply yields_ret.
  assert (0 <= x mod u32 (2 * l + 1) < 2 * l + 1).
  { rewrite u32_small by lia. apply Z.mod_pos_bound. lia. }
  revert H. generalize (x mod u32 (2 * l + 1)). intros y Hy. ilia.
Qed.

Lemma yields_pick_two_fp m :
  Yields (pick_two_fp m) (fun p => is_reg p.1 /\ is_reg p.2 /\ p.1 <> p.2).
Proof.
  eapply yields_bind; [apply yields_pick_fp|]. intros a Ha.
  eapply yields_bind; [apply yields_draw_until, yields_pick_fp|]. intros b [Hb E].
  apply yields_ret. simpl. apply Z.eqb_neq in E. auto.
Qed.

(** A relation between verdicts (or any other labels) and the rows of a call,
    in order, with the number the call returns. *)
Definition Calls {A} (R : A -> Row -> Prop) (m : Gen (list Row * Z)) (vs : list A) : Prop :=
  Yields m (fun p => p.2 = Z.of_nat (length vs) /\ Forall2 R vs p.1).

Lemma yields_for_rows {A} (R : A -> Row -> Prop) (f : Z -> A) n i body :
  (forall i, Yields (body i) (R (f i))) ->
  Yields (for_rows n i body) (Forall2 R (f <$> seqZ i (Z.of_nat n))).
Proof.
  intros Hb. revert i. induction n as [|n IH]; intros i; cbn [for_rows].
  - apply yields_ret. constructor.
  - rewrite seqZ_cons by lia. replace (Z.pred (Z.of_nat (S n))) with (Z.of_nat n) by lia.
    eapply yields_bind; [apply Hb|]. intros r Hr.
    eapply yields_bind; [apply IH|]. intros rs Hrs. apply yields_ret. by constructor.
Qed.

Lemma calls_for_indexed {A} (R : A -> Row -> Prop) (f : Z -> A) n body :
  (forall i, Yields (body i) (R (f i))) ->
  Calls R (for_count n body) (f <$> seqZ 0 (Z.of_nat n)).
Proof.
  intros Hb. eapply yields_bind; [exact (yields_for_rows R f n 0 body Hb)|]. intros rs Hrs.
  apply yields_ret. rewrite length_fmap, length_seqZ. simpl. split; [lia|done].
Qed.

Lemma calls_for {A} (R : A -> Row -> Prop) (v : A) n body :
  (forall i, Yields (body i) (R v)) -> Calls R (for_count n body) (replicate n v).
Proof.
  intros Hb. pose proof (calls_for_indexed R (fun _ => v) n body Hb) as H.
  rewrite (const_fmap _ _ v) in H by done. by rewrite length_seqZ, Nat2Z.id in H.
Qed.

Lemma yields_while_rows {A} (R : A -> Row -> Prop) (v : A) n k e body :
  (forall i, Yields (body i) (fun o => match o with Some r => R v r | None => True end)) ->
  Yields (while_rows n (e + Z.of_nat k) e body)
    (fun p => p.2 = e + Z.of_nat k /\ Forall2 R (replicate k v) p.1).
Proof.
  intros Hb. revert k e. induction n as [|n IH]; intros k e; cbn [while_rows].
  - destruct (Z.ltb_spec e (e + Z.of_nat k)); [intros g a g' H'; done|].
    destruct k; [|lia]. apply yields_ret. split; simpl; [lia|constructor].
  - destruct (Z.ltb_spec e (e + Z.of_nat k)).
    + destruct k as [|k]; [lia|]. eapply yields_bind; [apply Hb|].
      intros [r|] Hr; [|apply IH].
      replace (e + Z.of_nat (S k)) with (e + 1 + Z.of_nat k) by lia.
      eapply yields_bind; [apply IH|]. intros [rs n'] [H1 H2]. apply yields_ret.
      simpl in *. split; [done|]. by constructor.
    + destruct k; [|lia]. apply yields_ret. split; simpl; [lia|constructor].
Qed.

Lemma calls_while {A} (R : A -> Row -> Prop) (v : A) n k body :
  (forall i, Yields (body i) (fun o => match o with Some r => R v r | None => True end)) ->
  Calls R (while_rows n (Z.of_nat k) 0 body) (replicate k v).
Proof.
  intros Hb. unfold Calls. rewrite length_replicate.
  exact (yields_while_rows R v n k 0 body Hb).
Qed.

Lemma calls_sequence {A} (R : A -> Row -> Prop) gs vss t :
  Forall2 (Calls R) gs vss ->
  Yields (sequence t gs)
    (fun p => p.2 = t + Z.of_nat (length (mjoin vss)) /\ Forall2 R (mjoin vss) p.1).
Proof.
  intros H. revert t. induction H as [|m vs gs vss Hm _ IH]; intros t; cbn [sequence].
  - apply yields_ret. split; [simpl; lia|constructor].
  - eapply yields_bind; [exact Hm|]. intros [r n] [Hn Hr]. simpl in Hn, Hr.
    eapply yields_bind; [apply IH|]. intros [rs t'] [Ht Hrs]. simpl in Ht, Hrs.
    apply yields_ret. change (mjoin (vs :: vss)) with (vs ++ mjoin vss).
    rewrite length_app. simpl. split; [lia|by apply Forall2_app].
Qed.

(** [draws]: run through the draws of a generator body. *)
Ltac draw L := eapply yields_bind; [apply L; try lia|]; cbv beta.

(** ** Verdicts *)

(** What running a row's program shows: the expected value or exception; another
    value in the result register; an exception the row does not name; no
    exception where the row names one; or nothing the specification can tell. *)
Inductive Verdict :=
  | Pass | ReadBack (v : Z) | UnexpectedTrap (vec : Z) | NoTrap | Unknown.
#[global] Instance verdict_eq_dec : EqDecision Verdict.
Proof. solve_decision. Defined.

Definition row_traps (r : Row) : option Z :=
  match row_style r with Clean true v => Some v | _ => None end.

(** ** Instructions of the programs *)

(** [enum H]: case analysis on a number below a small constant. *)
Lemma reg_cases n : is_reg n ->
  n = 0 \/ n = 1 \/ n = 2 \/ n = 3 \/ n = 4 \/ n = 5 \/ n = 6 \/ n = 7.
Proof. unfold is_reg. lia. Qed.
Ltac reg_enum H := destruct (reg_cases _ H) as [-> | [-> | [-> | [-> | [-> | [-> | [-> | -> ] ] ] ] ] ] ].

Definition op_eqb (a b : Op) : bool :=
  match a, b with
  | OMoveq n x, OMoveq m y => (n =? m) && (x =? y)
  | _, _ => false
  end.

Lemma decode_moveq n imm : is_reg n -> 0 <= imm < 256 ->
  decode (moveq_dn n imm) = OMoveq n (i8 imm).
Proof.
  intros Hn Hi.
  pose proof (forall_below2 (fun n imm => op_eqb (decode (moveq_dn n imm)) (OMoveq n (i8 imm)))
    8 256 ltac:(by vm_compute) n imm Hn Hi) as H. cbv beta in H.
  destruct (decode _); try done. simpl in H. zbool. by subst.
Qed.

Lemma moveq_d0_dn a : moveq_d0 a = moveq_dn 0 (u8 a).
Proof. done. Qed.

Lemma decode_general n : is_reg n -> decode (u16 (0xF200 ||| (n &&& 7))) = OGen n.
Proof. intros H. reg_enum H; by vm_compute. Qed.
Lemma decode_fscc n : is_reg n -> decode (u16 (0xF240 ||| (n &&& 7))) = OScc n.
Proof. intros H. reg_enum H; by vm_compute. Qed.
Lemma decode_fdbcc n : is_reg n -> decode (u16 (0xF248 ||| (n &&& 7))) = OScc (8 + n).
Proof. intros H. reg_enum H; by vm_compute. Qed.
Lemma decode_movel n : is_reg n -> decode (u16 (0x203C ||| ((n &&& 7) <<< 9))) = OMoveL n.
Proof. intros H. reg_enum H; by vm_compute. Qed.

Lemma decode_ext_load n fmt : is_reg n -> is_reg fmt ->
  decode_ext (fmove_size_d0_fpn n fmt) = mkExt 2 fmt n 0.
Proof. intros H1 H2. reg_enum H1; reg_enum H2; by vm_compute. Qed.
Lemma decode_ext_op s d o : is_reg s -> is_reg d -> 0 <= o < 128 ->
  decode_ext (u16 (((s &&& 7) <<< 10) ||| ((d &&& 7) <<< 7) ||| o)) = mkExt 0 s d o.
Proof.
  intros H1 H2 H3.
  assert (E : forall o, 0 <= o < 128 ->
    (fun o => forallb (fun s => forallb (fun d =>
       let e := decode_ext (u16 (((s &&& 7) <<< 10) ||| ((d &&& 7) <<< 7) ||| o)) in
       (opclass e =? 0) && (fld_src e =? s) && (fld_dst e =? d) && (fld_op e =? o))
       (Z.of_nat <$> seq 0 8)) (Z.of_nat <$> seq 0 8)) o = true).
  { apply (forall_below _ 128). by vm_compute. }
  specialize (E o H3). cbv beta in E.
  pose proof (forall_below _ 8 E s H1) as E1. pose proof (forall_below _ 8 E1 d H2) as E2.
  cbv beta zeta in E2. clear E E1. zbool. destruct (decode_ext _).
  cbn [opclass fld_src fld_dst fld_op] in *. by subst.
Qed.
Lemma decode_ext_store fmt n : is_reg fmt -> is_reg n ->
  decode_ext (u16 ((3 <<< 13) ||| (fmt <<< 10) ||| ((n &&& 7) <<< 7) ||| 0)) = mkExt 3 fmt n 0.
Proof. intros H1 H2. reg_enum H1; reg_enum H2; by vm_compute. Qed.
Lemma decode_ext_store_l n : is_reg n ->
  decode_ext (u16 (0x6000 ||| ((n &&& 7) <<< 7))) = mkExt 3 0 n 0.
Proof. intros H. reg_enum H; by vm_compute. Qed.

(** *** Their effect *)

Section OnChip.
(** The chip, which has at least the opmodes both descriptions agree on. *)
Context (chip : Chip).
Abbreviation exec := (exec chip).
Abbreviation hw_arith := (hw_arith chip).
Definition has (op : Z) : Prop := op ∈ hw_opmodes chip.
#[global] Instance has_dec op : Decision (has op).
Proof. unfold has. apply _. Defined.
Context (common : Forall has [0x00; 0x04; 0x18; 0x1A; 0x20; 0x22; 0x23; 0x28]).

Lemma hw_arith_has op s d : has op -> hw_arith op s d = arith op s d.
Proof. intros H. unfold Fpu040.hw_arith. by rewrite bool_decide_eq_true_2. Qed.
Lemma hw_arith_hasnt op s d : ~ has op -> hw_arith op s d = None.
Proof. intros H. unfold Fpu040.hw_arith. by rewrite bool_decide_eq_false_2. Qed.
Lemma has_common op : op ∈ [0x00; 0x04; 0x18; 0x1A; 0x20; 0x22; 0x23; 0x28] -> has op.
Proof. by apply Forall_forall. Qed.
Ltac common_op := apply has_common, (bool_decide_unpack _); by vm_compute.

Lemma exec_moveq k c n imm code : is_reg n -> 0 <= imm < 256 ->
  exec (S k) c (moveq_dn n imm :: code) =
  exec k (c <| D := upd (D c) n (u32 (i8 imm)) |>) code.
Proof. intros. rewrite exec_S. cbn [step]. by rewrite decode_moveq. Qed.

Lemma i8_u8 a : i8 (u8 a) = i8 a.
Proof. ilia. Qed.

(** [MOVEQ #a,D0; FMOVE.fmt D0,FPf] puts [a] in [FPf]. *)
Lemma exec_load k c a f fmt code :
  is_i8 a -> is_reg f -> fmt = FMT_L \/ fmt = FMT_W \/ fmt = FMT_B ->
  exec (S (S k)) c (moveq_d0 a :: 0xF200 :: fmove_size_d0_fpn f fmt :: code) =
  exec k ((c <| D := upd (D c) 0 (u32 a) |>) <| FP := upd (FP c) f (FInt a) |>) code.
Proof.
  intros Ha Hf Hfmt. unfold is_i8 in Ha.
  assert (E : load_reg fmt (u32 a) = FInt a).
  { destruct Hfmt as [-> | [-> | ->]]; cbn -[u32 i32 i16 i8]; f_equal; ilia. }
  rewrite moveq_d0_dn, exec_moveq, i8_u8, i8_small by (try apply u8_range; unfold is_reg; lia).
  rewrite exec_S. cbn [step]. change (decode 0xF200) with (OGen 0). cbn beta iota.
  unfold step_gen. rewrite decode_ext_load by (unfold is_reg; destruct Hfmt as [-> | [-> | ->]]; cbv; done).
  cbn -[u32 i32 i16 i8]. unfold upd at 2. cbn -[u32 i32 i16 i8].
  change (0 &&& 7 =? 0) with true. cbv iota. by rewrite E.
Qed.

(** [MOVE.L #single(a),D0; FMOVE.S D0,FPf] too. *)
Definition fv_eqb (a b : FV) : bool :=
  match a, b with FInt x, FInt y => x =? y | _, _ => false end.
Lemma single_value_spec a : is_i8 a ->
  single_value (u32 (int_to_ieee_single a)) = FInt a /\
  single_of a = u32 (int_to_ieee_single a) /\ 0 <= int_to_ieee_single a.
Proof.
  intros Ha. unfold is_i8 in Ha.
  pose proof (forall_below (fun x => let a := x - 128 in
    fv_eqb (single_value (u32 (int_to_ieee_single a))) (FInt a) &&
    (single_of a =? u32 (int_to_ieee_single a)) && (0 <=? int_to_ieee_single a)) 256
    ltac:(by vm_compute) (a + 128) ltac:(lia)) as H.
  cbv beta zeta in H. replace (a + 128 - 128) with a in H by lia. zbool.
  destruct (single_value _); simpl in *; try done. zbool. by subst.
Qed.

Lemma u32_halves v : 0 <= v < 4294967296 ->
  u16 (v >>> 16) * 65536 + u16 (v &&& 0xFFFF) = v.
Proof.
  intros Hv. change 0xFFFF with (Z.ones 16).
  rewrite Z.land_ones, Z.shiftr_div_pow2 by lia. change (2 ^ 16) with 65536. ilia.
Qed.

Lemma u32_halves_masked v : 0 <= v < 4294967296 ->
  u16 ((v >>> 16) &&& 0xFFFF) * 65536 + u16 (v &&& 0xFFFF) = v.
Proof.
  intros Hv. rewrite <- (u32_halves v) at 3 by done. do 2 f_equal.
  change 0xFFFF with (Z.ones 16). rewrite Z.land_ones by lia. change (2 ^ 16) with 65536.
  unfold u16. by rewrite Z.mod_mod.
Qed.

Lemma exec_load_s k c a f code :
  is_i8 a -> is_reg f ->
  exec (S (S k)) c (load_words FMT_S a f ++ code) =
  exec k ((c <| D := upd (D c) 0 (u32 (int_to_ieee_single a)) |>)
            <| FP := upd (FP c) f (FInt a) |>) code.
Proof.
  intros Ha Hf. destruct (single_value_spec a Ha) as (Hv & _ & _).
  unfold load_words. cbn [FMT_S Z.eqb Pos.eqb app].
  rewrite exec_S. cbn [step]. change (decode MOVE_L_IMM_D0) with (OMoveL 0). cbn beta iota.
  rewrite u32_halves by apply u32_range.
  rewrite exec_S. cbn [step]. change (decode 0xF200) with (OGen 0). cbn beta iota.
  unfold step_gen. rewrite decode_ext_load by first [done | unfold is_reg, FMT_S; lia].
  cbn -[u32 single_value int_to_ieee_single load_reg]. unfold upd at 2.
  change (0 &&& 7 =? 0) with true. cbv iota. unfold FMT_S, load_reg. by rewrite u32_idem, Hv.
Qed.

(** [FMOVE.L FPf,Dr] of an integer. *)
Lemma exec_store_l k c f r z code :
  is_reg f -> is_reg r -> FP c f = FInt z -> -2147483648 <= z < 2147483648 ->
  exec (S k) c (u16 (0xF200 ||| (r &&& 7)) :: u16 (0x6000 ||| ((f &&& 7) <<< 7)) :: code) =
  exec k (c <| D := upd (D c) r (u32 z) |>) code.
Proof.
  intros Hf Hr Hz Hb. rewrite exec_S. cbn [step]. rewrite decode_general by done. cbn beta iota.
  unfold step_gen. rewrite decode_ext_store_l by done. cbn [opclass fld_src fld_dst].
  assert (E : (r <? 8) = true) by (unfold is_reg in Hr; lia). rewrite E, Hz. cbn [Z.eqb Pos.eqb].
  unfold store_reg.
  assert ((-2147483648 <=? z) && (z <? 2147483648) = true) as -> by lia.
  assert (r &&& 7 = r) as -> by (reg_enum Hr; done). done.
Qed.

(** And of anything else. *)
Lemma exec_store_inexact k c f r v code :
  is_reg f -> is_reg r -> FP c f = v -> (forall z, v <> FInt z) ->
  exec (S k) c (u16 (0xF200 ||| (r &&& 7)) :: u16 (0x6000 ||| ((f &&& 7) <<< 7)) :: code) =
  Inexact.
Proof.
  intros Hf Hr Hv Hn. rewrite exec_S. cbn [step]. rewrite decode_general by done. cbn beta iota.
  unfold step_gen. rewrite decode_ext_store_l by done. cbn [opclass fld_src fld_dst].
  assert (E : (r <? 8) = true) by (unfold is_reg in Hr; lia). rewrite E, Hv. cbn [Z.eqb Pos.eqb].
  unfold store_reg. destruct v; by try destruct (Hn z).
Qed.

(** A register-to-register instruction. *)
Lemma exec_arith k c s d o code :
  is_reg s -> is_reg d -> 0 <= o < 0x38 ->
  exec (S k) c (0xF200 :: u16 (((s &&& 7) <<< 10) ||| ((d &&& 7) <<< 7) ||| o) :: code) =
  match hw_arith o (FP c s) (FP c d) with
  | Some v => exec k (c <| FP := upd (FP c) d v |>) code
  | None => Trapped 11
  end.
Proof.
  intros Hs Hd Ho. rewrite exec_S. cbn [step]. change (decode 0xF200) with (OGen 0). cbn beta iota.
  unfold step_gen. rewrite decode_ext_op by first [done | lia]. cbn [opclass fld_src fld_dst fld_op].
  assert ((o =? 0x38) = false) as -> by lia. assert ((o =? 0x3A) = false) as -> by lia.
  cbn [Z.eqb]. by destruct (hw_arith _ _ _).
Qed.

Lemma exec_fcmp k c s d code : is_reg s -> is_reg d ->
  exec (S k) c (0xF200 :: ext_fcmp s d :: code) =
  exec k (c <| CC := compare_values (FP c d) (FP c s) |>) code.
Proof.
  intros Hs Hd. rewrite exec_S. cbn [step]. change (decode 0xF200) with (OGen 0). cbn beta iota.
  unfold step_gen, ext_fcmp. by rewrite decode_ext_op by first [done | lia].
Qed.

Lemma exec_stop k c code : exec (S k) c (0x4E72 :: code) = Stopped c.
Proof. done. Qed.

(** ** Rows *)

(** The row's verdict on a program whose run ends with [o]. *)
Definition judge (r : Row) (o : Outcome) : Verdict :=
  match o, row_traps r with
  | Stopped c, None =>
      if D c (row_reg r) =? u32 (row_expected r) then Pass else ReadBack (D c (row_reg r))
  | Trapped v, Some v' => if v =? v' then Pass else UnexpectedTrap v
  | Trapped v, None => UnexpectedTrap v
  | (Stopped _ | Inexact), Some _ => NoTrap
  | _, _ => Unknown
  end.
(** Run from any machine state, the row's program earns the verdict [v]. *)
Definition Shows (v : Verdict) (r : Row) : Prop :=
  forall c0, judge r (exec 40 c0 (words (row_program r))) = v.

Definition is_word (w : Z) : Prop := 0 <= w < 65536.

Lemma words_of_bytes ws tail : Forall is_word ws ->
  words (bytes_of_words ws ++ tail) = ws ++ words tail.
Proof.
  induction 1 as [|w ws Hw _ IH]; [done|]. unfold is_word in Hw.
  unfold bytes_of_words. cbn [fmap list_fmap mjoin list_join BW app words].
  destruct (word_split w Hw) as [E1 E2].
  change (mjoin (BW <$> ws)) with (bytes_of_words ws). rewrite IH, E1, E2.
  f_equal. rewrite (Z.div_mod w 256) at 3 by lia. lia.
Qed.

Lemma is_word_u16 z : is_word (u16 z).
Proof. apply u16_range. Qed.
Ltac words_ok :=
  repeat first [apply Forall_app; split | apply Forall_cons; split
               | apply Forall_nil; exact I | apply is_word_u16 | by unfold is_word; lia].

Lemma words_of_bytes_nil ws : Forall is_word ws -> words (bytes_of_words ws) = ws.
Proof. intros H. rewrite <- (app_nil_r (bytes_of_words ws)), words_of_bytes by done.
  apply app_nil_r. Qed.

(** A custom row passes when its words, run from anywhere, put the value in
    the register. *)
Definition computes (ws : list Z) (r e : Z) : Prop :=
  forall c0, exists c, exec 40 c0 ws = Stopped c /\ D c r = u32 e.

Lemma custom_row_ok nm a b ws tail rr e :
  Forall is_word ws -> computes (ws ++ words tail) rr e ->
  Shows Pass (custom_row nm a b ws tail rr e).
Proof.
  intros Hw Hc c0. unfold custom_row, judge, row_traps.
  cbn [row_program row_style row_reg row_expected].
  rewrite words_of_bytes by done. destruct (Hc c0) as (c & -> & ->). by rewrite Z.eqb_refl.
Qed.

(** It shows another value, or an exception, when its words lead there. *)
Lemma custom_row_reads nm a b ws rr e e' :
  Forall is_word ws -> computes ws rr e' -> u32 e' <> u32 e ->
  Shows (ReadBack (u32 e')) (custom_row nm a b ws [] rr e).
Proof.
  intros Hw Hc Hne c0. unfold custom_row, judge, row_traps.
  cbn [row_program row_style row_reg row_expected].
  rewrite words_of_bytes by done. cbn [words]. rewrite app_nil_r.
  destruct (Hc c0) as (c & -> & ->). apply Z.eqb_neq in Hne. by rewrite Hne.
Qed.

Lemma custom_row_traps nm a b ws rr e vec :
  Forall is_word ws -> (forall c0, exec 40 c0 ws = Trapped vec) ->
  Shows (UnexpectedTrap vec) (custom_row nm a b ws [] rr e).
Proof.
  intros Hw Hc c0. unfold custom_row, judge, row_traps.
  cbn [row_program row_style].
  rewrite words_of_bytes by done. cbn [words]. by rewrite app_nil_r, Hc.
Qed.

Lemma upd_eq {A} (f : Z -> A) k v : upd f k v k = v.
Proof. unfold upd. by rewrite Z.eqb_refl. Qed.
Lemma upd_ne {A} (f : Z -> A) k v i : i <> k -> upd f k v i = f i.
Proof. unfold upd. intros H. apply Z.eqb_neq in H. by rewrite H. Qed.

Definition is_fmt (fmt : Z) : Prop := fmt = FMT_L \/ fmt = FMT_W \/ fmt = FMT_B \/ fmt = FMT_S.

(** Any of the operand loads, with its opword count made irrelevant. *)
Lemma exec_load_words k c a f fmt code :
  is_i8 a -> is_reg f -> is_fmt fmt ->
  exists d0, exec (S (S k)) c (load_words fmt a f ++ code) =
  exec k ((c <| D := upd (D c) 0 d0 |>) <| FP := upd (FP c) f (FInt a) |>) code.
Proof.
  intros Ha Hf Hfmt. destruct (decide (fmt = FMT_S)) as [->|Hs].
  - eexists. by apply exec_load_s.
  - exists (u32 a). unfold load_words. assert ((fmt =? FMT_S) = false) as -> by lia.
    unfold is_i8 in Ha. rewrite i8_small by lia. cbn [app].
    apply exec_load; [done|done|]. destruct Hfmt as [|[|[|]]]; tauto.
Qed.

Record test_ok (t : test_t) : Prop := {
  tok_a : is_i8 (op_a t);
  tok_b : has_b t = true -> is_i8 (op_b t) /\ is_reg (src_fp t) /\ dst_fp t <> src_fp t;
  tok_dst : is_reg (dst_fp t);
  tok_fmt : is_fmt (load_fmt t);
  tok_op : 0 <= opmode t < 0x38;
  tok_rr : 1 <= result_reg t < 8 }.

Definition test_result (t : test_t) : option FV :=
  hw_arith (opmode t) (FInt (if has_b t then op_b t else op_a t)) (FInt (op_a t)).

Lemma exec_program t c0 : test_ok t ->
  match test_result t with
  | Some (FInt e) => -2147483648 <= e < 2147483648 ->
      exists c, exec 40 c0 (program_words t) = Stopped c /\ D c (result_reg t) = u32 e
  | Some _ => exec 40 c0 (program_words t) = Inexact
  | None => exec 40 c0 (program_words t) = Trapped 11
  end.
Proof.
  intros [Ha Hb Hd Hf Ho Hr]. unfold test_result, program_words.
  assert (Hrr : is_reg (result_reg t)) by (unfold is_reg; lia).
  destruct (exec_load_words 38 c0 (op_a t) (dst_fp t) (load_fmt t)
    ((if has_b t then load_words (load_fmt t) (op_b t) (src_fp t) else []) ++
     [0xF200; if has_b t then ext_dyadic (src_fp t) (dst_fp t) (opmode t)
              else ext_monadic_fp (dst_fp t) (opmode t);
      fmove_l_fpn_dn_opw (result_reg t); u16 (0x6000 ||| ((dst_fp t &&& 7) <<< 7));
      0x4E72; 0x2700]) Ha Hd Hf) as [d0 E].
  rewrite E. clear E. unfold fmove_l_fpn_dn_opw, ext_dyadic, ext_monadic_fp.
  destruct (has_b t).
  - destruct (Hb eq_refl) as (Hib & Hs & Hne).
    edestruct (exec_load_words 36) as [d1 E]; [exact Hib|exact Hs|exact Hf|].
    rewrite E. clear E. rewrite exec_arith by done.
    cbn [FP update D]. rewrite upd_eq, (upd_ne _ (src_fp t)), upd_eq by done.
    destruct (hw_arith _ _ _) as [[|e| |]|]; try done;
      try (by eapply exec_store_inexact; [..|apply upd_eq|done]).
    intros He. erewrite exec_store_l by (done || apply upd_eq). rewrite exec_stop.
    eexists. split; [done|]. apply upd_eq.
  - cbn [app]. rewrite exec_arith by done. cbn [FP update D]. rewrite upd_eq.
    destruct (hw_arith _ _ _) as [[|e| |]|]; try done;
      try (by eapply exec_store_inexact; [..|apply upd_eq|done]).
    intros He. erewrite exec_store_l by (done || apply upd_eq). rewrite exec_stop.
    eexists. split; [done|]. apply upd_eq.
Qed.

Lemma program_words_ok t : Forall is_word (program_words t).
Proof.
  unfold program_words, load_words. destruct (load_fmt t =? FMT_S), (has_b t);
    unfold MOVE_L_IMM_D0; words_ok.
Qed.

(** What a row built by [emit_program] shows, by the result of its operation. *)
Definition clean_verdict (t : test_t) : Verdict :=
  match test_result t, traps t with
  | Some (FInt e), false => if u32 e =? u32 (expected t) then Pass else ReadBack (u32 e)
  | Some _, false => Unknown
  | Some _, true => NoTrap
  | None, true => if 11 =? exc_vec t then Pass else UnexpectedTrap 11
  | None, false => UnexpectedTrap 11
  end.

Lemma clean_row_shows nm t : test_ok t ->
  (forall e, test_result t = Some (FInt e) -> -2147483648 <= e < 2147483648) ->
  Shows (clean_verdict t) (clean_row nm t).
Proof.
  intros Ht Hb c0. unfold clean_row, judge, row_traps, clean_verdict.
  cbn [row_program row_style row_reg row_expected].
  rewrite words_of_bytes_nil by apply program_words_ok.
  pose proof (exec_program t c0 Ht) as Hx.
  assert (Hi : u32 (i32 (expected t)) = u32 (expected t)) by ilia.
  destruct (test_result t) as [[|e| |]|]; try (rewrite Hx; by destruct (traps t)).
  destruct (Hx (Hb e eq_refl)) as (c & -> & Hd). rewrite Hd, Hi. by destruct (traps t).
Qed.

(** ** The generators of clean rows *)

Lemma reg_of_result r : 1 <= r < 8 -> is_reg r.
Proof. unfold is_reg. lia. Qed.

(** All [n] rows of a call show [v]. *)
Abbreviation AllShow m n v := (Calls Shows m (replicate n v)).

(** The verdict of the rows that expect a value of an opmode. *)
Definition exec_verdict (opm : Z) : Verdict :=
  if bool_decide (has opm) then Pass else UnexpectedTrap 11.

Lemma exec_verdict_common opm :
  opm ∈ [0x00; 0x04; 0x18; 0x1A; 0x20; 0x22; 0x23; 0x28] -> exec_verdict opm = Pass.
Proof. intros H. unfold exec_verdict. by rewrite bool_decide_eq_true_2 by by apply has_common. Qed.

(** A row whose arithmetic is what it expects. *)
Lemma value_row_shows nm t :
  test_ok t -> traps t = false ->
  arith (opmode t) (FInt (if has_b t then op_b t else op_a t)) (FInt (op_a t))
    = Some (FInt (expected t)) ->
  -2147483648 <= expected t < 2147483648 ->
  Shows (exec_verdict (opmode t)) (clean_row nm t).
Proof.
  intros Ht Hn Ha Hb. assert (clean_verdict t = exec_verdict (opmode t)) as <-.
  { unfold clean_verdict, exec_verdict, test_result.
    destruct (decide (has (opmode t))) as [H|H];
      [rewrite hw_arith_has, bool_decide_eq_true_2, Ha by done
      |rewrite hw_arith_hasnt, bool_decide_eq_false_2 by done]; rewrite Hn; [|done].
    by rewrite Z.eqb_refl. }
  apply clean_row_shows; [done|]. unfold test_result.
  destruct (decide (has (opmode t))) as [H|H];
    [rewrite hw_arith_has, Ha by done|by rewrite hw_arith_hasnt by done]. by intros e [= <-].
Qed.

Lemma gen_monadic_shows nm opm f fmt n :
  0 <= opm < 0x38 -> is_fmt fmt ->
  (forall a, is_i8 a -> arith opm (FInt a) (FInt a) = Some (FInt (f a)) /\ -256 <= f a <= 256) ->
  AllShow (gen_monadic_sized nm opm f fmt n) n (exec_verdict opm).
Proof.
  intros Ho Hf Hc. apply calls_for. intros i.
  draw yields_r_moveq. intros a Ha. draw yields_pick_fp. intros fp Hfp.
  draw yields_pick_result_reg. intros rr Hrr. apply yields_ret.
  destruct (Hc a Ha) as [H1 H2]. cbv zeta. set (t := mkTest _ _ _ _ _ _ _ _ _ _ _).
  apply (value_row_shows _ t); [by constructor|done|done|simpl; lia].
Qed.

Lemma gen_dyadic_shows m nm opm f la lb fmt n :
  0 <= opm < 0x38 -> is_fmt fmt -> 0 <= la <= 127 -> 0 <= lb <= 127 ->
  (forall a b, - la <= a <= la -> - lb <= b <= lb ->
    arith opm (FInt b) (FInt a) = Some (FInt (f a b)) /\ -32768 <= f a b <= 32768) ->
  AllShow (gen_dyadic_sized m nm opm f la lb fmt n) n (exec_verdict opm).
Proof.
  intros Ho Hf Hla Hlb Hc. apply calls_for. intros i.
  draw yields_r_moveq_lim. intros a Ha. draw yields_r_moveq_lim. intros b Hb.
  draw yields_pick_two_fp. intros [dst src] (Hd & Hs & Hne). simpl in Hd, Hs, Hne.
  draw yields_pick_result_reg. intros rr Hrr. apply yields_ret.
  destruct (Hc a b Ha Hb) as [H1 H2]. cbv zeta. set (t := mkTest _ _ _ _ _ _ _ _ _ _ _).
  apply (value_row_shows _ t); [|done|done|simpl; lia].
  constructor; simpl; try done; unfold is_i8; try lia. intros _. unfold is_reg in *. lia.
Qed.

(** The verdict of the rows that expect the exception: [Pass] without the
    opmode, [NoTrap] with it. *)
Definition unimpl_verdict (opm : Z) : Verdict :=
  if bool_decide (has opm) then NoTrap else Pass.

Lemma gen_unimpl_monadic_shows nm opm n :
  0 <= opm < 0x38 -> ~ has opm ->
  AllShow (gen_unimpl_monadic nm opm n) n Pass.
Proof.
  intros Ho Hn. apply calls_for. intros i.
  draw yields_r_moveq. intros a Ha. draw yields_pick_fp. intros fp Hfp.
  draw yields_pick_result_reg. intros rr Hrr. apply yields_ret. cbv zeta.
  assert (H : forall t, opmode t = opm -> test_result t = None)
    by (intros t <-; unfold test_result; by rewrite hw_arith_hasnt).
  set (t := mkTest _ _ _ _ _ _ _ _ _ _ _). specialize (H t eq_refl).
  assert (clean_verdict t = Pass) as <- by (unfold clean_verdict; by rewrite H).
  apply clean_row_shows; [constructor; simpl; try done; by left|]. by rewrite H.
Qed.

Lemma gen_unimpl_dyadic_shows m nm opm n :
  0 <= opm < 0x38 ->
  (forall a b, -64 <= a <= 64 -> -64 <= b <= 64 -> has opm ->
     arith opm (FInt b) (FInt a) <> None /\
     forall e, arith opm (FInt b) (FInt a) = Some (FInt e) -> -32768 <= e <= 32768) ->
  AllShow (gen_unimpl_dyadic m nm opm n) n (unimpl_verdict opm).
Proof.
  intros Ho Hc. apply calls_for. intros i.
  draw yields_r_moveq_lim. intros a Ha. draw yields_r_moveq_lim. intros b Hb.
  draw yields_pick_two_fp. intros [dst src] (Hd & Hs & Hne). simpl in Hd, Hs, Hne.
  draw yields_pick_result_reg. intros rr Hrr. apply yields_ret. cbv zeta.
  set (t := mkTest _ _ _ _ _ _ _ _ _ _ _).
  assert (Ht : test_ok t).
  { constructor; simpl; try done; unfold is_i8; try lia; [|by left].
    intros _. unfold is_reg in *. lia. }
  assert (H : test_result t = hw_arith opm (FInt b) (FInt a)) by done.
  destruct (decide (has opm)) as [Hh|Hh].
  - destruct (Hc a b Ha Hb Hh) as [H1 H2]. rewrite hw_arith_has in H by done.
    assert (clean_verdict t = unimpl_verdict opm) as <-.
    { unfold clean_verdict, unimpl_verdict. rewrite H, bool_decide_eq_true_2 by done. simpl.
      by destruct (arith _ _ _) as [[]|]. }
    apply clean_row_shows; [done|]. rewrite H. intros e E. specialize (H2 e E). lia.
  - rewrite hw_arith_hasnt in H by done.
    assert (clean_verdict t = unimpl_verdict opm) as <-.
    { unfold clean_verdict, unimpl_verdict. by rewrite H, bool_decide_eq_false_2. }
    apply clean_row_shows; [done|]. by rewrite H.
Qed.

(** The table of squares is the table of their roots. *)
Lemma squares_spec i : 0 <= i < 12 ->
  let a := nth (Z.to_nat i) squares 0 in
  0 <= a <= 121 /\ square_root a * square_root a = a /\ square_root a = Z.sqrt a.
Proof.
  intros Hi. pose proof (forall_below (fun i => let a := nth (Z.to_nat i) squares 0 in
    (0 <=? a) && (a <=? 121) && (square_root a * square_root a =? a) &&
    (square_root a =? Z.sqrt a)) 12 ltac:(by vm_compute) i Hi) as H.
  cbv beta zeta in *. zbool. done.
Qed.

Lemma gen_fsqrt_shows n : AllShow (gen_fsqrt n) n Pass.
Proof.
  apply calls_for. intros i.
  destruct (squares_spec (i mod 12) (Z.mod_pos_bound i 12 ltac:(lia))) as (H1 & H2 & H3).
  cbv zeta. set (a := nth _ _ _) in *.
  draw yields_pick_fp. intros fp Hfp.
  draw yields_pick_result_reg. intros rr Hrr. apply yields_ret.
  rewrite <- (exec_verdict_common OPMODE_FSQRT) by (apply (bool_decide_unpack _); by vm_compute).
  set (t := mkTest _ _ _ _ _ _ _ _ _ _ _).
  apply (value_row_shows _ t); [|done| |simpl; nia].
  - constructor; simpl; try done; unfold is_i8; [lia|by left].
  - simpl. rewrite <- H3, H2, Z.eqb_refl. by assert ((a <? 0) = false) as -> by lia.
Qed.

Lemma gen_fdiv_shows m n : AllShow (gen_fdiv m (Z.of_nat n)) n Pass.
Proof.
  apply calls_while. intros i.
  draw yields_r_moveq_lim. intros b Hb. destruct (Z.eqb_spec b 0) as [|Hb0]; [by apply yields_ret|].
  draw yields_r_moveq_lim. intros q Hq. destruct (Z.eqb_spec q 0) as [|Hq0]; [by apply yields_ret|].
  cbv zeta. destruct (_ || _) eqn:Er; [by apply yields_ret|]. zbool.
  draw yields_pick_two_fp. intros [dst src] (Hd & Hs & Hne). simpl in Hd, Hs, Hne.
  draw yields_pick_result_reg. intros rr Hrr. apply yields_ret.
  rewrite <- (exec_verdict_common OPMODE_FDIV) by (apply (bool_decide_unpack _); by vm_compute).
  set (t := mkTest _ _ _ _ _ _ _ _ _ _ _).
  apply (value_row_shows _ t); [|done| |simpl; lia].
  - constructor; simpl; try done; unfold is_i8; [lia|..|by left]. intros _. unfold is_reg in *. lia.
  - simpl. assert ((b =? 0) = false) as -> by lia.
    by rewrite (Z.mul_comm b q), Z.rem_mul, Z.quot_mul by done.
Qed.

(** ** Conditions *)

Lemma cond_table cond : 0 <= cond < 32 ->
  forall n m, eval_cond_int cond n m = cond_holds cond (Some (n ?= m)).
Proof.
  intros Hc n m.
  assert (H : forall r, eval_cond_int cond match r with Eq => 0 | Lt => 0 | Gt => 1 end
                          match r with Eq => 0 | Lt => 1 | Gt => 0 end
                        = cond_holds cond (Some r)).
  { intros r. apply Bool.eqb_true_iff. revert cond Hc.
    destruct r; apply (forall_below (fun cond => Bool.eqb (eval_cond_int cond _ _)
      (cond_holds cond (Some _))) 32); by vm_compute. }
  rewrite <- H. unfold eval_cond_int.
  assert ((n =? m) = match n ?= m with Eq => true | _ => false end) as ->.
  { destruct (Z.compare_spec n m); lia. }
  assert ((n <? m) = match n ?= m with Lt => true | _ => false end) as ->.
  { destruct (Z.compare_spec n m); lia. }
  by destruct (n ?= m).
Qed.

Lemma conds_all_code i : (CONDS_ALL i).1 = i.
Proof. done. Qed.

Lemma exec_fscc k c n cond code : is_reg n -> 0 <= cond < 32 -> D c n = 0 ->
  exec (S k) c (u16 (0xF240 ||| (n &&& 7)) :: u16 cond :: code) =
  exec k (c <| D := upd (D c) n (if cond_holds cond (CC c) then 255 else 0) |>) code.
Proof.
  intros Hn Hc H0. rewrite exec_S. cbn [step]. rewrite decode_fscc by done. cbn beta iota.
  assert ((n <? 8) = true) as -> by (unfold is_reg in Hn; lia). rewrite u16_small by lia.
  assert (n &&& 7 = n) as -> by (reg_enum Hn; done). cbv zeta. rewrite H0.
  by destruct (cond_holds cond (CC c)).
Qed.

Lemma decode_fbcc cond : 0 <= cond < 32 ->
  decode (u16 (0xF280 ||| cond)) = OBccW cond /\ decode (u16 (0xF2C0 ||| cond)) = OBccL cond.
Proof.
  intros H.
  pose proof (forall_below (fun cond =>
    match decode (u16 (0xF280 ||| cond)), decode (u16 (0xF2C0 ||| cond)) with
    | OBccW x, OBccL y => (x =? cond) && (y =? cond) | _, _ => false end) 32
    ltac:(by vm_compute) cond H) as E. cbv beta in E.
  destruct (decode (u16 (0xF280 ||| cond))), (decode (u16 (0xF2C0 ||| cond))); try done.
  zbool. by subst.
Qed.

(** The branch over one word, in both sizes. *)
Lemma exec_fbcc k c cond w code : 0 <= cond < 32 ->
  exec (S k) c (u16 (0xF280 ||| cond) :: 0x0004 :: w :: code) =
    exec k c (if cond_holds cond (CC c) then code else w :: code) /\
  exec (S k) c (u16 (0xF2C0 ||| cond) :: 0x0000 :: 0x0006 :: w :: code) =
    exec k c (if cond_holds cond (CC c) then code else w :: code).
Proof.
  intros Hc. destruct (decode_fbcc cond Hc) as [E1 E2].
  split; rewrite exec_S; cbn [step]; rewrite ?E1, ?E2; cbn beta iota;
    by destruct (cond_holds cond (CC c)).
Qed.

(** [FDBcc] on a counter of one: it branches over the next word exactly when
    the condition is false. *)
Lemma exec_fdbcc k c n cond w code : is_reg n -> 0 <= cond < 32 -> D c n = 1 ->
  exec (S k) c (u16 (0xF248 ||| (n &&& 7)) :: u16 cond :: 0x0004 :: w :: code) =
  if cond_holds cond (CC c) then exec k c (w :: code)
  else exec k (c <| D := upd (D c) n 0 |>) code.
Proof.
  intros Hn Hc H1. rewrite exec_S. cbn [step]. rewrite decode_fdbcc by done. cbn beta iota.
  unfold is_reg in Hn.
  assert ((8 + n <? 8) = false) as -> by lia. assert ((8 + n <? 16) = true) as -> by lia.
  rewrite u16_small by lia.
  assert ((8 + n) &&& 7 = n) as -> by (reg_enum Hn; done). cbv zeta. rewrite H1.
  by destruct (cond_holds cond (CC c)).
Qed.

Lemma exec_two_loads k c a b fa fb code :
  is_i8 a -> is_i8 b -> is_reg fa -> is_reg fb -> fa <> fb ->
  exists d0 fp, exec (S (S (S (S k)))) c
    (moveq_d0 a :: 0xF200 :: fmove_size_d0_fpn fa FMT_L ::
     moveq_d0 b :: 0xF200 :: fmove_size_d0_fpn fb FMT_L :: code) =
  exec k ((c <| D := upd (upd (D c) 0 (u32 a)) 0 d0 |>) <| FP := fp |>) code /\
  fp fa = FInt a /\ fp fb = FInt b.
Proof.
  intros Ha Hb Hfa Hfb Hne. do 2 eexists.
  rewrite exec_load, exec_load by (done || by left).
  split; [reflexivity|]. cbn [FP update]. rewrite (upd_ne _ fb _ fa), !upd_eq by done. done.
Qed.

(** ** The programs of the custom rows *)

(** [finish]: the last instructions of every program. *)
Ltac finish :=
  rewrite exec_stop; eexists; split; [reflexivity|]; cbn [D FP CC update];
  first [apply upd_eq | by rewrite ?upd_eq].

(** FINTRZ of a value whose truncation is [e], and its store. *)
Definition fintrz_tail (f rr : Z) : list Z :=
  [0xF200; ext_monadic_fp f OPMODE_FINTRZ;
   u16 (0xF200 ||| (rr &&& 7)); u16 (0x6000 ||| ((f &&& 7) <<< 7)); 0x4E72; 0x2700].
Definition truncates_to (v : FV) (e : Z) : Prop :=
  forall d, arith OPMODE_FINTRZ v d = Some (FInt e).

Lemma exec_fintrz_tail k c f rr e :
  is_reg f -> 1 <= rr < 8 -> truncates_to (FP c f) e -> -128 <= e <= 128 ->
  (has OPMODE_FINTRZ -> exists c', exec (S (S (S k))) c (fintrz_tail f rr) = Stopped c' /\
                                   D c' rr = u32 e) /\
  (~ has OPMODE_FINTRZ -> exec (S (S (S k))) c (fintrz_tail f rr) = Trapped 11).
Proof.
  intros Hf Hr Ht He. unfold fintrz_tail, ext_monadic_fp.
  rewrite exec_arith by done. split; intros H.
  - rewrite hw_arith_has by done. rewrite (Ht (FP c f)).
    erewrite exec_store_l by (first [done | apply upd_eq | by apply reg_of_result | lia]).
    rewrite exec_stop. eexists. split; [reflexivity|]. apply upd_eq.
  - by rewrite hw_arith_hasnt.
Qed.

(** A program that divides (or takes a root) and truncates: right with FINTRZ,
    an exception without it. *)
Definition trunc_program (ws : list Z) (rr e : Z) : Prop :=
  (has OPMODE_FINTRZ -> computes ws rr e) /\
  (~ has OPMODE_FINTRZ -> forall c0, exec 40 c0 ws = Trapped 11).

Lemma trunc_program_intro ws f rr e :
  is_reg f -> 1 <= rr < 8 -> -128 <= e <= 128 ->
  (forall c0, exists k c, exec 40 c0 ws = exec (S (S (S k))) c (fintrz_tail f rr) /\
                          truncates_to (FP c f) e) ->
  trunc_program ws rr e.
Proof.
  intros Hf Hr He Hc. split; intros H c0; destruct (Hc c0) as (k & c & -> & Ht);
    by apply (exec_fintrz_tail k c f rr e).
Qed.

Lemma fdiv_trunc_program a b dst src rr :
  is_i8 a -> is_i8 b -> b <> 0 -> is_reg dst -> is_reg src -> dst <> src -> 1 <= rr < 8 ->
  trunc_program (fdiv_trunc_words a b dst src rr) rr (Z.quot a b).
Proof.
  intros Ha Hb H0 Hd Hs Hne Hr. unfold is_i8 in *.
  assert (Hq : -128 <= Z.quot a b <= 128).
  { assert (Z.abs (Z.quot a b) <= Z.abs a); [|lia].
    rewrite <- Z.quot_abs by done. apply Z.quot_le_upper_bound; nia. }
  apply (trunc_program_intro _ dst); [done|done|done|]. intros c0. unfold fdiv_trunc_words.
  destruct (exec_two_loads 36 c0 a b dst src
    (0xF200 :: ext_dyadic src dst OPMODE_FDIV :: fintrz_tail dst rr)
    Ha Hb Hd Hs Hne) as (d0 & fp & E & E1 & E2).
  unfold fintrz_tail in E. rewrite E. clear E. unfold ext_dyadic.
  rewrite exec_arith by done. cbn [FP update]. rewrite E1, E2.
  rewrite hw_arith_has by common_op.
  cbn [arith OPMODE_FDIV]. assert ((b =? 0) = false) as -> by lia.
  eexists _, _. split; [reflexivity|]. cbn [FP update]. rewrite upd_eq.
  intros d. by destruct (Z.rem a b =? 0).
Qed.

Lemma isqrt_spec n s a : 0 <= s -> s * s <= a -> a < (s + Z.of_nat n) * (s + Z.of_nat n) ->
  isqrt n s a = Z.sqrt a.
Proof.
  revert s. induction n as [|n IH]; intros s Hs Hl Hu; simpl.
  - nia.
  - destruct (Z.leb_spec ((s + 1) * (s + 1)) a).
    + apply IH; nia.
    + symmetry. apply Z.sqrt_unique. nia.
Qed.

Lemma fsqrt_trunc_program a fp rr :
  0 <= a < 128 -> is_reg fp -> 1 <= rr < 8 ->
  trunc_program (fsqrt_trunc_words a fp rr) rr (isqrt 128 0 a).
Proof.
  intros Ha Hf Hr. rewrite (isqrt_spec 128) by lia.
  assert (0 <= Z.sqrt a <= 128).
  { split; [apply Z.sqrt_nonneg|]. pose proof (Z.sqrt_le_lin a). lia. }
  apply (trunc_program_intro _ fp); [done|done|lia|]. intros c0. unfold fsqrt_trunc_words.
  rewrite i8_small by lia. rewrite exec_load by (unfold is_i8; first [lia | done | by left]).
  unfold ext_monadic_fp at 1. rewrite exec_arith by done. cbn [FP update]. rewrite upd_eq.
  rewrite hw_arith_has by common_op.
  cbn [arith OPMODE_FSQRT]. assert ((a <? 0) = false) as -> by lia.
  eexists _, _. split; [reflexivity|]. cbn [FP update]. rewrite upd_eq.
  intros d. by destruct (_ =? a).
Qed.

(** The marker register survives the loads through [D0]. *)
Lemma keeps {A} (f : Z -> A) rr v x y : 1 <= rr < 8 -> upd (upd (upd f rr v) 0 x) 0 y rr = v.
Proof. intros. rewrite !(upd_ne _ 0) by lia. apply upd_eq. Qed.

Lemma fcmp_fscc_computes a b dst src rr cond :
  is_i8 a -> is_i8 b -> is_reg dst -> is_reg src -> dst <> src -> 1 <= rr < 8 -> 0 <= cond < 32 ->
  computes (fcmp_fscc_words a b dst src rr cond) rr (if eval_cond_int cond a b then 0xFF else 0x00).
Proof.
  intros Ha Hb Hd Hs Hne Hr Hc c0. unfold fcmp_fscc_words.
  rewrite exec_moveq by (first [by apply reg_of_result | lia]).
  edestruct exec_two_loads as (d0 & fp & -> & E1 & E2); [exact Ha|exact Hb|exact Hd|exact Hs|done|].
  rewrite exec_fcmp by done. cbn [FP update]. rewrite E1, E2.
  rewrite exec_fscc by (first [by apply reg_of_result | done | by apply keeps]).
  cbn [CC update compare_values]. rewrite <- cond_table by done.
  rewrite exec_stop. eexists. split; [reflexivity|]. cbn [D update]. rewrite upd_eq.
  by destruct (eval_cond_int _ _ _).
Qed.

Lemma fcmp_fbcc_computes a b dst src rr cond br :
  is_i8 a -> is_i8 b -> is_reg dst -> is_reg src -> dst <> src -> 1 <= rr < 8 -> 0 <= cond < 32 ->
  br = [u16 (0xF280 ||| cond); 0x0004] \/ br = [u16 (0xF2C0 ||| cond); 0x0000; 0x0006] ->
  computes (fcmp_fbcc_words a b dst src rr br) rr (if eval_cond_int cond a b then 1 else 0).
Proof.
  intros Ha Hb Hd Hs Hne Hr Hc Hbr c0. unfold fcmp_fbcc_words. cbn [app].
  rewrite exec_moveq by (first [by apply reg_of_result | lia]).
  edestruct exec_two_loads as (d0 & fp & -> & E1 & E2); [exact Ha|exact Hb|exact Hd|exact Hs|done|].
  rewrite exec_fcmp by done. cbn [FP update]. rewrite E1, E2. cbn [compare_values].
  match goal with |- context [exec (S ?k) ?c _] =>
    destruct (exec_fbcc k c cond (moveq_dn rr 0) [0x4E72; 0x2700] Hc) as [B1 B2] end.
  destruct Hbr as [-> | ->]; cbn [app]; rewrite ?B1, ?B2; clear B1 B2;
    cbn [CC update]; rewrite <- cond_table by done; destruct (eval_cond_int _ _ _).
  all: rewrite ?exec_moveq by (first [by apply reg_of_result | lia]).
  all: rewrite exec_stop; eexists; split; [reflexivity|]; cbn [D update].
  all: rewrite ?keeps, ?upd_eq by done; reflexivity.
Qed.

Lemma fcmp_fdbcc_computes a b dst src rr ctr cond :
  is_i8 a -> is_i8 b -> is_reg dst -> is_reg src -> dst <> src -> 1 <= rr < 8 ->
  1 <= ctr < 8 -> ctr <> rr -> 0 <= cond < 32 ->
  computes (fcmp_fdbcc_words a b dst src rr ctr cond) rr
    (if eval_cond_int cond b a then 99 else 42).
Proof.
  intros Ha Hb Hd Hs Hne Hr Hk Hkr Hc c0. unfold fcmp_fdbcc_words.
  do 2 rewrite exec_moveq by (first [by apply reg_of_result | lia]).
  edestruct exec_two_loads as (d0 & fp & -> & E1 & E2); [exact Ha|exact Hb|exact Hs|exact Hd|done|].
  rewrite exec_fcmp by done. cbn [FP update]. rewrite E1, E2. cbn [compare_values].
  rewrite exec_fdbcc;
    [|by apply reg_of_result|done|cbn [D update]; by rewrite keeps by done].
  cbn [CC update]. rewrite <- cond_table by done. destruct (eval_cond_int _ _ _).
  - rewrite exec_moveq by (first [by apply reg_of_result | lia]). finish.
  - rewrite exec_stop. eexists. split; [reflexivity|]. cbn [D update].
    rewrite (upd_ne _ ctr), !(upd_ne _ 0), (upd_ne _ ctr), upd_eq by lia. done.
Qed.

Lemma ftst_fscc_computes a src rr cond :
  is_i8 a -> is_reg src -> 1 <= rr < 8 -> 0 <= cond < 32 ->
  computes (ftst_fscc_words a src rr cond) rr (if eval_cond_int cond a 0 then 0xFF else 0x00).
Proof.
  intros Ha Hs Hr Hc c0. unfold ftst_fscc_words.
  rewrite exec_moveq by (first [by apply reg_of_result | lia]).
  rewrite exec_load by (first [done | by left]).
  rewrite exec_S. cbn [step]. change (decode 0xF200) with (OGen 0). cbn beta iota.
  unfold step_gen.
  assert (decode_ext (u16 (((src &&& 7) <<< 10) ||| 0x3A)) = mkExt 0 src 0 0x3A) as ->
    by (reg_enum Hs; by vm_compute).
  cbn [opclass fld_src fld_dst fld_op Z.eqb Pos.eqb FP update]. rewrite upd_eq.
  rewrite exec_fscc; [|by apply reg_of_result|done|].
  - cbn [CC update compare_values]. rewrite <- cond_table by done. rewrite exec_stop.
    eexists. split; [reflexivity|]. cbn [D update]. rewrite upd_eq. by destruct (eval_cond_int _ _ _).
  - cbn [D update]. rewrite (upd_ne _ 0), upd_eq by lia. done.
Qed.

Lemma fmove_x_chain_computes a v1 v2 v3 rr :
  is_i8 a -> is_reg v1 -> is_reg v2 -> is_reg v3 -> 1 <= rr < 8 ->
  computes (fmove_x_chain_words a v1 v2 v3 rr) rr a.
Proof.
  intros Ha H1 H2 H3 Hr c0. unfold fmove_x_chain_words.
  rewrite exec_load by (first [done | by left]).
  do 2 (rewrite exec_arith, hw_arith_has by (first [done | common_op]);
        cbn [FP update arith]; rewrite upd_eq).
  change (0x3 <<< 13 ||| 0 <<< 10) with 0x6000. rewrite Z.lor_0_r. unfold is_i8 in Ha.
  erewrite exec_store_l by (first [done | apply upd_eq | by apply reg_of_result | lia]). finish.
Qed.

Lemma fmove_sized_computes a f rr fmt :
  is_i8 a -> is_reg f -> 1 <= rr < 8 -> is_fmt fmt ->
  computes (fmove_sized_words a f rr fmt) rr (sized_expected fmt a).
Proof.
  intros Ha Hf Hr Hfmt c0. unfold fmove_sized_words. pose proof (reg_of_result _ Hr) as Hrr.
  destruct (single_value_spec a Ha) as (_ & Hs & Hs0).
  rewrite exec_moveq by (first [done | lia]). rewrite exec_load by (first [done | by left]).
  rewrite exec_S. cbn [step]. rewrite decode_general by done. cbn beta iota. unfold step_gen.
  rewrite decode_ext_store by (first [done | unfold is_reg; destruct Hfmt as [-> | [-> | [-> | ->] ] ]; cbv; done]).
  cbn [opclass fld_src fld_dst fld_op Z.eqb Pos.eqb FP D update]. rewrite upd_eq.
  assert ((rr <? 8) = true) as -> by lia.
  assert (rr &&& 7 = rr) as -> by (reg_enum Hrr; done).
  rewrite (upd_ne _ 0), upd_eq by lia. change (u32 (i8 0)) with 0. unfold is_i8 in Ha.
  destruct Hfmt as [-> | [-> | [-> | ->] ] ].
  all: cbn [store_reg FMT_L FMT_W FMT_B FMT_S].
  1: assert ((-2147483648 <=? a) && (a <? 2147483648) = true) as -> by lia.
  all: rewrite exec_stop; eexists; split; [reflexivity|]; cbn [D update]; rewrite upd_eq.
  all: unfold sized_expected; cbn [FMT_L FMT_W FMT_B FMT_S Z.eqb Pos.eqb].
  - done.
  - change 0xFFFF with (Z.ones 16). rewrite Z.land_ones by lia. change (2 ^ 16) with 65536. ilia.
  - change 0xFF with (Z.ones 8). rewrite Z.land_ones by lia. change (2 ^ 8) with 256. ilia.
  - rewrite Hs. ilia.
Qed.

(** [FMOVEM.X FP0,-(A7)] then [FMOVEM.X (A7)+,FP1] copies [FP0] to [FP1]. *)
Lemma exec_fmovem_fp0_fp1 k c code :
  exec (S (S k)) c (0xF227 :: 0xE001 :: 0xF21F :: 0xC040 :: code) =
  exec k (((c <| SP := FP c 0 :: SP c |>) <| FP := upd (FP c) 1 (FP c 0) |>) <| SP := SP c |>) code.
Proof. done. Qed.

Lemma fmovem_computes a rr : is_i8 a -> 1 <= rr < 8 -> computes (fmovem_words a rr) rr a.
Proof.
  intros Ha Hr c0. unfold fmovem_words.
  rewrite exec_load by (first [done | by left | unfold is_reg; lia]).
  rewrite exec_fmovem_fp0_fp1.
  change (u16 (3 <<< 13 ||| 0 <<< 10 ||| 1 <<< 7)) with (u16 (0x6000 ||| ((1 &&& 7) <<< 7))).
  unfold is_i8 in Ha.
  erewrite exec_store_l with (z := a);
    [finish|by unfold is_reg|by apply reg_of_result|cbn [FP update]; by rewrite !upd_eq|lia].
Qed.

Lemma fmove_nop_computes a rr w :
  is_i8 a -> 1 <= rr < 8 -> w = 0xF27C \/ w = 0xF280 ->
  computes [moveq_dn rr (u8 a); w; 0x0000; 0x4E72; 0x2700] rr a.
Proof.
  intros Ha Hr Hw c0. unfold is_i8 in Ha.
  rewrite exec_moveq by (first [by apply reg_of_result | apply u8_range]).
  rewrite i8_u8, i8_small by lia.
  rewrite exec_S. destruct Hw as [-> | ->]; cbn [step];
    [change (decode 0xF27C) with (OScc 0x3C)|change (decode 0xF280) with (OBccW 0)];
    cbn beta iota.
  - assert (E : cond_holds 0 (CC (c0 <| D := upd (D c0) rr (u32 a) |>)) = false)
      by apply Z.bits_0.
    change (0x3C <? 8) with false. change (0x3C <? 16) with false. change (0x3C =? 0x3C) with true.
    cbv iota zeta. rewrite E. finish.
  - assert (E : cond_holds 0 (CC (c0 <| D := upd (D c0) rr (u32 a) |>)) = false)
      by apply Z.bits_0.
    rewrite E. finish.
Qed.

(** What the chip keeps of a control register is a register's value. *)
Context (fpiar_range : forall v, 0 <= v < 4294967296 -> 0 <= fpiar_keeps chip v < 4294967296).

Lemma control_range sel v : 0 <= v < 4294967296 ->
  0 <= control_keeps chip sel v < 4294967296.
Proof. intros Hv. unfold control_keeps. destruct (sel =? 4); auto. Qed.

Lemma fpcr_computes v rw rr sel :
  0 <= v < 2147483648 -> 1 <= rw < 8 -> 1 <= rr < 8 ->
  sel = 0x1000 \/ sel = 0x0800 \/ sel = 0x0400 ->
  computes (fpcr_words v rw rr sel) rr (control_keeps chip (sel / 1024) v).
Proof.
  intros Hv Hw Hr Hs c0. unfold fpcr_words.
  pose proof (reg_of_result _ Hr) as Hr'. pose proof (reg_of_result _ Hw) as Hw'.
  assert (Ed : decode_ext (u16 (0x8000 ||| sel)) = mkExt 4 (sel / 1024) 0 0 /\
               decode_ext (u16 (0xA000 ||| sel)) = mkExt 5 (sel / 1024) 0 0)
    by (destruct Hs as [-> | [-> | ->] ]; by vm_compute).
  destruct Ed as [E4 E5].
  rewrite exec_S. cbn [step]. rewrite decode_movel by done. cbn beta iota.
  rewrite u32_halves_masked by lia.
  assert (rw &&& 7 = rw) as Lw by (reg_enum Hw'; done).
  assert (rr &&& 7 = rr) as Lr by (reg_enum Hr'; done).
  rewrite exec_S. cbn [step]. rewrite decode_general by done. cbn beta iota. unfold step_gen.
  rewrite E4. cbn [opclass fld_src fld_dst fld_op Z.eqb Pos.eqb].
  assert ((rw <? 8) = true) as -> by lia. cbn [andb]. rewrite Lw. cbn [D update]. rewrite upd_eq.
  rewrite exec_S. cbn [step]. rewrite decode_general by done. cbn beta iota. unfold step_gen.
  rewrite E5. cbn [opclass fld_src fld_dst fld_op Z.eqb Pos.eqb andb].
  assert ((rr <? 8) = true) as -> by lia. rewrite Lr. cbn [CR update]. rewrite upd_eq.
  rewrite exec_stop. eexists. split; [reflexivity|]. cbn [D update]. rewrite upd_eq.
  rewrite u32_small by (apply control_range; lia). done.
Qed.

(** The memory images denote the number, over the range the comment gives. *)
Lemma memory_images v : -128 <= v < 128 ->
  load_mem 2 (words (m68881_extended_int v)) = FInt v /\
  load_mem 5 (words (ieee_double_int v)) = FInt v /\
  length (m68881_extended_int v) = 12%nat /\ length (ieee_double_int v) = 8%nat.
Proof.
  intros Hv. pose proof (forall_below (fun x => let v := x - 128 in
    fv_eqb (load_mem 2 (words (m68881_extended_int v))) (FInt v) &&
    fv_eqb (load_mem 5 (words (ieee_double_int v))) (FInt v) &&
    (length (m68881_extended_int v) =? 12)%nat && (length (ieee_double_int v) =? 8)%nat) 256
    ltac:(by vm_compute) (v + 128) ltac:(lia)) as H.
  cbv beta zeta in H. replace (v + 128 - 128) with v in H by lia. zbool.
  destruct (load_mem 2 _), (load_mem 5 _); try done. cbn [fv_eqb] in *. zbool.
  subst. repeat split; by apply Nat.eqb_eq.
Qed.

Lemma pcrel_computes fmt dst rr v data :
  fmt = 2 \/ fmt = 5 -> is_i8 v -> is_reg dst -> 1 <= rr < 8 ->
  load_mem fmt (words data) = FInt v ->
  computes (pcrel_words fmt dst rr ++ words data) rr v.
Proof.
  intros Hf Hv Hd Hr Hl c0. unfold pcrel_words. cbn [app].
  rewrite exec_S. cbn [step]. change (decode 0xF23A) with (OGen 0x3A). cbn beta iota.
  unfold step_gen.
  assert (decode_ext (u16 ((2 <<< 13) ||| ((fmt &&& 7) <<< 10) ||| ((dst &&& 7) <<< 7)))
          = mkExt 2 fmt dst 0) as ->
    by (destruct Hf as [-> | ->]; reg_enum Hd; by vm_compute).
  cbn [opclass fld_src fld_dst fld_op Z.eqb Pos.eqb].
  change (0x3A <? 8) with false. cbv iota.
  change (target (0x000A :: ?a :: ?b :: ?c :: ?d :: ?r) 0x000A) with r.
  rewrite Hl. change (3 <<< 13 ||| 0 <<< 10) with 0x6000. unfold is_i8 in Hv.
  erewrite exec_store_l by
    (first [done | cbn [FP update]; apply upd_eq | by apply reg_of_result | lia]). finish.
Qed.

(** ** The generators of custom rows *)

Ltac custom :=
  apply custom_row_ok;
  [unfold fdiv_trunc_words, fsqrt_trunc_words, fcmp_fscc_words, ftst_fscc_words,
     fcmp_fbcc_words, fmove_x_chain_words, fmove_sized_words, fmovem_words, pcrel_words,
     fpcr_words, fcmp_fdbcc_words, ftrapcc_words, fnop_words; words_ok|
   cbn [words]; rewrite ?app_nil_r].

Lemma trunc_row_shows nm a b ws rr e :
  Forall is_word ws -> trunc_program ws rr e ->
  Shows (exec_verdict OPMODE_FINTRZ) (custom_row nm a b ws [] rr e).
Proof.
  intros Hw [H1 H2]. unfold exec_verdict. destruct (decide (has OPMODE_FINTRZ)) as [H|H].
  - rewrite bool_decide_eq_true_2 by done. apply custom_row_ok; [done|].
    cbn [words]. rewrite app_nil_r. auto.
  - rewrite bool_decide_eq_false_2 by done. by apply custom_row_traps; [|apply H2].
Qed.

Lemma gen_fdiv_trunc_shows m n : AllShow (gen_fdiv_trunc m (Z.of_nat n)) n (exec_verdict OPMODE_FINTRZ).
Proof.
  apply calls_while. intros i.
  draw yields_r_moveq_lim. intros b Hb. destruct (Z.eqb_spec b 0) as [|Hb0]; [by apply yields_ret|].
  draw yields_r_moveq_lim. intros a Ha. cbv zeta.
  destruct (_ || _) eqn:Er; [by apply yields_ret|].
  draw yields_pick_two_fp. intros [dst src] (Hd & Hs & Hne). simpl in Hd, Hs, Hne.
  draw yields_pick_result_reg. intros rr Hrr. apply yields_ret.
  apply trunc_row_shows; [unfold fdiv_trunc_words; words_ok|].
  apply fdiv_trunc_program; unfold is_i8; try lia; done.
Qed.

Lemma gen_fsqrt_trunc_shows m n : AllShow (gen_fsqrt_trunc m (Z.of_nat n)) n (exec_verdict OPMODE_FINTRZ).
Proof.
  apply calls_while. intros i.
  draw yields_r32. intros x Hx. cbv zeta.
  destruct (_ =? 0) eqn:E; [by apply yields_ret|].
  draw yields_pick_fp. intros fp Hfp.
  draw yields_pick_result_reg. intros rr Hrr. apply yields_ret.
  apply trunc_row_shows; [unfold fsqrt_trunc_words; words_ok|].
  apply fsqrt_trunc_program; [dlia|done|done].
Qed.

Lemma gen_fcmp_fscc_shows m n : AllShow (gen_fcmp_fscc m n) n Pass.
Proof.
  apply calls_for. intros i.
  draw yields_r_moveq_lim. intros a Ha. draw yields_r_moveq_lim. intros b Hb.
  draw yields_pick_two_fp. intros [dst src] (Hd & Hs & Hne). simpl in Hd, Hs, Hne.
  draw yields_pick_result_reg. intros rr Hrr. draw yields_r32. intros x Hx.
  cbn [CONDS_ALL]. apply yields_ret. custom.
  apply fcmp_fscc_computes; unfold is_i8; try lia; try done. dlia.
Qed.

Lemma gen_ftst_fscc_shows n : AllShow (gen_ftst_fscc n) n Pass.
Proof.
  apply calls_for. intros i.
  draw yields_r_moveq_lim. intros a Ha. draw yields_r32. intros y _. cbv zeta.
  draw yields_pick_result_reg. intros rr Hrr. draw yields_r32. intros x Hx.
  cbn [CONDS_ALL]. apply yields_ret. custom.
  apply ftst_fscc_computes; unfold is_i8; try lia; [apply land7_reg|dlia].
Qed.

Lemma gen_fcmp_fbcc_shows m n : AllShow (gen_fcmp_fbcc m n) n Pass.
Proof.
  apply calls_for. intros i.
  draw yields_r_moveq_lim. intros a Ha. draw yields_r_moveq_lim. intros b Hb.
  draw yields_pick_two_fp. intros [dst src] (Hd & Hs & Hne). simpl in Hd, Hs, Hne.
  draw yields_pick_result_reg. intros rr Hrr. draw yields_r32. intros x Hx.
  cbn [CONDS_ALL]. apply yields_ret. custom.
  apply fcmp_fbcc_computes with (cond := x mod 32); unfold is_i8; try lia; try done;
    [dlia|by left].
Qed.

Lemma gen_fcmp_fbcc_l_shows m n : AllShow (gen_fcmp_fbcc_l m n) n Pass.
Proof.
  apply calls_for. intros i.
  draw yields_r_moveq_lim. intros a Ha. draw yields_r_moveq_lim. intros b Hb.
  draw yields_pick_two_fp. intros [dst src] (Hd & Hs & Hne). simpl in Hd, Hs, Hne.
  draw yields_pick_result_reg. intros rr Hrr. draw yields_r32. intros x Hx.
  cbn [CONDS_ALL]. apply yields_ret. custom.
  apply fcmp_fbcc_computes with (cond := x mod 32); unfold is_i8; try lia; try done;
    [dlia|by right].
Qed.

Lemma gen_fmove_x_chain_shows m n : AllShow (gen_fmove_x_chain m n) n Pass.
Proof.
  apply calls_for. intros i.
  draw yields_r_moveq_lim. intros a Ha. draw yields_pick_fp. intros v1 H1.
  eapply yields_bind; [apply yields_draw_until, yields_pick_fp|]. intros v2 [H2 _].
  eapply yields_bind; [apply yields_draw_until, yields_pick_fp|]. intros v3 [H3 _].
  draw yields_pick_result_reg. intros rr Hrr. apply yields_ret. custom.
  apply fmove_x_chain_computes; unfold is_i8; try lia; done.
Qed.

Lemma gen_fmove_sized_shows fmt nm n :
  is_fmt fmt -> AllShow (gen_fmove_sized_fp_to_d fmt nm n) n Pass.
Proof.
  intros Hf. apply calls_for. intros i. cbv zeta.
  eapply yields_bind; [apply yields_r_moveq_lim; cases; lia|]. intros a Ha. cbv beta in Ha.
  assert (is_i8 a) by (unfold is_i8; revert Ha; cases; lia).
  draw yields_r32. intros y _.
  draw yields_pick_result_reg. intros rr Hrr. apply yields_ret. custom.
  apply fmove_sized_computes; try done. apply land7_reg.
Qed.

Lemma gen_fmovem_shows n : AllShow (gen_fmovem_x_roundtrip n) n Pass.
Proof.
  apply calls_for. intros i.
  draw yields_r_moveq_lim. intros a Ha.
  draw yields_pick_result_reg. intros rr Hrr. apply yields_ret. custom.
  apply fmovem_computes; unfold is_i8; lia.
Qed.

Lemma gen_pcrel_shows fmt nm nb pack n :
  fmt = 2 \/ fmt = 5 -> (nb <= 12)%nat ->
  (forall v, is_i8 v -> length (pack v) = nb /\ load_mem fmt (words (pack v)) = FInt v) ->
  AllShow (gen_fmove_pcrel_load fmt nm nb pack n) n Pass.
Proof.
  intros Hf Hn Hp. apply calls_for. intros i.
  draw yields_r_moveq_lim. intros v Hv. draw yields_r32. intros y _. cbv zeta.
  draw yields_pick_result_reg. intros rr Hrr. apply yields_ret.
  assert (Hi : is_i8 v) by (unfold is_i8; lia). destruct (Hp v Hi) as [Hl Hm].
  custom. rewrite take_take, Nat.min_l, take_app_le, take_ge by lia.
  apply pcrel_computes; try done. apply land7_reg.
Qed.

(** Row [i] writes FPIAR when [i] is a multiple of 3. *)
Definition fpcr_verdict (i : Z) : Verdict :=
  if (i mod 3 =? 0) && negb (fpiar_keeps chip 0x12345678 =? 0x12345678)
  then ReadBack (fpiar_keeps chip 0x12345678) else Pass.

Lemma fpcrs_shows nm i rw rr : 1 <= rw < 8 -> 1 <= rr < 8 ->
  let '(sel, _, v) := FPCRS (i mod 3) in
  Shows (fpcr_verdict i) (custom_row nm v None (fpcr_words v rw rr sel) [] rr v).
Proof.
  intros Hw Hr. unfold fpcr_verdict.
  assert (Hi : i mod 3 = 0 \/ i mod 3 = 1 \/ i mod 3 = 2) by dlia.
  assert (Hp : forall sel v, Shows Pass (custom_row nm v None (fpcr_words v rw rr sel) [] rr v)
    \/ ~ (0 <= v < 2147483648 /\ (sel = 0x1000 \/ sel = 0x0800 \/ sel = 0x0400) /\
          control_keeps chip (sel / 1024) v = v)).
  { intros sel v. destruct (decide (control_keeps chip (sel / 1024) v = v)) as [E|]; [|right; tauto].
    destruct (decide (0 <= v < 2147483648)); [|right; tauto].
    destruct (decide (sel = 0x1000 \/ sel = 0x0800 \/ sel = 0x0400)); [|right; tauto].
    left. apply custom_row_ok; [unfold fpcr_words; words_ok|]. cbn [words]. rewrite app_nil_r.
    rewrite <- E at 2. by apply fpcr_computes. }
  destruct Hi as [-> | [-> | ->] ]; cbn [FPCRS Z.eqb Pos.eqb andb].
  - destruct (Z.eqb_spec (fpiar_keeps chip 0x12345678) 0x12345678) as [E|E]; cbn [negb].
    + destruct (Hp 0x1000 0x12345678) as [H|[]]; [done|]. unfold control_keeps. simpl. auto with lia.
    + pose proof (fpiar_range 0x12345678 ltac:(lia)) as Hk.
      rewrite <- (u32_small (fpiar_keeps _ _)) by lia.
      apply custom_row_reads; [unfold fpcr_words; words_ok| |rewrite u32_small by lia; done].
      by apply (fpcr_computes _ _ _ 0x1000); [lia| | |left].
  - destruct (Hp 0x0800 0) as [H|[]]; [done|]. unfold control_keeps. simpl. auto with lia.
  - destruct (Hp 0x0400 0x30) as [H|[]]; [done|]. unfold control_keeps. simpl. auto with lia.
Qed.

Lemma gen_fpcr_shows m n :
  Calls Shows (gen_fmove_l_fpcr_roundtrip m n) (fpcr_verdict <$> seqZ 0 (Z.of_nat n)).
Proof.
  apply calls_for_indexed. intros i.
  destruct (FPCRS (i mod 3)) as [[sel name] v] eqn:E.
  draw yields_pick_result_reg. intros rw Hw.
  eapply yields_bind; [apply yields_draw_until, yields_pick_result_reg|]. intros rr [Hr _].
  apply yields_ret. epose proof (fpcrs_shows _ i rw rr Hw Hr) as H. rewrite E in H. exact H.
Qed.

Lemma gen_fcmp_fdbcc_shows m n : AllShow (gen_fcmp_fdbcc m n) n Pass.
Proof.
  apply calls_for. intros i.
  draw yields_r_moveq_lim. intros a Ha. draw yields_r_moveq_lim. intros b Hb.
  draw yields_pick_two_fp. intros [dst src] (Hd & Hs & Hne). simpl in Hd, Hs, Hne.
  draw yields_pick_result_reg. intros rr Hrr.
  eapply yields_bind; [apply yields_draw_until, yields_pick_result_reg|]. intros ctr [Hk Hkr].
  draw yields_r32. intros x Hx. cbn [CONDS_ALL]. apply yields_ret. custom.
  apply fcmp_fdbcc_computes; unfold is_i8; try lia; try done. dlia.
Qed.

Lemma gen_ftrapcc_shows n : AllShow (gen_ftrapcc_false n) n Pass.
Proof.
  apply calls_for. intros i.
  draw yields_r_moveq_lim. intros a Ha.
  draw yields_pick_result_reg. intros rr Hrr. apply yields_ret. custom.
  apply fmove_nop_computes; unfold is_i8; lia.
Qed.

Lemma gen_fnop_shows n : AllShow (gen_fnop n) n Pass.
Proof.
  apply calls_for. intros i.
  draw yields_r_moveq_lim. intros a Ha.
  draw yields_pick_result_reg. intros rr Hrr. apply yields_ret. custom.
  apply fmove_nop_computes; unfold is_i8; lia.
Qed.

End OnChip.

(** ** The whole corpus *)

Abbreviation AllShow chip m n v := (Calls (Shows chip) m (replicate n v)).

Definition rows (n : nat) (v : Verdict) : list Verdict := replicate n v.
Definition cycles (ia : Verdict) : list Verdict := mjoin (replicate 16 [ia; Pass; Pass]).
(** The verdicts of the rows of each call of [main], in order, on a chip that
    gives [fi] to the rows that need FINT or FINTRZ, [sg] to the rows that
    expect FSGLMUL and FSGLDIV to trap, and [ia] to the rows that write FPIAR. *)
Definition call_verdicts (fi sg ia : Verdict) : list (list Verdict) :=
  [rows 40 Pass; rows 40 Pass; rows 40 fi; rows 40 fi] ++
  replicate 5 (rows 40 Pass) ++ replicate 10 (rows 16 Pass) ++
  [rows 16 fi] ++ replicate 3 (rows 16 Pass) ++ replicate 2 (rows 40 fi) ++
  replicate 4 (rows 80 Pass) ++ [rows 40 Pass] ++ replicate 4 (rows 16 Pass) ++
  [rows 80 Pass; rows 16 Pass; cycles ia;
   rows 40 Pass; rows 40 Pass; rows 16 Pass] ++
  replicate 3 (rows 16 Pass) ++ replicate 2 (rows 16 sg) ++
  replicate 20 (rows 16 Pass).
Definition verdicts (fi sg ia : Verdict) : list Verdict := mjoin (call_verdicts fi sg ia).

(** On the chip of [gen_fpu.c], and on the Quadra. *)
Definition assumed_verdicts : list Verdict := verdicts Pass Pass Pass.
Definition quadra_verdicts : list Verdict :=
  verdicts (UnexpectedTrap 11) NoTrap (ReadBack 0x5678).

(** A chip that is one of the two, as far as the corpus can tell. *)
Record Modelled (chip : Chip) (fi sg ia : Verdict) : Prop := {
  mo_common : Forall (has chip) [0x00; 0x04; 0x18; 0x1A; 0x20; 0x22; 0x23; 0x28];
  mo_fpiar : forall v, 0 <= v < 4294967296 -> 0 <= fpiar_keeps chip v < 4294967296;
  mo_fint : forall op, op = OPMODE_FINT \/ op = OPMODE_FINTRZ -> exec_verdict chip op = fi;
  mo_sgl : forall op, op = 0x24 \/ op = 0x27 -> unimpl_verdict chip op = sg;
  mo_unimpl : forall op, op = 0x21 \/ op = 0x25 \/ op = 0x26 \/ op ∈ UNIMPL_MONADIC.*2 ->
    ~ has chip op;
  mo_ia : ia = fpcr_verdict chip 0 }.

Lemma assumed_modelled : Modelled assumed_chip Pass Pass Pass.
Proof.
  constructor.
  - repeat constructor; apply (bool_decide_unpack _); by vm_compute.
  - done.
  - by intros op [-> | ->].
  - by intros op [-> | ->].
  - intros op H. apply (bool_decide_unpack _).
    destruct H as [-> | [-> | [-> | H] ] ]; [by vm_compute..|].
    revert op H. apply Forall_forall. apply (bool_decide_unpack _). by vm_compute.
  - done.
Qed.

Lemma quadra_modelled : Modelled quadra_chip (UnexpectedTrap 11) NoTrap (ReadBack 0x5678).
Proof.
  constructor.
  - repeat constructor; apply (bool_decide_unpack _); by vm_compute.
  - intros v _. simpl. pose proof (u16_range v). lia.
  - by intros op [-> | ->].
  - by intros op [-> | ->].
  - intros op H. apply (bool_decide_unpack _).
    destruct H as [-> | [-> | [-> | H] ] ]; [by vm_compute..|].
    revert op H. apply Forall_forall. apply (bool_decide_unpack _). by vm_compute.
  - done.
Qed.

(** [arith_small]: the arithmetic a generator expects, on its operand range. *)
Ltac arith_small :=
  unfold is_i8 in *; simpl; unfold fneg_compute, fabs_compute, fint_compute, fintrz_compute,
    fadd_compute, fsub_compute, fmul_compute;
  split; [do 2 f_equal|]; cases; zbool; nia.
Ltac fmt_ok := unfold is_fmt; auto.
Ltac member := apply (bool_decide_unpack _); by vm_compute.

Section Calls.
Context (chip : Chip) (fi sg ia : Verdict) (M : Modelled chip fi sg ia).

Lemma monadic_pass nm opm f fmt n :
  opm = OPMODE_FNEG \/ opm = OPMODE_FABS -> is_fmt fmt ->
  (forall a, is_i8 a -> arith opm (FInt a) (FInt a) = Some (FInt (f a)) /\ -256 <= f a <= 256) ->
  AllShow chip (gen_monadic_sized nm opm f fmt n) n Pass.
Proof.
  intros Ho Hf Hc. destruct M as [Hcm _ _ _ _ _].
  rewrite <- (exec_verdict_common chip Hcm opm) by (destruct Ho as [-> | ->]; member).
  apply gen_monadic_shows; [|done|done]. by destruct Ho as [-> | ->].
Qed.

Lemma monadic_fint nm opm f fmt n :
  opm = OPMODE_FINT \/ opm = OPMODE_FINTRZ -> is_fmt fmt -> (forall a, f a = a) ->
  AllShow chip (gen_monadic_sized nm opm f fmt n) n fi.
Proof.
  intros Ho Hf Hc. destruct M as [Hcm _ Hfi _ _ _]. rewrite <- (Hfi opm Ho).
  apply gen_monadic_shows; [|done|].
  - unfold OPMODE_FINT, OPMODE_FINTRZ in Ho. lia.
  - intros a Ha. rewrite Hc. unfold is_i8 in Ha. destruct Ho as [-> | ->]; (split; [done|lia]).
Qed.

Lemma dyadic_pass m nm opm f la lb fmt n :
  opm = OPMODE_FADD \/ opm = OPMODE_FMUL \/ opm = OPMODE_FSUB -> is_fmt fmt -> 0 <= la <= 127 -> 0 <= lb <= 127 ->
  (forall a b, - la <= a <= la -> - lb <= b <= lb ->
    arith opm (FInt b) (FInt a) = Some (FInt (f a b)) /\ -32768 <= f a b <= 32768) ->
  AllShow chip (gen_dyadic_sized m nm opm f la lb fmt n) n Pass.
Proof.
  intros Ho Hf Hla Hlb Hc. destruct M as [Hcm _ _ _ _ _].
  rewrite <- (exec_verdict_common chip Hcm opm) by (destruct Ho as [-> | [-> | ->] ]; member).
  apply gen_dyadic_shows; try done. by destruct Ho as [-> | [-> | ->] ].
Qed.

Lemma unimpl_dyadic_pass m nm opm n :
  opm = 0x21 \/ opm = 0x25 \/ opm = 0x26 ->
  AllShow chip (gen_unimpl_dyadic m nm opm n) n Pass.
Proof.
  intros Ho. destruct M as [Hcm _ _ _ Hn _].
  assert (unimpl_verdict chip opm = Pass) as <-.
  { unfold unimpl_verdict. rewrite bool_decide_eq_false_2; [done|]. apply Hn. tauto. }
  apply gen_unimpl_dyadic_shows; [lia|]. intros a b _ _ H. destruct (Hn opm); [tauto|done].
Qed.

Lemma unimpl_monadic_pass nm opm n :
  0 <= opm < 0x38 -> opm ∈ UNIMPL_MONADIC.*2 ->
  AllShow chip (gen_unimpl_monadic nm opm n) n Pass.
Proof.
  intros Ho Hin. destruct M as [Hcm _ _ _ Hn _].
  apply gen_unimpl_monadic_shows; [done|]. apply Hn. tauto.
Qed.

Lemma unimpl_sgl m nm opm n :
  opm = 0x24 \/ opm = 0x27 -> AllShow chip (gen_unimpl_dyadic m nm opm n) n sg.
Proof.
  intros Ho. destruct M as [Hcm _ _ Hs _ _]. rewrite <- (Hs opm Ho).
  apply gen_unimpl_dyadic_shows; [lia|]. intros a b Ha Hb _.
  destruct Ho as [-> | ->]; simpl; unfold sgl.
  - destruct (Z.eqb_spec b 0); [done|]. destruct (_ =? 0); [|done].
    assert (Z.abs (Z.quot a b) <= Z.abs a).
    { rewrite <- Z.quot_abs by done. apply Z.quot_le_upper_bound; nia. }
    destruct (_ <? _); [|done]. split; [done|]. intros e [= <-]. lia.
  - destruct (_ <? _); [|done]. split; [done|]. intros e [= <-]. nia.
Qed.

Lemma fpcr_calls m :
  Calls (Shows chip) (gen_fmove_l_fpcr_roundtrip m 48) (mjoin (replicate 16 [ia; Pass; Pass])).
Proof.
  destruct M as [Hcm Hr _ _ _ ->]. pose proof (gen_fpcr_shows chip Hr m 48) as H.
  assert (E : fpcr_verdict chip <$> seqZ 0 (Z.of_nat 48) =
              mjoin (replicate 16 [fpcr_verdict chip 0; Pass; Pass])).
  { unfold fpcr_verdict. by vm_compute. }
  by rewrite E in H.
Qed.

Ltac dyadic := apply dyadic_pass; [auto|fmt_ok|lia|lia|intros a b Ha Hb; arith_small].
Ltac monadic := apply monadic_pass; [auto|fmt_ok|intros a Ha; arith_small].
Ltac fint := apply monadic_fint; [auto|fmt_ok|done].
Ltac pcrel := apply gen_pcrel_shows; [lia|lia|]; intros v Hv;
  destruct (memory_images v Hv) as (?&?&?&?); done.

(** [call_shows]: the lemma of the generator called. *)
Ltac call_shows :=
  pose proof (mo_common _ _ _ _ M) as Hcm;
  lazymatch goal with
  | |- Calls _ (gen_monadic "FINT" _ _ _) _ => unfold gen_monadic; fint
  | |- Calls _ (gen_monadic "FINTRZ" _ _ _) _ => unfold gen_monadic; fint
  | |- Calls _ (gen_monadic_sized "FINT" _ _ _ _) _ => fint
  | |- Calls _ (gen_monadic _ _ _ _) _ => unfold gen_monadic; monadic
  | |- Calls _ (gen_monadic_sized _ _ _ _ _) _ => monadic
  | |- Calls _ (gen_dyadic _ _ _ _ _ _ _) _ => unfold gen_dyadic; dyadic
  | |- Calls _ (gen_dyadic_sized _ _ _ _ _ _ _ _) _ => dyadic
  | |- Calls _ (gen_fsqrt _) _ => by apply gen_fsqrt_shows
  | |- Calls _ (gen_fdiv ?m _) _ => by apply (gen_fdiv_shows chip Hcm m 40)
  | |- Calls _ (gen_fdiv_trunc ?m _) _ =>
      rewrite <- (mo_fint _ _ _ _ M OPMODE_FINTRZ) by auto;
      by apply (gen_fdiv_trunc_shows chip Hcm m 40)
  | |- Calls _ (gen_fsqrt_trunc ?m _) _ =>
      rewrite <- (mo_fint _ _ _ _ M OPMODE_FINTRZ) by auto;
      by apply (gen_fsqrt_trunc_shows chip Hcm m 40)
  | |- Calls _ (gen_fcmp_fscc _ _) _ => by apply gen_fcmp_fscc_shows
  | |- Calls _ (gen_ftst_fscc _) _ => by apply gen_ftst_fscc_shows
  | |- Calls _ (gen_fcmp_fbcc _ _) _ => by apply gen_fcmp_fbcc_shows
  | |- Calls _ (gen_fcmp_fbcc_l _ _) _ => by apply gen_fcmp_fbcc_l_shows
  | |- Calls _ (gen_fmove_x_chain _ _) _ => by apply gen_fmove_x_chain_shows
  | |- Calls _ (gen_fmove_sized_fp_to_d _ _ _) _ => apply gen_fmove_sized_shows; fmt_ok
  | |- Calls _ (gen_fnop _) _ => by apply gen_fnop_shows
  | |- Calls _ (gen_fcmp_fdbcc _ _) _ => by apply gen_fcmp_fdbcc_shows
  | |- Calls _ (gen_ftrapcc_false _) _ => by apply gen_ftrapcc_shows
  | |- Calls _ (gen_fmove_l_fpcr_roundtrip _ _) _ => apply fpcr_calls
  | |- Calls _ (gen_fmove_pcrel_load _ _ _ _ _) _ => pcrel
  | |- Calls _ (gen_fmovem_x_roundtrip _) _ => by apply gen_fmovem_shows
  | |- Calls _ (gen_unimpl_monadic _ _ _) _ => apply unimpl_monadic_pass; [done|member]
  | |- Calls _ (gen_unimpl_dyadic _ _ _ _) _ =>
      first [apply unimpl_sgl; by auto | apply unimpl_dyadic_pass; by auto]
  end.

Lemma main_calls_show m : Forall2 (Calls (Shows chip)) (main_calls m) (call_verdicts fi sg ia).
Proof.
  unfold main_calls, UNIMPL_DYADIC, UNIMPL_MONADIC, call_verdicts.
  rewrite !fmap_cons, !fmap_nil.
  cbn [app replicate].
  repeat (apply Forall2_cons; split; [unfold rows, cycles; call_shows|]). apply Forall2_nil. exact I.
Qed.

Lemma corpus_shows m :
  Yields (corpus m) (fun p => p.2 = Z.of_nat (length (verdicts fi sg ia)) /\
                              Forall2 (Shows chip) (verdicts fi sg ia) p.1).
Proof. exact (calls_sequence _ _ _ 0 (main_calls_show m)). Qed.
End Calls.

Lemma forall2_replicate {A B} (P : A -> B -> Prop) n x l :
  Forall2 P (replicate n x) l -> Forall (P x) l.
Proof.
  revert l. induction n as [|n IH]; intros l H; inversion H; subst; constructor; auto.
Qed.

(** How many rows earn a verdict. *)
Definition tally (v : Verdict) (vs : list Verdict) : nat :=
  length (filter (fun v' => v' = v) vs).

(** C3: whatever the seed and whatever the draws, the verdict of every row of
    a finished corpus is settled, from any machine state.  On the 68040 the
    generator's comments assume, every row passes: its program stops with the
    expected value in the result register, or takes the exception the row
    names.  On the Quadra's 68040 as the repository adjudicated it, the
    verdicts are [quadra_verdicts], row by row: 1504 rows pass; the 176 rows
    that need FINT or FINTRZ take vector 11 instead; the 32 rows that expect
    FSGLMUL and FSGLDIV to trap see them executed; and the 16 rows that write
    FPIAR read back the low half of the value. *)
Theorem corpus_sound (fuel : nat) (seed total g : Z) (rs : list Row) :
  corpus fuel seed = Some ((rs, total), g) ->
  Forall (Shows assumed_chip Pass) rs /\
  Forall2 (Shows quadra_chip) quadra_verdicts rs /\
  tally Pass quadra_verdicts = 1504%nat /\
  tally (UnexpectedTrap 11) quadra_verdicts = 176%nat /\
  tally NoTrap quadra_verdicts = 32%nat /\
  tally (ReadBack 0x5678) quadra_verdicts = 16%nat.
Proof.
  intros H.
  destruct (corpus_shows _ _ _ _ assumed_modelled fuel seed _ g H) as [_ H1].
  destruct (corpus_shows _ _ _ _ quadra_modelled fuel seed _ g H) as [_ H2].
  split; [|split; [exact H2|by vm_compute]].
  assert (E : verdicts Pass Pass Pass = replicate 1728 Pass) by by vm_compute.
  rewrite E in H1. exact (forall2_replicate _ _ _ _ H1).
Qed.

Lemma default_seed_completes :
  match corpus 64 DEFAULT_SEED with
  | Some (rs, _, _) => length rs = 1728%nat | None => False end.
Proof. vm_compute. reflexivity. Qed.

Lemma corpus_sound_witness :
  exists rs total g, corpus 64 DEFAULT_SEED = Some (rs, total, g) /\ length rs = 1728%nat /\
                     Forall (Shows assumed_chip Pass) rs.
Proof.
  pose proof default_seed_completes as H.
  destruct (corpus 64 DEFAULT_SEED) as [[[rs total] g]|] eqn:E; [|contradiction].
  exists rs, total, g. split; [reflexivity|]. split; [exact H|].
  exact (proj1 (corpus_sound 64 DEFAULT_SEED total g rs E)).
Defined.

(** ** The file *)

(** No object of the file is opened or closed in [s]. *)
Definition plain (s : string) : Prop := occurs "{"%char s = 0%nat /\ occurs "}"%char s = 0%nat.

(** The braces are neither digits nor punctuation of numbers. *)
Ltac brace_char :=
  change (ord "{"%char) with 123; change (ord "}"%char) with 125; lia.

Lemma plain_app s1 s2 : plain s1 -> plain s2 -> plain (s1 +:+ s2).
Proof. unfold plain. rewrite !occurs_app. lia. Qed.
Lemma plain_sdec v : plain (sdec v).
Proof. split; apply occurs_sdec; brace_char. Qed.
Lemma plain_dec v : plain (dec v).
Proof. split; apply occurs_dec; brace_char. Qed.
Lemma plain_substring n s : plain s -> plain (String.substring 0 n s).
Proof.
  intros [H1 H2]. pose proof (occurs_substring "{"%char n s). pose proof (occurs_substring "}"%char n s).
  split; lia.
Qed.
Lemma plain_cname i : plain (nth i COND_NAMES "").
Proof.
  do 33 (destruct i as [|i]; [by vm_compute|]). by destruct i.
Qed.
Lemma plain_fmt_str fmt : plain (fmt_str fmt).
Proof. unfold fmt_str. by repeat destruct (_ =? _). Qed.
Lemma plain_d3 i : plain (d3 i).
Proof.
  apply plain_app, plain_dec.
  by destruct (3 - String.length (dec i))%nat as [|[|[|[|n] ] ] ].
Qed.
Create HintDb plain.
#[local] Hint Resolve plain_app plain_sdec plain_dec plain_substring plain_cname plain_fmt_str
  plain_d3 : plain.
#[local] Hint Extern 1 (plain (String _ _)) => (split; reflexivity) : plain.
#[local] Hint Extern 1 (plain EmptyString) => (split; reflexivity) : plain.

Lemma occurs_join c bs : ~ (48 <= ord c < 58) -> ord c <> 44 -> occurs c (join_comma bs) = 0%nat.
Proof.
  intros Hc Hm. induction bs as [|b bs IH]; [done|]. cbn [join_comma].
  destruct bs as [|b' bs]; [by apply occurs_dec|].
  rewrite !occurs_app, occurs_dec, IH by done. cbn [occurs].
  destruct (Ascii.eqb_spec c ","%char) as [->|]; [by destruct Hm|done].
Qed.

(** A row prints as one object. *)
Lemma emit_row_object b r : plain (row_name r) ->
  occurs "{"%char (emit_row b r) = 1%nat /\ occurs "}"%char (emit_row b r) = 1%nat.
Proof.
  intros [H1 H2]. unfold emit_row, key.
  assert (Hq : plain quote) by done. assert (Hl : plain newline) by done.
  destruct Hq as [Hq1 Hq2], Hl as [Hl1 Hl2].
  assert (Hd : forall v, occurs "{"%char (sdec v) = 0%nat /\ occurs "}"%char (sdec v) = 0%nat)
    by apply plain_sdec.
  assert (Hj : forall l, occurs "{"%char (join_comma l) = 0%nat /\
                         occurs "}"%char (join_comma l) = 0%nat)
    by (intros l; split; apply occurs_join; brace_char).
  pose proof (fun v => proj1 (Hd v)) as Hd1. pose proof (fun v => proj2 (Hd v)) as Hd2.
  pose proof (fun v => proj1 (Hj v)) as Hj1. pose proof (fun v => proj2 (Hj v)) as Hj2.
  clear Hd Hj.
  split; destruct b, (row_b r), (row_style r) as [[] v|];
    rewrite ?occurs_app, ?H1, ?H2, ?Hq1, ?Hq2, ?Hl1, ?Hl2, ?Hd1, ?Hd2, ?Hj1, ?Hj2; reflexivity.
Qed.

(** The names of the rows are plain. *)
Definition named (u : unit) (r : Row) : Prop := plain (row_name r).

Lemma yields_any {A} (m : Gen A) : Yields m (fun _ => True).
Proof. done. Qed.

Lemma plain_fpcr i : plain (FPCRS i).1.2.
Proof. unfold FPCRS. by destruct i as [|[]|]. Qed.

(** [body_named]: run through a generator's body to its row. *)
Ltac body_named :=
  cbv zeta;
  lazymatch goal with
  | |- Yields (bind _ _) _ =>
      eapply yields_bind; [apply yields_any|]; intros ? _; body_named
  | |- Yields (match CONDS_ALL ?i with (_, _) => _ end) _ => cbn [CONDS_ALL]; body_named
  | |- Yields (match FPCRS ?i with (_, _) => _ end) _ =>
      pose proof (plain_fpcr i); destruct (FPCRS i) as [[? ?] ?]; simpl in *; body_named
  | |- Yields (match ?p with (_, _) => _ end) _ => destruct p; body_named
  | |- Yields (if ?b then _ else _) _ => destruct b; body_named
  | |- Yields (ret None) _ => by apply yields_ret
  | |- Yields (ret _) _ =>
      apply yields_ret; unfold named, custom_row, clean_row, snprintf, fp_s, dn_s;
      cbn [row_name]; auto 60 with plain nocore
  end.
Ltac call_named :=
  lazymatch goal with
  | |- Calls _ (gen_fdiv _ _) _ => apply (calls_while _ tt _ 40)
  | |- Calls _ (gen_fdiv_trunc _ _) _ => apply (calls_while _ tt _ 40)
  | |- Calls _ (gen_fsqrt_trunc _ _) _ => apply (calls_while _ tt _ 40)
  | _ => apply (calls_for named tt)
  end; intros ?; body_named.

Definition call_counts : list nat := length <$> call_verdicts Pass Pass Pass.

Lemma main_calls_named m :
  Forall2 (Calls named) (main_calls m) ((fun n => replicate n tt) <$> call_counts).
Proof.
  unfold main_calls, UNIMPL_DYADIC, UNIMPL_MONADIC.
  let l := eval vm_compute in call_counts in change call_counts with l.
  rewrite !fmap_cons, !fmap_nil. cbn [app].
  repeat (apply Forall2_cons; split; [call_named|]). apply Forall2_nil. exact I.
Qed.

Lemma corpus_named m :
  Yields (corpus m) (fun p => p.2 = 1728 /\ length p.1 = 1728%nat /\
                              Forall (fun r => plain (row_name r)) p.1).
Proof.
  intros g [rs total] g' H.
  destruct (calls_sequence _ _ _ 0 (main_calls_named m) g _ g' H) as [Ht Hrs]. cbn [fst snd] in Ht, Hrs.
  assert (E : mjoin ((fun n => replicate n tt) <$> call_counts) = replicate 1728 tt) by by vm_compute.
  rewrite E, length_replicate in Ht. rewrite E in Hrs. cbn [fst snd].
  pose proof (Forall2_length _ _ _ Hrs) as Hl. rewrite length_replicate in Hl.
  split; [exact Ht|]. split; [exact (eq_sym Hl)|exact (forall2_replicate _ _ _ _ Hrs)].
Qed.

Lemma print_rows_objects b rs : Forall (fun r => plain (row_name r)) rs ->
  occurs "{"%char (print_rows b rs) = length rs /\
  occurs "}"%char (print_rows b rs) = length rs.
Proof.
  intros H. revert b. induction H as [|r rs Hr _ IH]; intros b; [done|].
  cbn [print_rows length]. rewrite !occurs_app.
  destruct (emit_row_object b r Hr) as [-> ->], (IH false) as [-> ->]. done.
Qed.

Lemma file_text_objects rs : Forall (fun r => plain (row_name r)) rs ->
  occurs "{"%char (file_text rs) = length rs /\ occurs "}"%char (file_text rs) = length rs.
Proof.
  intros H. destruct (print_rows_objects true rs H) as [H1 H2].
  unfold file_text. rewrite !occurs_app, H1, H2.
  split; (change (occurs _ newline) with 0%nat; cbn [occurs Ascii.eqb Bool.eqb]; lia).
Qed.

(** C29: the default seed's run ends; and a run that ends, whatever its seed,
    has added up 1728 from what the generators return, which is the number of
    rows they made and of the objects in the file: the text is those rows,
    printed in order, with one opening and one closing brace each. *)
Theorem corpus_size :
  (exists r, main 64 DEFAULT_SEED = Some r) /\
  forall (fuel : nat) (seed total g : Z) (text : string),
    main fuel seed = Some (text, total, g) ->
    total = 1728 /\
    exists rs, corpus fuel (u32 seed) = Some ((rs, total), g) /\ length rs = 1728%nat /\
      text = file_text rs /\
      occurs "{"%char text = 1728%nat /\ occurs "}"%char text = 1728%nat.
Proof.
  split.
  - pose proof default_seed_completes as H. unfold main.
    rewrite (u32_small DEFAULT_SEED) by (unfold DEFAULT_SEED; lia).
    destruct (corpus 64 DEFAULT_SEED) as [[[rs total] g]|]; [by eexists|contradiction].
  - intros fuel seed total g text. unfold main.
    destruct (corpus fuel (u32 seed)) as [[[rs t] g1]|] eqn:E; [|done].
    intros [= <- <- <-]. destruct (corpus_named fuel _ _ _ E) as (Ht & Hl & Hn). cbn [fst snd] in *.
    destruct (file_text_objects rs Hn) as [H1 H2]. split; [exact Ht|].
    exists rs. by rewrite H1, H2.
Qed.

Lemma corpus_size_witness :
  exists text g, main 64 DEFAULT_SEED = Some (text, 1728, g) /\ occurs "{"%char text = 1728%nat.
Proof.
  destruct corpus_size as [[[[text total] g] E] H].
  destruct (H 64%nat DEFAULT_SEED total g text E) as (Ht & rs & _ & _ & _ & Hb & _).
  exists text, g. split; [|exact Hb]. rewrite <- Ht. exact E.
Defined.

(** ** The stuck seed *)

Lemma bind_Some {A B} (m : Gen A) (k : A -> Gen B) g a g' :
  m g = Some (a, g') -> bind m k g = k a g'.
Proof. unfold bind. by intros ->. Qed.
Lemma bind_None1 {A B} (m : Gen A) (k : A -> Gen B) g : m g = None -> bind m k g = None.
Proof. unfold bind. by intros ->. Qed.
Lemma bind_Some_None {A B} (m : Gen A) (k : A -> Gen B) g a g' :
  m g = Some (a, g') -> k a g' = None -> bind m k g = None.
Proof. unfold bind. by intros ->. Qed.

Lemma for_rows_fixed n i body g :
  (forall i, exists r, body i g = Some (r, g)) ->
  exists rs, for_rows n i body g = Some (rs, g).
Proof.
  intros Hb. revert i. induction n as [|n IH]; intros i; simpl; [by eexists|].
  unfold bind. destruct (Hb i) as [r ->]. destruct (IH (i + 1)) as [rs ->]. by eexists.
Qed.

Lemma gen_monadic_zero nm opm f n : exists rs, gen_monadic nm opm f n 0 = Some (rs, 0).
Proof.
  unfold gen_monadic, gen_monadic_sized, for_count. unfold bind at 1.
  edestruct (for_rows_fixed n 0) as [rs E]; [|rewrite E; by eexists]. intros i. unfold bind at 1.
  change (r_moveq 0) with (Some (0, 0)). cbv beta iota. unfold bind at 1.
  change (pick_fp 0) with (Some (0, 0)). cbv beta iota. unfold bind at 1.
  change (pick_result_reg 0) with (Some (1, 0)). by eexists.
Qed.

Lemma draw_until_zero n : draw_until n pick_fp (fun b => b =? 0) 0 = None.
Proof. induction n as [|n IH]; [done|]. simpl. unfold bind. simpl. exact IH. Qed.

Lemma pick_two_fp_zero m : pick_two_fp m 0 = None.
Proof.
  unfold pick_two_fp, bind. change (pick_fp 0) with (Some (0, 0)). cbv iota beta.
  by rewrite draw_until_zero.
Qed.

(** The xorshift step never leaves zero, and never reaches it. *)
Lemma shiftl_xor_zero x k : 0 < k -> 0 <= x < 2 ^ 32 ->
  u32 (x ^^^ u32 (x <<< k)) = 0 -> x = 0.
Proof.
  intros Hk Hx H.
  assert (Hb : forall i, 0 <= i < 32 -> Z.testbit x i = false).
  { intros i. pattern i. apply (well_founded_induction (Z.lt_wf 0)). clear i. intros i IH Hi.
    assert (Hi0 : Z.testbit (u32 (x ^^^ u32 (x <<< k))) i = false) by (rewrite H; apply Z.bits_0).
    unfold u32 in Hi0. change 4294967296 with (2 ^ 32) in Hi0.
    rewrite Z.mod_pow2_bits_low, Z.lxor_spec, Z.mod_pow2_bits_low, Z.shiftl_spec in Hi0 by lia.
    destruct (Z.lt_ge_cases i k).
    - rewrite (Z.testbit_neg_r x (i - k)), xorb_false_r in Hi0 by lia. done.
    - rewrite (IH (i - k)), xorb_false_r in Hi0 by lia. done. }
  apply Z.bits_inj'. intros i Hi. rewrite Z.bits_0.
  destruct (Z.lt_ge_cases i 32); [by apply Hb|]. by apply (testbit_small x 32).
Qed.

Lemma shiftr_xor_zero x k : 0 < k -> 0 <= x < 2 ^ 32 -> x ^^^ (x >>> k) = 0 -> x = 0.
Proof.
  intros Hk Hx H. apply Z.lxor_eq in H.
  rewrite Z.shiftr_div_pow2 in H by lia.
  destruct (decide (x = 0)); [done|].
  assert (x / 2 ^ k < x); [|lia]. apply Z.div_lt; [lia|].
  pose proof (Z.pow_gt_1 2 k). lia.
Qed.

(** No number of draws is enough. *)
Definition hangs (seed : Z) : Prop := forall fuel, main fuel seed = None.

(** C27: zero is the generator's only fixed state that draws nothing else:
    from it [main] never ends, whatever time it is given (the second operand
    register of the first two-operand row is drawn until it differs from the
    first), while from any other state the random number generator never
    falls into it. *)
Theorem zero_seed_hangs :
  hangs 0 /\
  (forall x, 0 < x < 2 ^ 32 -> 0 < r32_step x < 2 ^ 32).
Proof.
  split.
  - intros m. unfold main, corpus, main_calls. change (u32 0) with 0.
    assert (H : sequence 0 (main_calls m) 0 = None); [|unfold main_calls in H; by rewrite H].
    unfold main_calls. cbn [app sequence].
    do 4 (edestruct gen_monadic_zero as [[? ?] E]; rewrite (bind_Some _ _ _ _ _ E); cbv beta; clear E; apply bind_None1).
    do 3 apply bind_None1. apply (bind_Some_None _ _ 0 (-127) 0); [done|].
    apply (bind_Some_None _ _ 0 (-127) 0); [done|].
    apply bind_None1, pick_two_fp_zero.
  - intros x Hx. unfold r32_step. cbv zeta.
    set (a := u32 (x ^^^ u32 (x <<< 13))). set (b := a ^^^ (a >>> 17)).
    assert (Ha : 0 < a < 2 ^ 32).
    { pose proof (u32_range (x ^^^ u32 (x <<< 13))). fold a in H. change (2 ^ 32) with 4294967296.
      destruct (decide (a = 0)) as [E|]; [|lia]. apply shiftl_xor_zero in E; lia. }
    assert (Hb : 0 < b < 2 ^ 32).
    { assert (0 <= b).
      { apply Z.lxor_nonneg. rewrite Z.shiftr_nonneg. split; lia. }
      destruct (decide (b = 0)) as [E|]; [apply shiftr_xor_zero in E; lia|].
      split; [lia|]. apply Z.log2_lt_cancel. rewrite Z.log2_pow2 by lia.
      assert (Hs : 0 <= a >>> 17) by (apply Z.shiftr_nonneg; lia).
      pose proof (Z.log2_lxor a (a >>> 17) ltac:(lia) Hs) as Hl.
      rewrite Z.log2_shiftr in Hl by lia.
      assert (Z.log2 a < 32) by (apply Z.log2_lt_pow2; lia).
      pose proof (Z.log2_nonneg a). unfold b. lia. }
    pose proof (u32_range (b ^^^ u32 (b <<< 5))). change (2 ^ 32) with 4294967296.
    destruct (decide (u32 (b ^^^ u32 (b <<< 5)) = 0)) as [E|]; [|lia].
    apply shiftl_xor_zero in E; lia.
Qed.

(** ** Conditions and operands *)

(** The paired code of the other half, and the code of the negation. *)
Definition signalling (cond : Z) : Z := cond ^^^ 16.
Definition complement (cond : Z) : Z := cond ^^^ 15.

(** C20: for each of the 32 predicate codes and all integers, the evaluator is
    the predicate table of the compare result; the signalling half repeats
    the quiet half, and the code with all four low bits inverted is the
    negation. *)
Theorem eval_cond_predicates (cond n m : Z) : 0 <= cond < 32 ->
  eval_cond_int cond n m = cond_holds cond (Some (n ?= m)) /\
  eval_cond_int (signalling cond) n m = eval_cond_int cond n m /\
  eval_cond_int (complement cond) n m = negb (eval_cond_int cond n m).
Proof.
  intros Hc. unfold signalling, complement.
  assert (Hx : forall k, k = 16 \/ k = 15 -> 0 <= cond ^^^ k < 32).
  { intros k Hk.
    pose proof (forall_below (fun c => (0 <=? c ^^^ 16) && (c ^^^ 16 <? 32) &&
      (0 <=? c ^^^ 15) && (c ^^^ 15 <? 32)) 32 ltac:(by vm_compute) cond Hc) as H.
    cbv beta in H. zbool. destruct Hk as [-> | ->]; lia. }
  rewrite !cond_table by auto. unfold cond_holds. rewrite !Z.lxor_spec.
  split; [done|]. by destruct (n ?= m), (Z.testbit cond 0), (Z.testbit cond 1), (Z.testbit cond 2).
Qed.

Lemma eval_cond_predicates_witness :
  0 <= 0x0D < 32 /\ eval_cond_int 0x0D 3 7 = true /\ eval_cond_int 0x02 3 7 = false.
Proof.
  assert (H : 0 <= 0x0D < 32) by lia. split; [exact H|].
  destruct (eval_cond_predicates 0x0D 3 7 H) as (H1 & _ & H2). split.
  - rewrite H1. reflexivity.
  - change 0x02 with (complement 0x0D). rewrite H2, H1. reflexivity.
Defined.

(** C21: a drawn operand is within its limit, for every limit [main] uses,
    although the draw wraps to [int8_t] before the limit is subtracted; and
    the three number encoders denote the operand exactly: the single's bits,
    and the double's 8 and the extended's 12 bytes. *)
Theorem operand_encodings (limit g a g' : Z) : 0 <= limit <= 127 ->
  r_moveq_lim limit g = Some (a, g') ->
  is_i8 a /\ - limit <= a <= limit /\
  single_value (u32 (int_to_ieee_single a)) = FInt a /\
  load_mem 5 (words (ieee_double_int a)) = FInt a /\
  load_mem 2 (words (m68881_extended_int a)) = FInt a /\
  length (ieee_double_int a) = 8%nat /\ length (m68881_extended_int a) = 12%nat.
Proof.
  intros Hl H. unfold is_i8. pose proof (yields_r_moveq_lim limit Hl g a g' H) as Ha. cbv beta in Ha.
  destruct (memory_images a) as (?&?&?&?); [lia|].
  destruct (single_value_spec a) as (?&_); [unfold is_i8; lia|].
  repeat split; (done || lia).
Qed.

Lemma operand_encodings_witness :
  exists a g', r_moveq_lim 127 DEFAULT_SEED = Some (a, g') /\ - 127 <= a <= 127.
Proof.
  do 2 eexists. split; [vm_compute; reflexivity|].
  assert (H : 0 <= 127 <= 127) by lia.
  refine (proj1 (proj2 (operand_encodings 127 DEFAULT_SEED _ _ H _))). vm_compute. reflexivity.
Defined.

(** ** The disassembler on the generated words *)

(** The words of a load and of a store of a corpus program: operation word
    [0xF200] with the effective address, extension word with the format and
    the register. *)
Definition load_ext (fmt n : Z) : Z := fmove_size_d0_fpn n fmt.
Definition store_ext (fmt n : Z) : Z := u16 ((3 <<< 13) ||| (fmt <<< 10) ||| ((n &&& 7) <<< 7) ||| 0).

Lemma move_words_disasm :
  forallb (fun z => let ea := z / 64 in let fmt := (z / 8) mod 8 in let n := z mod 8 in
    let op := 0xF200 ||| ea in
    String.eqb (fline.disasm op (load_ext fmt n))
      ("FMOVE." +:+ fline.chars (fline.fmt_letter fmt) +:+ " " +:+ fp_s n +:+ ","
       +:+ fline.ea_text (ea / 8) (ea mod 8)) &&
    String.eqb (fline.disasm op (store_ext fmt n))
      ("cpGEN $" +:+ hex 4 op +:+ " $" +:+ hex 4 (store_ext fmt n)))
    (Z.of_nat <$> seq 0 (64 * 64)) = true.
Proof. vm_compute. reflexivity. Qed.

(** C28: the disassembler takes the two directions of FMOVE for something else.
    For every effective address, format and register, the word that loads
    from the address to FPn (the corpus uses it with [D0], [0xF200], and
    PC-relative, [0xF23A]) is printed as a store of FPn to the address, and
    the word that stores FPn to the address (the corpus uses it with every
    data register and the formats L, S, W and B) is not recognised: only its
    hexadecimal words are printed. *)
Theorem disasm_swaps_moves (ea fmt n : Z) : 0 <= ea < 64 -> is_reg fmt -> is_reg n ->
  decode (0xF200 ||| ea) = OGen ea /\
  decode_ext (load_ext fmt n) = mkExt 2 fmt n 0 /\
  fline.disasm (0xF200 ||| ea) (load_ext fmt n) =
    ("FMOVE." +:+ fline.chars (fline.fmt_letter fmt) +:+ " " +:+ fp_s n +:+ ","
     +:+ fline.ea_text (ea / 8) (ea mod 8))%string /\
  decode_ext (store_ext fmt n) = mkExt 3 fmt n 0 /\
  fline.disasm (0xF200 ||| ea) (store_ext fmt n) =
    ("cpGEN $" +:+ hex 4 (0xF200 ||| ea) +:+ " $" +:+ hex 4 (store_ext fmt n))%string.
Proof.
  intros He Hf Hn.
  assert (Ho : forallb (fun ea => match decode (0xF200 ||| ea) with OGen x => x =? ea | _ => false end)
    (Z.of_nat <$> seq 0 64) = true) by by vm_compute.
  apply (forall_below _ 64) with (z := ea) in Ho; [|done].
  pose proof (forall_below _ (64 * 64) move_words_disasm (ea * 64 + fmt * 8 + n)) as H.
  unfold is_reg in *. specialize (H ltac:(simpl Z.of_nat; lia)). cbv beta zeta in H.
  replace ((ea * 64 + fmt * 8 + n) / 64) with ea in H by dlia.
  replace ((ea * 64 + fmt * 8 + n) / 8 mod 8) with fmt in H by dlia.
  replace ((ea * 64 + fmt * 8 + n) mod 8) with n in H by dlia.
  apply andb_true_iff in H as [H1 H2]. apply String.eqb_eq in H1, H2.
  split; [destruct (decode _); try done; by zbool; subst|].
  split; [by apply decode_ext_load|]. split; [exact H1|].
  split; [by apply decode_ext_store|exact H2].
Qed.

Lemma disasm_swaps_moves_witness :
  fline.disasm 0xF200 (load_ext FMT_L 1) = "FMOVE.L FP1,D0"%string /\
  fline.disasm 0xF23A (load_ext 2 3) = "FMOVE.X FP3,d16(PC)"%string /\
  fline.disasm 0xF205 (store_ext FMT_W 1) = "cpGEN $F205 $7080"%string.
Proof.
  assert (H : forall z, 0 <= z < 8 -> is_reg z) by done.
  destruct (disasm_swaps_moves 0 FMT_L 1 ltac:(lia) (H 0 ltac:(lia)) (H 1 ltac:(lia)))
    as (_ & _ & H1 & _).
  destruct (disasm_swaps_moves 0x3A 2 3 ltac:(lia) (H 2 ltac:(lia)) (H 3 ltac:(lia)))
    as (_ & _ & H2 & _).
  destruct (disasm_swaps_moves 5 FMT_W 1 ltac:(lia) (H 4 ltac:(lia)) (H 1 ltac:(lia)))
    as (_ & _ & _ & _ & H3).
  split; [etransitivity; [exact H1|reflexivity]|].
  split; [etransitivity; [exact H2|reflexivity]|].
  etransitivity; [exact H3|vm_compute; reflexivity].
Defined.

End GenFpuFacts.
