(* ===== verification/Diskcopy.v ===== *)
(** * Diskcopy: the floppy duplicator

    [SingleStepTests/preboot/diskcopy/diskcopy_main.c] and the eject helper
    [common/runtime/eject.c] it calls.  The Device Manager traps and the key
    map are the operating system's: they are parameters that act on a world
    [W], a trap taking the 80 bytes of its parameter block and either
    returning D0 or raising a CPU exception.  What the program paints is the
    log of the state.  A computation yields a value, crashes (an exception
    outside the recovery barrier) or runs out of the fuel of its loops. *)

From S2P Require Import Prelude CText.
#[local] Open Scope string_scope.
#[local] Open Scope list_scope.
#[local] Open Scope Z_scope.
#[local] Open Scope c_scope.

Module Diskcopy.

Definition SECTOR_BYTES : Z := 512.
Definition DISK_BYTES : Z := 819200.
Definition CHUNK_BYTES : Z := 32768.
Definition IOBUF_BASE : Z := 0x00200000.
Definition SONY_REFNUM : Z := -5.
Definition EXC_ERR_BASE : Z := 30000.
Definition LINE (n : Z) : Z := n * 12.

Definition KC_1 : Z := 0x12.
Definition KC_2 : Z := 0x13.
Definition KC_RETURN : Z := 0x24.
Definition KC_ESC : Z := 0x35.

(** ** Parameter blocks *)

(** [ParamBlock], the fields the program sets; the others are zero. *)
Record ParamBlock := mkPB {
  io_vrefnum : Z; io_refnum : Z; io_versnum : Z; io_permssn : Z;
  io_buffer : Z; io_req_count : Z; io_pos_mode : Z; io_pos_offset : Z }.

Definition be16 (z : Z) : list Z := [u8 (z >>> 8); u8 z].
Definition be32 (z : Z) : list Z := [u8 (z >>> 24); u8 (z >>> 16); u8 (z >>> 8); u8 z].

(** Its 80 bytes in memory. *)
Definition pb_bytes (p : ParamBlock) : list Z :=
  replicate 22 0 ++ be16 (io_vrefnum p) ++ be16 (io_refnum p) ++
  [u8 (io_versnum p); u8 (io_permssn p)] ++ replicate 4 0 ++
  be32 (io_buffer p) ++ be32 (io_req_count p) ++ replicate 4 0 ++
  be16 (io_pos_mode p) ++ be32 (io_pos_offset p) ++ replicate 30 0.

Definition pb_init (drive buf offset len : Z) : ParamBlock :=
  mkPB drive SONY_REFNUM 0 0 buf len 1 offset.

(** The block [sony_format] builds: csCode 6. *)
Definition format_pb (drive : Z) : ParamBlock := mkPB drive SONY_REFNUM 0 6 0 0 0 0.

(** The block [eject_floppy] builds byte by byte. *)
Definition eject_pb (drive : Z) : list Z :=
  <[27%nat := 0x07]> (<[26%nat := 0x00]> (<[25%nat := 0xFB]> (<[24%nat := 0xFF]>
  (<[23%nat := drive &&& 0xFF]> (<[22%nat := (drive >>> 8) &&& 0xFF]> (replicate 80 0)))))).

(** ** Text *)

(** What [paint_string] leaves on the screen: [max] cells, blank behind the
    text. *)
Definition cells (s : list Z) (max : nat) : list Z := take max (s ++ replicate max 32).

Definition put_dec (v : Z) (width : nat) : list Z :=
  let ds := dec_bytes v in
  let pos := (width - length ds)%nat in
  replicate pos 32 ++ take (width - pos) ds.

(** The non-blank characters of a number field. *)
Definition unpadded (l : list Z) : list Z := List.filter (fun c => negb (c =? 32)) l.

Definition result_text (label : string) (res : Z) : list Z :=
  take 24 (bytes_of label) ++ bytes_of "res=" ++
  (if res <? 0 then bytes_of "-" else []) ++ unpadded (put_dec (Z.abs res) 5).

Definition progress_text (phase : string) (off : Z) : list Z :=
  take 13 (take 12 (bytes_of phase) ++ replicate 13 32) ++
  unpadded (put_dec (u32 (off * 100) / DISK_BYTES) 3) ++ bytes_of "% (" ++
  put_dec (off / SECTOR_BYTES) 4 ++ bytes_of "/1600)".

(** ** Effects *)

Record Paint := mkPaint { row : Z; col : Z; text : list Z }.

(** What a trap does: return D0, or raise the exception [vec]. *)
Inductive TrapResult := Ret (d0 : Z) | Exc (vec : Z).

Inductive Out (A : Type) := Val (a : A) | Crashed | NoFuel.
Arguments Val {A} a.
Arguments Crashed {A}.
Arguments NoFuel {A}.

Section Program.
Context {W : Type}.
Context (trap_read trap_write trap_control : list Z -> W -> TrapResult * W).
Context (key_down : Z -> W -> bool * W).

Record St := mkSt { world : W; log : list Paint }.
#[local] Instance eta_St : Eta St := fun s => mkSt (world s) (log s).

Definition M (A : Type) : Type := St -> Out A * St.
Definition ret {A} (a : A) : M A := fun s => (Val a, s).
Definition bind {A B} (m : M A) (k : A -> M B) : M B := fun s =>
  match m s with
  | (Val a, s) => k a s
  | (Crashed, s) => (Crashed, s)
  | (NoFuel, s) => (NoFuel, s)
  end.
Notation "'let*' x := m 'in' k" := (bind m (fun x => k))
  (at level 10, x name, m at level 200, k at level 200).
Notation "m ;; k" := (bind m (fun _ => k)) (at level 100, k at level 200, right associativity).

Definition on_world {A} (f : W -> A * W) : M A := fun s =>
  let '(a, w) := f (world s) in (Val a, mkSt w (log s)).
Definition out_of_fuel {A} : M A := fun s => (NoFuel, s).
Definition crash {A} : M A := fun s => (Crashed, s).

Definition paint_string (r c : Z) (t : list Z) (max : nat) : M unit := fun s =>
  (Val tt, mkSt (world s) (log s ++ [mkPaint r c (cells t max)])).
Definition paint_text (r c : Z) (t : string) (max : nat) : M unit :=
  paint_string r c (bytes_of t) max.
Definition paint_blank (r c : Z) (max : nat) : M unit := paint_string r c [] max.

Definition KEY_DOWN (kc : Z) : M bool := on_world (key_down kc).

(** Polls until [KEY_DOWN kc] is [b]. *)
Fixpoint poll (fuel : nat) (kc : Z) (b : bool) : M unit :=
  match fuel with
  | O => out_of_fuel
  | S fuel => let* d := KEY_DOWN kc in if eqb d b then ret tt else poll fuel kc b
  end.
Definition wait_key (fuel : nat) (kc : Z) : M unit := poll fuel kc true ;; poll fuel kc false.

(** The loops that wait for one of two keys; [true] for the first. *)
Fixpoint choose (fuel n : nat) (ka kb : Z) : M bool :=
  match n with
  | O => out_of_fuel
  | S n =>
      let* a := KEY_DOWN ka in
      if a : bool then wait_key fuel ka ;; ret true
      else
        let* b := KEY_DOWN kb in
        if b : bool then wait_key fuel kb ;; ret false else choose fuel n ka kb
  end.

(** A trap behind the recovery barrier. *)
Definition recovered (trap : list Z -> W -> TrapResult * W) (pb : list Z) : M Z :=
  let* r := on_world (trap pb) in
  ret match r with Ret d0 => i16 d0 | Exc v => i16 (EXC_ERR_BASE + v) end.

Definition sony_format (drive : Z) : M Z := recovered trap_control (pb_bytes (format_pb drive)).

Definition xfer (is_write : bool) (drive buf offset len : Z) : M Z :=
  recovered (if is_write then trap_write else trap_read)
            (pb_bytes (pb_init drive buf offset len)).

(** [eject_floppy] has no barrier. *)
Definition eject_floppy (drive : Z) : M Z :=
  let* r := on_world (trap_control (eject_pb drive)) in
  match r with Ret d0 => ret (i16 d0) | Exc _ => crash end.

Definition paint_result (r : Z) (label : string) (res : Z) : M unit :=
  let t := result_text label res in paint_string r 1 t (length t).

(** The loop of [transfer_all]; [n] bounds the chunks. *)
Fixpoint transfer_loop (n : nat) (off : Z) (is_write : bool) (drive : Z) (phase : string)
    (prog_row : Z) : M Z :=
  if off <? DISK_BYTES then
    match n with
    | O => out_of_fuel
    | S n =>
        let chunk := DISK_BYTES - off in
        let chunk := if chunk >? CHUNK_BYTES then CHUNK_BYTES else chunk in
        let* r := xfer is_write drive (u32 (IOBUF_BASE + off)) off chunk in
        if negb (r =? 0) then ret r
        else
          let off := off + chunk in
          let t := progress_text phase off in
          paint_string prog_row 1 t (length t) ;;
          transfer_loop n off is_write drive phase prog_row
    end
  else ret 0.
(** 25 chunks. *)
Definition chunks : nat := 25.
Definition transfer_all := transfer_loop chunks 0.

(** [true]: the user gave up. *)
Fixpoint transfer_with_retry (fuel n : nat) (is_write : bool) (drive : Z) (phase : string)
    (prog_row msg_row : Z) : M bool :=
  match n with
  | O => out_of_fuel
  | S n =>
      let* r := transfer_all is_write drive phase prog_row in
      if r =? 0 then ret false
      else
        paint_result msg_row (if is_write then "WRITE failed " else "READ failed ") r ;;
        paint_text (msg_row + 12) 1 "RETURN=retry  ESC=abort                 " 40 ;;
        let* again := choose fuel fuel KC_RETURN KC_ESC in
        if again : bool then
          paint_blank msg_row 1 40 ;;
          paint_blank (msg_row + 12) 1 40 ;;
          transfer_with_retry fuel n is_write drive phase prog_row msg_row
        else ret true
  end.

(** The formatting loop of [bench_main]; [true]: the user gave up. *)
Fixpoint format_with_retry (fuel n : nat) (dst : Z) : M bool :=
  match n with
  | O => out_of_fuel
  | S n =>
      paint_text (LINE 13) 1 "Formatting dest ...                     " 40 ;;
      let* fr := sony_format dst in
      if fr =? 0 then
        paint_text (LINE 13) 1 "Formatting dest ... done                " 40 ;; ret false
      else
        paint_result (LINE 16) "FORMAT failed " fr ;;
        paint_text (LINE 17) 1 "RETURN=retry   ESC=abort                " 40 ;;
        let* again := choose fuel fuel KC_RETURN KC_ESC in
        if again : bool then
          paint_blank (LINE 16) 1 40 ;; paint_blank (LINE 17) 1 40 ;;
          format_with_retry fuel n dst
        else ret true
  end.

Inductive Ending := COMPLETE | ABORTED.
Definition aborted : M Ending :=
  paint_text (LINE 19) 1 "ABORTED. Power-cycle when done." 31 ;; ret ABORTED.

(** *** [bench_main], in the order of its phases *)

Definition choose_mode (fuel : nat) (src : Z) : M bool :=
  paint_text (LINE 0) 1 "DISKCOPY: 800K floppy duplicator" 32 ;;
  paint_text (LINE 2) 1 "Boot/source drive:" 18 ;;
  paint_string (LINE 2) 20 (put_dec (u32 src) 1) 1 ;;
  paint_text (LINE 4) 1 "Choose copy mode:" 17 ;;
  paint_text (LINE 5) 1 "  1 = single-drive (swap source then dest)" 42 ;;
  paint_text (LINE 6) 1 "  2 = two-drive (source=boot drive, dest=other)" 47 ;;
  paint_text (LINE 7) 1 "Press 1 or 2 ..." 16 ;;
  let* one := choose fuel fuel KC_1 KC_2 in
  ret (negb one).

Definition dest_drive (two_drive : bool) (src : Z) : Z :=
  if two_drive then if src =? 1 then 2 else 1 else src.

Fixpoint blank_rows (rows : list Z) : M unit :=
  match rows with [] => ret tt | r :: rows => paint_blank r 1 50 ;; blank_rows rows end.

(** [true]: the user confirmed. *)
Definition confirm (fuel : nat) (two_drive : bool) (src dst : Z) : M bool :=
  blank_rows [LINE 4; LINE 5; LINE 6; LINE 7] ;;
  paint_text (LINE 4) 1 (if two_drive then "Mode: TWO-DRIVE" else "Mode: SINGLE-DRIVE (swap)") 25 ;;
  paint_text (LINE 5) 1 "Source drive:" 13 ;;
  paint_string (LINE 5) 15 (put_dec (u32 src) 1) 1 ;;
  paint_text (LINE 5) 18 "Dest drive:" 11 ;;
  paint_string (LINE 5) 30 (put_dec (u32 dst) 1) 1 ;;
  paint_text (LINE 7) 1 "*** WARNING ***" 15 ;;
  let wl := bytes_of "ALL DATA on DEST drive " ++ put_dec (u32 dst) 1 ++
            bytes_of " will be ERASED" in
  paint_string (LINE 8) 1 wl (length wl) ;;
  paint_text (LINE 9) 1 "(destination is low-level formatted first)" 42 ;;
  paint_text (LINE 10) 1 "RETURN=continue   ESC=abort" 27 ;;
  choose fuel fuel KC_RETURN KC_ESC.

Definition stage_source (fuel : nat) (two_drive : bool) (src : Z) : M unit :=
  blank_rows [LINE 7; LINE 8; LINE 9; LINE 10] ;;
  let* ej := eject_floppy src in
  paint_result (LINE 7) "Eject boot disk " ej ;;
  (if two_drive : bool then
     paint_text (LINE 9) 1 "Insert SOURCE in boot drive," 28 ;;
     paint_text (LINE 10) 1 "blank DEST in other drive." 26
   else
     paint_text (LINE 9) 1 "Insert SOURCE disk in the drive." 32 ;;
     paint_text (LINE 10) 1 "(destination comes later)" 25) ;;
  paint_text (LINE 11) 1 "Press RETURN when ready ..." 27 ;;
  wait_key fuel KC_RETURN ;;
  paint_blank (LINE 11) 1 40.

Definition swap_disks (fuel : nat) (src : Z) : M unit :=
  let* ej := eject_floppy src in
  paint_result (LINE 11) "Eject source " ej ;;
  paint_text (LINE 9) 1 "Insert DEST disk (will be erased).      " 40 ;;
  paint_blank (LINE 10) 1 40 ;;
  paint_text (LINE 12) 1 "Press RETURN when ready ..." 27 ;;
  wait_key fuel KC_RETURN ;;
  paint_blank (LINE 12) 1 40.

Definition eject_all (two_drive : bool) (src dst : Z) : M unit :=
  if two_drive then
    let* e1 := eject_floppy src in
    let* e2 := eject_floppy dst in
    paint_result (LINE 16) "Eject source " e1 ;;
    paint_result (LINE 17) "Eject dest " e2
  else
    let* e2 := eject_floppy dst in
    paint_result (LINE 16) "Eject dest " e2.

(** What is done between the two transfers; [true]: the user gave up. *)
Definition prepare_dest (fuel : nat) (two_drive : bool) (src dst : Z) : M bool :=
  (if two_drive : bool then ret tt else swap_disks fuel src) ;;
  format_with_retry fuel fuel dst.

Definition read_source (fuel : nat) (src : Z) : M bool :=
  transfer_with_retry fuel fuel false src "Reading" (LINE 13) (LINE 16).
Definition write_dest (fuel : nat) (dst : Z) : M bool :=
  transfer_with_retry fuel fuel true dst "Writing" (LINE 14) (LINE 16).

(** [src] is [g_handoff_drive]. *)
Definition bench_main (fuel : nat) (src : Z) : M Ending :=
  let* two_drive := choose_mode fuel src in
  let dst := dest_drive two_drive src in
  let* go := confirm fuel two_drive src dst in
  if negb go then aborted
  else
    stage_source fuel two_drive src ;;
    let* stop := read_source fuel src in
    if stop : bool then aborted
    else
      let* stop := prepare_dest fuel two_drive src dst in
      if stop : bool then aborted
      else
        let* stop := write_dest fuel dst in
        if stop : bool then aborted
        else
          eject_all two_drive src dst ;;
          paint_text (LINE 19) 1 "COPY COMPLETE. Power-cycle when done." 37 ;;
          ret COMPLETE.
End Program.
End Diskcopy.

Import Diskcopy.

(** ** What the operating system promises

    The documented behaviour of the .Sony driver's [_Read] and [_Write] on
    whole-sector requests: a request that returns [noErr] has moved exactly
    the requested bytes; no call, and no poll of the key map, touches the
    image buffer, a read apart. *)

Definition in_buffer (a : Z) : Prop := IOBUF_BASE <= a < IOBUF_BASE + DISK_BYTES.

Class FloppyOs (W : Type) (trap_read trap_write trap_control : list Z -> W -> TrapResult * W)
    (key_down : Z -> W -> bool * W) (disk : W -> Z -> Z -> Z) (ram : W -> Z -> Z) := {
  os_read : forall drive buf off len w d0,
    -32768 <= drive < 32768 -> 0 <= off < 2 ^ 32 -> 0 <= len < 2 ^ 32 ->
    in_buffer buf -> in_buffer (buf + len - 1) ->
    (trap_read (pb_bytes (pb_init drive buf off len)) w).1 = Ret d0 -> i16 d0 = 0 ->
    let w' := (trap_read (pb_bytes (pb_init drive buf off len)) w).2 in
    (forall k, disk w' drive k = disk w drive k) /\
    (forall a, in_buffer a -> ram w' a =
       if (buf <=? a) && (a <? buf + len) then disk w drive (off + (a - buf)) else ram w a);
  os_write : forall drive buf off len w d0,
    -32768 <= drive < 32768 -> 0 <= off < 2 ^ 32 -> 0 <= len < 2 ^ 32 ->
    in_buffer buf -> in_buffer (buf + len - 1) ->
    (trap_write (pb_bytes (pb_init drive buf off len)) w).1 = Ret d0 -> i16 d0 = 0 ->
    forall k, disk (trap_write (pb_bytes (pb_init drive buf off len)) w).2 drive k =
      if (off <=? k) && (k <? off + len) then ram w (buf + (k - off)) else disk w drive k;
  os_write_ram : forall pb w a, in_buffer a -> ram (trap_write pb w).2 a = ram w a;
  os_control_ram : forall pb w a, in_buffer a -> ram (trap_control pb w).2 a = ram w a;
  os_key_ram : forall kc w a, in_buffer a -> ram (key_down kc w).2 a = ram w a }.

Section Copy.
Context {W : Type} (trap_read trap_write trap_control : list Z -> W -> TrapResult * W).
Context (key_down : Z -> W -> bool * W) (disk : W -> Z -> Z -> Z) (ram : W -> Z -> Z).
Context {Hos : FloppyOs W trap_read trap_write trap_control key_down disk ram}.

Abbreviation St := (St (W := W)).
Abbreviation M := (M (W := W)).

(** A computation leaves the image buffer alone, whatever its outcome. *)
Definition keeps {A} (m : M A) : Prop :=
  forall s a, in_buffer a -> ram (world (m s).2) a = ram (world s) a.

Lemma kept {A} {m : M A} {s o s'} {a} :
  keeps m -> m s = (o, s') -> in_buffer a -> ram (world s') a = ram (world s) a.
Proof. intros Hm E Ha. specialize (Hm s a Ha). by rewrite E in Hm. Qed.

Lemma keeps_ret {A} (x : A) : keeps (ret x).
Proof. done. Qed.
Lemma keeps_bind {A B} (m : M A) (k : A -> M B) :
  keeps m -> (forall x, keeps (k x)) -> keeps (bind m k).
Proof.
  intros Hm Hk s a Ha. specialize (Hm s a Ha). unfold bind.
  destruct (m s) as [[x| |] s1]; simpl in *; [|done..]. by rewrite Hk.
Qed.
Lemma keeps_paint r c t n : keeps (paint_string r c t n).
Proof. done. Qed.
Lemma keeps_fuel {A} : keeps (A := A) out_of_fuel.
Proof. done. Qed.
Lemma keeps_crash {A} : keeps (A := A) crash.
Proof. done. Qed.
Lemma keeps_world {A} (f : W -> A * W) :
  (forall w a, in_buffer a -> ram (f w).2 a = ram w a) -> keeps (on_world f).
Proof. intros H s a Ha. unfold on_world. specialize (H (world s) a Ha). by destruct (f (world s)). Qed.

Create HintDb keeps.
#[local] Hint Resolve keeps_ret keeps_bind keeps_paint keeps_fuel keeps_crash : keeps.

Lemma keeps_key kc : keeps (KEY_DOWN key_down kc).
Proof. apply keeps_world. intros. by apply os_key_ram. Qed.
Lemma keeps_control pb : keeps (recovered trap_control pb).
Proof. apply keeps_bind; [|auto with keeps]. apply keeps_world. intros. by apply os_control_ram. Qed.
Lemma keeps_write pb : keeps (recovered trap_write pb).
Proof. apply keeps_bind; [|auto with keeps]. apply keeps_world. intros. by apply os_write_ram. Qed.
#[local] Hint Resolve keeps_key keeps_control keeps_write : keeps.

(** [keep]: the buffer is untouched, by the structure of the program. *)
Ltac keep := repeat first
  [ progress intros | solve [auto 1 with keeps] | apply keeps_bind | progress cbn beta iota zeta
  | match goal with |- keeps (if ?b then _ else _) => destruct b end
  | match goal with |- keeps (match ?x with Ret _ => _ | Exc _ => _ end) => destruct x end ].

Lemma keeps_poll n kc b : keeps (poll key_down n kc b).
Proof. induction n; simpl; keep. Qed.
#[local] Hint Resolve keeps_poll : keeps.
Lemma keeps_wait n kc : keeps (wait_key key_down n kc).
Proof. unfold wait_key. keep. Qed.
#[local] Hint Resolve keeps_wait : keeps.
Lemma keeps_choose f n ka kb : keeps (choose key_down f n ka kb).
Proof. induction n; simpl; keep. Qed.
#[local] Hint Resolve keeps_choose : keeps.
Lemma keeps_result r l v : keeps (paint_result (W := W) r l v).
Proof. done. Qed.
Lemma keeps_eject d : keeps (eject_floppy trap_control d).
Proof.
  unfold eject_floppy. apply keeps_bind; [|keep].
  apply keeps_world. intros. by apply os_control_ram.
Qed.
#[local] Hint Resolve keeps_result keeps_eject : keeps.
Lemma keeps_format f n d : keeps (format_with_retry trap_control key_down f n d).
Proof. induction n; simpl; unfold sony_format, paint_text, paint_blank; keep. Qed.
#[local] Hint Resolve keeps_format : keeps.
Lemma keeps_prepare f two src dst : keeps (prepare_dest trap_control key_down f two src dst).
Proof. unfold prepare_dest, swap_disks, paint_text, paint_blank; keep. Qed.

(** ** The transfers *)

Lemma bind_Val {A B} (m : M A) (k : A -> M B) s b s' :
  bind m k s = (Val b, s') -> exists a s1, m s = (Val a, s1) /\ k a s1 = (Val b, s').
Proof. unfold bind. destruct (m s) as [[a| |] s1]; [eauto|done..]. Qed.

(** [step H]: the first computation of a sequence that returned. *)
Ltac step H := apply bind_Val in H; destruct H as (?&?&?&H).

Lemma recovered_ok trap pb s s' :
  recovered (W := W) trap pb s = (Val 0, s') ->
  world s' = (trap pb (world s)).2 /\
  ((exists d0, (trap pb (world s)).1 = Ret d0 /\ i16 d0 = 0) \/
   (exists v, (trap pb (world s)).1 = Exc v /\ i16 (EXC_ERR_BASE + v) = 0)).
Proof.
  unfold recovered, bind, on_world. destruct (trap pb (world s)) as [[d0|v] w]; simpl;
    intros [= E <-]; eauto 6.
Qed.

(** The exceptions of the 68040 are vectors 2 to 9: none looks like [noErr]. *)
Context (Hvec : forall t pb w v, t = trap_read \/ t = trap_write -> (t pb w).1 = Exc v -> 0 <= v < 256).

Lemma xfer_ok (wr : bool) drive buf off len s s' :
  xfer trap_read trap_write wr drive buf off len s = (Val 0, s') ->
  let t := if wr then trap_write else trap_read in
  let pb := pb_bytes (pb_init drive buf off len) in
  world s' = (t pb (world s)).2 /\ exists d0, (t pb (world s)).1 = Ret d0 /\ i16 d0 = 0.
Proof.
  intros H. apply recovered_ok in H. cbv zeta. destruct H as [E [H|(v&H&Hv)]]; [done|].
  exfalso. apply Hvec in H; [|by destruct wr; auto]. unfold EXC_ERR_BASE in Hv.
  rewrite i16_small in Hv by lia. lia.
Qed.

Context (drive : Z) (Hdrive : -32768 <= drive < 32768).

(** The first [off] bytes of the image are the disk's. *)
Definition imaged (s : St) (off : Z) : Prop :=
  forall k, 0 <= k < off -> ram (world s) (IOBUF_BASE + k) = disk (world s) drive k.

Lemma read_loop n off phase prow s s' :
  0 <= off <= DISK_BYTES -> imaged s off ->
  transfer_loop trap_read trap_write n off false drive phase prow s = (Val 0, s') ->
  imaged s' DISK_BYTES.
Proof.
  revert off s. induction n as [|n IH]; intros off s Ho Hi; simpl;
    destruct (Z.ltb_spec off DISK_BYTES) as [Hlt|Hge]; try done;
    try (intros [= <-]; by replace DISK_BYTES with off by lia).
  intros H. step H. destruct (Z.eqb_spec x 0) as [->|Hx]; cbn [negb] in H; [|unfold ret in H; by simplify_eq].
  step H. unfold paint_string in H1. simplify_eq.
  set (len := if DISK_BYTES - off >? CHUNK_BYTES then CHUNK_BYTES else DISK_BYTES - off) in *.
  assert (Hl : 0 < len <= DISK_BYTES - off).
  { unfold len, CHUNK_BYTES. unfold CHUNK_BYTES in *. destruct (_ >? _) eqn:E; lia. }
  unfold DISK_BYTES, IOBUF_BASE in *.
  rewrite u32_small in H0 by lia.
  apply xfer_ok in H0. cbv zeta in H0. destruct H0 as (Hw & d0 & Hr & H00).
  apply (os_read (disk := disk) (ram := ram)) in Hr;
    [|unfold in_buffer, DISK_BYTES, IOBUF_BASE; lia..|done].
  cbv zeta in Hr. rewrite <- Hw in Hr. destruct Hr as [Hd Hm].
  eapply (IH (off + len)); [lia| |exact H].
  intros k Hk. simpl. rewrite Hm by (unfold in_buffer, DISK_BYTES, IOBUF_BASE; lia). rewrite Hd.
  destruct (_ && _) eqn:E; zbool.
  - f_equal. unfold IOBUF_BASE. lia.
  - apply Hi. unfold IOBUF_BASE in E. lia.
Qed.

(** Writing: the first [off] bytes of the disk are the buffer's, and the
    buffer is what it was. *)
Definition written (s0 s : St) (off : Z) : Prop :=
  (forall k, 0 <= k < off -> disk (world s) drive k = ram (world s0) (IOBUF_BASE + k)) /\
  (forall a, in_buffer a -> ram (world s) a = ram (world s0) a).

Lemma write_loop n off phase prow s0 s s' :
  0 <= off <= DISK_BYTES -> written s0 s off ->
  transfer_loop trap_read trap_write n off true drive phase prow s = (Val 0, s') ->
  written s0 s' DISK_BYTES.
Proof.
  revert off s. induction n as [|n IH]; intros off s Ho Hi; simpl;
    destruct (Z.ltb_spec off DISK_BYTES) as [Hlt|Hge]; try done;
    try (intros [= <-]; by replace DISK_BYTES with off by lia).
  intros H. step H. destruct (Z.eqb_spec x 0) as [->|Hx]; cbn [negb] in H; [|unfold ret in H; by simplify_eq].
  step H. unfold paint_string in H1. simplify_eq.
  set (len := if DISK_BYTES - off >? CHUNK_BYTES then CHUNK_BYTES else DISK_BYTES - off) in *.
  assert (Hl : 0 < len <= DISK_BYTES - off).
  { unfold len, CHUNK_BYTES. unfold CHUNK_BYTES in *. destruct (_ >? _) eqn:E; lia. }
  destruct Hi as [Hi Hb].
  unfold DISK_BYTES, IOBUF_BASE in *.
  rewrite u32_small in H0 by lia.
  apply xfer_ok in H0. cbv zeta in H0. destruct H0 as (Hw & d0 & Hr & H00).
  pose proof (fun k => os_write (disk := disk) (ram := ram) drive (0x200000 + off) off len
    (world s) d0 Hdrive ltac:(lia) ltac:(lia)
    ltac:(unfold in_buffer, DISK_BYTES, IOBUF_BASE; lia)
    ltac:(unfold in_buffer, DISK_BYTES, IOBUF_BASE; lia) Hr H00 k) as Hk. cbv beta in Hk.
  rewrite <- Hw in Hk.
  eapply (IH (off + len)); [lia| |exact H]. split; simpl.
  - intros k Hk2. rewrite Hk.
    destruct (_ && _) eqn:E; zbool.
    + rewrite Hb by (unfold in_buffer, DISK_BYTES, IOBUF_BASE; lia). f_equal. unfold IOBUF_BASE. lia.
    + apply Hi. unfold IOBUF_BASE in *. lia.
  - intros a Ha. rewrite Hw, os_write_ram by done. by apply Hb.
Qed.

Lemma keeps_write_loop n off phase prow :
  keeps (transfer_loop trap_read trap_write n off true drive phase prow).
Proof.
  revert off. induction n as [|n IH]; intros off; simpl; destruct (off <? DISK_BYTES);
    auto with keeps. unfold xfer. keep.
Qed.

(** The conversion test compares the programs before their results. *)
#[local] Strategy expand [transfer_all].
#[local] Strategy opaque [transfer_loop chunks].

Lemma read_phase fuel n prow mrow phase s s' :
  transfer_with_retry trap_read trap_write key_down fuel n false drive phase prow mrow s
    = (Val false, s') -> imaged s' DISK_BYTES.
Proof.
  revert s. induction n as [|n IH]; intros s H; [done|]. cbn [transfer_with_retry] in H.
  step H. destruct (Z.eqb_spec x 0) as [->|Hx].
  - unfold ret in H. simplify_eq. unfold transfer_all in H0. revert H0.
    generalize chunks. intros m H0. eapply (read_loop m 0);
      [unfold DISK_BYTES; lia|intros ? ?; lia|exact H0].
  - do 2 step H. apply bind_Val in H. destruct H as (again & s2 & Ec & H).
    destruct again; [|done]. do 2 step H. by eapply IH.
Qed.

Lemma write_phase fuel n prow mrow phase s s' :
  transfer_with_retry trap_read trap_write key_down fuel n true drive phase prow mrow s
    = (Val false, s') ->
  forall k, 0 <= k < DISK_BYTES -> disk (world s') drive k = ram (world s) (IOBUF_BASE + k).
Proof.
  revert s. induction n as [|n IH]; intros s H; [done|]. cbn [transfer_with_retry] in H.
  step H. destruct (Z.eqb_spec x 0) as [->|Hx].
  - unfold ret in H. simplify_eq. unfold transfer_all in H0. revert H0.
    generalize chunks. intros m H0.
    apply (write_loop _ 0 _ _ s) in H0; [apply H0|unfold DISK_BYTES; lia|].
    split; [intros; lia|done].
  - intros k Hk.
    assert (Ha : in_buffer (IOBUF_BASE + k)) by (unfold in_buffer; lia).
    assert (E : ram (world x0) (IOBUF_BASE + k) = ram (world s) (IOBUF_BASE + k)).
    { unfold transfer_all in H0. revert H0. generalize chunks. intros m H0.
      pose proof (keeps_write_loop m 0 phase prow s _ Ha) as E. by rewrite H0 in E. }
    rewrite <- E. do 2 step H. apply bind_Val in H. destruct H as (again & s2 & Ec & H).
    destruct again; [|done]. do 2 step H.
    rewrite (IH _ H k Hk).
    by rewrite (kept (keeps_paint _ _ _ _) H4), (kept (keeps_paint _ _ _ _) H3),
      (kept (keeps_choose _ _ _ _) Ec), (kept (keeps_paint _ _ _ _) H2),
      (kept (keeps_result _ _ _) H1).
Qed.
End Copy.

Section Main.
Context {W : Type} (trap_read trap_write trap_control : list Z -> W -> TrapResult * W).
Context (key_down : Z -> W -> bool * W) (disk : W -> Z -> Z -> Z) (ram : W -> Z -> Z).
Context {Hos : FloppyOs W trap_read trap_write trap_control key_down disk ram}.
Context (Hvec : forall t pb w v, t = trap_read \/ t = trap_write -> (t pb w).1 = Exc v -> 0 <= v < 256).

(** The drive written is the other one of the two, or the boot drive. *)
Lemma dest_drive_cases two src :
  dest_drive two src = (if two then if src =? 1 then 2 else 1 else src) /\
  (two = true -> dest_drive two src <> src).
Proof. split; [done|]. intros ->. unfold dest_drive. destruct (Z.eqb_spec src 1); lia. Qed.

(** C6: when the duplicator reports completion, the last read pass and the
    last write pass succeeded and every one of the 819200 bytes of the
    destination, at the end of the write pass, is the byte the source had at
    the end of the read pass: whatever failed and was retried in between,
    whichever mode was chosen, and although formatting, ejecting and waiting
    for keys came between the passes.  In two-drive mode the destination is
    not the source drive. *)
Theorem diskcopy_copies (fuel : nat) (src : Z) (s s' : St)
    (Hsrc : -32768 <= src < 32768)
    (Hdone : bench_main trap_read trap_write trap_control key_down fuel src s = (Val COMPLETE, s')) :
  exists two s0 s1 s2 s3 s4,
    read_source trap_read trap_write key_down fuel src s0 = (Val false, s1) /\
    prepare_dest trap_control key_down fuel two src (dest_drive two src) s1 = (Val false, s2) /\
    write_dest trap_read trap_write key_down fuel (dest_drive two src) s2 = (Val false, s3) /\
    eject_all trap_control two src (dest_drive two src) s3 = (Val tt, s4) /\
    world s4 = world s' /\ (two = true -> dest_drive two src <> src) /\
    forall k, 0 <= k < DISK_BYTES ->
      disk (world s3) (dest_drive two src) k = disk (world s1) src k.
Proof.
  unfold bench_main in Hdone.
  apply bind_Val in Hdone. destruct Hdone as (two & sa & _ & H). cbv zeta in H.
  apply bind_Val in H. destruct H as (go & sb & _ & H). destruct go; cbn [negb] in H;
    [|unfold aborted in H; by apply bind_Val in H as (?&?&?&?)].
  apply bind_Val in H. destruct H as (? & sc & _ & H).
  apply bind_Val in H. destruct H as (stop & s1 & Hr & H).
  destruct stop; [unfold aborted in H; by apply bind_Val in H as (?&?&?&?)|].
  apply bind_Val in H. destruct H as (stop & s2 & Hp & H).
  destruct stop; [unfold aborted in H; by apply bind_Val in H as (?&?&?&?)|].
  apply bind_Val in H. destruct H as (stop & s3 & Hw & H).
  destruct stop; [unfold aborted in H; by apply bind_Val in H as (?&?&?&?)|].
  apply bind_Val in H. destruct H as ([] & s4 & He & H).
  apply bind_Val in H. destruct H as (? & s5 & Hpaint & H).
  destruct (dest_drive_cases two src) as [Hdd Hne].
  assert (Hdst : -32768 <= dest_drive two src < 32768) by (rewrite Hdd; cases; lia).
  exists two, sc, s1, s2, s3, s4. split; [exact Hr|]. split; [exact Hp|]. split; [exact Hw|].
  split; [exact He|]. split; [unfold paint_text, paint_string in Hpaint; unfold ret in H; by simplify_eq|].
  split; [exact Hne|]. intros k Hk.
  pose proof (write_phase _ _ _ _ _ _ Hvec _ Hdst _ _ _ _ _ _ _ Hw k Hk) as E. rewrite E.
  assert (Ha : in_buffer (IOBUF_BASE + k)) by (unfold in_buffer; lia).
  rewrite (kept _ (keeps_prepare _ _ _ _ _ _ fuel two src (dest_drive two src)) Hp Ha).
  exact (read_phase _ _ _ _ _ _ Hvec _ Hsrc _ _ _ _ _ _ _ Hr k Hk).
Qed.
End Main.

(** ** Termination of a transfer *)

(** One round of the loop. *)
Definition chunk_at (off : Z) : Z :=
  if DISK_BYTES - off >? CHUNK_BYTES then CHUNK_BYTES else DISK_BYTES - off.
Lemma transfer_loop_S {W} tr tw n off wr drive phase prow (s : St (W := W)) : off < DISK_BYTES ->
  exists r w p,
    transfer_loop tr tw (S n) off wr drive phase prow s =
    if r =? 0 then transfer_loop tr tw n (off + chunk_at off) wr drive phase prow
                     (mkSt w (log s ++ [p]))
    else (Val r, mkSt w (log s)).
Proof.
  intros H. simpl. apply Z.ltb_lt in H. rewrite H. fold (chunk_at off).
  unfold bind at 1, xfer, recovered, bind at 1, on_world.
  destruct ((if wr then tw else tr) _ (world s)) as [t w]. cbn.
  exists (match t with Ret d0 => i16 d0 | Exc v => i16 (EXC_ERR_BASE + v) end), w,
    (mkPaint prow 1 (cells (progress_text phase (off + chunk_at off))
                       (length (progress_text phase (off + chunk_at off))))).
  by destruct (_ =? 0).
Qed.

Lemma transfer_loop_ends {W} tr tw n off wr drive phase prow (s : St (W := W)) :
  0 <= off -> DISK_BYTES - off <= Z.of_nat n * CHUNK_BYTES ->
  exists r, (transfer_loop tr tw n off wr drive phase prow s).1 = Val r.
Proof.
  revert off s. induction n as [|n IH]; intros off s H0 Hn;
    (destruct (Z.lt_ge_cases off DISK_BYTES) as [Hlt|Hge];
     [|exists 0; simpl; assert ((off <? DISK_BYTES) = false) as -> by lia; done]); [lia|].
  destruct (transfer_loop_S tr tw n off wr drive phase prow s Hlt) as (r & w & p & ->).
  destruct (r =? 0); [|by eexists].
  apply IH; unfold chunk_at, CHUNK_BYTES, DISK_BYTES in *; destruct (_ >? _) eqn:E; lia.
Qed.

(** C36: a transfer pass ends after at most 25 requests, whatever the driver
    answers, and a pass that reports success has issued all of them:
    stopping earlier is reported as the driver's error. *)
Theorem diskcopy_pass_ends {W} (tr tw : list Z -> W -> TrapResult * W) (wr : bool) (drive prow : Z)
    (phase : string) (s : St (W := W)) :
  exists r, (transfer_all tr tw wr drive phase prow s).1 = Val r /\
    (r = 0 -> length (log (transfer_all tr tw wr drive phase prow s).2) = (length (log s) + 25)%nat).
Proof.
  destruct (transfer_loop_ends tr tw chunks 0 wr drive phase prow s) as [r Hr];
    [lia|unfold DISK_BYTES, CHUNK_BYTES, chunks; lia|].
  exists r. split; [exact Hr|]. intros ->.
  assert (G : forall n off s', 0 <= off -> DISK_BYTES - off = Z.of_nat n * CHUNK_BYTES ->
    (transfer_loop tr tw n off wr drive phase prow s').1 = Val 0 ->
    length (log (transfer_loop tr tw n off wr drive phase prow s').2) = (length (log s') + n)%nat).
  { clear. induction n as [|n IH]; intros off s' H0 Hn.
    - intros _. simpl. assert ((off <? DISK_BYTES) = false) as -> by lia. simpl. lia.
    - destruct (transfer_loop_S tr tw n off wr drive phase prow s') as (r & w & p & ->);
        [unfold CHUNK_BYTES in Hn; lia|].
      destruct (Z.eqb_spec r 0) as [->|E]; [|simpl; congruence].
      assert (chunk_at off = CHUNK_BYTES) as ->
        by (unfold chunk_at, CHUNK_BYTES in *; destruct (_ >? _) eqn:?; lia).
      intros H. rewrite IH; [|unfold CHUNK_BYTES; lia|lia|exact H].
      cbn. rewrite length_app. simpl. lia. }
  apply G; [lia|reflexivity|exact Hr].
Qed.

(** ** A machine for the witness *)

Module SimFloppy.
(** Disks and memory as functions, and the operator's key presses. *)
Record t := mkT { dsk : Z -> Z -> Z; mem : Z -> Z; keys : list bool }.

Definition word_at (pb : list Z) (k : nat) : Z := nth k pb 0 * 256 + nth (k + 1) pb 0.
Definition long_at (pb : list Z) (k : nat) : Z := word_at pb k * 65536 + word_at pb (k + 2).

Definition read (pb : list Z) (w : t) : TrapResult * t :=
  let d := i16 (word_at pb 22) in
  let buf := long_at pb 32 in
  let len := long_at pb 36 in
  let off := long_at pb 46 in
  (Ret 0, mkT (dsk w) (fun a => if (buf <=? a) && (a <? buf + len)
                                then dsk w d (off + (a - buf)) else mem w a) (keys w)).
Definition write (pb : list Z) (w : t) : TrapResult * t :=
  let d := i16 (word_at pb 22) in
  let buf := long_at pb 32 in
  let len := long_at pb 36 in
  let off := long_at pb 46 in
  (Ret 0, mkT (fun e k => if (e =? d) && ((off <=? k) && (k <? off + len))
                          then mem w (buf + (k - off)) else dsk w e k) (mem w) (keys w)).
Definition control (pb : list Z) (w : t) : TrapResult * t := (Ret 0, w).
Definition key (kc : Z) (w : t) : bool * t :=
  match keys w with
  | [] => (false, w)
  | b :: ks => (b, mkT (dsk w) (mem w) ks)
  end.

Lemma pb_fields drive buf off len :
  -32768 <= drive < 32768 -> 0 <= buf < 2 ^ 32 -> 0 <= off < 2 ^ 32 -> 0 <= len < 2 ^ 32 ->
  let pb := pb_bytes (pb_init drive buf off len) in
  i16 (word_at pb 22) = drive /\ long_at pb 32 = buf /\ long_at pb 36 = len /\ long_at pb 46 = off.
Proof.
  intros Hd Hb Ho Hl. cbv zeta.
  unfold long_at, word_at, pb_bytes, pb_init, be16, be32. cbn -[Z.shiftr u8 Z.mul Z.add].
  rewrite !Z.shiftr_div_pow2 by lia. change (2 ^ 8) with 256. change (2 ^ 16) with 65536.
  change (2 ^ 24) with 16777216. repeat split; ilia.
Qed.

#[global] Instance os : FloppyOs t read write control key dsk mem.
Proof.
  constructor.
  - intros drive buf off len w d0 Hd Ho Hl Hb _ _ _.
    assert (0 <= buf < 2 ^ 32) by (unfold in_buffer, IOBUF_BASE, DISK_BYTES in Hb; lia).
    destruct (pb_fields drive buf off len) as (E1&E2&E3&E4); [done..|].
    cbv zeta in *. unfold read. cbn [fst snd dsk mem]. rewrite E1, E2, E3, E4. done.
  - intros drive buf off len w d0 Hd Ho Hl Hb _ _ _ k.
    assert (0 <= buf < 2 ^ 32) by (unfold in_buffer, IOBUF_BASE, DISK_BYTES in Hb; lia).
    destruct (pb_fields drive buf off len) as (E1&E2&E3&E4); [done..|].
    cbv zeta in *. unfold write. cbn [fst snd dsk mem]. rewrite E1, E2, E3, E4, Z.eqb_refl. done.
  - done.
  - done.
  - intros kc w a _. unfold key. by destruct (keys w).
Qed.

(** Key 1 is not pressed, key 2 is; each wait sees its key down, then up. *)
Definition presses : list bool :=
  [false; true; true; false; true; true; false; true; false].
Definition start : St (W := t) :=
  mkSt (mkT (fun d k => (d * 100 + k) mod 251) (fun _ => 0) presses) [].
Lemma final_complete :
  exists s', bench_main read write control key 4 1 start = (Val COMPLETE, s').
Proof.
  assert (H : (bench_main read write control key 4 1 start).1 = Val COMPLETE)
    by (vm_compute; reflexivity).
  destruct (bench_main read write control key 4 1 start) as [o s']. simpl in H. subst.
  by exists s'.
Qed.
End SimFloppy.

Lemma diskcopy_copies_witness :
  exists two s1 s3, forall k, 0 <= k < DISK_BYTES ->
    SimFloppy.dsk (world s3) (dest_drive two 1) k = SimFloppy.dsk (world s1) 1 k.
Proof.
  destruct SimFloppy.final_complete as (s' & E).
  destruct (diskcopy_copies SimFloppy.read SimFloppy.write SimFloppy.control SimFloppy.key
    SimFloppy.dsk SimFloppy.mem) with (fuel := 4%nat) (src := 1) (s := SimFloppy.start)
    (s' := s') as (two & _ & s1 & _ & s3 & _ & _ & _ & _ & _ & _ & _ & H).
  - intros tr pb w v [-> | ->]; discriminate.
  - lia.
  - exact E.
  - exists two, s1, s3. exact H.
Defined.
