(* ===== verification/Iotest.v ===== *)
(** * Iotest: the disk I/O bench

    [SingleStepTests/preboot/iotest]: the VIA timer ([timing.c]), the walk
    over the Drive Queue ([drive_enum.c]), the size table ([sizes.c]) and the
    bench itself ([diskio_main.c]), which reads, writes and verifies a
    pattern per size and reports each result as a JSON line through
    [JsonlWriter].  The traps, the VIA and low memory are parameters. *)

From S2P Require Import Prelude CText JsonlWriter Diskcopy.
#[local] Open Scope string_scope.
#[local] Open Scope list_scope.
#[local] Open Scope Z_scope.
#[local] Open Scope c_scope.
Import Freestanding.

(** ** timing.c *)

Module Timing.
Definition VIA1_BASE : Z := 0x50F00000.
Definition VIA1_T2CL : Z := VIA1_BASE + 0x200 * 8.
Definition VIA1_T2CH : Z := VIA1_BASE + 0x200 * 9.
Definition VIA1_IER : Z := VIA1_BASE + 0x200 * 14.
Definition VIA1_IFR : Z := VIA1_BASE + 0x200 * 13.
Definition VIA1_ACR : Z := VIA1_BASE + 0x200 * 11.
Definition IER_T2 : Z := 0x20.

(** [g_wrap_count] and [g_start_t2]. *)
Record t := mkTimer { g_wrap_count : Z; g_start_t2 : Z }.

(** [timer_elapsed_us] of a tick count. *)
Definition us_of_ticks (ticks : Z) : Z := u32 (ticks * 100) / 127.

Section Via.
(** Byte accesses to the registers. *)
Context {W : Type} (r8 : Z -> W -> Z * W) (w8 : Z -> Z -> W -> W).

Definition timer_start (w : W) : t * W :=
  let '(acr, w) := r8 VIA1_ACR w in
  let w := w8 VIA1_ACR (u8 (Z.ldiff acr 0x20)) w in
  let w := w8 VIA1_IER IER_T2 w in
  let w := w8 VIA1_T2CL 0xFF w in
  let w := w8 VIA1_T2CH 0xFF w in
  let w := w8 VIA1_IFR IER_T2 w in
  (mkTimer 0 0xFFFF, w).

(** Count and acknowledge the flagged wraps. *)
Fixpoint drain (fuel : nat) (t : t) (w : W) : option (Timing.t * W) :=
  match fuel with
  | O => None
  | S fuel =>
      let '(ifr, w) := r8 VIA1_IFR w in
      if (ifr &&& IER_T2) =? 0 then Some (t, w)
      else drain fuel (mkTimer (u32 (g_wrap_count t + 1)) (g_start_t2 t))
                 (w8 VIA1_IFR IER_T2 w)
  end.

Definition read_t2 (w : W) : Z * W :=
  let '(lo, w) := r8 VIA1_T2CL w in
  let '(hi, w) := r8 VIA1_T2CH w in
  ((hi <<< 8) ||| lo, w).

Definition read_ticks_since_start (fuel : nat) (t : t) (w : W) : option (Z * Timing.t * W) :=
  match drain fuel t w with
  | None => None
  | Some (t, w) =>
      let '(t2, w) := read_t2 w in
      let '(ifr, w) := r8 VIA1_IFR w in
      let '(t, t2, w) :=
        if (ifr &&& IER_T2) =? 0 then (t, t2, w)
        else
          let w := w8 VIA1_IFR IER_T2 w in
          let '(t2, w) := read_t2 w in
          (mkTimer (u32 (g_wrap_count t + 1)) (g_start_t2 t), t2, w) in
      let elapsed := u32 (g_start_t2 t - t2) in
      Some (u32 (elapsed + u32 (g_wrap_count t <<< 16)), t, w)
  end.

Definition timer_elapsed_us (fuel : nat) (t : t) (w : W) : option (Z * Timing.t * W) :=
  match read_ticks_since_start fuel t w with
  | None => None
  | Some (ticks, t, w) => Some (us_of_ticks ticks, t, w)
  end.
End Via.
End Timing.

(** ** drive_enum.c *)

Module DriveEnum.
Inductive DriveType := FLOPPY | SCSI | CDROM | UNKNOWN.

Record DriveInfo := mkDrive {
  drive_num : Z; refnum : Z; fs_id : Z; blocks : Z; type : DriveType; is_boot : bool;
  name : list Z }.

Section Memory.
(** The bytes of low memory and of the lists. *)
Context (mem : Z -> Z).

Definition rd_b (a : Z) : Z := mem (u32 a).
Definition rd_w (a : Z) : Z := rd_b a * 256 + rd_b (a + 1).
Definition rd_i16 (a : Z) : Z := i16 (rd_w a).
Definition rd_l (a : Z) : Z := rd_w a * 65536 + rd_w (a + 2).

(** The characters copied, without the NUL. *)
Definition pstr_to_cstr (dst_max : Z) (src : Z) : list Z :=
  let len := rd_b src in
  let len := if len >=? dst_max then dst_max - 1 else len in
  (fun i => rd_b (src + 1 + Z.of_nat i)) <$> seq 0 (Z.to_nat len).

Fixpoint find_from (hops : nat) (vcb : Z) (drive out_max : Z) : list Z :=
  match hops with
  | O => []
  | S hops =>
      if vcb =? 0 then []
      else if rd_i16 (vcb + 72) =? drive then pstr_to_cstr out_max (vcb + 44)
      else find_from hops (rd_l vcb) drive out_max
  end.
Definition find_volume_name (drive out_max : Z) : list Z :=
  find_from 32 (rd_l (0x356 + 2)) drive out_max.

Definition classify_refnum (r : Z) : DriveType :=
  if r =? -5 then FLOPPY else if r =? -41 then CDROM else SCSI.

Definition refnum_name (r : Z) : option string :=
  if r =? -5 then Some ".Sony" else if r =? -33 then Some ".SCSI"
  else if r =? -41 then Some ".AppleCD" else None.

Definition drive_type_name (t : DriveType) : string :=
  match t with FLOPPY => "FLP " | SCSI => "SCSI" | CDROM => "CD  " | UNKNOWN => "?   " end.

Definition drive_at (boot_drive dqe : Z) : DriveInfo :=
  let dn := rd_i16 (dqe + 6) in
  let r := rd_i16 (dqe + 8) in
  let bl := rd_w (dqe + 12) in
  let bl := if rd_w (dqe + 4) =? 1 then bl ||| (rd_w (dqe + 14) <<< 16) else bl in
  mkDrive dn r (rd_w (dqe + 10)) bl (classify_refnum r) (dn =? boot_drive) [].

(** The walk; [n] slots are left in the caller's array. *)
Fixpoint walk (hops : nat) (boot_drive dqe : Z) (n : nat) : list DriveInfo :=
  match hops, n with
  | S hops, S n =>
      if dqe =? 0 then []
      else drive_at boot_drive dqe :: walk hops boot_drive (rd_l dqe) n
  | _, _ => []
  end.
Definition enum_drives (max_drives : Z) : list DriveInfo :=
  walk 32 (rd_i16 0x210) (rd_l 0x30A) (Z.to_nat max_drives).
End Memory.
End DriveEnum.

(** ** sizes.c *)

Record IoTestSize := mkSize {
  label : string; len : Z; read_offset : Z; write_offset : Z }.

(** [g_iotest_sizes] of a variant, given the offsets patched in per entry. *)
Definition shared_sizes : list (string * Z) :=
  [("1B", 1); ("512B", 512); ("1KB", 1024); ("2KB", 2048); ("16KB", 16384);
   ("32KB", 32768); ("64KB", 65536)].
Definition hda_large_sizes : list (string * Z) :=
  [("256KB", 262144); ("512KB", 524288); ("1MB", 1048576); ("2MB", 2097152);
   ("4MB", 4194304)].
Definition dsk_last_size : list (string * Z) := [("128KB", 131072)].
Definition iotest_sizes (hda : bool) : list (string * Z) :=
  shared_sizes ++ (if hda then hda_large_sizes else dsk_last_size).
Definition g_iotest_sizes (hda : bool) (patch : nat -> Z * Z) : list IoTestSize :=
  imap (fun i '(l, n) => mkSize l n (patch i).1 (patch i).2) (iotest_sizes hda).

(** ** diskio_main.c *)

Module Diskio.
Definition IOBUF_BASE : Z := 0x00200000.
Definition EXC_ERR_BASE : Z := 30000.
Definition SECTOR_BYTES : Z := 512.
Definition STATUS_W : nat := 8.
Definition COL_SIZE : Z := 1.
Definition COL_READ : Z := 10.
Definition COL_WRITE : Z := 20.
Definition LINE (n : Z) : Z := n * 12.
Definition LINE_DETAIL : Z := LINE 21.
Definition MAX_DRIVES_SHOWN : Z := 4.

Definition vector_to_err (vec : Z) : Z := i16 (EXC_ERR_BASE + vec).

Definition sector_round_up (n : Z) : Z :=
  if n =? 0 then SECTOR_BYTES
  else u32 (Z.ldiff (u32 (n + (SECTOR_BYTES - 1))) (SECTOR_BYTES - 1)).

(** The block [pb_init] fills; [drive] and [refnum] are the boot handoff. *)
Definition pb_init (drive refnum buf offset length : Z) : Diskcopy.ParamBlock :=
  Diskcopy.mkPB drive refnum 0 0 buf (sector_round_up length) 1 offset.

(** *** The test pattern *)

Definition pattern (seed i : Z) : Z := u8 ((i ^^^ (i >>> 8) ^^^ seed) &&& 0xFF).
(** Memory is a function; the buffer begins at [IOBUF_BASE]. *)
Definition fill_pattern (len seed : Z) (ram : Z -> Z) : Z -> Z := fun a =>
  let i := a - IOBUF_BASE in
  if (0 <=? i) && (i <? len) then pattern seed i else ram a.
(** The clearing loop: whole longs. *)
Definition clear_buffer (len : Z) (ram : Z -> Z) : Z -> Z := fun a =>
  let i := a - IOBUF_BASE in
  if (0 <=? i) && (i <? (len + 3) / 4 * 4) then 0 else ram a.

Definition VERIFY_MATCH : Z := 4294967295.
Record VerifyResult := mkVerify { first_off : Z; count : Z; expected : Z; actual : Z }.

Fixpoint verify_loop (n : nat) (i seed : Z) (ram : Z -> Z) (r : VerifyResult) : VerifyResult :=
  match n with
  | O => r
  | S n =>
      let ex := pattern seed i in
      let b := ram (IOBUF_BASE + i) in
      let r :=
        if negb (b =? ex) then
          let r := if first_off r =? VERIFY_MATCH then mkVerify i (count r) ex b else r in
          mkVerify (first_off r) (u32 (count r + 1)) (expected r) (actual r)
        else r in
      verify_loop n (i + 1) seed ram r
  end.
Definition verify_pattern (len seed : Z) (ram : Z -> Z) : VerifyResult :=
  verify_loop (Z.to_nat len) 0 seed ram (mkVerify VERIFY_MATCH 0 0 0).

(** *** Status cells *)

Definition ioerr_names : list (Z * string) :=
  [(-33, "dirFull"); (-34, "dskFull"); (-35, "nsvErr"); (-36, "ioErr"); (-37, "bdNamErr");
   (-38, "fnOpnErr"); (-39, "eofErr"); (-40, "posErr"); (-42, "tmfoErr"); (-43, "fnfErr");
   (-49, "opWrErr"); (-50, "paramErr"); (-51, "rfNumErr"); (-53, "volOffLn");
   (-54, "permErr"); (-55, "volOnLn"); (-56, "nsDrvErr"); (-57, "noMacDsk");
   (-58, "extFSErr"); (-59, "fsRnErr"); (-60, "badMDB"); (-61, "wrPermErr");
   (-64, "lastDsk"); (-65, "offLine"); (-66, "noNibble"); (-67, "noAdrMrk");
   (-68, "dataVerf")].

Definition copy_padded (n : nat) (src : string) : list Z :=
  take n (bytes_of src ++ replicate n 32).

(** The digits of the loops over a table of powers of ten: [v / d % 10] for
    each, from the first nonzero one on, the last always. *)
Fixpoint table_digits (divs : list Z) (v : Z) (started : bool) : list Z :=
  match divs with
  | [] => []
  | d :: divs =>
      let digit := v / d mod 10 in
      if negb (digit =? 0) || started || match divs with [] => true | _ => false end
      then 48 + digit :: table_digits divs v true
      else table_digits divs v started
  end.

Definition fmt_status (err : Z) : list Z :=
  if err =? 0 then copy_padded STATUS_W "pass"
  else
    match List.find (fun e => e.1 =? err) ioerr_names with
    | Some (_, nm) => copy_padded STATUS_W nm
    | None =>
        let ds := table_digits [10000; 1000; 100; 10; 1] (Z.abs err) false in
        take STATUS_W ([69; if err <? 0 then 45 else 32] ++ ds ++ replicate STATUS_W 32)
    end.

Definition hex_digit (d : Z) : Z := if d <? 10 then 48 + d else 55 + d.
Definition hex2 (b : Z) : list Z := [hex_digit ((b >>> 4) &&& 0xF); hex_digit (b &&& 0xF)].

Definition fmt_verify_fail (vr : VerifyResult) : list Z :=
  let off := first_off vr in
  take STATUS_W ([64] ++ (if off >=? 10 then [48 + off / 10 mod 10] else []) ++
    [48 + off mod 10; 32] ++ hex2 (expected vr) ++ [47] ++ hex2 (actual vr) ++
    replicate STATUS_W 32).

Definition mismatch_text (vr : VerifyResult) : list Z :=
  bytes_of "Mismatched byte @" ++
  table_digits [1000000; 100000; 10000; 1000; 100; 10; 1] (first_off vr) false ++
  bytes_of " ex:" ++ hex2 (expected vr) ++ bytes_of " ac:" ++ hex2 (actual vr).

(** *** Result lines *)

Definition q (s : string) : list Z := [34] ++ bytes_of s ++ [34].
Definition field (k : string) : list Z := [44] ++ q k ++ [58].
Definition size_head (s : IoTestSize) : list Z :=
  [123] ++ q "size" ++ [58] ++ q (label s) ++ field "len" ++ f_putul (len s).

Definition skip_line (s : IoTestSize) (reason : string) (mem_top : Z) : list Z :=
  size_head s ++ field "op" ++ q "skip" ++ field "reason" ++ q reason ++
  field "mem_top" ++ bytes_of "0x" ++ f_putul mem_top ++
  field "iobuf_base" ++ bytes_of "0x" ++ f_putul IOBUF_BASE ++ [125; 10].

Definition sense_fields (sense : list Z) : list Z :=
  field "sense_key" ++ f_putul (nth 2 sense 0 &&& 0x0F) ++
  field "asc" ++ f_putul (nth 12 sense 0) ++
  field "ascq" ++ f_putul (nth 13 sense 0) ++
  field "sense_raw" ++ [34] ++ mjoin (hex2 <$> take 18 sense) ++ [34].
Definition sense_opt (sense : option (list Z)) : list Z :=
  match sense with Some s => sense_fields s | None => [] end.

Definition read_line (s : IoTestSize) (us err : Z) (sense : option (list Z)) : list Z :=
  size_head s ++ field "op" ++ q "read" ++ field "us" ++ f_putul us ++
  field "err" ++ f_putul (u32 err) ++ sense_opt sense ++ [125; 10].

Definition write_line (s : IoTestSize) (write_us write_err read_us read_err : Z)
    (vr : VerifyResult) (sense : option (list Z)) : list Z :=
  let verified := (read_err =? 0) && (count vr =? 0) in
  size_head s ++ field "op" ++ q "write" ++ field "us" ++ f_putul write_us ++
  field "err" ++ f_putul (u32 write_err) ++
  field "readback_us" ++ f_putul read_us ++
  field "readback_err" ++ f_putul (u32 read_err) ++
  field "verified" ++ f_putul (b2z verified) ++
  (if negb (count vr =? 0) then
     field "mismatch_offset" ++ f_putul (first_off vr) ++
     field "expected" ++ f_putul (expected vr) ++
     field "actual" ++ f_putul (actual vr) ++
     field "mismatch_count" ++ f_putul (count vr)
   else []) ++ sense_opt sense ++ [125; 10].

(** *** The drive table *)

Definition type_str (t : DriveEnum.DriveType) : string :=
  match t with
  | DriveEnum.FLOPPY => "Floppy"
  | DriveEnum.CDROM => "CD-ROM"
  | DriveEnum.SCSI => "SCSI Disk"
  | DriveEnum.UNKNOWN => "Drive"
  end.
Definition size_text (blocks : Z) : list Z :=
  let bytes := u32 (blocks * 512) in
  let '(val, suffix) :=
    if bytes >=? 1048576 then (u32 (bytes + 524288) / 1048576, 77)
    else (u32 (bytes + 512) / 1024, 75) in
  dec_bytes val ++ [suffix; 66].
Definition drive_text (d : DriveEnum.DriveInfo) : list Z :=
  let dn := DriveEnum.drive_num d in
  (if dn >=? 10 then [u8 (48 + Z.rem (Z.quot dn 10) 10)] else []) ++
  [u8 (48 + Z.rem dn 10); 32] ++ bytes_of (type_str (DriveEnum.type d)) ++ [32] ++
  size_text (DriveEnum.blocks d) ++
  (if DriveEnum.is_boot d then bytes_of " *BOOT" else []).

(** *** The bench *)

Section Bench.
Context {W : Type} (r8 : Z -> W -> Z * W) (w8 : Z -> Z -> W -> W).
(** A trap gets the parameter block and sees and changes memory. *)
Context (trap_read trap_write : list Z -> (Z -> Z) -> W -> Diskcopy.TrapResult * (Z -> Z) * W).
Context {D : Type} `{Backend D} (B : Z).
(** The boot handoff. *)
Context (g_handoff_drive g_handoff_refnum : Z).
(** The build: [IOTEST_READ_ONLY]. *)
Context (read_only : bool).

Record St := mkSt {
  os : W; ram : Z -> Z; jw : JsonlWriter.t; dev : D; log : list Diskcopy.Paint }.
#[global] Instance eta_St : Eta St := fun s => mkSt (os s) (ram s) (jw s) (dev s) (log s).

Definition paint (r c : Z) (t : list Z) (max : nat) (s : St) : St :=
  s <| log := log s ++ [Diskcopy.mkPaint r c (Diskcopy.cells t max)] |>.

(** A line and its commit. *)
Definition emit (line : list Z) (s : St) : St :=
  let '(w, d) := JsonlWriter.jw_puts B (jw s) line (dev s) in
  let '(w, d) := JsonlWriter.jw_commit_line B w d in
  (s <| jw := w |>) <| dev := d |>.

Definition LINE_RESULT (i : Z) : Z := LINE (8 + i).
Definition paint_row_skeleton (i : Z) (lbl : string) (s : St) : St :=
  let s := paint (LINE_RESULT i) COL_SIZE (bytes_of lbl) 8 s in
  let s := paint (LINE_RESULT i) COL_READ (bytes_of ". . . . ") STATUS_W s in
  if read_only then s else paint (LINE_RESULT i) COL_WRITE (bytes_of ". . . . ") STATUS_W s.
Definition paint_cell (i c : Z) (t : list Z) (s : St) : St :=
  paint (LINE_RESULT i) c t STATUS_W s.

(** [timer_start], the trap behind the recovery barrier, and
    [timer_elapsed_us]: the time and the error code. *)
Definition timed_trap (fuel : nat)
    (trap : list Z -> (Z -> Z) -> W -> Diskcopy.TrapResult * (Z -> Z) * W)
    (pb : Diskcopy.ParamBlock) (s : St) : option (Z * Z * St) :=
  let '(t, w) := Timing.timer_start r8 w8 (os s) in
  let '(r, m, w) := trap (Diskcopy.pb_bytes pb) (ram s) w in
  let err := match r with Diskcopy.Ret d0 => i16 d0 | Diskcopy.Exc v => vector_to_err (u16 v) end in
  match Timing.timer_elapsed_us r8 w8 fuel t w with
  | None => None
  | Some (us, _, w) => Some (us, err, (s <| os := w |>) <| ram := m |>)
  end.

(** The test is skipped when the buffer would pass the end of memory. *)
Definition no_room (len mem_top : Z) : bool :=
  (u32 (IOBUF_BASE + len) >? mem_top) || (len >? u32 (mem_top - IOBUF_BASE)).

Definition read_test (fuel : nat) (i : Z) (sz : IoTestSize) (s : St) : option St :=
  match timed_trap fuel trap_read
          (pb_init g_handoff_drive g_handoff_refnum IOBUF_BASE (read_offset sz) (len sz)) s with
  | None => None
  | Some (us, err, s) =>
      Some (paint_cell i COL_READ (fmt_status err) (emit (read_line sz us err None) s))
  end.

Definition write_test (fuel : nat) (i : Z) (sz : IoTestSize) (s : St) : option St :=
  let s := s <| ram := fill_pattern (len sz) (u8 i) (ram s) |> in
  let pb := pb_init g_handoff_drive g_handoff_refnum IOBUF_BASE (write_offset sz) (len sz) in
  match timed_trap fuel trap_write pb s with
  | None => None
  | Some (wr_us, wr_err, s) =>
      let s := s <| ram := clear_buffer (len sz) (ram s) |> in
      match timed_trap fuel trap_read pb s with
      | None => None
      | Some (us, err, s) =>
          let vr := verify_pattern (len sz) (u8 i) (ram s) in
          let s := emit (write_line sz wr_us wr_err us err vr None) s in
          let '(status, s) :=
            if negb (wr_err =? 0) then (fmt_status wr_err, s)
            else if negb (err =? 0) then (fmt_status err, s)
            else if negb (count vr =? 0) then
              let t := mismatch_text vr in
              (fmt_verify_fail vr, paint LINE_DETAIL COL_SIZE t (length t) s)
            else (fmt_status 0, s) in
          Some (paint_cell i COL_WRITE status s)
      end
  end.

(** The body of the loop over the sizes. *)
Definition run_size (fuel : nat) (mem_top : Z) (i : Z) (sz : IoTestSize) (s : St) : option St :=
  let s := paint_row_skeleton i (label sz) s in
  if no_room (len sz) mem_top then
    let s := paint_cell i COL_READ (bytes_of "SKIP    ") s in
    let s := if read_only then s else paint_cell i COL_WRITE (bytes_of "SKIP    ") s in
    Some (emit (skip_line sz "insufficient_ram" mem_top) s)
  else
    match read_test fuel i sz s with
    | None => None
    | Some s => if read_only then Some s else write_test fuel i sz s
    end.

Fixpoint run_sizes (fuel : nat) (mem_top : Z) (i : Z) (szs : list IoTestSize) (s : St)
    : option St :=
  match szs with
  | [] => Some s
  | sz :: szs =>
      match run_size fuel mem_top i sz s with
      | None => None
      | Some s => run_sizes fuel mem_top (i + 1) szs s
      end
  end.

(** The drive table; [exc] is what the recovery barrier around the walk
    returns: 0, or the vector of an exception. *)
Fixpoint paint_drives (j : Z) (n : nat) (ds : list DriveEnum.DriveInfo) (s : St) : St :=
  match n with
  | O => s
  | S n =>
      let '(t, k, ds) := match ds with
                         | d :: ds => let t := drive_text d in (t, length t, ds)
                         | [] => ([], 40%nat, [])
                         end in
      paint_drives (j + 1) n ds (paint (LINE (2 + j)) COL_SIZE t k s)
  end.
Definition drive_table (exc : Z) (s : St) : St :=
  if negb (exc =? 0) then
    let msg := bytes_of "DRIVES: exception vec " ++
               (if exc >=? 10 then [48 + exc / 10 mod 10] else []) ++ [48 + exc mod 10] in
    paint (LINE 1) COL_SIZE msg (length msg) s
  else
    let s := paint (LINE 1) COL_SIZE (bytes_of "DRIVES") 6 s in
    paint_drives 0 (Z.to_nat MAX_DRIVES_SHOWN)
      (DriveEnum.enum_drives (ram s) MAX_DRIVES_SHOWN) s.

(** [bench_main] of a hard disk build ([hda]); a floppy build ejects at the
    end, [eject] being the result of [eject_floppy]. *)
Definition bench_main (fuel : nat) (hda : bool) (exc mem_top results_offset : Z)
    (patch : nat -> Z * Z) (eject : Z) (s : St) : option St :=
  let s := s <| jw := JsonlWriter.jw_init B
                        (mkCtx g_handoff_refnum g_handoff_drive results_offset (32 * 1024)) |> in
  let s := if hda then paint (LINE 0) COL_SIZE (bytes_of "IOTEST: HARD DISK I/O BENCH") 28 s
           else paint (LINE 0) COL_SIZE (bytes_of "IOTEST: FLOPPY DISK I/O BENCH") 30 s in
  let s := drive_table exc s in
  let s := paint (LINE 7) COL_SIZE (bytes_of "SIZE") 4 s in
  let s := paint (LINE 7) COL_READ (bytes_of "READ") 4 s in
  let s := if read_only then s else paint (LINE 7) COL_WRITE (bytes_of "WRITE") 5 s in
  match run_sizes fuel mem_top 0 (g_iotest_sizes hda patch) s with
  | None => None
  | Some s =>
      let '(w, d) := JsonlWriter.jw_flush B (jw s) (dev s) in
      let s := (s <| jw := w |>) <| dev := d |> in
      let s := paint (LINE_DETAIL + 12) COL_SIZE (bytes_of "Done!") 5 s in
      Some (if hda then s
            else paint (LINE_DETAIL + 24) COL_READ (fmt_status eject) STATUS_W
                   (paint (LINE_DETAIL + 24) COL_SIZE (bytes_of "EJECT:") 6 s))
  end.
End Bench.
End Diskio.

Import Diskio.

(** ** The verification of a readback *)

(** The byte at [i] of the buffer is not the pattern's. *)
Definition mismatch (seed : Z) (ram : Z -> Z) (i : Z) : Prop :=
  ram (IOBUF_BASE + i) <> pattern seed i.
#[export] Instance mismatch_dec seed ram i : Decision (mismatch seed ram i).
Proof. unfold mismatch. apply _. Defined.

Definition mismatches (seed : Z) (ram : Z -> Z) (n : nat) : list Z :=
  filter (mismatch seed ram) (Z.of_nat <$> seq 0 n).

Definition verify_spec (seed : Z) (ram : Z -> Z) (n : nat) : VerifyResult :=
  match mismatches seed ram n with
  | [] => mkVerify VERIFY_MATCH 0 0 0
  | i :: _ => mkVerify i (Z.of_nat (length (mismatches seed ram n)))
                (pattern seed i) (ram (IOBUF_BASE + i))
  end.

Lemma verify_loop_snoc n i seed m r :
  verify_loop (S n) i seed m r =
  verify_loop 1 (i + Z.of_nat n) seed m (verify_loop n i seed m r).
Proof.
  revert i r. induction n as [|n IH]; intros i r.
  - simpl verify_loop at 3. by rewrite Z.add_0_r.
  - change (verify_loop (S (S n)) i seed m r) with
      (verify_loop (S n) (i + 1) seed m (verify_loop 1 i seed m r)).
    rewrite IH. change (verify_loop (S n) i seed m r) with
      (verify_loop n (i + 1) seed m (verify_loop 1 i seed m r)).
    f_equal. lia.
Qed.

Lemma mismatches_S seed m n : mismatches seed m (S n) =
  mismatches seed m n ++ (if decide (mismatch seed m (Z.of_nat n)) then [Z.of_nat n] else []).
Proof.
  unfold mismatches. rewrite seq_S, fmap_app, filter_app. by f_equal.
Qed.

Lemma mismatches_length seed m n : (length (mismatches seed m n) <= n)%nat.
Proof.
  unfold mismatches.
  pose proof (length_filter (mismatch seed m) (Z.of_nat <$> seq 0 n)) as H.
  by rewrite length_fmap, length_seq in H.
Qed.

Lemma mismatches_bound seed m n i : i ∈ mismatches seed m n -> 0 <= i < Z.of_nat n.
Proof.
  unfold mismatches. intros H. apply list_elem_of_filter in H as [_ H].
  apply list_elem_of_fmap in H as (k & -> & H). apply elem_of_seq in H. lia.
Qed.

Lemma verify_loop_spec seed m n : Z.of_nat n < 4294967296 ->
  verify_loop n 0 seed m (mkVerify VERIFY_MATCH 0 0 0) = verify_spec seed m n.
Proof.
  induction n as [|n IH]; intros Hn; [done|].
  rewrite verify_loop_snoc, IH by lia. rewrite Z.add_0_l. cbn [verify_loop].
  unfold verify_spec. rewrite mismatches_S.
  pose proof (mismatches_length seed m n) as Hlen.
  destruct (decide (mismatch seed m (Z.of_nat n))) as [Hm|Hm]; unfold mismatch in Hm.
  - apply Z.eqb_neq in Hm. rewrite Hm. cbn [negb].
    destruct (mismatches seed m n) as [|i l] eqn:E; [done|].
    assert (0 <= i < Z.of_nat n).
    { apply (mismatches_bound seed m). rewrite E. by left. }
    cbn [first_off count expected actual app].
    assert ((i =? VERIFY_MATCH) = false) as -> by (unfold VERIFY_MATCH; lia).
    cbn [first_off count expected actual].
    simpl length in *. rewrite length_app. cbn [length]. f_equal. rewrite u32_small; lia.
  - assert ((m (IOBUF_BASE + Z.of_nat n) =? pattern seed (Z.of_nat n)) = true) as ->.
    { apply Z.eqb_eq. destruct (decide (m (IOBUF_BASE + Z.of_nat n) = pattern seed (Z.of_nat n)));
        [done|contradiction]. }
    cbn [negb]. by rewrite app_nil_r.
Qed.

(** [verify_pattern] finds nothing exactly when the buffer is the pattern. *)
Lemma verify_count_0 len seed m : 0 <= len < 4294967296 ->
  count (verify_pattern len seed m) = 0 <->
  forall i, 0 <= i < len -> m (IOBUF_BASE + i) = pattern seed i.
Proof.
  intros Hl. unfold verify_pattern. rewrite verify_loop_spec by lia. unfold verify_spec.
  pose proof (mismatches_length seed m (Z.to_nat len)) as Hlen.
  assert (Hin : forall i, i ∈ mismatches seed m (Z.to_nat len) <->
    (0 <= i < len /\ mismatch seed m i)).
  { intros i. unfold mismatches. rewrite list_elem_of_filter, list_elem_of_fmap.
    split.
    - intros [Hm (k & -> & Hk)]. apply elem_of_seq in Hk. split; [lia|done].
    - intros [Hi Hm]. split; [done|]. exists (Z.to_nat i). rewrite elem_of_seq. lia. }
  destruct (mismatches seed m (Z.to_nat len)) as [|i l] eqn:E; cbn [count].
  - split; [|done]. intros _ i Hi.
    destruct (decide (mismatch seed m i)) as [Hm|Hm]; unfold mismatch in Hm.
    + exfalso. assert (H : i ∈ ([] : list Z)) by (apply Hin; done). by apply elem_of_nil in H.
    + destruct (decide (m (IOBUF_BASE + i) = pattern seed i)); [done|contradiction].
  - split; [simpl; lia|]. intros H. exfalso.
    assert (Hi : i ∈ i :: l) by (by left). apply Hin in Hi. destruct Hi as [Hi Hm].
    by apply Hm, H.
Qed.

(** C22: the verification reports the pattern's first corrupted byte, with what
    it should have been and what it is, and the exact number of corrupted
    bytes; it reports a match exactly when there are none. *)
Theorem iotest_verify_exact (len seed : Z) (m : Z -> Z) : 0 <= len < 4294967296 ->
  verify_pattern len seed m = verify_spec seed m (Z.to_nat len) /\
  (count (verify_pattern len seed m) = 0 <->
   forall i, 0 <= i < len -> m (IOBUF_BASE + i) = pattern seed i) /\
  (forall i l, mismatches seed m (Z.to_nat len) = i :: l ->
     mismatch seed m i /\ forall j, 0 <= j < i -> ~ mismatch seed m j).
Proof.
  intros Hl. split; [unfold verify_pattern; rewrite verify_loop_spec by lia; done|].
  split; [by apply verify_count_0|]. intros i l E.
  assert (Hi : i ∈ mismatches seed m (Z.to_nat len)) by (rewrite E; by left).
  pose proof (mismatches_bound _ _ _ _ Hi) as Hb.
  split; [by apply list_elem_of_filter in Hi as [? _]|].
  intros j Hj Hm.
  assert (Hn : Z.to_nat len = (Z.to_nat (j + 1) + (Z.to_nat len - Z.to_nat (j + 1)))%nat) by lia.
  unfold mismatches in E. rewrite Hn, seq_app, fmap_app, filter_app in E.
  assert (Hj1 : j ∈ filter (mismatch seed m) (Z.of_nat <$> seq 0 (Z.to_nat (j + 1)))).
  { apply list_elem_of_filter. split; [done|]. apply list_elem_of_fmap. exists (Z.to_nat j).
    rewrite elem_of_seq. lia. }
  destruct (filter (mismatch seed m) (Z.of_nat <$> seq 0 (Z.to_nat (j + 1)))) as [|i' l'] eqn:E1;
    [by apply elem_of_nil in Hj1|].
  cbn [app] in E. injection E as -> _.
  assert (Hi1 : i ∈ mismatches seed m (Z.to_nat (j + 1))) by (unfold mismatches; rewrite E1; by left).
  apply mismatches_bound in Hi1. lia.
Qed.

Lemma iotest_verify_exact_witness :
  let m := fun a => if a =? IOBUF_BASE + 300 then 7 else pattern 5 (a - IOBUF_BASE) in
  0 <= 512 < 4294967296 /\ verify_pattern 512 5 m = mkVerify 300 1 (pattern 5 300) 7.
Proof.
  cbv zeta. assert (H : 0 <= 512 < 4294967296) by lia. split; [exact H|].
  destruct (iotest_verify_exact 512 5
    (fun a => if a =? IOBUF_BASE + 300 then 7 else pattern 5 (a - IOBUF_BASE)) H) as [E _].
  rewrite E. vm_compute. reflexivity.
Defined.

(** ** Requests *)

Lemma sector_round_up_spec n : 0 <= n <= 4294966784 ->
  sector_round_up n = Z.max 1 ((n + 511) / 512) * 512.
Proof.
  intros Hn. unfold sector_round_up. destruct (Z.eqb_spec n 0) as [->|Hne]; [done|].
  unfold SECTOR_BYTES. change (512 - 1) with 511. rewrite (u32_small (n + 511)) by lia.
  change 511 with (Z.ones 9) at 2. rewrite Z.ldiff_ones_r by lia.
  rewrite Z.shiftl_mul_pow2, Z.shiftr_div_pow2 by lia. change (2 ^ 9) with 512.
  rewrite u32_small by dlia. f_equal. dlia.
Qed.

(** C37: a test runs exactly when its bytes lie below the end of memory,
    without overflow in either comparison; the request is then a whole number
    of sectors, at least one, that covers the test, and stays below the end
    of a memory of whole sectors.  For every size of the table. *)
Theorem iotest_room (hda : bool) (lbl : string) (n mem_top : Z) :
  (lbl, n) ∈ iotest_sizes hda -> 0 <= mem_top < 4294967296 ->
  (no_room n mem_top = false <-> IOBUF_BASE + n <= mem_top) /\
  sector_round_up n mod 512 = 0 /\ n <= sector_round_up n < n + 512 /\
  (no_room n mem_top = false -> mem_top mod 512 = 0 -> IOBUF_BASE + sector_round_up n <= mem_top).
Proof.
  intros Hin Hm.
  assert (Hn : 1 <= n <= 4194304).
  { assert (H : Forall (fun e => (1 <=? e.2) && (e.2 <=? 4194304) = true) (iotest_sizes hda))
      by (destruct hda; repeat constructor).
    rewrite Forall_forall in H. specialize (H _ Hin). simpl in H. lia. }
  assert (Hroom : no_room n mem_top = false <-> IOBUF_BASE + n <= mem_top).
  { unfold no_room, IOBUF_BASE. rewrite u32_small by lia.
    destruct (Z.le_gt_cases 2097152 mem_top).
    - rewrite u32_small by lia. lia.
    - split; intros H1; [|lia]. apply orb_false_iff in H1. lia. }
  rewrite sector_round_up_spec by lia. rewrite Hroom. unfold IOBUF_BASE.
  split; [done|]. split; [apply Z.mod_mul; lia|]. split; [dlia|]. intros H1 H2. dlia.
Qed.

Lemma iotest_room_witness :
  ("1B", 1) ∈ iotest_sizes true /\ no_room 1 0x400000 = false /\ sector_round_up 1 mod 512 = 0.
Proof.
  assert (H : ("1B", 1) ∈ iotest_sizes true) by (left).
  assert (Hm : 0 <= 0x400000 < 4294967296) by lia.
  destruct (iotest_room true "1B" 1 0x400000 H Hm) as (H1 & H2 & _).
  split; [exact H|]. split; [apply H1; unfold IOBUF_BASE; lia|exact H2].
Defined.

(** ** The WRITE cell *)

Definition pass_cell : list Z := bytes_of "pass    ".

Lemma fmt_status_pass err : fmt_status err = pass_cell <-> err = 0.
Proof.
  split; [|by intros ->]. unfold fmt_status. destruct (Z.eqb_spec err 0); [done|].
  destruct (List.find _ ioerr_names) as [[c nm]|] eqn:E.
  - apply List.find_some in E as [Hin _]. intros H.
    assert (G : Forall (fun e => bool_decide (copy_padded STATUS_W e.2 = pass_cell) = false) ioerr_names)
      by (repeat constructor).
    rewrite Forall_forall in G. apply list_elem_of_In in Hin. specialize (G _ Hin).
    apply bool_decide_eq_false in G. contradiction.
  - intros H. destruct (err <? 0); discriminate.
Qed.

(** A cell of the width painted is painted as it is. *)
Lemma padded_length n (l : list Z) : length (take n (l ++ replicate n 32)) = n.
Proof. rewrite length_take, length_app, length_replicate. lia. Qed.
Lemma cells_exact (l : list Z) n : length l = n -> Diskcopy.cells l n = l.
Proof. intros <-. apply take_app_length. Qed.
Lemma fmt_status_length err : length (fmt_status err) = STATUS_W.
Proof.
  unfold fmt_status, copy_padded. destruct (err =? 0); [apply padded_length|].
  destruct (List.find _ _) as [[c nm]|]; [apply padded_length|].
  cbv zeta. rewrite app_assoc. apply padded_length.
Qed.
Lemma fmt_verify_fail_length vr : length (fmt_verify_fail vr) = STATUS_W.
Proof. unfold fmt_verify_fail. rewrite !app_assoc. apply padded_length. Qed.

(** What the WRITE cell shows, by the two error codes and the verification. *)
Definition write_cell (wr_err err : Z) (vr : VerifyResult) : list Z :=
  if negb (wr_err =? 0) then fmt_status wr_err
  else if negb (err =? 0) then fmt_status err
  else if negb (count vr =? 0) then fmt_verify_fail vr
  else pass_cell.

Lemma write_cell_length wr_err err vr : length (write_cell wr_err err vr) = STATUS_W.
Proof.
  unfold write_cell. cases; rewrite ?fmt_status_length, ?fmt_verify_fail_length; done.
Qed.
Lemma write_cell_pass wr_err err vr :
  write_cell wr_err err vr = pass_cell <-> wr_err = 0 /\ err = 0 /\ count vr = 0.
Proof.
  unfold write_cell.
  destruct (Z.eqb_spec wr_err 0); cbn [negb]; [|rewrite fmt_status_pass; tauto].
  destruct (Z.eqb_spec err 0); cbn [negb]; [|rewrite fmt_status_pass; tauto].
  destruct (Z.eqb_spec (count vr) 0); cbn [negb]; [tauto|]. split; [discriminate|tauto].
Qed.

Section WriteTest.
Context {W : Type} (r8 : Z -> W -> Z * W) (w8 : Z -> Z -> W -> W).
Context (trap_read trap_write : list Z -> (Z -> Z) -> W -> Diskcopy.TrapResult * (Z -> Z) * W).
Context {D : Type} `{Backend D} (B drive refnum : Z).

Abbreviation write_test := (write_test r8 w8 trap_read trap_write B drive refnum).
Abbreviation timed_trap := (timed_trap r8 w8).

(** C14: the test of a size ends by painting its WRITE cell, and what it paints
    is determined by the run: the mnemonic of the write's error, else that of
    the readback's, else the first mismatch, else "pass".  "pass" is painted
    exactly when the write and the readback both returned no error and every
    byte read back, into a buffer cleared in between, is the byte of the
    pattern that was written. *)
Theorem iotest_pass_sound (fuel : nat) (i : Z) (sz : IoTestSize) (s s' : St (W := W) (D := D)) :
  0 <= len sz < 4294967296 ->
  write_test fuel i sz s = Some s' ->
  exists wr_us wr_err s1 us err s2,
    timed_trap fuel trap_write (pb_init drive refnum IOBUF_BASE (write_offset sz) (len sz))
      (s <| ram := fill_pattern (len sz) (u8 i) (ram s) |>) = Some (wr_us, wr_err, s1) /\
    timed_trap fuel trap_read (pb_init drive refnum IOBUF_BASE (write_offset sz) (len sz))
      (s1 <| ram := clear_buffer (len sz) (ram s1) |>) = Some (us, err, s2) /\
    last (log s') = Some (Diskcopy.mkPaint (LINE_RESULT i) COL_WRITE
      (write_cell wr_err err (verify_pattern (len sz) (u8 i) (ram s2)))) /\
    (last (log s') = Some (Diskcopy.mkPaint (LINE_RESULT i) COL_WRITE pass_cell) <->
       wr_err = 0 /\ err = 0 /\
       forall k, 0 <= k < len sz -> ram s2 (IOBUF_BASE + k) = pattern (u8 i) k).
Proof.
  intros Hl Ht. unfold Diskio.write_test in Ht. cbv zeta in Ht.
  destruct (Diskio.timed_trap _ _ _ trap_write _ _) as [[[wr_us wr_err] s1]|] eqn:E1; [|done].
  destruct (Diskio.timed_trap _ _ _ trap_read _ _) as [[[us err] s2]|] eqn:E2; [|done].
  set (vr := verify_pattern (len sz) (u8 i) (ram s2)) in *.
  pose proof (verify_count_0 (len sz) (u8 i) (ram s2) Hl) as Hv. fold vr in Hv.
  assert (Hlast : last (log s') = Some (Diskcopy.mkPaint (LINE_RESULT i) COL_WRITE
                                          (write_cell wr_err err vr))).
  { rewrite <- (cells_exact (write_cell wr_err err vr) STATUS_W) by apply write_cell_length.
    unfold write_cell. destruct (negb (wr_err =? 0)), (negb (err =? 0)), (negb (count vr =? 0));
      injection Ht as <-; unfold paint_cell, paint; cbn [log update]; by rewrite last_snoc. }
  exists wr_us, wr_err, s1, us, err, s2. split; [done|]. split; [done|]. split; [exact Hlast|].
  rewrite Hlast, <- Hv, <- write_cell_pass.
  split; [by intros [= Hp]|by intros ->].
Qed.
End WriteTest.

(** A disk that works, for the witness. *)
Module SimDisk.
Definition long_at := Diskcopy.SimFloppy.long_at.
Definition read (pb : list Z) (ram : Z -> Z) (disk : Z -> Z)
    : Diskcopy.TrapResult * (Z -> Z) * (Z -> Z) :=
  let buf := long_at pb 32 in
  let n := long_at pb 36 in
  (Diskcopy.Ret 0, (fun a => if (buf <=? a) && (a <? buf + n)
                             then disk (long_at pb 46 + (a - buf)) else ram a), disk).
Definition write (pb : list Z) (ram : Z -> Z) (disk : Z -> Z)
    : Diskcopy.TrapResult * (Z -> Z) * (Z -> Z) :=
  let off := long_at pb 46 in
  let n := long_at pb 36 in
  (Diskcopy.Ret 0, ram, fun k => if (off <=? k) && (k <? off + n)
                                 then ram (long_at pb 32 + (k - off)) else disk k).
Definition r8 (a : Z) (disk : Z -> Z) : Z * (Z -> Z) := (0, disk).
Definition w8 (a v : Z) (disk : Z -> Z) : Z -> Z := disk.
Definition start : St (W := Z -> Z) (D := Z -> Z) :=
  mkSt (fun _ => 0) (fun _ => 0) (JsonlWriter.jw_init 512 (mkCtx (-33) 8 0 32768)) (fun _ => 0) [].
Definition size : IoTestSize := mkSize "1B" 1 1024 2048.
Definition result := Diskio.write_test r8 w8 read write (H := SimWindow.backend 512) 512 8 (-33)
                       2 3 size start.
Lemma result_some : exists s', result = Some s'.
Proof.
  assert (H : match result with Some _ => true | None => false end = true)
    by (vm_compute; reflexivity).
  destruct result; [by eexists|discriminate].
Qed.
End SimDisk.

Lemma iotest_pass_sound_witness :
  exists s' t, SimDisk.result = Some s' /\
    last (log s') = Some (Diskcopy.mkPaint (LINE_RESULT 3) COL_WRITE t).
Proof.
  destruct SimDisk.result_some as [s' E].
  assert (Hl : 0 <= len SimDisk.size < 4294967296) by (simpl; lia).
  destruct (iotest_pass_sound SimDisk.r8 SimDisk.w8 SimDisk.read SimDisk.write
    (H := SimWindow.backend 512) 512 8 (-33) 2 3 SimDisk.size SimDisk.start s' Hl E)
    as (_ & wr_err & _ & _ & err & s2 & _ & _ & H & _).
  eexists s', _. split; [exact E|exact H].
Defined.

(** ** The walk over the Drive Queue *)

(** [queue mem a es]: from [a] the links run through the elements [es] and
    end. *)
Fixpoint queue (mem : Z -> Z) (a : Z) (es : list Z) : Prop :=
  match es with
  | [] => a = 0
  | e :: es => a = e /\ e <> 0 /\ queue mem (DriveEnum.rd_l mem e) es
  end.

Lemma walk_queue mem boot hops a n es : queue mem a es ->
  DriveEnum.walk mem hops boot a n =
  take (Nat.min hops n) (DriveEnum.drive_at mem boot <$> es).
Proof.
  revert a n es. induction hops as [|hops IH]; intros a n es Hq; [done|].
  destruct n as [|n]; [done|]. destruct es as [|e es]; simpl in Hq.
  - subst. done.
  - destruct Hq as (-> & Hne & Hq). apply Z.eqb_neq in Hne.
    cbn [DriveEnum.walk]. rewrite Hne. cbn [Nat.min fmap list_fmap take]. f_equal. by apply IH.
Qed.

Lemma walk_length mem boot hops a n :
  (length (DriveEnum.walk mem hops boot a n) <= Nat.min hops n)%nat.
Proof.
  revert a n. induction hops as [|hops IH]; intros a n; [done|].
  destruct n as [|n]; [done|]. simpl. destruct (a =? 0); simpl; [lia|].
  specialize (IH (DriveEnum.rd_l mem a) n). lia.
Qed.

Lemma walk_names mem boot hops a n :
  Forall (fun d => DriveEnum.name d = []) (DriveEnum.walk mem hops boot a n).
Proof.
  revert a n. induction hops as [|hops IH]; intros a n; [constructor|].
  destruct n as [|n]; simpl; [constructor|]. destruct (a =? 0); constructor; [done|apply IH].
Qed.

(** C23: on a well-formed Drive Queue the walk returns its elements in order, at
    most the caller's slots and 32 of them; on any memory, a cyclic or
    corrupt queue included, it ends within those bounds; and the volume
    names its header promises are always empty. *)
Theorem iotest_enum_drives (mem : Z -> Z) (max_drives : Z) :
  (forall es, queue mem (DriveEnum.rd_l mem 0x30A) es ->
     DriveEnum.enum_drives mem max_drives =
     take (Nat.min 32 (Z.to_nat max_drives))
       (DriveEnum.drive_at mem (DriveEnum.rd_i16 mem 0x210) <$> es)) /\
  (length (DriveEnum.enum_drives mem max_drives) <= Nat.min 32 (Z.to_nat max_drives))%nat /\
  Forall (fun d => DriveEnum.name d = []) (DriveEnum.enum_drives mem max_drives).
Proof.
  unfold DriveEnum.enum_drives. split; [intros es; apply walk_queue|].
  split; [apply walk_length|apply walk_names].
Qed.

(** ** The timer *)

(** C38: below the overflow of the product the reported time is the tick count
    times 100/127; a tick of the 783360 Hz clock is longer than a microsecond,
    so at most 62 percent of the real time is reported, and from 42949673
    ticks (55 s) on the product wraps: that count reads as 0. *)
Theorem timing_underreports (ticks : Z) : 0 <= ticks ->
  (ticks <= 42949672 ->
     Timing.us_of_ticks ticks = ticks * 100 / 127 /\
     Timing.us_of_ticks ticks * 783360 * 100 <= ticks * 1000000 * 62) /\
  (ticks = 42949673 -> Timing.us_of_ticks ticks = 0).
Proof.
  intros Ht. unfold Timing.us_of_ticks. split.
  - intros Hs. rewrite u32_small by lia. split; [done|].
    pose proof (Z.mul_div_le (ticks * 100) 127 ltac:(lia)). nia.
  - intros ->. vm_compute. reflexivity.
Qed.

Lemma timing_underreports_witness :
  Timing.us_of_ticks 783360 = 616818 /\ Timing.us_of_ticks 42949673 = 0.
Proof.
  split.
  - assert (H : 0 <= 783360) by lia.
    destruct (timing_underreports 783360 H) as [H1 _].
    destruct H1 as [-> _]; [lia|]. vm_compute. reflexivity.
  - assert (H : 0 <= 42949673) by lia.
    destruct (timing_underreports 42949673 H) as [_ H2]. apply H2. reflexivity.
Defined.
